(** * SAIL: codec descriptors, the PCX reader and the 64-bit conversion engine

    A shallow embedding of
      - [src/libsail/src/plugin_info_private.c]  (module [PluginInfo]),
      - [src/sail-codecs/pcx/pcx.c]              (module [Pcx]),
      - [src/libsail-manip/convert_to_64.c]      (module [Manip]),
    together with the properties of the specification that concern them.

    C integers are modelled as [Z] with the wrap-around of their width
    written out, memory as a byte-addressed store, pointers as addresses. *)

From Stdlib Require Import ZArith List Bool Lia.
From Stdlib Require Ascii String.
Import ListNotations.
Open Scope Z_scope.

(* ================================================================== *)
(** * Common declarations ([sail-common])                              *)
(* ================================================================== *)

(** [sail_status_t]: the status codes the sources return or propagate. *)
Inductive sail_status_t : Type :=
| SAIL_OK
| SAIL_ERROR_NULL_PTR
| SAIL_ERROR_MEMORY_ALLOCATION
| SAIL_ERROR_INVALID_IO
| SAIL_ERROR_READ_IO
| SAIL_ERROR_SEEK_IO
| SAIL_ERROR_INCORRECT_IMAGE_DIMENSIONS
| SAIL_ERROR_INCORRECT_BYTES_PER_LINE
| SAIL_ERROR_INVALID_PIXEL_FORMAT
| SAIL_ERROR_UNSUPPORTED_PIXEL_FORMAT
| SAIL_ERROR_BROKEN_IMAGE
| SAIL_ERROR_NO_MORE_FRAMES
| SAIL_ERROR_NOT_IMPLEMENTED.

(** Modelled from the spec: [enum SailPixelFormat] is declared in [common.h],
    which is not among the sources. The tags are those the sources name and
    the closed set of section 6 of the specification. *)
Inductive SailPixelFormat : Type :=
| SAIL_PIXEL_FORMAT_UNKNOWN
| SAIL_PIXEL_FORMAT_BPP1_INDEXED
| SAIL_PIXEL_FORMAT_BPP2_INDEXED
| SAIL_PIXEL_FORMAT_BPP4_INDEXED
| SAIL_PIXEL_FORMAT_BPP8_INDEXED
| SAIL_PIXEL_FORMAT_BPP1_GRAYSCALE
| SAIL_PIXEL_FORMAT_BPP2_GRAYSCALE
| SAIL_PIXEL_FORMAT_BPP4_GRAYSCALE
| SAIL_PIXEL_FORMAT_BPP8_GRAYSCALE
| SAIL_PIXEL_FORMAT_BPP16_GRAYSCALE
| SAIL_PIXEL_FORMAT_BPP16_GRAYSCALE_ALPHA
| SAIL_PIXEL_FORMAT_BPP32_GRAYSCALE_ALPHA
| SAIL_PIXEL_FORMAT_BPP16_RGB555
| SAIL_PIXEL_FORMAT_BPP16_BGR555
| SAIL_PIXEL_FORMAT_BPP24_RGB
| SAIL_PIXEL_FORMAT_BPP24_BGR
| SAIL_PIXEL_FORMAT_BPP48_RGB
| SAIL_PIXEL_FORMAT_BPP48_BGR
| SAIL_PIXEL_FORMAT_BPP16_RGBA
| SAIL_PIXEL_FORMAT_BPP32_RGBX
| SAIL_PIXEL_FORMAT_BPP32_BGRX
| SAIL_PIXEL_FORMAT_BPP32_XRGB
| SAIL_PIXEL_FORMAT_BPP32_XBGR
| SAIL_PIXEL_FORMAT_BPP32_RGBA
| SAIL_PIXEL_FORMAT_BPP32_BGRA
| SAIL_PIXEL_FORMAT_BPP32_ARGB
| SAIL_PIXEL_FORMAT_BPP32_ABGR
| SAIL_PIXEL_FORMAT_BPP64_RGBX
| SAIL_PIXEL_FORMAT_BPP64_BGRX
| SAIL_PIXEL_FORMAT_BPP64_XRGB
| SAIL_PIXEL_FORMAT_BPP64_XBGR
| SAIL_PIXEL_FORMAT_BPP64_RGBA
| SAIL_PIXEL_FORMAT_BPP64_BGRA
| SAIL_PIXEL_FORMAT_BPP64_ARGB
| SAIL_PIXEL_FORMAT_BPP64_ABGR
| SAIL_PIXEL_FORMAT_BPP32_CMYK
| SAIL_PIXEL_FORMAT_BPP24_YCBCR.

Definition SailPixelFormat_eq_dec (x y : SailPixelFormat) : {x = y} + {x <> y}.
Proof. decide equality. Defined.

Definition pixel_format_eqb (x y : SailPixelFormat) : bool :=
  if SailPixelFormat_eq_dec x y then true else false.

(** ** Machine integers *)

Definition u8 (x : Z) : Z := x mod 256.
Definition u16 (x : Z) : Z := x mod 65536.
Definition u32 (x : Z) : Z := x mod 4294967296.

(** ** Memory

    A byte-addressed store; a cell holds a byte, read back modulo 256.
    16-bit accesses go through the byte order of the machine, which the
    sources do not fix. *)

Definition mem : Type := Z -> Z.

Inductive byte_order : Type := LittleEndian | BigEndian.

Definition load8 (m : mem) (p : Z) : Z := u8 (m p).

Definition store8 (m : mem) (p v : Z) : mem :=
  fun q => if q =? p then u8 v else m q.

Definition load16 (E : byte_order) (m : mem) (p : Z) : Z :=
  match E with
  | LittleEndian => load8 m p + 256 * load8 m (p + 1)
  | BigEndian => 256 * load8 m p + load8 m (p + 1)
  end.

Definition store16 (E : byte_order) (m : mem) (p v : Z) : mem :=
  match E with
  | LittleEndian => store8 (store8 m p (u16 v mod 256)) (p + 1) (u16 v / 256)
  | BigEndian => store8 (store8 m p (u16 v / 256)) (p + 1) (u16 v mod 256)
  end.

(** The store that holds the bytes [l] from address [base] on, zero elsewhere. *)
Definition mem_of_list (base : Z) (l : list Z) : mem :=
  fun q => if q <? base then 0 else nth (Z.to_nat (q - base)) l 0.

(** ** Image descriptors *)

Record sail_palette : Type := {
  palette_pixel_format : SailPixelFormat;
  palette_data : Z;                       (* address of the raw entries *)
  color_count : Z
}.

Inductive SailCompression : Type :=
| SAIL_COMPRESSION_UNKNOWN
| SAIL_COMPRESSION_NONE
| SAIL_COMPRESSION_RLE.

Record sail_source_image : Type := {
  source_pixel_format : SailPixelFormat;
  compression : SailCompression
}.

Record sail_resolution : Type := {
  resolution_unit : Z;
  resolution_x : Z;
  resolution_y : Z
}.

Record sail_image : Type := {
  pixels : Z;                             (* address of the pixel buffer, 0 = NULL *)
  width : Z;
  height : Z;
  bytes_per_line : Z;
  pixel_format : SailPixelFormat;
  palette : option sail_palette;
  source_image : option sail_source_image;
  resolution : option sail_resolution
}.

(** Modelled from the spec: [sail_bits_per_pixel] is part of [sail-common] and
    not among the sources; the number of bits is the one each tag carries in
    its name, and the unknown format has none. *)
Definition sail_bits_per_pixel (pixel_format : SailPixelFormat)
  : sail_status_t * Z :=
  match pixel_format with
  | SAIL_PIXEL_FORMAT_UNKNOWN => (SAIL_ERROR_UNSUPPORTED_PIXEL_FORMAT, 0)
  | SAIL_PIXEL_FORMAT_BPP1_INDEXED | SAIL_PIXEL_FORMAT_BPP1_GRAYSCALE =>
      (SAIL_OK, 1)
  | SAIL_PIXEL_FORMAT_BPP2_INDEXED | SAIL_PIXEL_FORMAT_BPP2_GRAYSCALE =>
      (SAIL_OK, 2)
  | SAIL_PIXEL_FORMAT_BPP4_INDEXED | SAIL_PIXEL_FORMAT_BPP4_GRAYSCALE =>
      (SAIL_OK, 4)
  | SAIL_PIXEL_FORMAT_BPP8_INDEXED | SAIL_PIXEL_FORMAT_BPP8_GRAYSCALE =>
      (SAIL_OK, 8)
  | SAIL_PIXEL_FORMAT_BPP16_GRAYSCALE | SAIL_PIXEL_FORMAT_BPP16_GRAYSCALE_ALPHA
  | SAIL_PIXEL_FORMAT_BPP16_RGB555 | SAIL_PIXEL_FORMAT_BPP16_BGR555
  | SAIL_PIXEL_FORMAT_BPP16_RGBA =>
      (SAIL_OK, 16)
  | SAIL_PIXEL_FORMAT_BPP24_RGB | SAIL_PIXEL_FORMAT_BPP24_BGR
  | SAIL_PIXEL_FORMAT_BPP24_YCBCR =>
      (SAIL_OK, 24)
  | SAIL_PIXEL_FORMAT_BPP32_GRAYSCALE_ALPHA
  | SAIL_PIXEL_FORMAT_BPP32_RGBX | SAIL_PIXEL_FORMAT_BPP32_BGRX
  | SAIL_PIXEL_FORMAT_BPP32_XRGB | SAIL_PIXEL_FORMAT_BPP32_XBGR
  | SAIL_PIXEL_FORMAT_BPP32_RGBA | SAIL_PIXEL_FORMAT_BPP32_BGRA
  | SAIL_PIXEL_FORMAT_BPP32_ARGB | SAIL_PIXEL_FORMAT_BPP32_ABGR
  | SAIL_PIXEL_FORMAT_BPP32_CMYK =>
      (SAIL_OK, 32)
  | SAIL_PIXEL_FORMAT_BPP48_RGB | SAIL_PIXEL_FORMAT_BPP48_BGR =>
      (SAIL_OK, 48)
  | SAIL_PIXEL_FORMAT_BPP64_RGBX | SAIL_PIXEL_FORMAT_BPP64_BGRX
  | SAIL_PIXEL_FORMAT_BPP64_XRGB | SAIL_PIXEL_FORMAT_BPP64_XBGR
  | SAIL_PIXEL_FORMAT_BPP64_RGBA | SAIL_PIXEL_FORMAT_BPP64_BGRA
  | SAIL_PIXEL_FORMAT_BPP64_ARGB | SAIL_PIXEL_FORMAT_BPP64_ABGR =>
      (SAIL_OK, 64)
  end.

(** Modelled from the spec: [sail_greater_equal_bits_per_pixel] is part of
    [sail-common]; it is the comparison of the bits per pixel of the two
    formats (section 4.4: the target bit depth must be at most the
    source's), failing when either has none. *)
Definition sail_greater_equal_bits_per_pixel
    (pixel_format1 pixel_format2 : SailPixelFormat) : sail_status_t * bool :=
  match sail_bits_per_pixel pixel_format1 with
  | (SAIL_OK, bits1) =>
      match sail_bits_per_pixel pixel_format2 with
      | (SAIL_OK, bits2) => (SAIL_OK, bits2 <=? bits1)
      | (err, _) => (err, false)
      end
  | (err, _) => (err, false)
  end.

(** Modelled from the spec: [sail_bytes_per_line] is part of [sail-common];
    the stride is computed from the width and the format alone (section 3),
    as the bytes that hold [width] pixels. *)
Definition sail_bytes_per_line (width : Z) (pixel_format : SailPixelFormat)
  : sail_status_t * Z :=
  match sail_bits_per_pixel pixel_format with
  | (SAIL_OK, bits) => (SAIL_OK, u32 ((width * bits + 7) / 8))
  | (err, _) => (err, 0)
  end.

(** Modelled from the spec: [sail_check_image_skeleton_valid] is part of
    [sail-common]; a descriptor is a valid skeleton when its format is known
    and its dimensions and stride are not zero. *)
Definition sail_check_image_skeleton_valid (image : sail_image)
  : sail_status_t :=
  if pixel_format_eqb (pixel_format image) SAIL_PIXEL_FORMAT_UNKNOWN
  then SAIL_ERROR_INVALID_PIXEL_FORMAT
  else if (width image =? 0) || (height image =? 0)
  then SAIL_ERROR_INCORRECT_IMAGE_DIMENSIONS
  else if bytes_per_line image =? 0
  then SAIL_ERROR_INCORRECT_BYTES_PER_LINE
  else SAIL_OK.

(** Modelled from the spec: [sail_check_image_valid] is part of
    [sail-common]; a valid image is a valid skeleton that owns a pixel
    buffer. *)
Definition sail_check_image_valid (image : sail_image) : sail_status_t :=
  match sail_check_image_skeleton_valid image with
  | SAIL_OK => if pixels image =? 0 then SAIL_ERROR_NULL_PTR else SAIL_OK
  | err => err
  end.

(* ================================================================== *)
(** * Descriptor validation ([plugin_info_private.c])                  *)
(* ================================================================== *)

Module PluginInfo.

(** [sail_error_t] of this file: [0] on success, a named error otherwise. *)
Inductive sail_error_t : Type :=
| SAIL_SUCCESS                      (* the literal [0] the functions return *)
| SAIL_MEMORY_ALLOCATION_FAILED
| SAIL_FILE_OPEN_ERROR
| SAIL_FILE_PARSE_ERROR
| SAIL_UNSUPPORTED_PLUGIN_LAYOUT
| SAIL_INCOMPLETE_PLUGIN_INFO.

(** [struct sail_read_features]: the fields the loader fills. The arrays are
    kept next to their separately stored lengths, as in the C structure. *)
Record sail_read_features : Type := {
  rf_input_pixel_formats : list Z;
  rf_input_pixel_formats_length : Z;
  rf_output_pixel_formats : list Z;
  rf_output_pixel_formats_length : Z;
  rf_preferred_output_pixel_format : Z;
  rf_features : Z
}.

(** [struct sail_write_features]. *)
Record sail_write_features : Type := {
  wf_input_pixel_formats : list Z;
  wf_input_pixel_formats_length : Z;
  wf_output_pixel_formats : list Z;
  wf_output_pixel_formats_length : Z;
  wf_preferred_output_pixel_format : Z;
  wf_features : Z;
  wf_properties : Z;
  wf_interlaced_passes : Z;
  wf_compression_types : list Z;
  wf_compression_types_length : Z;
  wf_preferred_compression_type : Z;
  wf_compression_min : Z;
  wf_compression_max : Z;
  wf_compression_default : Z
}.

(** [struct sail_plugin_info], without the strings that play no role in
    validation. *)
Record sail_plugin_info : Type := {
  layout : Z;
  read_features : sail_read_features;
  write_features : sail_write_features
}.

Section Validation.

(** The feature bits and the layout number come from [common.h], which is not
    among the sources: they are parameters of the development. *)
Variable SAIL_PLUGIN_FEATURE_STATIC : Z.
Variable SAIL_PLUGIN_FEATURE_ANIMATED : Z.
Variable SAIL_PLUGIN_FEATURE_MULTIPAGED : Z.
Variable SAIL_PLUGIN_LAYOUT_V2 : Z.

(** C truth value of [features & flag]. *)
Definition has_flag (features flag : Z) : bool :=
  negb (Z.land features flag =? 0).

(** The condition
    [features & STATIC || features & ANIMATED || features & MULTIPAGED]. *)
Definition can_handle_images (features : Z) : bool :=
  has_flag features SAIL_PLUGIN_FEATURE_STATIC
  || has_flag features SAIL_PLUGIN_FEATURE_ANIMATED
  || has_flag features SAIL_PLUGIN_FEATURE_MULTIPAGED.

(** [check_plugin_info]: three checks on the read features, then three on the
    write features; the first one that fires decides the result. *)
Definition check_plugin_info (plugin_info : sail_plugin_info) : sail_error_t :=
  let read_features := read_features plugin_info in
  let write_features := write_features plugin_info in
  (* Check read features. *)
  if (rf_input_pixel_formats_length read_features =? 0)
     && negb (rf_output_pixel_formats_length read_features =? 0)
  then SAIL_INCOMPLETE_PLUGIN_INFO
  else if negb (rf_input_pixel_formats_length read_features =? 0)
          && (rf_output_pixel_formats_length read_features =? 0)
  then SAIL_INCOMPLETE_PLUGIN_INFO
  else if can_handle_images (rf_features read_features)
          && (rf_input_pixel_formats_length read_features =? 0)
  then SAIL_INCOMPLETE_PLUGIN_INFO
  (* Check write features. *)
  else if (wf_input_pixel_formats_length write_features =? 0)
          && negb (wf_output_pixel_formats_length write_features =? 0)
  then SAIL_INCOMPLETE_PLUGIN_INFO
  else if negb (wf_input_pixel_formats_length write_features =? 0)
          && (wf_output_pixel_formats_length write_features =? 0)
  then SAIL_INCOMPLETE_PLUGIN_INFO
  else if can_handle_images (wf_features write_features)
          && (wf_output_pixel_formats_length write_features =? 0)
  then SAIL_INCOMPLETE_PLUGIN_INFO
  else SAIL_SUCCESS.

(** The tail of [plugin_read_info], after [ini_parse] has filled
    [plugin_info] through the handler and returned [code]: the layout check,
    the consistency checks, then the parse code. [None] stands for the
    destroyed descriptor. *)
Definition plugin_read_info_finish (code : Z) (plugin_info : sail_plugin_info)
  : sail_error_t * option sail_plugin_info :=
  if negb (layout plugin_info =? SAIL_PLUGIN_LAYOUT_V2)
  then (SAIL_UNSUPPORTED_PLUGIN_LAYOUT, None)
  else match check_plugin_info plugin_info with
       | SAIL_SUCCESS =>
           if code =? 0 then (SAIL_SUCCESS, Some plugin_info)
           else if code =? -1 then (SAIL_FILE_OPEN_ERROR, None)
           else if code =? -2 then (SAIL_MEMORY_ALLOCATION_FAILED, None)
           else (SAIL_FILE_PARSE_ERROR, None)
       | err => (err, None)
       end.

(** A direction is unbalanced when exactly one of its two pixel format lists
    is empty. *)
Definition unbalanced (input_length output_length : Z) : Prop :=
  (input_length = 0 /\ output_length <> 0)
  \/ (input_length <> 0 /\ output_length = 0).

Lemma check_plugin_info_cases (plugin_info : sail_plugin_info) :
  check_plugin_info plugin_info = SAIL_SUCCESS
  \/ check_plugin_info plugin_info = SAIL_INCOMPLETE_PLUGIN_INFO.
Proof.
  unfold check_plugin_info.
  repeat match goal with
         | |- context [if ?c then _ else _] => destruct c
         end; auto.
Qed.

Lemma check_plugin_info_ok_inv (plugin_info : sail_plugin_info) :
  check_plugin_info plugin_info = SAIL_SUCCESS ->
  let rf := read_features plugin_info in
  let wf := write_features plugin_info in
  ((rf_input_pixel_formats_length rf =? 0)
     && negb (rf_output_pixel_formats_length rf =? 0) = false)
  /\ (negb (rf_input_pixel_formats_length rf =? 0)
     && (rf_output_pixel_formats_length rf =? 0) = false)
  /\ (can_handle_images (rf_features rf)
     && (rf_input_pixel_formats_length rf =? 0) = false)
  /\ ((wf_input_pixel_formats_length wf =? 0)
     && negb (wf_output_pixel_formats_length wf =? 0) = false)
  /\ (negb (wf_input_pixel_formats_length wf =? 0)
     && (wf_output_pixel_formats_length wf =? 0) = false)
  /\ (can_handle_images (wf_features wf)
     && (wf_output_pixel_formats_length wf =? 0) = false).
Proof.
  unfold check_plugin_info; cbv zeta.
  repeat match goal with
         | |- context [if ?c then _ else _] =>
             let E := fresh "E" in destruct c eqn:E
         end; intros H; try discriminate H.
  repeat split; reflexivity.
Qed.

Lemma unbalanced_bool (i o : Z) :
  unbalanced i o ->
  (i =? 0) && negb (o =? 0) = true \/ negb (i =? 0) && (o =? 0) = true.
Proof.
  intros [[Hi Ho] | [Hi Ho]]; [left | right].
  - apply Z.eqb_eq in Hi. apply Z.eqb_neq in Ho. now rewrite Hi, Ho.
  - apply Z.eqb_neq in Hi. apply Z.eqb_eq in Ho. now rewrite Hi, Ho.
Qed.

(** C5. If, in the read direction or in the write direction, exactly one of the
    input and output pixel format lists is empty, [check_plugin_info] returns
    [SAIL_INCOMPLETE_PLUGIN_INFO]; [plugin_read_info] then hands out no
    descriptor whatever the parser returned, and its error is that one when
    the descriptor has the supported layout (another layout is rejected
    before the check). *)
Theorem check_plugin_info_unbalanced (plugin_info : sail_plugin_info) :
  unbalanced (rf_input_pixel_formats_length (read_features plugin_info))
             (rf_output_pixel_formats_length (read_features plugin_info))
  \/ unbalanced (wf_input_pixel_formats_length (write_features plugin_info))
                (wf_output_pixel_formats_length (write_features plugin_info)) ->
  check_plugin_info plugin_info = SAIL_INCOMPLETE_PLUGIN_INFO
  /\ (forall code, snd (plugin_read_info_finish code plugin_info) = None)
  /\ (layout plugin_info = SAIL_PLUGIN_LAYOUT_V2 ->
      forall code,
        plugin_read_info_finish code plugin_info
        = (SAIL_INCOMPLETE_PLUGIN_INFO, None)).
Proof.
  intros H.
  assert (Hc : check_plugin_info plugin_info = SAIL_INCOMPLETE_PLUGIN_INFO).
  { destruct (check_plugin_info_cases plugin_info) as [Hok | Hbad]; [| exact Hbad].
    exfalso.
    destruct (check_plugin_info_ok_inv _ Hok) as (R1 & R2 & _ & W1 & W2 & _).
    destruct H as [H | H]; apply unbalanced_bool in H; destruct H as [H | H];
      congruence. }
  split; [exact Hc |]. split.
  - intros code. unfold plugin_read_info_finish. rewrite Hc.
    now destruct (negb (layout plugin_info =? SAIL_PLUGIN_LAYOUT_V2)).
  - intros Hl code. unfold plugin_read_info_finish.
    rewrite Hl, Z.eqb_refl, Hc. reflexivity.
Qed.

(** C6. If a direction declares one of the static, animated or multi-paged
    features while its input pixel format list is empty, [check_plugin_info]
    returns [SAIL_INCOMPLETE_PLUGIN_INFO]. (The write direction tests the
    output list in its third check; an empty input list with a non-empty
    output list is already caught by its first check.) *)
Theorem check_plugin_info_features_without_input (plugin_info : sail_plugin_info) :
  (can_handle_images (rf_features (read_features plugin_info)) = true
   /\ rf_input_pixel_formats_length (read_features plugin_info) = 0)
  \/ (can_handle_images (wf_features (write_features plugin_info)) = true
      /\ wf_input_pixel_formats_length (write_features plugin_info) = 0) ->
  check_plugin_info plugin_info = SAIL_INCOMPLETE_PLUGIN_INFO.
Proof.
  intros H.
  destruct (check_plugin_info_cases plugin_info) as [Hok | Hbad]; [| exact Hbad].
  exfalso.
  destruct (check_plugin_info_ok_inv _ Hok) as (_ & _ & R3 & W1 & _ & W3).
  destruct H as [[Hf Hi] | [Hf Hi]].
  - rewrite Hf, Hi in R3. discriminate R3.
  - rewrite Hf in W3. rewrite Hi in W1. simpl in W1, W3.
    rewrite W3 in W1. discriminate W1.
Qed.

(** ** What the checks accept *)

Lemma has_flag_of_zero (flag : Z) : has_flag 0 flag = false.
Proof. unfold has_flag. now rewrite Z.land_0_l. Qed.

(** X1. [check_plugin_info] returns success or
    [SAIL_INCOMPLETE_PLUGIN_INFO], and success exactly when, in each
    direction, the input and output pixel format lists are both empty or both
    not, and a direction that declares the static, animated or multi-paged
    feature has pixel formats. A descriptor that declares nothing at all is
    accepted. *)
Theorem check_plugin_info_accepts (plugin_info : sail_plugin_info) :
  let rf := read_features plugin_info in
  let wf := write_features plugin_info in
  (check_plugin_info plugin_info = SAIL_SUCCESS
   \/ check_plugin_info plugin_info = SAIL_INCOMPLETE_PLUGIN_INFO)
  /\ (check_plugin_info plugin_info = SAIL_SUCCESS
      <-> (rf_input_pixel_formats_length rf = 0
           <-> rf_output_pixel_formats_length rf = 0)
          /\ (wf_input_pixel_formats_length wf = 0
              <-> wf_output_pixel_formats_length wf = 0)
          /\ (can_handle_images (rf_features rf) = true ->
              rf_input_pixel_formats_length rf <> 0
              /\ rf_output_pixel_formats_length rf <> 0)
          /\ (can_handle_images (wf_features wf) = true ->
              wf_input_pixel_formats_length wf <> 0
              /\ wf_output_pixel_formats_length wf <> 0))
  /\ (rf_input_pixel_formats_length rf = 0 ->
      rf_output_pixel_formats_length rf = 0 ->
      wf_input_pixel_formats_length wf = 0 ->
      wf_output_pixel_formats_length wf = 0 ->
      rf_features rf = 0 -> wf_features wf = 0 ->
      check_plugin_info plugin_info = SAIL_SUCCESS).
Proof.
  cbv zeta. split; [apply check_plugin_info_cases |].
  assert (Hiff :
    check_plugin_info plugin_info = SAIL_SUCCESS
    <-> (rf_input_pixel_formats_length (read_features plugin_info) = 0
         <-> rf_output_pixel_formats_length (read_features plugin_info) = 0)
        /\ (wf_input_pixel_formats_length (write_features plugin_info) = 0
            <-> wf_output_pixel_formats_length (write_features plugin_info)
                = 0)
        /\ (can_handle_images (rf_features (read_features plugin_info)) = true
            -> rf_input_pixel_formats_length (read_features plugin_info) <> 0
               /\ rf_output_pixel_formats_length (read_features plugin_info)
                  <> 0)
        /\ (can_handle_images (wf_features (write_features plugin_info))
            = true
            -> wf_input_pixel_formats_length (write_features plugin_info) <> 0
               /\ wf_output_pixel_formats_length (write_features plugin_info)
                  <> 0)).
  { unfold check_plugin_info. cbv zeta.
    destruct (rf_input_pixel_formats_length _ =? 0) eqn:Hri;
      destruct (rf_output_pixel_formats_length _ =? 0) eqn:Hro;
      destruct (wf_input_pixel_formats_length _ =? 0) eqn:Hwi;
      destruct (wf_output_pixel_formats_length _ =? 0) eqn:Hwo;
      destruct (can_handle_images (rf_features _)) eqn:Hrf;
      destruct (can_handle_images (wf_features _)) eqn:Hwf;
      cbn [andb negb];
      repeat match goal with
             | H : (_ =? 0) = true |- _ => apply Z.eqb_eq in H
             | H : (_ =? 0) = false |- _ => apply Z.eqb_neq in H
             end;
      (split; [intros Hc; try discriminate Hc | intros (H1 & H2 & H3 & H4)]);
      try reflexivity;
      try (exfalso; tauto);
      try (repeat split; intros; first [assumption | tauto | discriminate]). }
  split; [exact Hiff |].
  intros Hri Hro Hwi Hwo Hrf Hwf. apply Hiff.
  unfold can_handle_images. rewrite Hrf, Hwf, !has_flag_of_zero.
  cbn [orb]. repeat split; intros; first [assumption | discriminate].
Qed.

(** X2. The tail of [plugin_read_info]. A descriptor is handed out exactly on
    success, and it is the parsed one; success needs the supported layout, a
    descriptor that passes [check_plugin_info] and the parser code 0. The
    layout is looked at first: with another layout the result is
    [SAIL_UNSUPPORTED_PLUGIN_LAYOUT] whatever the parser returned, also when
    it could not open the file. With the supported layout and a consistent
    descriptor, the parser codes -1 and -2 become the file-open and the
    allocation error and every other code but 0 the parse error. *)
Theorem plugin_read_info_finish_outcomes (code : Z)
    (plugin_info : sail_plugin_info) :
  let result := plugin_read_info_finish code plugin_info in
  (fst result = SAIL_SUCCESS <-> snd result = Some plugin_info)
  /\ (fst result <> SAIL_SUCCESS <-> snd result = None)
  /\ (fst result = SAIL_SUCCESS
      <-> layout plugin_info = SAIL_PLUGIN_LAYOUT_V2
          /\ check_plugin_info plugin_info = SAIL_SUCCESS /\ code = 0)
  /\ (layout plugin_info <> SAIL_PLUGIN_LAYOUT_V2 ->
      result = (SAIL_UNSUPPORTED_PLUGIN_LAYOUT, None))
  /\ (layout plugin_info = SAIL_PLUGIN_LAYOUT_V2 ->
      check_plugin_info plugin_info = SAIL_SUCCESS ->
      code <> 0 ->
      fst result
      = if code =? -1 then SAIL_FILE_OPEN_ERROR
        else if code =? -2 then SAIL_MEMORY_ALLOCATION_FAILED
        else SAIL_FILE_PARSE_ERROR).
Proof.
  cbv zeta. unfold plugin_read_info_finish.
  destruct (layout plugin_info =? SAIL_PLUGIN_LAYOUT_V2) eqn:Hlayout;
    cbn [negb].
  - apply Z.eqb_eq in Hlayout.
    destruct (check_plugin_info_cases plugin_info) as [Hc | Hc]; rewrite Hc.
    + destruct (code =? 0) eqn:H0.
      * apply Z.eqb_eq in H0. cbn [fst snd].
        repeat split; intros; first [assumption | congruence | lia].
      * apply Z.eqb_neq in H0.
        destruct (code =? -1); [| destruct (code =? -2)]; cbn [fst snd];
          (split; [split; intros; congruence |]);
          (split; [split; intros; congruence |]);
          (split; [split; [intros; congruence | intros (_ & _ & ?); lia] |]);
          (split; [intros; congruence | intros; reflexivity]).
    + cbn [fst snd].
      split; [split; intros; congruence |].
      split; [split; intros; congruence |].
      split; [split; [intros; congruence | intros (_ & ? & _); congruence] |].
      split; intros; congruence.
  - apply Z.eqb_neq in Hlayout. cbn [fst snd].
    split; [split; intros; congruence |].
    split; [split; intros; congruence |].
    split; [split; [intros; congruence | intros (? & _ & _); congruence] |].
    split; [intros; reflexivity | intros; congruence].
Qed.

End Validation.

(** A descriptor in the style of a codec that declares read output formats
    but no read input formats. *)
Definition no_write_features : sail_write_features :=
  {| wf_input_pixel_formats := []; wf_input_pixel_formats_length := 0;
     wf_output_pixel_formats := []; wf_output_pixel_formats_length := 0;
     wf_preferred_output_pixel_format := 0; wf_features := 0;
     wf_properties := 0; wf_interlaced_passes := 0;
     wf_compression_types := []; wf_compression_types_length := 0;
     wf_preferred_compression_type := 0; wf_compression_min := 0;
     wf_compression_max := 0; wf_compression_default := 0 |}.

Definition output_only_reader : sail_plugin_info :=
  {| layout := 2;
     read_features :=
       {| rf_input_pixel_formats := []; rf_input_pixel_formats_length := 0;
          rf_output_pixel_formats := [30; 38];
          rf_output_pixel_formats_length := 2;
          rf_preferred_output_pixel_format := 38; rf_features := 1 |};
     write_features := no_write_features |}.

(** A descriptor whose write direction claims static images with no pixel
    format at all. *)
Definition static_writer_without_formats : sail_plugin_info :=
  {| layout := 2;
     read_features :=
       {| rf_input_pixel_formats := [30]; rf_input_pixel_formats_length := 1;
          rf_output_pixel_formats := [38];
          rf_output_pixel_formats_length := 1;
          rf_preferred_output_pixel_format := 38; rf_features := 1 |};
     write_features :=
       {| wf_input_pixel_formats := []; wf_input_pixel_formats_length := 0;
          wf_output_pixel_formats := []; wf_output_pixel_formats_length := 0;
          wf_preferred_output_pixel_format := 0; wf_features := 1;
          wf_properties := 0; wf_interlaced_passes := 0;
          wf_compression_types := []; wf_compression_types_length := 0;
          wf_preferred_compression_type := 0; wf_compression_min := 0;
          wf_compression_max := 0; wf_compression_default := 0 |} |}.

Lemma check_plugin_info_unbalanced_witness :
  check_plugin_info 1 2 4 output_only_reader = SAIL_INCOMPLETE_PLUGIN_INFO
  /\ forall code,
       plugin_read_info_finish 1 2 4 2 code output_only_reader
       = (SAIL_INCOMPLETE_PLUGIN_INFO, None).
Proof.
  destruct (check_plugin_info_unbalanced 1 2 4 2 output_only_reader)
    as (Hcheck & _ & Hread).
  - left. left. simpl. split; [reflexivity | discriminate].
  - split; [exact Hcheck | exact (Hread eq_refl)].
Defined.

Lemma check_plugin_info_features_without_input_witness :
  check_plugin_info 1 2 4 static_writer_without_formats
  = SAIL_INCOMPLETE_PLUGIN_INFO.
Proof.
  apply (check_plugin_info_features_without_input 1 2 4
           static_writer_without_formats).
  right. split; reflexivity.
Defined.

(** A descriptor that declares nothing, with the layout field as
    [alloc_plugin_info] leaves it. *)
Definition blank_descriptor : sail_plugin_info :=
  {| layout := 0;
     read_features :=
       {| rf_input_pixel_formats := []; rf_input_pixel_formats_length := 0;
          rf_output_pixel_formats := [];
          rf_output_pixel_formats_length := 0;
          rf_preferred_output_pixel_format := 0; rf_features := 0 |};
     write_features := no_write_features |}.

Lemma check_plugin_info_accepts_witness :
  check_plugin_info 1 2 4 blank_descriptor = SAIL_SUCCESS.
Proof.
  apply (proj2 (proj2 (check_plugin_info_accepts 1 2 4 blank_descriptor)));
    reflexivity.
Defined.

Lemma plugin_read_info_finish_outcomes_witness :
  plugin_read_info_finish 1 2 4 2 (-1) blank_descriptor
  = (SAIL_UNSUPPORTED_PLUGIN_LAYOUT, None).
Proof.
  apply (proj1 (proj2 (proj2 (proj2
           (plugin_read_info_finish_outcomes 1 2 4 2 (-1)
              blank_descriptor))))).
  simpl. lia.
Defined.

End PluginInfo.

(* ================================================================== *)
(** * Parsing of codec declarations ([plugin_info_private.c])          *)
(* ================================================================== *)

Module PluginInfoParser.

Import Ascii String PluginInfo.

(** A C string: its characters before the terminating NUL. *)
Definition c_string : Type := list ascii.

Definition lit (s : string) : c_string := list_ascii_of_string s.

(** [strspn] of the C library: the length of the longest prefix of [s] made
    of characters of [accept]. *)
Fixpoint strspn (s accept : c_string) : nat :=
  match s with
  | [] => O
  | c :: s' =>
      if existsb (Ascii.eqb c) accept then S (strspn s' accept) else O
  end.

(** [strcspn] of the C library: the length of the longest prefix of [s]
    without a character of [reject]. *)
Fixpoint strcspn (s reject : c_string) : nat :=
  match s with
  | [] => O
  | c :: s' =>
      if existsb (Ascii.eqb c) reject then O else S (strcspn s' reject)
  end.

(** [strcmp(a, b) == 0]. *)
Definition strcmp_is_0 (a b : c_string) : bool :=
  if list_eq_dec ascii_dec a b then true else false.

(** [struct sail_plugin_info] with its strings; a chain of
    [sail_string_node] is the list of its values, NULL the empty list. *)
Record sail_plugin_info : Type := {
  path : option c_string;
  layout : Z;
  version : option c_string;
  name : option c_string;
  description : option c_string;
  extension_node : list c_string;
  mime_type_node : list c_string;
  read_features : sail_read_features;
  write_features : sail_write_features
}.

Definition with_layout (data : sail_plugin_info) (v : Z) : sail_plugin_info :=
  {| path := path data; layout := v; version := version data;
     name := name data; description := description data;
     extension_node := extension_node data;
     mime_type_node := mime_type_node data;
     read_features := read_features data;
     write_features := write_features data |}.

Definition with_version (data : sail_plugin_info) (v : option c_string)
  : sail_plugin_info :=
  {| path := path data; layout := layout data; version := v;
     name := name data; description := description data;
     extension_node := extension_node data;
     mime_type_node := mime_type_node data;
     read_features := read_features data;
     write_features := write_features data |}.

Definition with_name (data : sail_plugin_info) (v : option c_string)
  : sail_plugin_info :=
  {| path := path data; layout := layout data; version := version data;
     name := v; description := description data;
     extension_node := extension_node data;
     mime_type_node := mime_type_node data;
     read_features := read_features data;
     write_features := write_features data |}.

Definition with_description (data : sail_plugin_info) (v : option c_string)
  : sail_plugin_info :=
  {| path := path data; layout := layout data; version := version data;
     name := name data; description := v;
     extension_node := extension_node data;
     mime_type_node := mime_type_node data;
     read_features := read_features data;
     write_features := write_features data |}.

Definition with_extension_node (data : sail_plugin_info)
    (chain : list c_string) : sail_plugin_info :=
  {| path := path data; layout := layout data; version := version data;
     name := name data; description := description data;
     extension_node := chain;
     mime_type_node := mime_type_node data;
     read_features := read_features data;
     write_features := write_features data |}.

Definition with_mime_type_node (data : sail_plugin_info)
    (chain : list c_string) : sail_plugin_info :=
  {| path := path data; layout := layout data; version := version data;
     name := name data; description := description data;
     extension_node := extension_node data;
     mime_type_node := chain;
     read_features := read_features data;
     write_features := write_features data |}.

Definition with_read_features (data : sail_plugin_info)
    (features : sail_read_features) : sail_plugin_info :=
  {| path := path data; layout := layout data; version := version data;
     name := name data; description := description data;
     extension_node := extension_node data;
     mime_type_node := mime_type_node data;
     read_features := features;
     write_features := write_features data |}.

Definition with_write_features (data : sail_plugin_info)
    (features : sail_write_features) : sail_plugin_info :=
  {| path := path data; layout := layout data; version := version data;
     name := name data; description := description data;
     extension_node := extension_node data;
     mime_type_node := mime_type_node data;
     read_features := read_features data;
     write_features := features |}.

(** The part of the descriptor that [check_plugin_info] looks at. *)
Definition checked_part (data : sail_plugin_info)
  : PluginInfo.sail_plugin_info :=
  {| PluginInfo.layout := layout data;
     PluginInfo.read_features := read_features data;
     PluginInfo.write_features := write_features data |}.

Section Parser.

(** The state of the allocator, and [malloc] as far as the parser sees it:
    whether the block was obtained. *)
Variable world : Type.
Variable malloc : world -> bool * world.

(** What a fresh [int] holds before it is assigned. *)
Variable indeterminate_int : Z.

(** Collaborators of [sail-common] and of the C library.
    [sail_strdup_length] and [sail_strdup] return the string they store
    through their out-pointer. A converter gets the content of [*result] and
    returns what it leaves there. *)
Variable sail_strdup_length :
  c_string -> nat -> world -> sail_error_t * c_string * world.
Variable sail_strdup :
  c_string -> world -> sail_error_t * option c_string * world.
Variable sail_to_lower : c_string -> c_string.
Variable atoi : c_string -> Z.
Variable sail_pixel_format_from_string : c_string -> Z -> sail_error_t * Z.
Variable sail_plugin_feature_from_string : c_string -> Z -> sail_error_t * Z.
Variable sail_image_property_from_string : c_string -> Z -> sail_error_t * Z.
Variable sail_compression_type_from_string :
  c_string -> Z -> sail_error_t * Z.

(** [alloc_string_node]. *)
Definition alloc_string_node (w : world) : sail_error_t * world :=
  match malloc w with
  | (true, w') => (SAIL_SUCCESS, w')
  | (false, w') => (SAIL_MEMORY_ALLOCATION_FAILED, w')
  end.

(** The loop of [split_into_string_node_chain]; [chain] holds the nodes
    linked so far. Every iteration but the last consumes a character, so
    one more iteration than [value] has characters ends the loop. *)
Fixpoint split_loop (fuel : nat) (value : c_string) (chain : list c_string)
    (w : world) : sail_error_t * list c_string * world :=
  match fuel with
  | O => (SAIL_SUCCESS, chain, w)
  | S fuel' =>
      let value := skipn (strspn value (lit ";")) value in
      match value with
      | [] => (SAIL_SUCCESS, chain, w)
      | _ :: _ =>
          let length := strcspn value (lit ";") in
          match alloc_string_node w with
          | (SAIL_SUCCESS, w1) =>
              match sail_strdup_length value length w1 with
              | (SAIL_SUCCESS, copy, w2) =>
                  split_loop fuel' (skipn length value) (chain ++ [copy]) w2
              | (err, _, w2) => (err, chain, w2)
              end
          | (err, w1) => (err, chain, w1)
          end
      end
  end.

(** [split_into_string_node_chain]. [target] is the chain
    [*target_string_node] holds at the call: the first node that is linked
    replaces it, and it stays when no node is linked. *)
Definition split_into_string_node_chain (value : c_string)
    (target : list c_string) (w : world)
  : sail_error_t * list c_string * world :=
  match split_loop (S (List.length value)) value [] w with
  | (err, [], w') => (err, target, w')
  | (err, chain, w') => (err, chain, w')
  end.

(** [target[i] = v]. *)
Fixpoint store_int (target : list Z) (i : nat) (v : Z) : list Z :=
  match target, i with
  | [], _ => []
  | _ :: rest, O => v :: rest
  | x :: rest, S i' => x :: store_int rest i' v
  end.

(** The conversion loop of [parse_serialized_ints]. *)
Fixpoint convert_nodes (converter : c_string -> Z -> sail_error_t * Z)
    (nodes : list c_string) (i : nat) (target : list Z)
  : sail_error_t * list Z :=
  match nodes with
  | [] => (SAIL_SUCCESS, target)
  | node :: rest =>
      match converter node (nth i target 0) with
      | (SAIL_SUCCESS, v) =>
          convert_nodes converter rest (S i) (store_int target i v)
      | (err, v) => (err, store_int target i v)
      end
  end.

(** [parse_serialized_ints]; the three pointers are addresses of fields at
    every call and never NULL. The result carries [*target] and [*length]. *)
Definition parse_serialized_ints (value : c_string) (target : list Z)
    (length : Z) (converter : c_string -> Z -> sail_error_t * Z) (w : world)
  : sail_error_t * list Z * Z * world :=
  match split_into_string_node_chain value [] w with
  | (SAIL_SUCCESS, string_node, w1) =>
      let length := Z.of_nat (List.length string_node) in
      if 0 <? length then
        match malloc w1 with
        | (true, w2) =>
            match convert_nodes converter string_node 0
                    (repeat indeterminate_int (List.length string_node)) with
            | (err, target) => (err, target, length, w2)
            end
        | (false, w2) => (SAIL_MEMORY_ALLOCATION_FAILED, [], length, w2)
        end
      else (SAIL_SUCCESS, target, length, w1)
  | (err, _, w1) => (err, target, length, w1)
  end.

(** The loop of [parse_flags]. *)
Fixpoint or_flags (converter : c_string -> Z -> sail_error_t * Z)
    (nodes : list c_string) (features : Z) : sail_error_t * Z :=
  match nodes with
  | [] => (SAIL_SUCCESS, features)
  | node :: rest =>
      match converter node indeterminate_int with
      | (SAIL_SUCCESS, flag) =>
          or_flags converter rest (Z.lor features flag)
      | (err, _) => (err, features)
      end
  end.

(** [parse_flags]; the result carries [*features]. *)
Definition parse_flags (value : c_string) (features : Z)
    (converter : c_string -> Z -> sail_error_t * Z) (w : world)
  : sail_error_t * Z * world :=
  match split_into_string_node_chain value [] w with
  | (SAIL_SUCCESS, string_node, w1) =>
      match or_flags converter string_node 0 with
      | (err, features) => (err, features, w1)
      end
  | (err, _, w1) => (err, features, w1)
  end.

(** The value a handler branch returns after a call that may fail. *)
Definition handled (err : sail_error_t) : Z :=
  match err with SAIL_SUCCESS => 1 | _ => 0 end.

Definition read_key (rf : sail_read_features) (name value : c_string)
    (w : world) : Z * sail_read_features * world :=
  if strcmp_is_0 name (lit "input-pixel-formats") then
    match parse_serialized_ints value (rf_input_pixel_formats rf)
            (rf_input_pixel_formats_length rf)
            sail_pixel_format_from_string w with
    | (err, target, length, w') =>
        (handled err,
         {| rf_input_pixel_formats := target;
            rf_input_pixel_formats_length := length;
            rf_output_pixel_formats := rf_output_pixel_formats rf;
            rf_output_pixel_formats_length :=
              rf_output_pixel_formats_length rf;
            rf_preferred_output_pixel_format :=
              rf_preferred_output_pixel_format rf;
            rf_features := rf_features rf |}, w')
    end
  else if strcmp_is_0 name (lit "output-pixel-formats") then
    match parse_serialized_ints value (rf_output_pixel_formats rf)
            (rf_output_pixel_formats_length rf)
            sail_pixel_format_from_string w with
    | (err, target, length, w') =>
        (handled err,
         {| rf_input_pixel_formats := rf_input_pixel_formats rf;
            rf_input_pixel_formats_length := rf_input_pixel_formats_length rf;
            rf_output_pixel_formats := target;
            rf_output_pixel_formats_length := length;
            rf_preferred_output_pixel_format :=
              rf_preferred_output_pixel_format rf;
            rf_features := rf_features rf |}, w')
    end
  else if strcmp_is_0 name (lit "preferred-output-pixel-format") then
    match sail_pixel_format_from_string value
            (rf_preferred_output_pixel_format rf) with
    | (err, v) =>
        (handled err,
         {| rf_input_pixel_formats := rf_input_pixel_formats rf;
            rf_input_pixel_formats_length := rf_input_pixel_formats_length rf;
            rf_output_pixel_formats := rf_output_pixel_formats rf;
            rf_output_pixel_formats_length :=
              rf_output_pixel_formats_length rf;
            rf_preferred_output_pixel_format := v;
            rf_features := rf_features rf |}, w)
    end
  else if strcmp_is_0 name (lit "features") then
    match parse_flags value (rf_features rf)
            sail_plugin_feature_from_string w with
    | (err, features, w') =>
        (handled err,
         {| rf_input_pixel_formats := rf_input_pixel_formats rf;
            rf_input_pixel_formats_length := rf_input_pixel_formats_length rf;
            rf_output_pixel_formats := rf_output_pixel_formats rf;
            rf_output_pixel_formats_length :=
              rf_output_pixel_formats_length rf;
            rf_preferred_output_pixel_format :=
              rf_preferred_output_pixel_format rf;
            rf_features := features |}, w')
    end
  else (0, rf, w).

(** The fields of [struct sail_write_features] the handler assigns. *)
Inductive write_field : Type :=
| input_pixel_formats (target : list Z) (length : Z)
| output_pixel_formats (target : list Z) (length : Z)
| preferred_output_pixel_format (v : Z)
| features (v : Z)
| properties (v : Z)
| interlaced_passes (v : Z)
| compression_types (target : list Z) (length : Z)
| preferred_compression_type (v : Z)
| compression_min (v : Z)
| compression_max (v : Z)
| compression_default (v : Z).

Definition assign (wf : sail_write_features) (field : write_field)
  : sail_write_features :=
  {| wf_input_pixel_formats :=
       match field with
       | input_pixel_formats target _ => target
       | _ => wf_input_pixel_formats wf
       end;
     wf_input_pixel_formats_length :=
       match field with
       | input_pixel_formats _ length => length
       | _ => wf_input_pixel_formats_length wf
       end;
     wf_output_pixel_formats :=
       match field with
       | output_pixel_formats target _ => target
       | _ => wf_output_pixel_formats wf
       end;
     wf_output_pixel_formats_length :=
       match field with
       | output_pixel_formats _ length => length
       | _ => wf_output_pixel_formats_length wf
       end;
     wf_preferred_output_pixel_format :=
       match field with
       | preferred_output_pixel_format v => v
       | _ => wf_preferred_output_pixel_format wf
       end;
     wf_features :=
       match field with features v => v | _ => wf_features wf end;
     wf_properties :=
       match field with properties v => v | _ => wf_properties wf end;
     wf_interlaced_passes :=
       match field with
       | interlaced_passes v => v
       | _ => wf_interlaced_passes wf
       end;
     wf_compression_types :=
       match field with
       | compression_types target _ => target
       | _ => wf_compression_types wf
       end;
     wf_compression_types_length :=
       match field with
       | compression_types _ length => length
       | _ => wf_compression_types_length wf
       end;
     wf_preferred_compression_type :=
       match field with
       | preferred_compression_type v => v
       | _ => wf_preferred_compression_type wf
       end;
     wf_compression_min :=
       match field with
       | compression_min v => v
       | _ => wf_compression_min wf
       end;
     wf_compression_max :=
       match field with
       | compression_max v => v
       | _ => wf_compression_max wf
       end;
     wf_compression_default :=
       match field with
       | compression_default v => v
       | _ => wf_compression_default wf
       end |}.

Definition write_key (wf : sail_write_features) (name value : c_string)
    (w : world) : Z * sail_write_features * world :=
  if strcmp_is_0 name (lit "input-pixel-formats") then
    match parse_serialized_ints value (wf_input_pixel_formats wf)
            (wf_input_pixel_formats_length wf)
            sail_pixel_format_from_string w with
    | (err, target, length, w') =>
        (handled err, assign wf (input_pixel_formats target length), w')
    end
  else if strcmp_is_0 name (lit "output-pixel-formats") then
    match parse_serialized_ints value (wf_output_pixel_formats wf)
            (wf_output_pixel_formats_length wf)
            sail_pixel_format_from_string w with
    | (err, target, length, w') =>
        (handled err, assign wf (output_pixel_formats target length), w')
    end
  else if strcmp_is_0 name (lit "preferred-output-pixel-format") then
    match sail_pixel_format_from_string value
            (wf_preferred_output_pixel_format wf) with
    | (err, v) =>
        (handled err, assign wf (preferred_output_pixel_format v), w)
    end
  else if strcmp_is_0 name (lit "features") then
    match parse_flags value (wf_features wf)
            sail_plugin_feature_from_string w with
    | (err, v, w') => (handled err, assign wf (features v), w')
    end
  else if strcmp_is_0 name (lit "properties") then
    match parse_flags value (wf_properties wf)
            sail_image_property_from_string w with
    | (err, v, w') => (handled err, assign wf (properties v), w')
    end
  else if strcmp_is_0 name (lit "interlaced-passes") then
    (1, assign wf (interlaced_passes (atoi value)), w)
  else if strcmp_is_0 name (lit "compression-types") then
    match parse_serialized_ints value (wf_compression_types wf)
            (wf_compression_types_length wf)
            sail_compression_type_from_string w with
    | (err, target, length, w') =>
        (handled err, assign wf (compression_types target length), w')
    end
  else if strcmp_is_0 name (lit "preferred-compression-type") then
    match sail_compression_type_from_string value
            (wf_preferred_compression_type wf) with
    | (err, v) => (handled err, assign wf (preferred_compression_type v), w)
    end
  else if strcmp_is_0 name (lit "compression-min") then
    (1, assign wf (compression_min (atoi value)), w)
  else if strcmp_is_0 name (lit "compression-max") then
    (1, assign wf (compression_max (atoi value)), w)
  else if strcmp_is_0 name (lit "compression-default") then
    (1, assign wf (compression_default (atoi value)), w)
  else (0, wf, w).

Definition plugin_key (data : sail_plugin_info) (name value : c_string)
    (w : world) : Z * sail_plugin_info * world :=
  if strcmp_is_0 name (lit "layout") then
    (1, with_layout data (atoi value), w)
  else if strcmp_is_0 name (lit "version") then
    match sail_strdup value w with
    | (err, copy, w') => (handled err, with_version data copy, w')
    end
  else if strcmp_is_0 name (lit "name") then
    match sail_strdup value w with
    | (err, copy, w') => (handled err, with_name data copy, w')
    end
  else if strcmp_is_0 name (lit "description") then
    match sail_strdup value w with
    | (err, copy, w') => (handled err, with_description data copy, w')
    end
  else if strcmp_is_0 name (lit "extensions") then
    match split_into_string_node_chain value (extension_node data) w with
    | (SAIL_SUCCESS, chain, w') =>
        (1, with_extension_node data (map sail_to_lower chain), w')
    | (_, chain, w') => (0, with_extension_node data chain, w')
    end
  else if strcmp_is_0 name (lit "mime-types") then
    match split_into_string_node_chain value (mime_type_node data) w with
    | (SAIL_SUCCESS, chain, w') =>
        (1, with_mime_type_node data (map sail_to_lower chain), w')
    | (_, chain, w') => (0, with_mime_type_node data chain, w')
    end
  else (0, data, w).

(** [inih_handler]: 1 when the key was taken, 0 on error; the result
    carries the descriptor [data] points to. *)
Definition inih_handler (data : sail_plugin_info)
    (section name value : c_string) (w : world)
  : Z * sail_plugin_info * world :=
  if (List.length value =? 0)%nat then (1, data, w)
  else if strcmp_is_0 section (lit "plugin") then
    plugin_key data name value w
  else if strcmp_is_0 section (lit "read-features") then
    match read_key (read_features data) name value w with
    | (res, rf, w') => (res, with_read_features data rf, w')
    end
  else if strcmp_is_0 section (lit "write-features") then
    match write_key (write_features data) name value w with
    | (res, wf, w') => (res, with_write_features data wf, w')
    end
  else (0, data, w).

(** ** The tokens of a declaration string *)

(** The tokens of [s], read character by character; [cur] is the token being
    read. This is the reference the loop of [split_into_string_node_chain]
    is compared with. *)
Fixpoint tokens_from (s cur : c_string) : list c_string :=
  match s with
  | [] => match cur with [] => [] | _ => [cur] end
  | c :: s' =>
      if Ascii.eqb c ";"%char
      then match cur with
           | [] => tokens_from s' []
           | _ => cur :: tokens_from s' []
           end
      else tokens_from s' (cur ++ [c])
  end.

Lemma in_semicolon (c : ascii) :
  existsb (Ascii.eqb c) (lit ";") = Ascii.eqb c ";"%char.
Proof. cbn. apply orb_false_r. Qed.

Lemma tokens_from_strspn (s : c_string) :
  tokens_from (skipn (strspn s (lit ";")) s) [] = tokens_from s [].
Proof.
  induction s as [| c s IH]; [reflexivity |].
  cbn [strspn tokens_from]. rewrite in_semicolon.
  destruct (Ascii.eqb c ";"%char) eqn:Hc.
  - cbn [skipn]. exact IH.
  - cbn [skipn tokens_from]. now rewrite Hc.
Qed.

Lemma tokens_from_strcspn (s cur : c_string) :
  cur ++ firstn (strcspn s (lit ";")) s <> [] ->
  tokens_from s cur
  = (cur ++ firstn (strcspn s (lit ";")) s)
    :: tokens_from (skipn (strcspn s (lit ";")) s) [].
Proof.
  revert cur. induction s as [| c s IH]; intros cur Hne.
  - cbn in *. rewrite app_nil_r in *. now destruct cur.
  - cbn [strcspn tokens_from] in *. rewrite in_semicolon in *.
    destruct (Ascii.eqb c ";"%char) eqn:Hc.
    + cbn [firstn skipn tokens_from] in *. rewrite Hc.
      rewrite app_nil_r in *. now destruct cur.
    + cbn [firstn skipn] in *.
      rewrite IH; rewrite <- app_assoc; cbn [app]; [reflexivity |].
      now destruct cur.
Qed.

Lemma skipn_strspn_head (s : c_string) (c : ascii) (s' : c_string) :
  skipn (strspn s (lit ";")) s = c :: s' -> Ascii.eqb c ";"%char = false.
Proof.
  induction s as [| d s IH]; [discriminate |].
  cbn [strspn]. rewrite in_semicolon.
  destruct (Ascii.eqb d ";"%char) eqn:Hd; cbn [skipn].
  - exact IH.
  - intros H. injection H as <- _. exact Hd.
Qed.

Lemma tokens_from_app (a b cur : c_string) :
  tokens_from (a ++ ";"%char :: b) cur = tokens_from a cur ++ tokens_from b [].
Proof.
  revert cur. induction a as [| c a IH]; intros cur.
  - cbn. now destruct cur.
  - cbn [app tokens_from]. destruct (Ascii.eqb c ";"%char).
    + destruct cur; rewrite IH; reflexivity.
    + apply IH.
Qed.

Lemma tokens_from_plain (s cur : c_string) :
  ~ In ";"%char s ->
  tokens_from s cur = match cur ++ s with [] => [] | _ => [cur ++ s] end.
Proof.
  revert cur. induction s as [| c s IH]; intros cur Hs.
  - cbn. rewrite app_nil_r. reflexivity.
  - cbn [tokens_from].
    destruct (Ascii.eqb c ";"%char) eqn:Hc.
    + apply Ascii.eqb_eq in Hc. elim Hs. now left.
    + rewrite IH by (intros H; apply Hs; now right).
      now rewrite <- app_assoc.
Qed.

Lemma tokens_from_well_formed (s cur : c_string) :
  ~ In ";"%char cur ->
  Forall (fun token => token <> [] /\ ~ In ";"%char token)
         (tokens_from s cur).
Proof.
  revert cur. induction s as [| c s IH]; intros cur Hcur.
  - cbn. destruct cur; constructor; [| constructor].
    split; [discriminate | exact Hcur].
  - cbn [tokens_from]. destruct (Ascii.eqb c ";"%char) eqn:Hc.
    + destruct cur as [| d cur].
      * apply IH. intros [].
      * constructor; [split; [discriminate | exact Hcur] |].
        apply IH. intros [].
    + apply IH. intros Hin. apply in_app_or in Hin.
      destruct Hin as [Hin | [Heq | []]]; [now apply Hcur |].
      rewrite Heq, Ascii.eqb_refl in Hc. discriminate Hc.
Qed.

Lemma tokens_from_concat (s cur : c_string) :
  List.concat (tokens_from s cur)
  = cur ++ filter (fun c => negb (Ascii.eqb c ";"%char)) s.
Proof.
  revert cur. induction s as [| c s IH]; intros cur.
  - cbn. destruct cur; cbn; now rewrite ?app_nil_r.
  - cbn [tokens_from filter]. destruct (Ascii.eqb c ";"%char); cbn [negb].
    + destruct cur; cbn [List.concat]; rewrite IH; reflexivity.
    + rewrite IH. now rewrite <- app_assoc.
Qed.

Lemma tokens_from_nil (s : c_string) :
  tokens_from s [] = [] <-> forall c, In c s -> c = ";"%char.
Proof.
  split.
  - intros Hnone c Hin.
    destruct (Ascii.eqb c ";"%char) eqn:Hc; [now apply Ascii.eqb_eq |].
    exfalso.
    assert (Hfiltered : In c (List.concat (tokens_from s []))).
    { rewrite tokens_from_concat. cbn [app]. apply filter_In.
      split; [exact Hin | now rewrite Hc]. }
    now rewrite Hnone in Hfiltered.
  - induction s as [| c s IH]; intros Hall; [reflexivity |].
    cbn [tokens_from]. rewrite (Hall c) by now left.
    rewrite Ascii.eqb_refl. apply IH. intros d Hd. apply Hall. now right.
Qed.

(** ** The loop computes the tokens *)

Section Collaborators.

Hypothesis Hmalloc : forall w, fst (malloc w) = true.
Hypothesis Hdup :
  forall value length w,
    exists w',
      sail_strdup_length value length w
      = (SAIL_SUCCESS, firstn length value, w').

Lemma split_loop_tokens (fuel : nat) :
  forall (value : c_string) (chain : list c_string) (w : world),
    (List.length value < fuel)%nat ->
    exists w',
      split_loop fuel value chain w
      = (SAIL_SUCCESS, chain ++ tokens_from value [], w').
Proof.
  induction fuel as [| fuel IH]; intros value chain w Hfuel; [lia |].
  cbn [split_loop]. cbv zeta.
  rewrite <- (tokens_from_strspn value).
  assert (Hshorter : (List.length (skipn (strspn value (lit ";")) value)
                      <= List.length value)%nat)
    by (rewrite length_skipn; lia).
  destruct (skipn (strspn value (lit ";")) value) as [| c rest] eqn:Hrest.
  - exists w. cbn. now rewrite app_nil_r.
  - pose proof (skipn_strspn_head _ _ _ Hrest) as Hc.
    unfold alloc_string_node.
    pose proof (Hmalloc w) as Hw.
    destruct (malloc w) as [ok w1]. cbn [fst] in Hw. subst ok.
    destruct (Hdup (c :: rest) (strcspn (c :: rest) (lit ";")) w1)
      as [w2 Hcopy].
    rewrite Hcopy.
    assert (Hlen : (1 <= strcspn (c :: rest) (lit ";"))%nat).
    { cbn [strcspn]. rewrite in_semicolon, Hc. lia. }
    destruct (IH (skipn (strcspn (c :: rest) (lit ";")) (c :: rest))
                 (chain ++ [firstn (strcspn (c :: rest) (lit ";"))
                                   (c :: rest)]) w2)
      as [w' Hloop].
    + rewrite length_skipn. cbn [List.length] in *. lia.
    + exists w'. apply (eq_trans Hloop). f_equal. f_equal.
      rewrite (tokens_from_strcspn (c :: rest) []).
      * cbn [app]. now rewrite <- app_assoc.
      * cbn [app]. destruct (strcspn (c :: rest) (lit ";")); [lia |].
        discriminate.
Qed.

Lemma split_into_string_node_chain_run (value : c_string)
    (target : list c_string) (w : world) :
  exists w',
    split_into_string_node_chain value target w
    = (SAIL_SUCCESS,
       match tokens_from value [] with
       | [] => target
       | chain => chain
       end, w').
Proof.
  unfold split_into_string_node_chain.
  destruct (split_loop_tokens (S (List.length value)) value [] w
              ltac:(lia)) as [w' Hloop].
  rewrite Hloop. cbn [app]. exists w'.
  now destruct (tokens_from value []).
Qed.

Lemma split_chain (value : c_string) (w : world) :
  snd (fst (split_into_string_node_chain value [] w)) = tokens_from value [].
Proof.
  destruct (split_into_string_node_chain_run value [] w) as [w' Hrun].
  rewrite Hrun. cbn [fst snd]. now destruct (tokens_from value []).
Qed.

End Collaborators.

(** X3. Splitting a declaration string, when the allocations succeed and
    [sail_strdup_length] copies the characters it is asked for. The call
    succeeds; no token is empty or holds a semicolon; the tokens in order
    make up the string without its semicolons; the tokens of two strings
    joined by a semicolon are the tokens of the first followed by those of
    the second, so that leading, trailing and repeated semicolons add
    nothing; a string without a semicolon is its own single token; and the
    chain the caller had stays when there is no token at all. *)
Theorem split_into_string_node_chain_tokens (value : c_string)
    (target : list c_string) (w : world) :
  (forall w, fst (malloc w) = true) ->
  (forall value length w,
     exists w',
       sail_strdup_length value length w
       = (SAIL_SUCCESS, firstn length value, w')) ->
  let chain v := snd (fst (split_into_string_node_chain v [] w)) in
  fst (fst (split_into_string_node_chain value target w)) = SAIL_SUCCESS
  /\ Forall (fun token => token <> [] /\ ~ In ";"%char token) (chain value)
  /\ List.concat (chain value)
     = filter (fun c => negb (Ascii.eqb c ";"%char)) value
  /\ (forall a b, chain (a ++ ";"%char :: b) = chain a ++ chain b)
  /\ chain [] = []
  /\ (~ In ";"%char value -> value <> [] -> chain value = [value])
  /\ (chain value = [] <-> forall c, In c value -> c = ";"%char)
  /\ snd (fst (split_into_string_node_chain value target w))
     = match chain value with [] => target | tokens => tokens end.
Proof.
  intros Hmalloc Hdup. cbv zeta.
  destruct (split_into_string_node_chain_run Hmalloc Hdup value target w)
    as [w' Hrun].
  rewrite Hrun, !(split_chain Hmalloc Hdup). cbn [fst snd].
  split; [reflexivity |].
  split; [apply tokens_from_well_formed; intros [] |].
  split; [apply tokens_from_concat |].
  split.
  { intros a b. rewrite !(split_chain Hmalloc Hdup). apply tokens_from_app. }
  split; [reflexivity |].
  split.
  { intros Hplain Hne. rewrite tokens_from_plain by exact Hplain.
    cbn [app]. now destruct value. }
  split; [apply tokens_from_nil | reflexivity].
Qed.

(** ** Lists of integers and sets of flags *)

Lemma store_int_at_end (done : list Z) (x v : Z) (rest : list Z) :
  store_int (done ++ x :: rest) (List.length done) v = done ++ v :: rest.
Proof.
  induction done as [| d done IH]; [reflexivity |].
  cbn [app List.length store_int]. now rewrite IH.
Qed.

Lemma nth_at_end (done : list Z) (x : Z) (rest : list Z) :
  nth (List.length done) (done ++ x :: rest) 0 = x.
Proof.
  induction done as [| d done IH]; [reflexivity | exact IH].
Qed.

(** The conversion loop over a fresh array: every token is converted from an
    indeterminate slot; the loop succeeds exactly when every token converts,
    and then the array holds the converted values in the order of the
    tokens. *)
Lemma convert_nodes_fresh (converter : c_string -> Z -> sail_error_t * Z)
    (nodes : list c_string) :
  forall done : list Z,
    let result :=
      convert_nodes converter nodes (List.length done)
        (done ++ repeat indeterminate_int (List.length nodes)) in
    (fst result = SAIL_SUCCESS
     <-> Forall (fun token =>
                   fst (converter token indeterminate_int) = SAIL_SUCCESS)
                nodes)
    /\ (fst result = SAIL_SUCCESS ->
        snd result
        = done ++ map (fun token => snd (converter token indeterminate_int))
                      nodes)
    /\ (fst result <> SAIL_SUCCESS ->
        exists before token after,
          nodes = before ++ token :: after
          /\ Forall (fun token =>
                       fst (converter token indeterminate_int) = SAIL_SUCCESS)
                    before
          /\ fst result = fst (converter token indeterminate_int)).
Proof.
  induction nodes as [| node nodes IH]; intros done; cbv zeta.
  - cbn. rewrite app_nil_r.
    split; [split; [constructor | reflexivity] |].
    split; [reflexivity | intros H; now elim H].
  - cbn [convert_nodes List.length repeat map].
    rewrite nth_at_end.
    destruct (converter node indeterminate_int) as [status v] eqn:Hnode.
    rewrite store_int_at_end.
    assert (Hfail : status <> SAIL_SUCCESS ->
              (status = SAIL_SUCCESS
               <-> Forall (fun token =>
                             fst (converter token indeterminate_int)
                             = SAIL_SUCCESS) (node :: nodes))
              /\ (status = SAIL_SUCCESS ->
                  done ++ v :: repeat indeterminate_int (List.length nodes)
                  = done ++ v
                            :: map (fun token =>
                                      snd (converter token indeterminate_int))
                                   nodes)
              /\ (status <> SAIL_SUCCESS ->
                  exists before token after,
                    node :: nodes = before ++ token :: after
                    /\ Forall (fun token =>
                                 fst (converter token indeterminate_int)
                                 = SAIL_SUCCESS) before
                    /\ status = fst (converter token indeterminate_int))).
    { intros Hne. split; [split; [intros H; now elim Hne |] |].
      - intros Hall. inversion Hall as [| ? ? Hfirst _]; subst.
        rewrite Hnode in Hfirst. exact Hfirst.
      - split; [intros H; now elim Hne |].
        intros _. exists [], node, nodes.
        split; [reflexivity |]. split; [constructor |].
        now rewrite Hnode. }
    destruct status; try (cbn [fst snd]; apply Hfail; discriminate).
    clear Hfail.
    specialize (IH (done ++ [v])). cbv zeta in IH.
    rewrite length_app, Nat.add_1_r, <- app_assoc in IH. cbn [app] in IH.
    destruct IH as (Hiff & Hvalues & Hfirst).
    split; [| split].
    + rewrite Hiff. split.
      * intros Hall. constructor; [now rewrite Hnode | exact Hall].
      * intros Hall. now inversion Hall.
    + intros Hok. rewrite (Hvalues Hok), <- app_assoc. reflexivity.
    + intros Hne. destruct (Hfirst Hne) as (before & token & after & Hsplit
                                            & Hbefore & Herr).
      exists (node :: before), token, after.
      split; [now rewrite Hsplit |].
      split; [constructor; [now rewrite Hnode | exact Hbefore] | exact Herr].
Qed.

Lemma or_flags_bits (converter : c_string -> Z -> sail_error_t * Z)
    (nodes : list c_string) :
  forall features : Z,
    let result := or_flags converter nodes features in
    (fst result = SAIL_SUCCESS
     <-> Forall (fun token =>
                   fst (converter token indeterminate_int) = SAIL_SUCCESS)
                nodes)
    /\ (fst result = SAIL_SUCCESS ->
        forall n,
          Z.testbit (snd result) n
          = Z.testbit features n
            || existsb (fun token =>
                          Z.testbit (snd (converter token indeterminate_int))
                                    n) nodes).
Proof.
  induction nodes as [| node nodes IH]; intros features0; cbv zeta.
  - cbn. split; [split; [constructor | reflexivity] |].
    intros _ n. now rewrite orb_false_r.
  - cbn [or_flags existsb].
    destruct (converter node indeterminate_int) as [status flag] eqn:Hnode.
    cbn [fst snd].
    destruct status;
      try (cbn [fst snd]; split;
           [split; [discriminate |
                    intros Hall; inversion Hall as [| ? ? Hfirst _]; subst;
                    rewrite Hnode in Hfirst; exact Hfirst]
           | discriminate]).
    destruct (IH (Z.lor features0 flag)) as (Hiff & Hbits).
    split.
    + rewrite Hiff. split.
      * intros Hall. constructor; [now rewrite Hnode | exact Hall].
      * intros Hall. now inversion Hall.
    + intros Hok n. rewrite (Hbits Hok n), Z.lor_spec.
      now rewrite orb_assoc.
Qed.

(** X4. [parse_serialized_ints], when the allocations succeed and
    [sail_strdup_length] copies the characters it is asked for. The length is
    set to the number of tokens of the value. The call succeeds exactly when
    the converter accepts every token, and the array then holds the converted
    tokens in their order; with no token at all the call succeeds and the
    array is left as it was. When it fails, the error is that of the first
    token the converter rejects. *)
Theorem parse_serialized_ints_converts_tokens (value : c_string)
    (target : list Z) (length : Z)
    (converter : c_string -> Z -> sail_error_t * Z) (w : world) :
  (forall w, fst (malloc w) = true) ->
  (forall value length w,
     exists w',
       sail_strdup_length value length w
       = (SAIL_SUCCESS, firstn length value, w')) ->
  let tokens := snd (fst (split_into_string_node_chain value [] w)) in
  let converted token := converter token indeterminate_int in
  let result := parse_serialized_ints value target length converter w in
  let status := fst (fst (fst result)) in
  snd (fst result) = Z.of_nat (List.length tokens)
  /\ (status = SAIL_SUCCESS
      <-> Forall (fun token => fst (converted token) = SAIL_SUCCESS) tokens)
  /\ (status = SAIL_SUCCESS -> tokens <> [] ->
      snd (fst (fst result)) = map (fun token => snd (converted token)) tokens)
  /\ (tokens = [] -> snd (fst (fst result)) = target)
  /\ (status <> SAIL_SUCCESS ->
      exists before token after,
        tokens = before ++ token :: after
        /\ Forall (fun token => fst (converted token) = SAIL_SUCCESS) before
        /\ status = fst (converted token)).
Proof.
  intros Hmalloc Hdup. cbv zeta.
  rewrite (split_chain Hmalloc Hdup).
  unfold parse_serialized_ints.
  destruct (split_into_string_node_chain_run Hmalloc Hdup value [] w)
    as [w1 Hrun].
  rewrite Hrun.
  replace (match tokens_from value [] with [] => [] | chain => chain end)
    with (tokens_from value []) by now destruct (tokens_from value []).
  destruct (tokens_from value []) as [| token tokens] eqn:Htokens.
  - cbn. split; [reflexivity |].
    split; [split; [constructor | reflexivity] |].
    split; [intros _ H; now elim H |].
    split; [reflexivity | intros H; now elim H].
  - replace (0 <? Z.of_nat (List.length (token :: tokens))) with true
      by (symmetry; apply Z.ltb_lt; cbn [List.length]; lia).
    pose proof (Hmalloc w1) as Hw1.
    destruct (malloc w1) as [ok w2]. cbn [fst] in Hw1. subst ok.
    pose proof (convert_nodes_fresh converter (token :: tokens) [])
      as Hloop.
    cbv zeta in Hloop. cbn [app List.length] in Hloop.
    cbn [List.length].
    destruct (convert_nodes converter (token :: tokens) 0 _)
      as [status converted].
    cbn [fst snd] in *.
    destruct Hloop as (Hiff & Hvalues & Hfirst).
    split; [reflexivity |]. split; [exact Hiff |].
    split; [intros Hok _; now apply Hvalues |].
    split; [discriminate | exact Hfirst].
Qed.

(** X5. [parse_flags], when the allocations succeed and [sail_strdup_length]
    copies the characters it is asked for. The call succeeds exactly when the
    converter accepts every token of the value; a bit is then set in the
    result exactly when one of the tokens converts to a flag that has it, so
    neither the previous content of the features nor the order or the
    repetition of the tokens matter, and a value without tokens clears the
    features. *)
Theorem parse_flags_unites_tokens (value : c_string) (features : Z)
    (converter : c_string -> Z -> sail_error_t * Z) (w : world) :
  (forall w, fst (malloc w) = true) ->
  (forall value length w,
     exists w',
       sail_strdup_length value length w
       = (SAIL_SUCCESS, firstn length value, w')) ->
  let tokens := snd (fst (split_into_string_node_chain value [] w)) in
  let converted token := converter token indeterminate_int in
  let result := parse_flags value features converter w in
  (fst (fst result) = SAIL_SUCCESS
   <-> Forall (fun token => fst (converted token) = SAIL_SUCCESS) tokens)
  /\ (fst (fst result) = SAIL_SUCCESS ->
      forall n,
        Z.testbit (snd (fst result)) n
        = existsb (fun token => Z.testbit (snd (converted token)) n) tokens)
  /\ (tokens = [] -> fst result = (SAIL_SUCCESS, 0)).
Proof.
  intros Hmalloc Hdup. cbv zeta.
  rewrite (split_chain Hmalloc Hdup).
  unfold parse_flags.
  destruct (split_into_string_node_chain_run Hmalloc Hdup value [] w)
    as [w1 Hrun].
  rewrite Hrun.
  replace (match tokens_from value [] with [] => [] | chain => chain end)
    with (tokens_from value []) by now destruct (tokens_from value []).
  pose proof (or_flags_bits converter (tokens_from value []) 0) as Hloop.
  cbv zeta in Hloop.
  destruct (or_flags converter (tokens_from value []) 0)
    as [status united] eqn:Hflags.
  cbn [fst snd] in *. destruct Hloop as (Hiff & Hbits).
  split; [exact Hiff |]. split.
  - intros Hok n. rewrite (Hbits Hok n). now rewrite Z.testbit_0_l.
  - intros Hnone. rewrite Hnone in Hflags. cbn in Hflags. congruence.
Qed.

(** ** The handler *)

Lemma strcmp_is_0_eq (a b : c_string) : strcmp_is_0 a b = true <-> a = b.
Proof.
  unfold strcmp_is_0. destruct (list_eq_dec ascii_dec a b); split;
    intros; congruence.
Qed.

(** X6. What a call of [inih_handler] can change. An empty value is accepted
    and changes nothing, whatever the section and the key, known or not. A
    value in a section other than [plugin], [read-features] and
    [write-features] is refused and changes nothing. A key of [plugin]
    leaves both feature records alone, a key of [read-features] changes the
    read features at most and a key of [write-features] the write features
    at most. The layout changes only through the key [layout] of [plugin],
    and is then the number [atoi] reads from the value. *)
Theorem inih_handler_scope (data : sail_plugin_info)
    (section name value : c_string) (w : world) :
  let result := inih_handler data section name value w in
  let data' := snd (fst result) in
  (value = [] -> result = (1, data, w))
  /\ (value <> [] -> section <> lit "plugin" ->
      section <> lit "read-features" -> section <> lit "write-features" ->
      result = (0, data, w))
  /\ (section = lit "plugin" ->
      read_features data' = read_features data
      /\ write_features data' = write_features data)
  /\ (section = lit "read-features" ->
      data' = with_read_features data (read_features data'))
  /\ (section = lit "write-features" ->
      data' = with_write_features data (write_features data'))
  /\ (layout data' <> layout data ->
      section = lit "plugin" /\ name = lit "layout" /\ value <> []
      /\ layout data' = atoi value)
  /\ (value <> [] -> section = lit "plugin" -> name = lit "layout" ->
      result = (1, with_layout data (atoi value), w)).
Proof.
  cbv zeta. unfold inih_handler.
  destruct value as [| c value].
  { cbn [List.length Nat.eqb fst snd].
    repeat split; intros; first [congruence | now destruct data]. }
  cbn [List.length Nat.eqb].
  assert (Hsame : forall d : sail_plugin_info,
            d = with_read_features d (read_features d)
            /\ d = with_write_features d (write_features d))
    by (intros d; now destruct d).
  destruct (strcmp_is_0 section (lit "plugin")) eqn:Hplugin.
  { apply strcmp_is_0_eq in Hplugin. subst section.
    unfold plugin_key.
    destruct (strcmp_is_0 name (lit "layout")) eqn:Hlayout.
    { apply strcmp_is_0_eq in Hlayout. cbn [fst snd].
      repeat split; intros; first [congruence | discriminate]. }
    assert (Hname : name <> lit "layout").
    { intros H. apply strcmp_is_0_eq in H. congruence. }
    repeat match goal with
           | |- context [if strcmp_is_0 name ?k then _ else _] =>
               destruct (strcmp_is_0 name k)
           end;
      repeat match goal with
             | |- context [sail_strdup ?v ?w] =>
                 destruct (sail_strdup v w) as [[? ?] ?]
             | |- context [split_into_string_node_chain ?v ?t ?w] =>
                 destruct (split_into_string_node_chain v t w)
                   as [[status ?] ?]; destruct status
             end;
      cbn [fst snd layout read_features write_features with_version
           with_name with_description with_extension_node
           with_mime_type_node];
      repeat split; intros; first [congruence | discriminate]. }
  assert (Hnot_plugin : section <> lit "plugin").
  { intros H. apply strcmp_is_0_eq in H. congruence. }
  destruct (strcmp_is_0 section (lit "read-features")) eqn:Hread.
  { apply strcmp_is_0_eq in Hread. subst section.
    destruct (read_key (read_features data) name (c :: value) w)
      as [[res rf] w'].
    cbn [fst snd layout read_features write_features with_read_features].
    repeat split; intros; first [congruence | discriminate]. }
  assert (Hnot_read : section <> lit "read-features").
  { intros H. apply strcmp_is_0_eq in H. congruence. }
  destruct (strcmp_is_0 section (lit "write-features")) eqn:Hwrite.
  { apply strcmp_is_0_eq in Hwrite. subst section.
    destruct (write_key (write_features data) name (c :: value) w)
      as [[res wf] w'].
    cbn [fst snd layout read_features write_features with_write_features].
    repeat split; intros; first [congruence | discriminate]. }
  assert (Hnot_write : section <> lit "write-features").
  { intros H. apply strcmp_is_0_eq in H. congruence. }
  cbn [fst snd].
  repeat split; intros; first [congruence | apply Hsame].
Qed.

End Parser.

(** ** Runs of the parser *)

(** Collaborators for the runs: an allocator that always delivers, string
    copies, decimal digits for [atoi] and a converter that knows the three
    image features. *)
Definition sample_malloc (w : unit) : bool * unit := (true, w).

Definition sample_strdup_length (value : c_string) (length : nat) (w : unit)
  : sail_error_t * c_string * unit :=
  (SAIL_SUCCESS, firstn length value, w).

Definition sample_strdup (value : c_string) (w : unit)
  : sail_error_t * option c_string * unit :=
  (SAIL_SUCCESS, Some value, w).

(** [atoi] on the numbers that fit an [int]: white space, an optional sign,
    and the decimal digits up to the first other character. *)
Fixpoint sample_digits (value : c_string) (n : Z) : Z :=
  match value with
  | c :: rest =>
      let digit := Z.of_nat (nat_of_ascii c) - 48 in
      if (0 <=? digit) && (digit <=? 9)
      then sample_digits rest (10 * n + digit)
      else n
  | [] => n
  end.

Fixpoint sample_atoi (value : c_string) : Z :=
  match value with
  | c :: rest =>
      let code := Z.of_nat (nat_of_ascii c) in
      if (code =? 32) || ((9 <=? code) && (code <=? 13))
      then sample_atoi rest
      else if code =? 45 then - sample_digits rest 0
      else if code =? 43 then sample_digits rest 0
      else sample_digits value 0
  | [] => 0
  end.

Definition sample_feature_from_string (str : c_string) (result : Z)
  : sail_error_t * Z :=
  if strcmp_is_0 str (lit "STATIC") then (SAIL_SUCCESS, 1)
  else if strcmp_is_0 str (lit "ANIMATED") then (SAIL_SUCCESS, 2)
  else if strcmp_is_0 str (lit "MULTIPAGED") then (SAIL_SUCCESS, 4)
  else (SAIL_FILE_PARSE_ERROR, result).

Definition sample_handler :=
  inih_handler unit sample_malloc 0 sample_strdup_length sample_strdup
    (fun s => s) sample_atoi sample_feature_from_string
    sample_feature_from_string sample_feature_from_string
    sample_feature_from_string.

(** The descriptor [alloc_plugin_info] and the feature allocators leave. *)
Definition fresh_descriptor : sail_plugin_info :=
  {| path := None; layout := 0; version := None; name := None;
     description := None; extension_node := []; mime_type_node := [];
     read_features :=
       {| rf_input_pixel_formats := []; rf_input_pixel_formats_length := 0;
          rf_output_pixel_formats := [];
          rf_output_pixel_formats_length := 0;
          rf_preferred_output_pixel_format := 0; rf_features := 0 |};
     write_features := no_write_features |}.

(** A features line with stray semicolons and a repeated flag. *)
Example handler_reads_features :
  match sample_handler fresh_descriptor (lit "read-features") (lit "features")
          (lit ";STATIC;;MULTIPAGED;STATIC;") tt with
  | (res, data, _) => (res, rf_features (read_features data)) = (1, 5)
  end.
Proof. vm_compute. reflexivity. Qed.

(** A list with an unknown name is refused at that name. *)
Example handler_refuses_unknown_flag :
  match sample_handler fresh_descriptor (lit "write-features")
          (lit "properties") (lit "STATIC;INTERLACED") tt with
  | (res, data, _) => (res, wf_properties (write_features data)) = (0, 1)
  end.
Proof. vm_compute. reflexivity. Qed.

Example handler_reads_layout :
  match sample_handler fresh_descriptor (lit "plugin") (lit "layout")
          (lit "2") tt with
  | (res, data, _) => (res, layout data) = (1, 2)
  end.
Proof. vm_compute. reflexivity. Qed.

Lemma split_into_string_node_chain_tokens_witness :
  let chain v :=
    snd (fst (split_into_string_node_chain unit sample_malloc
                sample_strdup_length v [] tt)) in
  fst (fst (split_into_string_node_chain unit sample_malloc
              sample_strdup_length (lit ";STATIC;;ANIMATED;") [] tt))
  = SAIL_SUCCESS
  /\ chain (lit "STATIC" ++ ";"%char :: lit "ANIMATED")
     = chain (lit "STATIC") ++ chain (lit "ANIMATED").
Proof.
  destruct (split_into_string_node_chain_tokens unit sample_malloc
              sample_strdup_length (lit ";STATIC;;ANIMATED;") [] tt)
    as (Hstatus & _ & _ & Hjoin & _).
  - intros w. reflexivity.
  - intros value length w. exists w. reflexivity.
  - split; [exact Hstatus |].
    exact (Hjoin (lit "STATIC") (lit "ANIMATED")).
Defined.

Lemma parse_serialized_ints_converts_tokens_witness :
  snd (fst (parse_serialized_ints unit sample_malloc 0 sample_strdup_length
              (lit "STATIC;ANIMATED") [] 0 sample_feature_from_string tt))
  = Z.of_nat
      (List.length
         (snd (fst (split_into_string_node_chain unit sample_malloc
                      sample_strdup_length (lit "STATIC;ANIMATED") [] tt)))).
Proof.
  destruct (parse_serialized_ints_converts_tokens unit sample_malloc 0
              sample_strdup_length (lit "STATIC;ANIMATED") [] 0
              sample_feature_from_string tt)
    as (Hlength & _).
  - intros w. reflexivity.
  - intros value length w. exists w. reflexivity.
  - exact Hlength.
Defined.

Lemma parse_flags_unites_tokens_witness :
  fst (parse_flags unit sample_malloc 0 sample_strdup_length (lit ";;") 7
         sample_feature_from_string tt)
  = (SAIL_SUCCESS, 0).
Proof.
  destruct (parse_flags_unites_tokens unit sample_malloc 0
              sample_strdup_length (lit ";;") 7 sample_feature_from_string tt)
    as (_ & _ & Hnone).
  - intros w. reflexivity.
  - intros value length w. exists w. reflexivity.
  - apply Hnone. reflexivity.
Defined.

Lemma inih_handler_scope_witness :
  sample_handler fresh_descriptor (lit "no-such-section") (lit "layout") [] tt
  = (1, fresh_descriptor, tt)
  /\ sample_handler fresh_descriptor (lit "no-such-section") (lit "layout")
       (lit "2") tt
     = (0, fresh_descriptor, tt).
Proof.
  split.
  - apply (proj1 (inih_handler_scope unit sample_malloc 0
                    sample_strdup_length sample_strdup (fun s => s)
                    sample_atoi sample_feature_from_string
                    sample_feature_from_string sample_feature_from_string
                    sample_feature_from_string fresh_descriptor
                    (lit "no-such-section") (lit "layout") [] tt)).
    reflexivity.
  - apply (proj1 (proj2 (inih_handler_scope unit sample_malloc 0
                           sample_strdup_length sample_strdup (fun s => s)
                           sample_atoi sample_feature_from_string
                           sample_feature_from_string
                           sample_feature_from_string
                           sample_feature_from_string fresh_descriptor
                           (lit "no-such-section") (lit "layout") (lit "2")
                           tt))); vm_compute; discriminate.
Defined.

End PluginInfoParser.

(* ================================================================== *)
(** * The PCX reader ([sail-codecs/pcx/pcx.c])                         *)
(* ================================================================== *)

Module Pcx.

(** PCX signature. *)
Definition SAIL_PCX_SIGNATURE : Z := 10.

Definition SEEK_CUR : Z := 1.

(** Modelled from the spec: [struct SailPcxHeader] is declared in
    [helpers.h], which is not among the sources; these are the fields
    [pcx.c] reads. *)
Record SailPcxHeader : Type := {
  id : Z;
  encoding : Z;
  bits_per_plane : Z;
  xmin : Z;
  ymin : Z;
  xmax : Z;
  ymax : Z;
  hdpi : Z;
  vdpi : Z;
  header_palette : list Z;
  planes : Z;
  header_bytes_per_line : Z;
  palette_info : Z
}.

(** What [sail_alloc_image] hands out before any field is assigned. *)
Definition empty_image : sail_image :=
  {| pixels := 0; width := 0; height := 0; bytes_per_line := 0;
     pixel_format := SAIL_PIXEL_FORMAT_UNKNOWN; palette := None;
     source_image := None; resolution := None |}.

Section Codec.

(** The state outside the codec: the position and content of the byte stream
    and the allocator. *)
Variable world : Type.

(** [struct sail_read_options], opaque to this codec. *)
Variable sail_read_options : Type.

(** [struct sail_io]: the callbacks the codec calls on [io->stream]. A
    strict read fills the buffer at the given address. *)
Record sail_io : Type := {
  strict_read : world -> mem -> Z -> Z -> sail_status_t * world * mem;
  seek : world -> Z -> Z -> sail_status_t * world
}.

(** Codec-specific state. *)
Record pcx_state : Type := {
  read_options : option sail_read_options;
  pcx_header : SailPcxHeader;
  scan : Z;                 (* buffer to read a single plane scan line *)
  frame_read : bool
}.

(** Collaborators of [sail-common] and [helpers.c], and the constants of
    [helpers.h]. *)
Variable SAIL_PCX_NO_ENCODING : Z.
Variable sizeof_pcx_state : Z.
Variable indeterminate_header : SailPcxHeader.
Variable sail_check_io_valid : sail_io -> sail_status_t.
Variable sail_malloc : Z -> world -> sail_status_t * Z * world.
Variable sail_copy_read_options :
  sail_read_options -> world -> sail_status_t * option sail_read_options * world.
Variable pcx_private_read_header :
  sail_io -> world -> sail_status_t * SailPcxHeader * world.
Variable sail_alloc_image : world -> sail_status_t * world.
Variable sail_alloc_source_image : world -> sail_status_t * world.
Variable pcx_private_sail_pixel_format :
  Z -> Z -> Z -> sail_status_t * SailPixelFormat.
Variable pcx_private_build_palette :
  SailPixelFormat -> sail_io -> list Z -> world ->
  sail_status_t * option sail_palette * world.
Variable sail_alloc_resolution_from_data :
  Z -> Z -> world -> sail_status_t * option sail_resolution * world.

Definition alloc_pcx_state (w : world) : sail_status_t * option pcx_state * world :=
  match sail_malloc sizeof_pcx_state w with
  | (SAIL_OK, _, w1) =>
      (SAIL_OK,
       Some {| read_options := None; pcx_header := indeterminate_header;
               scan := 0; frame_read := false |},
       w1)
  | (err, _, w1) => (err, None, w1)
  end.

Definition with_read_options (st : pcx_state)
    (options : option sail_read_options) : pcx_state :=
  {| read_options := options; pcx_header := pcx_header st;
     scan := scan st; frame_read := frame_read st |}.

Definition with_pcx_header (st : pcx_state) (header : SailPcxHeader)
  : pcx_state :=
  {| read_options := read_options st; pcx_header := header;
     scan := scan st; frame_read := frame_read st |}.

(** [sail_codec_read_init_v6_pcx]. [state_ptr] tells whether the [state]
    out-pointer is not NULL; the second component of the result is [*state]. *)
Definition sail_codec_read_init_v6_pcx (io : sail_io)
    (options : option sail_read_options) (state_ptr : bool) (w : world)
  : sail_status_t * option pcx_state * world :=
  if negb state_ptr then (SAIL_ERROR_NULL_PTR, None, w) else
  match sail_check_io_valid io with
  | SAIL_OK =>
      match options with
      | None => (SAIL_ERROR_NULL_PTR, None, w)
      | Some caller_options =>
          (* Allocate a new state. *)
          match alloc_pcx_state w with
          | (SAIL_OK, Some st, w1) =>
              (* Deep copy read options. *)
              match sail_copy_read_options caller_options w1 with
              | (SAIL_OK, copied, w2) =>
                  let st := with_read_options st copied in
                  (* Read PCX header. *)
                  match pcx_private_read_header io w2 with
                  | (SAIL_OK, header, w3) =>
                      let st := with_pcx_header st header in
                      if negb (id header =? SAIL_PCX_SIGNATURE)
                      then (SAIL_ERROR_BROKEN_IMAGE, Some st, w3)
                      else if header_bytes_per_line header =? 0
                      then (SAIL_ERROR_BROKEN_IMAGE, Some st, w3)
                      else (SAIL_OK, Some st, w3)
                  | (err, header, w3) =>
                      (err, Some (with_pcx_header st header), w3)
                  end
              | (err, _, w2) => (err, Some st, w2)
              end
          | (SAIL_OK, None, w1) => (SAIL_ERROR_MEMORY_ALLOCATION, None, w1)
          | (err, _, w1) => (err, None, w1)
          end
      end
  | err => (err, None, w)
  end.

(** The formats for which [seek_next_frame] allocates the temporary scan
    line buffer. *)
Definition needs_scan_buffer (pixel_format : SailPixelFormat) : bool :=
  match pixel_format with
  | SAIL_PIXEL_FORMAT_BPP24_RGB
  | SAIL_PIXEL_FORMAT_BPP16_RGBA
  | SAIL_PIXEL_FORMAT_BPP32_RGBA => true
  | _ => false
  end.

Definition with_frame_read (st : pcx_state) : pcx_state :=
  {| read_options := read_options st; pcx_header := pcx_header st;
     scan := scan st; frame_read := true |}.

Definition with_scan (st : pcx_state) (p : Z) : pcx_state :=
  {| read_options := read_options st; pcx_header := pcx_header st;
     scan := p; frame_read := frame_read st |}.

(** [sail_codec_read_seek_next_frame_v6_pcx]. [image_ptr] tells whether the
    [image] out-pointer is not NULL; the result carries the state the call
    leaves behind and [*image] when it was assigned. *)
Definition sail_codec_read_seek_next_frame_v6_pcx (state : option pcx_state)
    (io : sail_io) (image_ptr : bool) (w : world)
  : sail_status_t * option pcx_state * option sail_image * world :=
  match state with
  | None => (SAIL_ERROR_NULL_PTR, state, None, w)
  | Some pcx_state0 =>
  match sail_check_io_valid io with
  | SAIL_OK =>
  if negb image_ptr then (SAIL_ERROR_NULL_PTR, state, None, w) else
  if frame_read pcx_state0
  then (SAIL_ERROR_NO_MORE_FRAMES, state, None, w)
  else
    let pcx_state1 := with_frame_read pcx_state0 in
    let header := pcx_header pcx_state1 in
    match sail_alloc_image w with
    | (SAIL_OK, w1) =>
    match sail_alloc_source_image w1 with
    | (SAIL_OK, w2) =>
    match pcx_private_sail_pixel_format
            (bits_per_plane header) (planes header) (palette_info header) with
    | (SAIL_OK, source_format) =>
        let image_width := u32 (xmax header - xmin header + 1) in
        let image_height := u32 (ymax header - ymin header + 1) in
        match sail_bytes_per_line image_width source_format with
        | (SAIL_OK, stride) =>
            (* Temporary scan line buffer. *)
            let scan_step :=
              if needs_scan_buffer source_format
              then match sail_malloc stride w2 with
                   | (s, p, w3) => (s, with_scan pcx_state1 p, w3)
                   end
              else (SAIL_OK, pcx_state1, w2) in
            match scan_step with
            | (SAIL_OK, pcx_state2, w3) =>
                (* Build palette if needed. *)
                match pcx_private_build_palette source_format io
                        (header_palette header) w3 with
                | (SAIL_OK, built_palette, w4) =>
                    let resolution_step :=
                      if (0 <? hdpi header) && (0 <? vdpi header)
                      then sail_alloc_resolution_from_data
                             (hdpi header) (vdpi header) w4
                      else (SAIL_OK, None, w4) in
                    match resolution_step with
                    | (SAIL_OK, built_resolution, w5) =>
                        (SAIL_OK, Some pcx_state2,
                         Some {| pixels := 0;
                                 width := image_width;
                                 height := image_height;
                                 bytes_per_line := stride;
                                 pixel_format := source_format;
                                 palette := built_palette;
                                 source_image :=
                                   Some {| source_pixel_format := source_format;
                                           compression := SAIL_COMPRESSION_RLE |};
                                 resolution := built_resolution |},
                         w5)
                    | (err, _, w5) => (err, Some pcx_state2, None, w5)
                    end
                | (err, _, w4) => (err, Some pcx_state2, None, w4)
                end
            | (err, _, w3) => (err, Some pcx_state1, None, w3)
            end
        | (err, _) => (err, Some pcx_state1, None, w2)
        end
    | (err, _) => (err, Some pcx_state1, None, w2)
    end
    | (err, w2) => (err, Some pcx_state1, None, w2)
    end
    | (err, w1) => (err, Some pcx_state1, None, w1)
    end
  | err => (err, state, None, w)
  end
  end.

(** The row loop of the indexed and grayscale branch of [read_frame]: a
    strict read of one line into the pixel buffer, then a seek over the line
    padding. *)
Fixpoint read_plain_rows (rows : nat) (row : Z) (io : sail_io)
    (image : sail_image) (line_padding : Z) (w : world) (m : mem)
  : sail_status_t * world * mem :=
  match rows with
  | O => (SAIL_OK, w, m)
  | S rows' =>
      let scan := pixels image + u32 (bytes_per_line image * row) in
      match strict_read io w m scan (bytes_per_line image) with
      | (SAIL_OK, w1, m1) =>
          match seek io w1 line_padding SEEK_CUR with
          | (SAIL_OK, w2) =>
              read_plain_rows rows' (row + 1) io image line_padding w2 m1
          | (err, w2) => (err, w2, m1)
          end
      | (err, w1, m1) => (err, w1, m1)
      end
  end.

(** The column loop of the RGB branch: one component of every pixel of the
    line is taken from the plane buffer. [column * 3] is an unsigned
    product; it and then [component] are added to the pointer. *)
Fixpoint spread_plane (columns : nat) (column : Z) (target_scan plane : Z)
    (component : Z) (m : mem) : mem :=
  match columns with
  | O => m
  | S columns' =>
      let m1 := store8 m (target_scan + u32 (column * 3) + component)
                       (load8 m (plane + column)) in
      spread_plane columns' (column + 1) target_scan plane component m1
  end.

(** The component loop of the RGB branch. *)
Fixpoint read_planes (components : nat) (component : Z) (io : sail_io)
    (image : sail_image) (plane : Z) (line_padding : Z) (target_scan : Z)
    (w : world) (m : mem) : sail_status_t * world * mem :=
  match components with
  | O => (SAIL_OK, w, m)
  | S components' =>
      match strict_read io w m plane (width image) with
      | (SAIL_OK, w1, m1) =>
          match seek io w1 line_padding SEEK_CUR with
          | (SAIL_OK, w2) =>
              let m2 := spread_plane (Z.to_nat (width image)) 0 target_scan
                                     plane component m1 in
              read_planes components' (component + 1) io image plane
                          line_padding target_scan w2 m2
          | (err, w2) => (err, w2, m1)
          end
      | (err, w1, m1) => (err, w1, m1)
      end
  end.

(** The row loop of the RGB branch. *)
Fixpoint read_rgb_rows (rows : nat) (row : Z) (io : sail_io)
    (image : sail_image) (plane : Z) (line_padding : Z) (w : world) (m : mem)
  : sail_status_t * world * mem :=
  match rows with
  | O => (SAIL_OK, w, m)
  | S rows' =>
      let target_scan := pixels image + u32 (bytes_per_line image * row) in
      match read_planes 3 0 io image plane line_padding target_scan w m with
      | (SAIL_OK, w1, m1) =>
          read_rgb_rows rows' (row + 1) io image plane line_padding w1 m1
      | failure => failure
      end
  end.

(** [sail_codec_read_frame_v6_pcx]. *)
Definition sail_codec_read_frame_v6_pcx (state : option pcx_state)
    (io : sail_io) (image : sail_image) (w : world) (m : mem)
  : sail_status_t * world * mem :=
  match state with
  | None => (SAIL_ERROR_NULL_PTR, w, m)
  | Some pcx_state0 =>
  match sail_check_io_valid io with
  | SAIL_OK =>
  match sail_check_image_skeleton_valid image with
  | SAIL_OK =>
      if encoding (pcx_header pcx_state0) =? SAIL_PCX_NO_ENCODING then
        match pixel_format image with
        | SAIL_PIXEL_FORMAT_BPP1_INDEXED
        | SAIL_PIXEL_FORMAT_BPP4_INDEXED
        | SAIL_PIXEL_FORMAT_BPP8_INDEXED
        | SAIL_PIXEL_FORMAT_BPP8_GRAYSCALE =>
            let line_padding :=
              u32 (header_bytes_per_line (pcx_header pcx_state0)
                   - bytes_per_line image) in
            read_plain_rows (Z.to_nat (height image)) 0 io image
                            line_padding w m
        | SAIL_PIXEL_FORMAT_BPP24_RGB =>
            let line_padding :=
              u32 (header_bytes_per_line (pcx_header pcx_state0)
                   - width image) in
            read_rgb_rows (Z.to_nat (height image)) 0 io image
                          (scan pcx_state0) line_padding w m
        | SAIL_PIXEL_FORMAT_BPP16_RGBA
        | SAIL_PIXEL_FORMAT_BPP32_RGBA => (SAIL_OK, w, m)
        | _ => (SAIL_OK, w, m)
        end
      else (SAIL_OK, w, m)
  | err => (err, w, m)
  end
  | err => (err, w, m)
  end
  end.

(** The statuses of [calls] successive calls of [seek_next_frame] on one open
    state, each call starting from what the previous one left. *)
Fixpoint seek_statuses (calls : nat) (state : option pcx_state) (io : sail_io)
    (w : world) : list sail_status_t :=
  match calls with
  | O => []
  | S calls' =>
      match sail_codec_read_seek_next_frame_v6_pcx state io true w with
      | (status, state', _, w') =>
          status :: seek_statuses calls' state' io w'
      end
  end.

(** Every step of [seek_next_frame] that is left to a collaborator succeeds:
    the allocations do not fail, the header describes a pixel format the
    helper knows and whose stride can be computed, and the palette can be
    built. *)
Definition collaborators_succeed (header : SailPcxHeader) (io : sail_io)
  : Prop :=
  (forall w, fst (sail_alloc_image w) = SAIL_OK)
  /\ (forall w, fst (sail_alloc_source_image w) = SAIL_OK)
  /\ (forall n w, fst (fst (sail_malloc n w)) = SAIL_OK)
  /\ (forall w, fst (fst (sail_alloc_resolution_from_data
                            (hdpi header) (vdpi header) w)) = SAIL_OK)
  /\ (exists source_format,
        pcx_private_sail_pixel_format
          (bits_per_plane header) (planes header) (palette_info header)
        = (SAIL_OK, source_format)
        /\ source_format <> SAIL_PIXEL_FORMAT_UNKNOWN
        /\ forall w, fst (fst (pcx_private_build_palette source_format io
                                 (header_palette header) w)) = SAIL_OK).

Lemma sail_bytes_per_line_known (image_width : Z) (pf : SailPixelFormat) :
  pf <> SAIL_PIXEL_FORMAT_UNKNOWN ->
  fst (sail_bytes_per_line image_width pf) = SAIL_OK.
Proof. destruct pf; intros H; try reflexivity. now elim H. Qed.

Lemma seek_next_frame_exhausted (st : pcx_state) (io : sail_io) (w : world) :
  sail_check_io_valid io = SAIL_OK ->
  frame_read st = true ->
  sail_codec_read_seek_next_frame_v6_pcx (Some st) io true w
  = (SAIL_ERROR_NO_MORE_FRAMES, Some st, None, w).
Proof.
  intros Hio Hread. unfold sail_codec_read_seek_next_frame_v6_pcx.
  rewrite Hio, Hread. reflexivity.
Qed.

Lemma seek_statuses_exhausted (calls : nat) (st : pcx_state) (io : sail_io)
    (w : world) :
  sail_check_io_valid io = SAIL_OK ->
  frame_read st = true ->
  seek_statuses calls (Some st) io w = repeat SAIL_ERROR_NO_MORE_FRAMES calls.
Proof.
  intros Hio Hread. induction calls as [| calls IH]; [reflexivity |].
  cbn [seek_statuses]. rewrite seek_next_frame_exhausted by assumption.
  simpl. now rewrite IH.
Qed.

(** What the first call leaves behind: a state whose frame is consumed,
    whatever the status. *)
Lemma seek_next_frame_consumes (st : pcx_state) (io : sail_io) (w : world) :
  sail_check_io_valid io = SAIL_OK ->
  frame_read st = false ->
  exists status st' image w',
    sail_codec_read_seek_next_frame_v6_pcx (Some st) io true w
    = (status, Some st', image, w')
    /\ frame_read st' = true.
Proof.
  intros Hio Hread. unfold sail_codec_read_seek_next_frame_v6_pcx.
  rewrite Hio, Hread. cbv zeta. simpl negb. cbv iota.
  repeat match goal with
         | |- context [match ?e with _ => _ end] =>
             lazymatch e with
             | context [match _ with _ => _ end] => fail
             | _ => destruct e
             end
         end;
    do 4 eexists; (split; [reflexivity | reflexivity]).
Qed.

Lemma seek_next_frame_first (st : pcx_state) (io : sail_io) (w : world) :
  sail_check_io_valid io = SAIL_OK ->
  frame_read st = false ->
  collaborators_succeed (pcx_header st) io ->
  exists st' image w',
    sail_codec_read_seek_next_frame_v6_pcx (Some st) io true w
    = (SAIL_OK, Some st', Some image, w')
    /\ frame_read st' = true.
Proof.
  intros Hio Hread (Himg & Hsrc & Hmalloc & Hres & pf & Hpf & Hknown & Hpal).
  unfold sail_codec_read_seek_next_frame_v6_pcx.
  rewrite Hio, Hread. cbv zeta. simpl negb. cbv iota.
  specialize (Himg w). destruct (sail_alloc_image w) as [s1 w1].
  simpl in Himg. subst s1.
  specialize (Hsrc w1). destruct (sail_alloc_source_image w1) as [s2 w2].
  simpl in Hsrc. subst s2.
  simpl pcx_header. rewrite Hpf.
  pose proof (sail_bytes_per_line_known
                (u32 (xmax (pcx_header st) - xmin (pcx_header st) + 1)) pf Hknown)
    as Hbpl.
  destruct (sail_bytes_per_line _ pf) as [s3 stride]. simpl in Hbpl. subst s3.
  assert (Hscan : exists st2 w3,
            (if needs_scan_buffer pf
             then match sail_malloc stride w2 with
                  | (s, p, w3) => (s, with_scan (with_frame_read st) p, w3)
                  end
             else (SAIL_OK, with_frame_read st, w2))
            = (SAIL_OK, st2, w3) /\ frame_read st2 = true).
  { destruct (needs_scan_buffer pf).
    - specialize (Hmalloc stride w2).
      destruct (sail_malloc stride w2) as [[s p] w3]. simpl in Hmalloc. subst s.
      now exists (with_scan (with_frame_read st) p), w3.
    - now exists (with_frame_read st), w2. }
  destruct Hscan as (st2 & w3 & -> & Hst2).
  specialize (Hpal w3).
  destruct (pcx_private_build_palette pf io _ w3) as [[s4 pal] w4].
  simpl in Hpal. subst s4.
  destruct ((0 <? hdpi (pcx_header st)) && (0 <? vdpi (pcx_header st))).
  - specialize (Hres w4).
    destruct (sail_alloc_resolution_from_data _ _ w4) as [[s5 res] w5].
    simpl in Hres. subst s5.
    do 3 eexists. split; [reflexivity | exact Hst2].
  - do 3 eexists. split; [reflexivity | exact Hst2].
Qed.

(** A successful [init] has checked the stream and left a state whose frame
    is not consumed. *)
Lemma init_leaves_fresh_state (io : sail_io)
    (options : option sail_read_options) (state_ptr : bool) (w0 w : world)
    (state : option pcx_state) :
  sail_codec_read_init_v6_pcx io options state_ptr w0 = (SAIL_OK, state, w) ->
  sail_check_io_valid io = SAIL_OK
  /\ exists st, state = Some st /\ frame_read st = false.
Proof.
  unfold sail_codec_read_init_v6_pcx, alloc_pcx_state.
  destruct state_ptr; cbn [negb]; [| discriminate].
  destruct (sail_check_io_valid io); try discriminate.
  destruct options as [caller_options |]; [| discriminate].
  destruct (sail_malloc sizeof_pcx_state w0) as [[s1 p] w1].
  destruct s1; try discriminate.
  destruct (sail_copy_read_options caller_options w1) as [[s2 copied] w2].
  destruct s2; try discriminate.
  destruct (pcx_private_read_header io w2) as [[s3 header] w3].
  destruct s3; try discriminate.
  destruct (negb (id header =? SAIL_PCX_SIGNATURE)); [discriminate |].
  destruct (header_bytes_per_line header =? 0); [discriminate |].
  intros H. inversion H. split; [reflexivity |].
  eexists. split; reflexivity.
Qed.

(** C9. After a successful [init], the calls of [seek_next_frame] that
    follow the first one all return [SAIL_ERROR_NO_MORE_FRAMES], whatever the
    first call returned; and when the collaborating steps succeed, the first
    call returns [SAIL_OK] with an image descriptor. *)
Theorem seek_next_frame_single_frame (io : sail_io)
    (options : option sail_read_options) (w0 w : world)
    (state : option pcx_state) (calls : nat) :
  sail_codec_read_init_v6_pcx io options true w0 = (SAIL_OK, state, w) ->
  (exists status,
     seek_statuses (S calls) state io w
     = status :: repeat SAIL_ERROR_NO_MORE_FRAMES calls)
  /\ (forall st, state = Some st ->
      collaborators_succeed (pcx_header st) io ->
      seek_statuses (S calls) state io w
      = SAIL_OK :: repeat SAIL_ERROR_NO_MORE_FRAMES calls
      /\ exists st' image w',
           sail_codec_read_seek_next_frame_v6_pcx state io true w
           = (SAIL_OK, Some st', Some image, w')).
Proof.
  intros Hinit.
  destruct (init_leaves_fresh_state _ _ _ _ _ _ Hinit)
    as (Hio & st & -> & Hread).
  split.
  - destruct (seek_next_frame_consumes st io w Hio Hread)
      as (status & st' & image & w' & Hcall & Hst').
    exists status. cbn [seek_statuses]. rewrite Hcall.
    now rewrite seek_statuses_exhausted.
  - intros st0 Hst0 Hok. inversion Hst0; subst st0.
    destruct (seek_next_frame_first st io w Hio Hread Hok)
      as (st' & image & w' & Hcall & Hst').
    split.
    + cbn [seek_statuses]. rewrite Hcall.
      now rewrite seek_statuses_exhausted.
    + now exists st', image, w'.
Qed.

(** C10. With valid arguments, [read_frame] returns [SAIL_OK] and leaves
    the stream and the memory as they were when the header does not declare
    the no-encoding value, and also when it does and the frame is BPP16-RGBA
    or BPP32-RGBA. *)
Theorem read_frame_leaves_pixels (st : pcx_state) (io : sail_io)
    (image : sail_image) (w : world) (m : mem) :
  sail_check_io_valid io = SAIL_OK ->
  sail_check_image_skeleton_valid image = SAIL_OK ->
  encoding (pcx_header st) <> SAIL_PCX_NO_ENCODING
  \/ pixel_format image = SAIL_PIXEL_FORMAT_BPP16_RGBA
  \/ pixel_format image = SAIL_PIXEL_FORMAT_BPP32_RGBA ->
  sail_codec_read_frame_v6_pcx (Some st) io image w m = (SAIL_OK, w, m).
Proof.
  intros Hio Himage Hcase. unfold sail_codec_read_frame_v6_pcx.
  rewrite Hio, Himage.
  destruct Hcase as [Henc | [Hpf | Hpf]].
  - apply Z.eqb_neq in Henc. now rewrite Henc.
  - rewrite Hpf. now destruct (_ =? _).
  - rewrite Hpf. now destruct (_ =? _).
Qed.

(** ** Finishing, and the encoding entry points *)

(** [struct sail_write_options], and the releasing collaborators of
    [sail-common]. The block of the state itself has no address in this
    model: [sail_free_state] stands for [sail_free(pcx_state)]. *)
Variable sail_write_options : Type.
Variable sail_destroy_read_options :
  option sail_read_options -> world -> world.
Variable sail_destroy_write_options :
  option sail_write_options -> world -> world.
Variable sail_free : Z -> world -> world.
Variable sail_free_state : world -> world.

(** [destroy_pcx_state]; the [write_options] of a state are NULL from
    [alloc_pcx_state] on. *)
Definition destroy_pcx_state (state : option pcx_state) (w : world) : world :=
  match state with
  | None => w
  | Some st =>
      let w1 := sail_destroy_read_options (read_options st) w in
      let w2 := sail_destroy_write_options None w1 in
      let w3 := sail_free (scan st) w2 in
      sail_free_state w3
  end.

(** [sail_codec_read_finish_v6_pcx]. [state_ptr] tells whether the [state]
    pointer is not NULL and [state] is what it points to; the result carries
    [*state]. *)
Definition sail_codec_read_finish_v6_pcx (state_ptr : bool)
    (state : option pcx_state) (io : sail_io) (w : world)
  : sail_status_t * option pcx_state * world :=
  if negb state_ptr then (SAIL_ERROR_NULL_PTR, state, w) else
  match sail_check_io_valid io with
  | SAIL_OK => (SAIL_OK, None, destroy_pcx_state state w)
  | err => (err, state, w)
  end.

(** [sail_codec_write_init_v6_pcx]; the booleans tell whether the pointers
    are not NULL. *)
Definition sail_codec_write_init_v6_pcx (io : sail_io)
    (write_options_ptr state_ptr : bool) : sail_status_t :=
  if negb state_ptr then SAIL_ERROR_NULL_PTR else
  match sail_check_io_valid io with
  | SAIL_OK =>
      if negb write_options_ptr then SAIL_ERROR_NULL_PTR
      else SAIL_ERROR_NOT_IMPLEMENTED
  | err => err
  end.

(** [sail_codec_write_seek_next_frame_v6_pcx]. *)
Definition sail_codec_write_seek_next_frame_v6_pcx (state_ptr : bool)
    (io : sail_io) (image : sail_image) : sail_status_t :=
  if negb state_ptr then SAIL_ERROR_NULL_PTR else
  match sail_check_io_valid io with
  | SAIL_OK =>
      match sail_check_image_valid image with
      | SAIL_OK => SAIL_ERROR_NOT_IMPLEMENTED
      | err => err
      end
  | err => err
  end.

(** [sail_codec_write_frame_v6_pcx]. *)
Definition sail_codec_write_frame_v6_pcx (state_ptr : bool)
    (io : sail_io) (image : sail_image) : sail_status_t :=
  if negb state_ptr then SAIL_ERROR_NULL_PTR else
  match sail_check_io_valid io with
  | SAIL_OK =>
      match sail_check_image_valid image with
      | SAIL_OK => SAIL_ERROR_NOT_IMPLEMENTED
      | err => err
      end
  | err => err
  end.

(** [sail_codec_write_finish_v6_pcx]. *)
Definition sail_codec_write_finish_v6_pcx (state_ptr : bool) (io : sail_io)
  : sail_status_t :=
  if negb state_ptr then SAIL_ERROR_NULL_PTR else
  match sail_check_io_valid io with
  | SAIL_OK => SAIL_ERROR_NOT_IMPLEMENTED
  | err => err
  end.

(** The checks of [sail_codec_read_init_v6_pcx]: what a success implies,
    what every state left behind looks like, and the refusals. *)
Lemma read_init_checked (io : sail_io)
    (options : option sail_read_options) (state_ptr : bool) (w : world) :
  let result := sail_codec_read_init_v6_pcx io options state_ptr w in
  (fst (fst result) = SAIL_OK ->
   state_ptr = true /\ sail_check_io_valid io = SAIL_OK /\ options <> None
   /\ exists st,
        snd (fst result) = Some st
        /\ id (pcx_header st) = SAIL_PCX_SIGNATURE
        /\ header_bytes_per_line (pcx_header st) <> 0)
  /\ (forall st, snd (fst result) = Some st ->
        frame_read st = false /\ scan st = 0)
  /\ (state_ptr = false \/ options = None
      \/ sail_check_io_valid io <> SAIL_OK ->
      fst (fst result) <> SAIL_OK /\ snd (fst result) = None
      /\ snd result = w)
  /\ (forall st,
        snd (fst result) = Some st ->
        id (pcx_header st) <> SAIL_PCX_SIGNATURE
        \/ header_bytes_per_line (pcx_header st) = 0 ->
        fst (fst result) <> SAIL_OK).
Proof.
  cbv zeta. unfold sail_codec_read_init_v6_pcx, alloc_pcx_state.
  assert (Hrefused :
    forall (s : sail_status_t) (w' : world),
      s <> SAIL_OK -> w' = w ->
      let result := (s, @None pcx_state, w') in
      (fst (fst result) = SAIL_OK ->
       state_ptr = true /\ sail_check_io_valid io = SAIL_OK
       /\ options <> None
       /\ exists st,
            snd (fst result) = Some st
            /\ id (pcx_header st) = SAIL_PCX_SIGNATURE
            /\ header_bytes_per_line (pcx_header st) <> 0)
      /\ (forall st, snd (fst result) = Some st ->
            frame_read st = false /\ scan st = 0)
      /\ (state_ptr = false \/ options = None
          \/ sail_check_io_valid io <> SAIL_OK ->
          fst (fst result) <> SAIL_OK /\ snd (fst result) = None
          /\ snd result = w)
      /\ (forall st,
            snd (fst result) = Some st ->
            id (pcx_header st) <> SAIL_PCX_SIGNATURE
            \/ header_bytes_per_line (pcx_header st) = 0 ->
            fst (fst result) <> SAIL_OK)).
  { intros s w' Hs Hw. cbv zeta. cbn [fst snd].
    split; [intros H; now elim Hs |].
    split; [intros st H; discriminate H |].
    split; [intros _; split; [exact Hs | split; [reflexivity | exact Hw]] |].
    intros st H. discriminate H. }
  destruct state_ptr; cbn [negb];
    [| apply Hrefused; [discriminate | reflexivity]].
  destruct (sail_check_io_valid io) eqn:Hio;
    try (apply Hrefused; [discriminate | reflexivity]).
  destruct options as [caller_options |];
    [| apply Hrefused; [discriminate | reflexivity]].
  clear Hrefused.
  assert (Hargs : ~ (true = false \/ Some caller_options = None
                     \/ SAIL_OK <> SAIL_OK)).
  { intros [H | [H | H]]; [discriminate H | discriminate H | now elim H]. }
  assert (Hleft :
    forall (s : sail_status_t) (st : pcx_state) (w' : world),
      frame_read st = false -> scan st = 0 ->
      (s = SAIL_OK ->
       id (pcx_header st) = SAIL_PCX_SIGNATURE
       /\ header_bytes_per_line (pcx_header st) <> 0) ->
      let result := (s, Some st, w') in
      (fst (fst result) = SAIL_OK ->
       true = true /\ SAIL_OK = SAIL_OK /\ Some caller_options <> None
       /\ exists st0,
            snd (fst result) = Some st0
            /\ id (pcx_header st0) = SAIL_PCX_SIGNATURE
            /\ header_bytes_per_line (pcx_header st0) <> 0)
      /\ (forall st0, snd (fst result) = Some st0 ->
            frame_read st0 = false /\ scan st0 = 0)
      /\ (true = false \/ Some caller_options = None
          \/ SAIL_OK <> SAIL_OK ->
          fst (fst result) <> SAIL_OK /\ snd (fst result) = None
          /\ snd result = w)
      /\ (forall st0,
            snd (fst result) = Some st0 ->
            id (pcx_header st0) <> SAIL_PCX_SIGNATURE
            \/ header_bytes_per_line (pcx_header st0) = 0 ->
            fst (fst result) <> SAIL_OK)).
  { intros s st w' Hframe Hscan Hheader. cbv zeta. cbn [fst snd].
    split.
    { intros Hs. destruct (Hheader Hs) as [Hid Hline].
      split; [reflexivity |]. split; [reflexivity |].
      split; [discriminate |]. exists st. now repeat split. }
    split; [intros st0 H; injection H as <-; now split |].
    split; [intros H; elim (Hargs H) |].
    intros st0 H Hbad Hs. injection H as <-.
    destruct (Hheader Hs) as [Hid Hline].
    destruct Hbad as [Hbad | Hbad]; [now elim Hbad | now elim Hline]. }
  destruct (sail_malloc sizeof_pcx_state w) as [[s1 p] w1].
  assert (Hunallocated :
    forall s : sail_status_t, s <> SAIL_OK ->
      let result := (s, @None pcx_state, w1) in
      (fst (fst result) = SAIL_OK ->
       true = true /\ SAIL_OK = SAIL_OK /\ Some caller_options <> None
       /\ exists st0,
            snd (fst result) = Some st0
            /\ id (pcx_header st0) = SAIL_PCX_SIGNATURE
            /\ header_bytes_per_line (pcx_header st0) <> 0)
      /\ (forall st0, snd (fst result) = Some st0 ->
            frame_read st0 = false /\ scan st0 = 0)
      /\ (true = false \/ Some caller_options = None
          \/ SAIL_OK <> SAIL_OK ->
          fst (fst result) <> SAIL_OK /\ snd (fst result) = None
          /\ snd result = w)
      /\ (forall st0,
            snd (fst result) = Some st0 ->
            id (pcx_header st0) <> SAIL_PCX_SIGNATURE
            \/ header_bytes_per_line (pcx_header st0) = 0 ->
            fst (fst result) <> SAIL_OK)).
  { intros s Hs. cbv zeta. cbn [fst snd].
    split; [intros H; now elim Hs |].
    split; [intros st0 H; discriminate H |].
    split; [intros H; elim (Hargs H) |].
    intros st0 H. discriminate H. }
  destruct s1; try (apply Hunallocated; discriminate).
  clear Hunallocated.
  destruct (sail_copy_read_options caller_options w1) as [[s2 copied] w2].
  destruct s2;
    try (apply Hleft; [reflexivity | reflexivity | discriminate]).
  destruct (pcx_private_read_header io w2) as [[s3 header] w3].
  destruct s3;
    try (apply Hleft; [reflexivity | reflexivity | discriminate]).
  destruct (id header =? SAIL_PCX_SIGNATURE) eqn:Hid; cbn [negb];
    [| apply Hleft; [reflexivity | reflexivity | discriminate]].
  apply Z.eqb_eq in Hid.
  destruct (header_bytes_per_line header =? 0) eqn:Hline;
    [apply Hleft; [reflexivity | reflexivity | discriminate] |].
  apply Z.eqb_neq in Hline.
  apply Hleft; [reflexivity | reflexivity |].
  intros _. split; [exact Hid | exact Hline].
Qed.

(** With valid arguments the state is left behind exactly when its
    allocation succeeded, whatever the later steps return. *)
Lemma read_init_state_left (io : sail_io)
    (options : option sail_read_options) (w : world) :
  sail_check_io_valid io = SAIL_OK -> options <> None ->
  let result := sail_codec_read_init_v6_pcx io options true w in
  fst (fst (sail_malloc sizeof_pcx_state w)) = SAIL_OK
  <-> exists st, snd (fst result) = Some st.
Proof.
  intros Hio Hoptions. cbv zeta.
  unfold sail_codec_read_init_v6_pcx, alloc_pcx_state. cbn [negb].
  rewrite Hio.
  destruct options as [caller_options |]; [| now elim Hoptions].
  destruct (sail_malloc sizeof_pcx_state w) as [[s1 p] w1]. cbn [fst snd].
  destruct s1; cbn [fst snd];
    try (split; [intros H; discriminate H | intros [st H]; discriminate H]).
  split; [intros _ | reflexivity].
  destruct (sail_copy_read_options caller_options w1) as [[s2 copied] w2].
  destruct s2; try (eexists; reflexivity).
  destruct (pcx_private_read_header io w2) as [[s3 header] w3].
  destruct s3; try (eexists; reflexivity).
  destruct (negb (id header =? SAIL_PCX_SIGNATURE)); [eexists; reflexivity |].
  destruct (header_bytes_per_line header =? 0); eexists; reflexivity.
Qed.

(** A failing later step returns its own status, and a header that is read
    but is not acceptable gives [SAIL_ERROR_BROKEN_IMAGE]; the state stays
    with what was stored in it so far. *)
Lemma read_init_later_steps (io : sail_io)
    (caller_options : sail_read_options) (w w1 w2 w3 : world) (p : Z)
    (s2 s3 : sail_status_t) (copied : option sail_read_options)
    (header : SailPcxHeader) :
  sail_check_io_valid io = SAIL_OK ->
  sail_malloc sizeof_pcx_state w = (SAIL_OK, p, w1) ->
  sail_copy_read_options caller_options w1 = (s2, copied, w2) ->
  pcx_private_read_header io w2 = (s3, header, w3) ->
  let result :=
    sail_codec_read_init_v6_pcx io (Some caller_options) true w in
  (s2 <> SAIL_OK ->
   fst (fst result) = s2 /\ snd result = w2
   /\ exists st, snd (fst result) = Some st)
  /\ (s2 = SAIL_OK -> s3 <> SAIL_OK ->
      fst (fst result) = s3 /\ snd result = w3
      /\ exists st, snd (fst result) = Some st /\ read_options st = copied)
  /\ (s2 = SAIL_OK -> s3 = SAIL_OK ->
      id header <> SAIL_PCX_SIGNATURE \/ header_bytes_per_line header = 0 ->
      fst (fst result) = SAIL_ERROR_BROKEN_IMAGE /\ snd result = w3
      /\ exists st,
           snd (fst result) = Some st /\ read_options st = copied
           /\ pcx_header st = header).
Proof.
  intros Hio Hmalloc Hcopy Hheader. cbv zeta.
  unfold sail_codec_read_init_v6_pcx, alloc_pcx_state. cbn [negb].
  rewrite Hio, Hmalloc, Hcopy.
  split; [| split].
  - intros Hs2. destruct s2; try (now elim Hs2); cbn [fst snd];
      (split; [reflexivity |]); (split; [reflexivity |]);
      eexists; reflexivity.
  - intros -> Hs3. rewrite Hheader.
    destruct s3; try (now elim Hs3); cbn [fst snd];
      (split; [reflexivity |]); (split; [reflexivity |]);
      eexists; split; reflexivity.
  - intros -> -> Hbad. rewrite Hheader.
    destruct (id header =? SAIL_PCX_SIGNATURE) eqn:Hid; cbn [negb fst snd].
    + apply Z.eqb_eq in Hid.
      destruct Hbad as [Hbad | Hbad]; [now elim Hbad |].
      rewrite Hbad. cbn [Z.eqb fst snd].
      split; [reflexivity |]. split; [reflexivity |].
      eexists. split; [reflexivity |]. split; reflexivity.
    + split; [reflexivity |]. split; [reflexivity |].
      eexists. split; [reflexivity |]. split; reflexivity.
Qed.

(** X7. What [sail_codec_read_init_v6_pcx] leaves. On success the arguments
    were valid and the state holds a header with the PCX signature 10 and a
    line length that is not zero. Whenever the call leaves a state, on
    success or not, its frame is not consumed and it owns no scan buffer. A
    NULL argument or an invalid stream leaves no state and does not touch
    the world. With valid arguments a state is left exactly when its
    allocation succeeded, so after the allocation every failure leaves the
    state to the caller: a failing copy of the options or a failing read of
    the header returns its own status, and a header with another signature
    or a zero line length gives [SAIL_ERROR_BROKEN_IMAGE], each with the
    state in place and holding what was stored in it so far. *)
Theorem read_init_outcome (io : sail_io)
    (options : option sail_read_options) (state_ptr : bool) (w : world) :
  let result := sail_codec_read_init_v6_pcx io options state_ptr w in
  (fst (fst result) = SAIL_OK ->
   state_ptr = true /\ sail_check_io_valid io = SAIL_OK /\ options <> None
   /\ exists st,
        snd (fst result) = Some st
        /\ id (pcx_header st) = SAIL_PCX_SIGNATURE
        /\ header_bytes_per_line (pcx_header st) <> 0)
  /\ (forall st, snd (fst result) = Some st ->
        frame_read st = false /\ scan st = 0)
  /\ (state_ptr = false \/ options = None
      \/ sail_check_io_valid io <> SAIL_OK ->
      fst (fst result) <> SAIL_OK /\ snd (fst result) = None
      /\ snd result = w)
  /\ (forall st,
        snd (fst result) = Some st ->
        id (pcx_header st) <> SAIL_PCX_SIGNATURE
        \/ header_bytes_per_line (pcx_header st) = 0 ->
        fst (fst result) <> SAIL_OK)
  /\ (state_ptr = true -> sail_check_io_valid io = SAIL_OK ->
      options <> None ->
      (fst (fst (sail_malloc sizeof_pcx_state w)) = SAIL_OK
       <-> exists st, snd (fst result) = Some st))
  /\ (forall caller_options p w1 s2 copied w2 s3 header w3,
        state_ptr = true -> sail_check_io_valid io = SAIL_OK ->
        options = Some caller_options ->
        sail_malloc sizeof_pcx_state w = (SAIL_OK, p, w1) ->
        sail_copy_read_options caller_options w1 = (s2, copied, w2) ->
        pcx_private_read_header io w2 = (s3, header, w3) ->
        (s2 <> SAIL_OK ->
         fst (fst result) = s2 /\ snd result = w2
         /\ exists st, snd (fst result) = Some st)
        /\ (s2 = SAIL_OK -> s3 <> SAIL_OK ->
            fst (fst result) = s3 /\ snd result = w3
            /\ exists st,
                 snd (fst result) = Some st /\ read_options st = copied)
        /\ (s2 = SAIL_OK -> s3 = SAIL_OK ->
            id header <> SAIL_PCX_SIGNATURE
            \/ header_bytes_per_line header = 0 ->
            fst (fst result) = SAIL_ERROR_BROKEN_IMAGE /\ snd result = w3
            /\ exists st,
                 snd (fst result) = Some st /\ read_options st = copied
                 /\ pcx_header st = header)).
Proof.
  cbv zeta.
  destruct (read_init_checked io options state_ptr w)
    as (Hsuccess & Hfresh & Hrefused & Hheader).
  split; [exact Hsuccess |]. split; [exact Hfresh |].
  split; [exact Hrefused |]. split; [exact Hheader |].
  split.
  - intros -> Hio Hoptions.
    exact (read_init_state_left io options w Hio Hoptions).
  - intros caller_options p w1 s2 copied w2 s3 header w3
           -> Hio -> Hmalloc Hcopy Hread.
    exact (read_init_later_steps io caller_options w w1 w2 w3 p s2 s3 copied
             header Hio Hmalloc Hcopy Hread).
Qed.

(** X8. The frame [sail_codec_read_seek_next_frame_v6_pcx] announces. An
    image is handed out exactly when the call returns [SAIL_OK]. It has no
    pixel buffer yet; its width and height are [xmax - xmin + 1] and
    [ymax - ymin + 1] in 32-bit unsigned arithmetic; its pixel format is the
    one the helper derives from the header, also recorded as the source
    format; the source is tagged RLE-compressed whatever the encoding byte of
    the header says; the stride is the one of [sail_bytes_per_line]; and it
    carries no resolution unless both resolutions of the header are
    positive. The header of the state is not changed. *)
Theorem seek_next_frame_outcome (st : pcx_state) (io : sail_io)
    (image_ptr : bool) (w : world) :
  let result :=
    sail_codec_read_seek_next_frame_v6_pcx (Some st) io image_ptr w in
  let status := fst (fst (fst result)) in
  let header := pcx_header st in
  (status = SAIL_OK <-> snd (fst result) <> None)
  /\ (forall st', snd (fst (fst result)) = Some st' ->
        pcx_header st' = header /\ read_options st' = read_options st)
  /\ (forall image,
        snd (fst result) = Some image ->
        pixels image = 0
        /\ width image = u32 (xmax header - xmin header + 1)
        /\ height image = u32 (ymax header - ymin header + 1)
        /\ pcx_private_sail_pixel_format (bits_per_plane header)
             (planes header) (palette_info header)
           = (SAIL_OK, pixel_format image)
        /\ sail_bytes_per_line (width image) (pixel_format image)
           = (SAIL_OK, bytes_per_line image)
        /\ source_image image
           = Some {| source_pixel_format := pixel_format image;
                     compression := SAIL_COMPRESSION_RLE |}
        /\ (hdpi header <= 0 \/ vdpi header <= 0 ->
            resolution image = None)).
Proof.
  cbv zeta. unfold sail_codec_read_seek_next_frame_v6_pcx.
  assert (Hnone : forall (s : sail_status_t) (st' : pcx_state) (w' : world),
            s <> SAIL_OK ->
            pcx_header st' = pcx_header st ->
            read_options st' = read_options st ->
            let result := (s, Some st', @None sail_image, w') in
            (fst (fst (fst result)) = SAIL_OK <-> snd (fst result) <> None)
            /\ (forall st'', snd (fst (fst result)) = Some st'' ->
                  pcx_header st'' = pcx_header st
                  /\ read_options st'' = read_options st)
            /\ (forall image,
                  snd (fst result) = Some image ->
                  pixels image = 0
                  /\ width image
                     = u32 (xmax (pcx_header st) - xmin (pcx_header st) + 1)
                  /\ height image
                     = u32 (ymax (pcx_header st) - ymin (pcx_header st) + 1)
                  /\ pcx_private_sail_pixel_format
                       (bits_per_plane (pcx_header st))
                       (planes (pcx_header st))
                       (palette_info (pcx_header st))
                     = (SAIL_OK, pixel_format image)
                  /\ sail_bytes_per_line (width image) (pixel_format image)
                     = (SAIL_OK, bytes_per_line image)
                  /\ source_image image
                     = Some {| source_pixel_format := pixel_format image;
                               compression := SAIL_COMPRESSION_RLE |}
                  /\ (hdpi (pcx_header st) <= 0 \/ vdpi (pcx_header st) <= 0 ->
                      resolution image = None))).
  { intros s st' w' Hs Hh Ho. cbv zeta. cbn [fst snd].
    split; [split; intros; congruence |].
    split; [intros st'' H; injection H as <-; now split |].
    intros image H. discriminate H. }
  destruct (sail_check_io_valid io);
    try (apply Hnone; [discriminate | reflexivity | reflexivity]).
  destruct image_ptr; cbn [negb];
    [| apply Hnone; [discriminate | reflexivity | reflexivity]].
  destruct (frame_read st);
    [apply Hnone; [discriminate | reflexivity | reflexivity] |].
  cbv zeta. cbn [pcx_header with_frame_read].
  destruct (sail_alloc_image w) as [s1 w1].
  destruct s1; try (apply Hnone; [discriminate | reflexivity | reflexivity]).
  destruct (sail_alloc_source_image w1) as [s2 w2].
  destruct s2; try (apply Hnone; [discriminate | reflexivity | reflexivity]).
  destruct (pcx_private_sail_pixel_format _ _ _) as [s3 source_format]
    eqn:Hformat.
  destruct s3; try (apply Hnone; [discriminate | reflexivity | reflexivity]).
  destruct (sail_bytes_per_line _ source_format) as [s4 stride] eqn:Hstride.
  destruct s4; try (apply Hnone; [discriminate | reflexivity | reflexivity]).
  assert (Hscan : exists s st2 w3,
            (if needs_scan_buffer source_format
             then match sail_malloc stride w2 with
                  | (s, p, w3) => (s, with_scan (with_frame_read st) p, w3)
                  end
             else (SAIL_OK, with_frame_read st, w2))
            = (s, st2, w3)
            /\ pcx_header st2 = pcx_header st
            /\ read_options st2 = read_options st).
  { destruct (needs_scan_buffer source_format).
    - destruct (sail_malloc stride w2) as [[s p] w3].
      exists s, (with_scan (with_frame_read st) p), w3. now repeat split.
    - exists SAIL_OK, (with_frame_read st), w2. now repeat split. }
  destruct Hscan as (s5 & st2 & w3 & -> & Hh2 & Ho2).
  destruct s5; try (apply Hnone; [discriminate | reflexivity | reflexivity]).
  destruct (pcx_private_build_palette source_format io _ w3)
    as [[s6 built_palette] w4].
  destruct s6; try (apply Hnone; [discriminate | assumption | assumption]).
  destruct ((0 <? hdpi (pcx_header st)) && (0 <? vdpi (pcx_header st)))
    eqn:Hdpi.
  - destruct (sail_alloc_resolution_from_data _ _ w4)
      as [[s7 built_resolution] w5].
    destruct s7; try (apply Hnone; [discriminate | assumption | assumption]).
    cbn [fst snd].
    split; [split; intros; congruence |].
    split; [intros st' H; injection H as <-; now split |].
    intros image H. injection H as <-.
    cbn [pixels width height pixel_format bytes_per_line source_image
         resolution].
    repeat split; try assumption.
    apply andb_true_iff in Hdpi. destruct Hdpi as [Hh Hv].
    apply Z.ltb_lt in Hh. apply Z.ltb_lt in Hv. intros [H | H]; lia.
  - cbn [fst snd].
    split; [split; intros; congruence |].
    split; [intros st' H; injection H as <-; now split |].
    intros image H. injection H as <-.
    cbn [pixels width height pixel_format bytes_per_line source_image
         resolution].
    repeat split; assumption.
Qed.

(** X9. Finishing. With a valid stream [sail_codec_read_finish_v6_pcx]
    returns [SAIL_OK], releases the state once and leaves NULL in its place.
    A second call on the same pointer returns [SAIL_OK] again and releases
    nothing, and the frame functions refuse the finished state with
    [SAIL_ERROR_NULL_PTR] without touching stream or memory. *)
Theorem read_finish_releases_once (state : option pcx_state) (io : sail_io)
    (image : sail_image) (w : world) (m : mem) :
  sail_check_io_valid io = SAIL_OK ->
  let first := sail_codec_read_finish_v6_pcx true state io w in
  first = (SAIL_OK, None, destroy_pcx_state state w)
  /\ sail_codec_read_finish_v6_pcx true (snd (fst first)) io (snd first)
     = (SAIL_OK, None, snd first)
  /\ sail_codec_read_seek_next_frame_v6_pcx (snd (fst first)) io true
       (snd first)
     = (SAIL_ERROR_NULL_PTR, None, None, snd first)
  /\ sail_codec_read_frame_v6_pcx (snd (fst first)) io image (snd first) m
     = (SAIL_ERROR_NULL_PTR, snd first, m).
Proof.
  intros Hio. cbv zeta. unfold sail_codec_read_finish_v6_pcx.
  cbn [negb]. rewrite Hio. cbn [fst snd destroy_pcx_state].
  repeat split.
Qed.

(** X10. Encoding is not implemented: none of the four writing entry points
    ever returns [SAIL_OK], and with valid arguments each returns
    [SAIL_ERROR_NOT_IMPLEMENTED]. *)
Theorem writing_is_not_implemented (io : sail_io) (image : sail_image)
    (write_options_ptr state_ptr : bool) :
  sail_codec_write_init_v6_pcx io write_options_ptr state_ptr <> SAIL_OK
  /\ sail_codec_write_seek_next_frame_v6_pcx state_ptr io image <> SAIL_OK
  /\ sail_codec_write_frame_v6_pcx state_ptr io image <> SAIL_OK
  /\ sail_codec_write_finish_v6_pcx state_ptr io <> SAIL_OK
  /\ (sail_check_io_valid io = SAIL_OK ->
      sail_codec_write_init_v6_pcx io true true = SAIL_ERROR_NOT_IMPLEMENTED
      /\ sail_codec_write_finish_v6_pcx true io = SAIL_ERROR_NOT_IMPLEMENTED
      /\ (sail_check_image_valid image = SAIL_OK ->
          sail_codec_write_seek_next_frame_v6_pcx true io image
          = SAIL_ERROR_NOT_IMPLEMENTED
          /\ sail_codec_write_frame_v6_pcx true io image
             = SAIL_ERROR_NOT_IMPLEMENTED)).
Proof.
  unfold sail_codec_write_init_v6_pcx,
    sail_codec_write_seek_next_frame_v6_pcx, sail_codec_write_frame_v6_pcx,
    sail_codec_write_finish_v6_pcx.
  destruct (sail_check_io_valid io) eqn:Hio;
    destruct (sail_check_image_valid image) eqn:Himage;
    destruct state_ptr, write_options_ptr; cbn [negb];
    repeat split; intros; congruence.
Qed.

(** ** From planes to interleaved pixels *)

Lemma u32_small_pcx (x : Z) : 0 <= x < 4294967296 -> u32 x = x.
Proof. intros H. unfold u32. now apply Z.mod_small. Qed.

Lemma store8_at (m : mem) (p v : Z) : store8 m p v p = u8 v.
Proof. unfold store8. now rewrite Z.eqb_refl. Qed.

Lemma store8_elsewhere (m : mem) (p v q : Z) :
  q <> p -> store8 m p v q = m q.
Proof. intros H. unfold store8. apply Z.eqb_neq in H. now rewrite H. Qed.

Lemma spread_plane_columns (target_scan plane component total : Z) :
  0 <= component < 3 -> 3 * total <= 4294967296 ->
  (plane + total <= target_scan \/ target_scan + 3 * total <= plane) ->
  forall (columns : nat) (column : Z) (m : mem),
    0 <= column -> column + Z.of_nat columns <= total ->
    let m' := spread_plane columns column target_scan plane component m in
    (forall c, column <= c < column + Z.of_nat columns ->
       load8 m' (target_scan + 3 * c + component) = load8 m (plane + c))
    /\ (forall q,
          (forall c, column <= c < column + Z.of_nat columns ->
             q <> target_scan + 3 * c + component) ->
          m' q = m q).
Proof.
  intros Hcomponent Htotal Hapart.
  induction columns as [| columns IH]; intros column m Hcolumn Hfit; cbv zeta.
  - cbn [spread_plane]. split; [intros c Hc; lia | reflexivity].
  - cbn [spread_plane]. cbv zeta.
    rewrite Nat2Z.inj_succ in *.
    assert (Hoffset : u32 (column * 3) = 3 * column).
    { unfold u32. rewrite Z.mod_small by lia. lia. }
    rewrite Hoffset.
    set (m1 := store8 m (target_scan + 3 * column + component)
                      (load8 m (plane + column))).
    destruct (IH (column + 1) m1 ltac:(lia) ltac:(lia)) as [Hvalues Hframe].
    split.
    + intros c Hc. destruct (Z.eq_dec c column) as [-> | Hne].
      * unfold load8 at 1. rewrite Hframe by (intros c Hc'; lia).
        unfold m1.
        rewrite store8_at. unfold load8, u8.
        now rewrite !Z.mod_mod by lia.
      * rewrite Hvalues by lia. unfold load8, m1.
        rewrite store8_elsewhere by lia. reflexivity.
    + intros q Hq. rewrite Hframe by (intros c Hc; apply Hq; lia).
      unfold m1. apply store8_elsewhere.
      specialize (Hq column ltac:(lia)). lia.
Qed.

(** X11. The column loop of the RGB branch of [read_frame] interleaves a plane:
    when the line fits 32-bit offsets and the plane buffer does not overlap
    the target line, byte [c] of the plane becomes component [component] of
    pixel [c] of the line, and no other byte is changed. *)
Theorem spread_plane_interleaves (columns : nat)
    (target_scan plane component : Z) (m : mem) :
  0 <= component < 3 ->
  3 * Z.of_nat columns <= 4294967296 ->
  (plane + Z.of_nat columns <= target_scan
   \/ target_scan + 3 * Z.of_nat columns <= plane) ->
  let m' := spread_plane columns 0 target_scan plane component m in
  (forall c, 0 <= c < Z.of_nat columns ->
     load8 m' (target_scan + 3 * c + component) = load8 m (plane + c))
  /\ (forall q,
        (forall c, 0 <= c < Z.of_nat columns ->
           q <> target_scan + 3 * c + component) ->
        m' q = m q).
Proof.
  intros Hcomponent Htotal Hapart.
  apply (spread_plane_columns target_scan plane component
           (Z.of_nat columns) Hcomponent Htotal Hapart columns 0 m); lia.
Qed.

End Codec.

Arguments strict_read {world}.
Arguments seek {world}.
Arguments pcx_header {sail_read_options}.
Arguments frame_read {sail_read_options}.

(** ** A stream held in memory, and a run of the reader on it *)

(** Modelled from the spec: the byte stream is an external collaborator
    (section 6); a strict read fails unless exactly [n] bytes are read, a
    relative seek moves the position. The stream is its content and its
    position. *)
Definition byte_stream : Type := (list Z * Z)%type.

Fixpoint store_bytes (m : mem) (p : Z) (l : list Z) : mem :=
  match l with
  | [] => m
  | byte :: l' => store_bytes (store8 m p byte) (p + 1) l'
  end.

Definition stream_strict_read (w : byte_stream) (m : mem) (buffer n : Z)
  : sail_status_t * byte_stream * mem :=
  let chunk := firstn (Z.to_nat n) (skipn (Z.to_nat (snd w)) (fst w)) in
  if Z.of_nat (length chunk) =? n
  then (SAIL_OK, (fst w, snd w + n), store_bytes m buffer chunk)
  else (SAIL_ERROR_READ_IO, w, m).

Definition stream_seek (w : byte_stream) (offset whence : Z)
  : sail_status_t * byte_stream :=
  (SAIL_OK, (fst w, snd w + offset)).

Definition stream_io : sail_io byte_stream :=
  {| strict_read := stream_strict_read; seek := stream_seek |}.

(** ** Uncompressed frames from the stream in memory *)

(** The byte of the stream at offset [k]. *)
Definition stream_byte (content : list Z) (k : Z) : Z :=
  nth (Z.to_nat k) content 0.

Lemma store_bytes_at (l : list Z) :
  forall (m : mem) (p q : Z),
    store_bytes m p l q
    = if (p <=? q) && (q <? p + Z.of_nat (length l))
      then u8 (nth (Z.to_nat (q - p)) l 0)
      else m q.
Proof.
  induction l as [| byte l IH]; intros m p q; cbn [store_bytes length].
  - destruct (p <=? q) eqn:Hlow; destruct (q <? p + Z.of_nat 0) eqn:Hhigh;
      cbn [andb]; try reflexivity.
    apply Z.leb_le in Hlow. apply Z.ltb_lt in Hhigh. lia.
  - rewrite IH, Nat2Z.inj_succ.
    destruct (Z.eq_dec q p) as [-> | Hne].
    + replace (p + 1 <=? p) with false by (symmetry; apply Z.leb_gt; lia).
      replace (p <=? p) with true by (symmetry; apply Z.leb_le; lia).
      replace (p <? p + Z.succ (Z.of_nat (length l))) with true
        by (symmetry; apply Z.ltb_lt; lia).
      cbn [andb]. unfold store8. rewrite Z.eqb_refl, Z.sub_diag. reflexivity.
    + replace (p + 1 <=? q) with (p <=? q)
        by (destruct (p <=? q) eqn:H;
            [apply Z.leb_le in H; symmetry; apply Z.leb_le; lia
            | apply Z.leb_gt in H; symmetry; apply Z.leb_gt; lia]).
      replace (p + 1 + Z.of_nat (length l))
        with (p + Z.succ (Z.of_nat (length l))) by lia.
      destruct (p <=? q) eqn:Hlow; cbn [andb].
      * apply Z.leb_le in Hlow.
        replace (Z.to_nat (q - p)) with (S (Z.to_nat (q - (p + 1)))) by lia.
        cbn [nth]. unfold store8.
        now rewrite (proj2 (Z.eqb_neq q p)) by lia.
      * unfold store8. now rewrite (proj2 (Z.eqb_neq q p)) by lia.
Qed.

(** A strict read that stays inside the stream delivers its bytes at the
    buffer and moves the position. *)
Lemma stream_strict_read_inside (content : list Z) (pos : Z) (m : mem)
    (buffer n : Z) :
  0 <= pos -> 0 <= n -> pos + n <= Z.of_nat (length content) ->
  exists m',
    stream_strict_read (content, pos) m buffer n
    = (SAIL_OK, (content, pos + n), m')
    /\ (forall k, 0 <= k < n ->
          m' (buffer + k) = u8 (stream_byte content (pos + k)))
    /\ (forall q, ~ (buffer <= q < buffer + n) -> m' q = m q).
Proof.
  intros Hpos Hn Hfit. unfold stream_strict_read. cbn [fst snd].
  set (chunk := firstn (Z.to_nat n) (skipn (Z.to_nat pos) content)).
  assert (Hlength : Z.of_nat (length chunk) = n).
  { unfold chunk. rewrite length_firstn, length_skipn. lia. }
  rewrite Hlength, Z.eqb_refl.
  exists (store_bytes m buffer chunk). split; [reflexivity |]. split.
  - intros k Hk. rewrite store_bytes_at, Hlength.
    replace ((buffer <=? buffer + k) && (buffer + k <? buffer + n)) with true
      by (symmetry; apply andb_true_iff; split;
          [apply Z.leb_le | apply Z.ltb_lt]; lia).
    unfold chunk, stream_byte. rewrite nth_firstn, nth_skipn.
    replace (Z.to_nat (buffer + k - buffer) <? Z.to_nat n)%nat with true
      by (symmetry; apply Nat.ltb_lt; lia).
    f_equal. f_equal. lia.
  - intros q Hq. rewrite store_bytes_at, Hlength.
    destruct (buffer <=? q) eqn:Hlow; destruct (q <? buffer + n) eqn:Hhigh;
      cbn [andb]; try reflexivity.
    apply Z.leb_le in Hlow. apply Z.ltb_lt in Hhigh. lia.
Qed.

Lemma read_plain_rows_from_stream (image : sail_image)
    (content : list Z) (line_padding : Z) (rows : nat) :
  0 < bytes_per_line image -> 0 <= line_padding ->
  forall (row0 pos : Z) (m : mem),
    0 <= row0 -> 0 <= pos ->
    bytes_per_line image * (row0 + Z.of_nat rows) <= 4294967296 ->
    ((0 < rows)%nat ->
     pos + (bytes_per_line image + line_padding) * (Z.of_nat rows - 1)
     + bytes_per_line image <= Z.of_nat (length content)) ->
    exists m',
      read_plain_rows byte_stream rows row0 stream_io image line_padding
                      (content, pos) m
      = (SAIL_OK,
         (content,
          pos + (bytes_per_line image + line_padding) * Z.of_nat rows), m')
      /\ (forall row k,
            row0 <= row < row0 + Z.of_nat rows ->
            0 <= k < bytes_per_line image ->
            m' (pixels image + bytes_per_line image * row + k)
            = u8 (stream_byte content
                    (pos + (bytes_per_line image + line_padding)
                           * (row - row0) + k)))
      /\ (forall q,
            ~ (pixels image + bytes_per_line image * row0 <= q
               < pixels image
                 + bytes_per_line image * (row0 + Z.of_nat rows)) ->
            m' q = m q).
Proof.
  intros Hline Hpadding.
  induction rows as [| rows IH]; intros row0 pos m Hrow0 Hpos Hsize Hfit.
  - exists m. cbn [read_plain_rows]. split.
    + change (Z.of_nat 0) with 0. now rewrite Z.mul_0_r, Z.add_0_r.
    + split; [intros row k Hrow; lia | reflexivity].
  - cbn [read_plain_rows]. cbv zeta.
    rewrite Nat2Z.inj_succ in *.
    specialize (Hfit ltac:(lia)).
    assert (Hoffset : u32 (bytes_per_line image * row0)
                      = bytes_per_line image * row0).
    { apply u32_small_pcx. nia. }
    rewrite Hoffset. cbn [strict_read seek stream_io].
    destruct (stream_strict_read_inside content pos m
                (pixels image + bytes_per_line image * row0)
                (bytes_per_line image) Hpos ltac:(lia) ltac:(nia))
      as (m1 & Hread & Hbytes & Hrest).
    rewrite Hread. unfold stream_seek. cbn [fst snd].
    destruct (IH (row0 + 1)
                 (pos + bytes_per_line image + line_padding) m1
                 ltac:(lia) ltac:(lia) ltac:(nia))
      as (m' & Hloop & Hpixels & Hframe).
    { intros Hmore. nia. }
    exists m'. split; [| split].
    + rewrite Hloop. f_equal. f_equal. f_equal. lia.
    + intros row k Hrow Hk.
      destruct (Z.eq_dec row row0) as [-> | Hne].
      * rewrite Hframe by nia.
        replace (pixels image + bytes_per_line image * row0 + k)
          with (pixels image + bytes_per_line image * row0 + k) by lia.
        rewrite (Hbytes k Hk). f_equal. f_equal. lia.
      * rewrite Hpixels by lia. f_equal. f_equal. lia.
    + intros q Hq. rewrite Hframe by nia. apply Hrest. nia.
Qed.

Lemma read_planes_from_stream (image : sail_image) (content : list Z)
    (line_padding plane target_scan : Z) (components : nat) :
  0 <= width image -> 0 <= line_padding ->
  3 * width image <= 4294967296 ->
  (plane + width image <= target_scan
   \/ target_scan + 3 * width image <= plane) ->
  forall (component0 pos : Z) (m : mem),
    0 <= component0 -> component0 + Z.of_nat components <= 3 -> 0 <= pos ->
    ((0 < components)%nat ->
     pos + (width image + line_padding) * (Z.of_nat components - 1)
     + width image <= Z.of_nat (length content)) ->
    exists m',
      read_planes byte_stream components component0 stream_io image plane
                  line_padding target_scan (content, pos) m
      = (SAIL_OK,
         (content,
          pos + (width image + line_padding) * Z.of_nat components), m')
      /\ (forall component column,
            component0 <= component < component0 + Z.of_nat components ->
            0 <= column < width image ->
            load8 m' (target_scan + 3 * column + component)
            = u8 (stream_byte content
                    (pos + (width image + line_padding)
                           * (component - component0) + column)))
      /\ (forall q,
            ~ (plane <= q < plane + width image) ->
            (forall component column,
               component0 <= component < component0 + Z.of_nat components ->
               0 <= column < width image ->
               q <> target_scan + 3 * column + component) ->
            m' q = m q).
Proof.
  intros Hwidth Hpadding Hsmall Hapart.
  induction components as [| components IH];
    intros component0 pos m Hcomponent Hlast Hpos Hfit.
  - exists m. cbn [read_planes]. split.
    + change (Z.of_nat 0) with 0. now rewrite Z.mul_0_r, Z.add_0_r.
    + split; [intros component column Hc; lia | reflexivity].
  - cbn [read_planes]. rewrite Nat2Z.inj_succ in *.
    specialize (Hfit ltac:(lia)).
    cbn [strict_read seek stream_io].
    destruct (stream_strict_read_inside content pos m plane (width image)
                Hpos Hwidth ltac:(nia))
      as (m1 & Hread & Hbytes & Hrest).
    rewrite Hread. unfold stream_seek. cbn [fst snd]. cbv zeta.
    destruct (spread_plane_columns target_scan plane component0
                (width image) ltac:(lia) Hsmall Hapart
                (Z.to_nat (width image)) 0 m1 ltac:(lia) ltac:(lia))
      as [Hspread Hkept].
    rewrite Z2Nat.id in Hspread, Hkept by lia.
    set (m2 := spread_plane (Z.to_nat (width image)) 0 target_scan plane
                            component0 m1) in *.
    destruct (IH (component0 + 1) (pos + width image + line_padding) m2
                 ltac:(lia) ltac:(lia) ltac:(lia))
      as (m' & Hloop & Hvalues & Hframe).
    { intros Hmore. nia. }
    exists m'. split; [| split].
    + rewrite Hloop. f_equal. f_equal. f_equal. lia.
    + intros component column Hc Hcolumn.
      destruct (Z.eq_dec component component0) as [-> | Hne].
      * unfold load8 at 1. rewrite Hframe.
        -- fold (load8 m2 (target_scan + 3 * column + component0)).
           rewrite (Hspread column) by lia.
           unfold load8. rewrite (Hbytes column Hcolumn).
           unfold u8. rewrite Z.mod_mod by lia.
           f_equal. f_equal. lia.
        -- lia.
        -- intros component' column' Hc' Hcolumn'. lia.
      * rewrite Hvalues by lia. f_equal. f_equal. lia.
    + intros q Hplane Htarget. rewrite Hframe.
      * rewrite Hkept.
        -- apply Hrest. exact Hplane.
        -- intros c Hc. apply Htarget; lia.
      * exact Hplane.
      * intros component column Hc Hcolumn. apply Htarget; lia.
Qed.

Lemma read_rgb_rows_from_stream (image : sail_image) (content : list Z)
    (line_padding plane : Z) (rows : nat) :
  0 < width image -> 0 <= line_padding ->
  3 * width image <= bytes_per_line image ->
  forall (row0 pos : Z) (m : mem),
    0 <= row0 -> 0 <= pos ->
    bytes_per_line image * (row0 + Z.of_nat rows) <= 4294967296 ->
    (plane + width image <= pixels image + bytes_per_line image * row0
     \/ pixels image + bytes_per_line image * (row0 + Z.of_nat rows)
        <= plane) ->
    ((0 < rows)%nat ->
     pos + (width image + line_padding) * (3 * Z.of_nat rows - 1)
     + width image <= Z.of_nat (length content)) ->
    exists m',
      read_rgb_rows byte_stream rows row0 stream_io image plane line_padding
                    (content, pos) m
      = (SAIL_OK,
         (content,
          pos + (width image + line_padding) * (3 * Z.of_nat rows)), m')
      /\ (forall row column component,
            row0 <= row < row0 + Z.of_nat rows ->
            0 <= column < width image -> 0 <= component < 3 ->
            load8 m' (pixels image + bytes_per_line image * row
                      + 3 * column + component)
            = u8 (stream_byte content
                    (pos + (width image + line_padding)
                           * (3 * (row - row0) + component) + column)))
      /\ (forall q,
            ~ (plane <= q < plane + width image) ->
            ~ (pixels image + bytes_per_line image * row0 <= q
               < pixels image
                 + bytes_per_line image * (row0 + Z.of_nat rows)) ->
            m' q = m q).
Proof.
  intros Hwidth Hpadding Hstride.
  induction rows as [| rows IH];
    intros row0 pos m Hrow0 Hpos Hsize Hapart Hfit.
  - exists m. cbn [read_rgb_rows]. split.
    + change (Z.of_nat 0) with 0.
      replace (pos + (width image + line_padding) * (3 * 0)) with pos by lia.
      reflexivity.
    + split; [intros row column component Hrow; lia | reflexivity].
  - cbn [read_rgb_rows]. cbv zeta. rewrite Nat2Z.inj_succ in *.
    specialize (Hfit ltac:(lia)).
    assert (Hrows : 0 <= bytes_per_line image * row0
                    /\ bytes_per_line image * row0 + bytes_per_line image
                       <= bytes_per_line image * (row0 + Z.succ (Z.of_nat rows))
                    /\ bytes_per_line image * (row0 + 1)
                       = bytes_per_line image * row0 + bytes_per_line image)
      by nia.
    destruct Hrows as (Hlow & Hhigh & Hnext).
    assert (Hoffset : u32 (bytes_per_line image * row0)
                      = bytes_per_line image * row0).
    { apply u32_small_pcx. lia. }
    rewrite Hoffset.
    destruct (read_planes_from_stream image content line_padding plane
                (pixels image + bytes_per_line image * row0) 3
                ltac:(lia) Hpadding ltac:(lia) ltac:(lia) 0 pos m
                ltac:(lia) ltac:(simpl; lia) Hpos)
      as (m1 & Hplanes & Hline & Hrest).
    { intros _. change (Z.of_nat 3) with 3. nia. }
    rewrite Hplanes. change (Z.of_nat 3) with 3 in *.
    destruct (IH (row0 + 1) (pos + (width image + line_padding) * 3) m1
                 ltac:(lia) ltac:(nia))
      as (m' & Hloop & Hpixels & Hframe).
    { replace (row0 + 1 + Z.of_nat rows)
        with (row0 + Z.succ (Z.of_nat rows)) by lia. exact Hsize. }
    { replace (row0 + 1 + Z.of_nat rows)
        with (row0 + Z.succ (Z.of_nat rows)) by lia.
      rewrite Hnext. lia. }
    { intros Hmore. nia. }
    replace (row0 + 1 + Z.of_nat rows)
      with (row0 + Z.succ (Z.of_nat rows)) in Hframe by lia.
    rewrite Hnext in Hframe.
    exists m'. split; [| split].
    + rewrite Hloop. f_equal. f_equal. f_equal. lia.
    + intros row column component Hrow Hcolumn Hcomponent.
      destruct (Z.eq_dec row row0) as [-> | Hne].
      * unfold load8 at 1. rewrite Hframe by lia.
        fold (load8 m1 (pixels image + bytes_per_line image * row0
                        + 3 * column + component)).
        rewrite (Hline component column) by lia.
        f_equal. f_equal. lia.
      * rewrite Hpixels by lia. f_equal. f_equal. lia.
    + intros q Hplane Hbuffer. rewrite Hframe by lia.
      apply Hrest; [exact Hplane |].
      intros component column Hc Hcolumn. lia.
Qed.

Section UncompressedFrames.

Variable sail_read_options : Type.
Variable SAIL_PCX_NO_ENCODING : Z.
Variable sail_check_io_valid : sail_io byte_stream -> sail_status_t.

(** X12. An uncompressed indexed or 8-bit grayscale frame read from a stream
    held in memory that is long enough: the call returns [SAIL_OK]; row
    [row] of the pixel buffer holds the bytes of the stream that start
    [row] header line lengths after the position at the call, so the padding
    between the lines of the file is skipped; the position ends [height]
    header line lengths further; and no byte outside the rows of the pixel
    buffer is changed. *)
Theorem read_frame_plain_rows (st : pcx_state sail_read_options)
    (image : sail_image) (content : list Z) (pos : Z) (m : mem) :
  sail_check_io_valid stream_io = SAIL_OK ->
  sail_check_image_skeleton_valid image = SAIL_OK ->
  encoding (pcx_header st) = SAIL_PCX_NO_ENCODING ->
  In (pixel_format image)
     [SAIL_PIXEL_FORMAT_BPP1_INDEXED; SAIL_PIXEL_FORMAT_BPP4_INDEXED;
      SAIL_PIXEL_FORMAT_BPP8_INDEXED; SAIL_PIXEL_FORMAT_BPP8_GRAYSCALE] ->
  let line := header_bytes_per_line (pcx_header st) in
  0 <= bytes_per_line image <= line -> line < 4294967296 ->
  0 <= height image ->
  bytes_per_line image * height image <= 4294967296 ->
  0 <= pos ->
  pos + line * (height image - 1) + bytes_per_line image
  <= Z.of_nat (length content) ->
  exists m',
    sail_codec_read_frame_v6_pcx byte_stream sail_read_options
      SAIL_PCX_NO_ENCODING sail_check_io_valid (Some st) stream_io image
      (content, pos) m
    = (SAIL_OK, (content, pos + line * height image), m')
    /\ (forall row k,
          0 <= row < height image -> 0 <= k < bytes_per_line image ->
          load8 m' (pixels image + bytes_per_line image * row + k)
          = u8 (stream_byte content (pos + line * row + k)))
    /\ (forall q,
          ~ (pixels image <= q
             < pixels image + bytes_per_line image * height image) ->
          m' q = m q).
Proof.
  intros Hio Hvalid Hencoding Hformat line Hline Hshort Hheight Hsize Hpos
         Hfit.
  assert (Hstride : bytes_per_line image <> 0).
  { revert Hvalid. unfold sail_check_image_skeleton_valid.
    destruct (pixel_format_eqb _ _); [discriminate |].
    destruct (_ || _); [discriminate |].
    destruct (bytes_per_line image =? 0) eqn:H; [discriminate |].
    intros _. now apply Z.eqb_neq. }
  set (padding := u32 (line - bytes_per_line image)).
  assert (Hpadding : padding = line - bytes_per_line image).
  { unfold padding. apply u32_small_pcx. lia. }
  destruct (read_plain_rows_from_stream image content padding
              (Z.to_nat (height image)) ltac:(lia) ltac:(lia) 0 pos m
              ltac:(lia) Hpos ltac:(lia))
    as (m' & Hloop & Hpixels & Hframe).
  { intros _. rewrite Hpadding. nia. }
  exists m'.
  assert (Hrun : sail_codec_read_frame_v6_pcx byte_stream sail_read_options
                   SAIL_PCX_NO_ENCODING sail_check_io_valid (Some st)
                   stream_io image (content, pos) m
                 = read_plain_rows byte_stream (Z.to_nat (height image)) 0
                     stream_io image padding (content, pos) m).
  { unfold sail_codec_read_frame_v6_pcx.
    rewrite Hio, Hvalid, Hencoding, Z.eqb_refl.
    cbn [In] in Hformat.
    destruct Hformat as [<- | [<- | [<- | [<- | []]]]]; reflexivity. }
  rewrite Hrun, Hloop. split; [| split].
  - f_equal. f_equal. f_equal. rewrite Hpadding. lia.
  - intros row k Hrow Hk. unfold load8.
    rewrite Hpixels by lia. unfold u8. rewrite Z.mod_mod by lia.
    f_equal. f_equal. rewrite Hpadding. lia.
  - intros q Hq. apply Hframe. lia.
Qed.

(** X13. An uncompressed 24-bit RGB frame read from a stream held in memory
    that is long enough, with a scan buffer outside the pixel buffer: the
    call returns [SAIL_OK]; the file stores every line as a red, a green and
    a blue plane of one header line length each, and component [component]
    of pixel [column] of row [row] is the byte [column] of plane
    [3 * row + component]; the position ends [3 * height] header line
    lengths further; and no byte outside the pixel buffer and the scan
    buffer is changed. *)
Theorem read_frame_rgb_planes (st : pcx_state sail_read_options)
    (image : sail_image) (content : list Z) (pos : Z) (m : mem) :
  sail_check_io_valid stream_io = SAIL_OK ->
  sail_check_image_skeleton_valid image = SAIL_OK ->
  encoding (pcx_header st) = SAIL_PCX_NO_ENCODING ->
  pixel_format image = SAIL_PIXEL_FORMAT_BPP24_RGB ->
  let line := header_bytes_per_line (pcx_header st) in
  0 <= width image <= line -> line < 4294967296 ->
  3 * width image <= bytes_per_line image ->
  0 <= height image ->
  bytes_per_line image * height image <= 4294967296 ->
  (scan sail_read_options st + width image <= pixels image
   \/ pixels image + bytes_per_line image * height image <= scan sail_read_options st) ->
  0 <= pos ->
  pos + line * (3 * height image - 1) + width image
  <= Z.of_nat (length content) ->
  exists m',
    sail_codec_read_frame_v6_pcx byte_stream sail_read_options
      SAIL_PCX_NO_ENCODING sail_check_io_valid (Some st) stream_io image
      (content, pos) m
    = (SAIL_OK, (content, pos + line * (3 * height image)), m')
    /\ (forall row column component,
          0 <= row < height image -> 0 <= column < width image ->
          0 <= component < 3 ->
          load8 m' (pixels image + bytes_per_line image * row
                    + 3 * column + component)
          = u8 (stream_byte content
                  (pos + line * (3 * row + component) + column)))
    /\ (forall q,
          ~ (scan sail_read_options st <= q < scan sail_read_options st + width image) ->
          ~ (pixels image <= q
             < pixels image + bytes_per_line image * height image) ->
          m' q = m q).
Proof.
  intros Hio Hvalid Hencoding Hformat line Hline Hshort Hstride Hheight Hsize
         Hapart Hpos Hfit.
  assert (Hwidth : width image <> 0).
  { revert Hvalid. unfold sail_check_image_skeleton_valid.
    destruct (pixel_format_eqb _ _); [discriminate |].
    destruct (width image =? 0) eqn:H; [discriminate |].
    intros _. now apply Z.eqb_neq. }
  set (padding := u32 (line - width image)).
  assert (Hpadding : padding = line - width image).
  { unfold padding. apply u32_small_pcx. lia. }
  destruct (read_rgb_rows_from_stream image content padding (scan sail_read_options st)
              (Z.to_nat (height image)) ltac:(lia) ltac:(lia) Hstride
              0 pos m ltac:(lia) Hpos ltac:(lia))
    as (m' & Hloop & Hpixels & Hframe).
  { rewrite Z2Nat.id by lia. lia. }
  { intros _. rewrite Hpadding, Z2Nat.id by lia.
    replace (width image + (line - width image)) with line by lia.
    exact Hfit. }
  rewrite Z2Nat.id in * by lia.
  exists m'.
  assert (Hrun : sail_codec_read_frame_v6_pcx byte_stream sail_read_options
                   SAIL_PCX_NO_ENCODING sail_check_io_valid (Some st)
                   stream_io image (content, pos) m
                 = read_rgb_rows byte_stream (Z.to_nat (height image)) 0
                     stream_io image (scan sail_read_options st) padding (content, pos) m).
  { unfold sail_codec_read_frame_v6_pcx.
    rewrite Hio, Hvalid, Hencoding, Z.eqb_refl, Hformat. reflexivity. }
  rewrite Hrun, Hloop. split; [| split].
  - f_equal. f_equal. f_equal. rewrite Hpadding. lia.
  - intros row column component Hrow Hcolumn Hcomponent.
    rewrite Hpixels by lia. f_equal. f_equal. rewrite Hpadding.
    replace (row - 0) with row by lia.
    replace (width image + (line - width image)) with line by lia.
    reflexivity.
  - intros q Hplane Hbuffer. apply Hframe; [exact Hplane | lia].
Qed.

End UncompressedFrames.

(** A collaborator set for the runs below: every allocation succeeds,
    one-plane headers of 1, 4 and 8 bits are indexed, three planes of 8 bits
    are RGB. *)
Definition sample_pixel_format (bits_per_plane planes palette_info : Z)
  : sail_status_t * SailPixelFormat :=
  if (planes =? 1) && (bits_per_plane =? 1)
  then (SAIL_OK, SAIL_PIXEL_FORMAT_BPP1_INDEXED)
  else if (planes =? 1) && (bits_per_plane =? 4)
  then (SAIL_OK, SAIL_PIXEL_FORMAT_BPP4_INDEXED)
  else if (planes =? 1) && (bits_per_plane =? 8)
  then (SAIL_OK, SAIL_PIXEL_FORMAT_BPP8_INDEXED)
  else if (planes =? 3) && (bits_per_plane =? 8)
  then (SAIL_OK, SAIL_PIXEL_FORMAT_BPP24_RGB)
  else (SAIL_ERROR_UNSUPPORTED_PIXEL_FORMAT, SAIL_PIXEL_FORMAT_UNKNOWN).

Definition sample_header : SailPcxHeader :=
  {| id := 10; encoding := 0; bits_per_plane := 8;
     xmin := 0; ymin := 0; xmax := 1; ymax := 1; hdpi := 72; vdpi := 72;
     header_palette := repeat 0 48; planes := 1;
     header_bytes_per_line := 2; palette_info := 1 |}.

Definition sample_state : pcx_state unit :=
  {| read_options := Some tt; pcx_header := sample_header;
     scan := 0; frame_read := false |}.

Definition sample_seek (state : option (pcx_state unit)) (w : byte_stream)
  : sail_status_t * option (pcx_state unit) * option sail_image * byte_stream :=
  sail_codec_read_seek_next_frame_v6_pcx byte_stream unit
    (fun _ => SAIL_OK)
    (fun _ w => (SAIL_OK, 4096, w))
    (fun w => (SAIL_OK, w))
    (fun w => (SAIL_OK, w))
    sample_pixel_format
    (fun _ _ _ w => (SAIL_OK, None, w))
    (fun x y w =>
       (SAIL_OK,
        Some {| resolution_unit := 1; resolution_x := x; resolution_y := y |},
        w))
    state stream_io true w.

Definition sample_read_frame (no_encoding : Z) (st : pcx_state unit)
    (image : sail_image) (w : byte_stream) (m : mem)
  : sail_status_t * byte_stream * mem :=
  sail_codec_read_frame_v6_pcx byte_stream unit no_encoding
    (fun _ => SAIL_OK) (Some st) stream_io image w m.

Definition sample_image (pf : SailPixelFormat) : sail_image :=
  {| pixels := 1000; width := 2; height := 2; bytes_per_line := 2;
     pixel_format := pf; palette := None; source_image := None;
     resolution := None |}.

(** The first call on the sample stream describes a 2x2 indexed frame. *)
Example sample_seek_first :
  match sample_seek (Some sample_state) ([1; 2; 3; 4], 0) with
  | (status, _, Some image, _) =>
      (status, width image, height image, bytes_per_line image,
       pixel_format image)
      = (SAIL_OK, 2, 2, 2, SAIL_PIXEL_FORMAT_BPP8_INDEXED)
  | _ => False
  end.
Proof. reflexivity. Qed.

(** An uncompressed indexed frame is read line by line into the buffer. *)
Example sample_read_indexed :
  match sample_read_frame 0 sample_state
          (sample_image SAIL_PIXEL_FORMAT_BPP8_INDEXED) ([1; 2; 3; 4], 0)
          (fun _ => 0) with
  | (status, w, m) =>
      (status, snd w, map m [1000; 1001; 1002; 1003])
      = (SAIL_OK, 4, [1; 2; 3; 4])
  end.
Proof. reflexivity. Qed.

Definition sample_init (w : byte_stream)
  : sail_status_t * option (pcx_state unit) * byte_stream :=
  sail_codec_read_init_v6_pcx byte_stream unit 1 sample_header
    (fun _ => SAIL_OK)
    (fun _ w => (SAIL_OK, 4096, w))
    (fun options w => (SAIL_OK, Some options, w))
    (fun _ w => (SAIL_OK, sample_header, (fst w, snd w + 128)))
    stream_io (Some tt) true w.

Definition sample_seek_statuses (calls : nat)
    (state : option (pcx_state unit)) (w : byte_stream)
  : list sail_status_t :=
  seek_statuses byte_stream unit
    (fun _ => SAIL_OK)
    (fun _ w => (SAIL_OK, 4096, w))
    (fun w => (SAIL_OK, w))
    (fun w => (SAIL_OK, w))
    sample_pixel_format
    (fun _ _ _ w => (SAIL_OK, None, w))
    (fun x y w =>
       (SAIL_OK,
        Some {| resolution_unit := 1; resolution_x := x; resolution_y := y |},
        w))
    calls state stream_io w.

Lemma seek_next_frame_single_frame_witness :
  sample_seek_statuses 4 (snd (fst (sample_init ([], 0)))) ([], 128)
  = [SAIL_OK; SAIL_ERROR_NO_MORE_FRAMES; SAIL_ERROR_NO_MORE_FRAMES;
     SAIL_ERROR_NO_MORE_FRAMES].
Proof.
  refine (proj1 (proj2 (seek_next_frame_single_frame byte_stream unit
           1 sample_header
           (fun _ => SAIL_OK) (fun _ w => (SAIL_OK, 4096, w))
           (fun options w => (SAIL_OK, Some options, w))
           (fun _ w => (SAIL_OK, sample_header, (fst w, snd w + 128)))
           (fun w => (SAIL_OK, w)) (fun w => (SAIL_OK, w))
           sample_pixel_format (fun _ _ _ w => (SAIL_OK, None, w))
           (fun x y w =>
              (SAIL_OK,
               Some {| resolution_unit := 1; resolution_x := x;
                       resolution_y := y |},
               w))
           stream_io (Some tt) ([], 0) ([], 128)
           (snd (fst (sample_init ([], 0)))) 3 eq_refl)
           sample_state eq_refl _)).
  unfold collaborators_succeed.
  repeat split; try reflexivity.
  exists SAIL_PIXEL_FORMAT_BPP8_INDEXED.
  repeat split; try reflexivity. discriminate.
Defined.

Lemma read_frame_leaves_pixels_witness :
  sample_read_frame 0
    {| read_options := Some tt;
       pcx_header :=
         {| id := 10; encoding := 1; bits_per_plane := 8;
            xmin := 0; ymin := 0; xmax := 1; ymax := 1; hdpi := 72; vdpi := 72;
            header_palette := repeat 0 48; planes := 1;
            header_bytes_per_line := 2; palette_info := 1 |};
       scan := 0; frame_read := true |}
    (sample_image SAIL_PIXEL_FORMAT_BPP8_INDEXED) ([1; 2; 3; 4], 0)
    (fun _ => 0)
  = (SAIL_OK, ([1; 2; 3; 4], 0), fun _ => 0).
Proof.
  unfold sample_read_frame.
  apply (read_frame_leaves_pixels byte_stream unit 0 (fun _ => SAIL_OK)).
  - reflexivity.
  - reflexivity.
  - left. simpl. discriminate.
Defined.

(** ** Further runs *)

Definition sample_finish (state : option (pcx_state unit)) (w : byte_stream)
  : sail_status_t * option (pcx_state unit) * byte_stream :=
  sail_codec_read_finish_v6_pcx byte_stream unit (fun _ => SAIL_OK) unit
    (fun _ w => w) (fun _ w => w) (fun _ w => w) (fun w => w)
    true state stream_io w.

(** A state for a frame of three 8-bit planes, with its scan buffer at
    address 500. *)
Definition sample_rgb_state : pcx_state unit :=
  {| read_options := Some tt;
     pcx_header :=
       {| id := 10; encoding := 0; bits_per_plane := 8;
          xmin := 0; ymin := 0; xmax := 1; ymax := 0; hdpi := 0; vdpi := 0;
          header_palette := repeat 0 48; planes := 3;
          header_bytes_per_line := 2; palette_info := 1 |};
     scan := 500; frame_read := true |}.

Definition sample_rgb_frame : sail_image :=
  {| pixels := 1000; width := 2; height := 1; bytes_per_line := 6;
     pixel_format := SAIL_PIXEL_FORMAT_BPP24_RGB; palette := None;
     source_image := None; resolution := None |}.

(** One line stored as a red, a green and a blue plane becomes two
    interleaved pixels. *)
Example sample_read_rgb :
  match sample_read_frame 0 sample_rgb_state sample_rgb_frame
          ([1; 2; 3; 4; 5; 6], 0) (fun _ => 0) with
  | (status, w, m) =>
      (status, snd w, map m [1000; 1001; 1002; 1003; 1004; 1005])
      = (SAIL_OK, 6, [1; 3; 5; 2; 4; 6])
  end.
Proof. reflexivity. Qed.

(** A header that is read but carries another signature. *)
Definition sample_foreign_header : SailPcxHeader :=
  {| id := 66; encoding := 0; bits_per_plane := 8;
     xmin := 0; ymin := 0; xmax := 1; ymax := 1; hdpi := 72; vdpi := 72;
     header_palette := repeat 0 48; planes := 1;
     header_bytes_per_line := 2; palette_info := 1 |}.

Definition sample_init_foreign (w : byte_stream)
  : sail_status_t * option (pcx_state unit) * byte_stream :=
  sail_codec_read_init_v6_pcx byte_stream unit 1 sample_header
    (fun _ => SAIL_OK)
    (fun _ w => (SAIL_OK, 4096, w))
    (fun options w => (SAIL_OK, Some options, w))
    (fun _ w => (SAIL_OK, sample_foreign_header, (fst w, snd w + 128)))
    stream_io (Some tt) true w.

Lemma read_init_outcome_witness :
  (exists st,
     snd (fst (sample_init ([], 0))) = Some st
     /\ id (pcx_header st) = SAIL_PCX_SIGNATURE
     /\ header_bytes_per_line (pcx_header st) <> 0)
  /\ fst (fst (sample_init_foreign ([], 0))) = SAIL_ERROR_BROKEN_IMAGE
  /\ exists st,
       snd (fst (sample_init_foreign ([], 0))) = Some st
       /\ pcx_header st = sample_foreign_header.
Proof.
  split.
  - destruct (read_init_outcome byte_stream unit 1 sample_header
                (fun _ => SAIL_OK)
                (fun _ w => (SAIL_OK, 4096, w))
                (fun options w => (SAIL_OK, Some options, w))
                (fun _ w => (SAIL_OK, sample_header, (fst w, snd w + 128)))
                stream_io (Some tt) true ([], 0))
      as (Hok & _).
    destruct (Hok eq_refl) as (_ & _ & _ & Hstate).
    exact Hstate.
  - destruct (read_init_outcome byte_stream unit 1 sample_header
                (fun _ => SAIL_OK)
                (fun _ w => (SAIL_OK, 4096, w))
                (fun options w => (SAIL_OK, Some options, w))
                (fun _ w =>
                   (SAIL_OK, sample_foreign_header, (fst w, snd w + 128)))
                stream_io (Some tt) true ([], 0))
      as (_ & _ & _ & _ & _ & Hlater).
    destruct (Hlater tt 4096 ([], 0) SAIL_OK (Some tt) ([], 0) SAIL_OK
                sample_foreign_header ([], 128)
                eq_refl eq_refl eq_refl eq_refl eq_refl eq_refl)
      as (_ & _ & Hbroken).
    destruct (Hbroken eq_refl eq_refl) as (Hstatus & _ & st & Hstate & _ & Hh).
    + left. simpl. discriminate.
    + split; [exact Hstatus |]. exists st. split; [exact Hstate | exact Hh].
Defined.

Lemma seek_next_frame_outcome_witness :
  fst (fst (fst (sample_seek (Some sample_state) ([1; 2; 3; 4], 0))))
  = SAIL_OK.
Proof.
  destruct (seek_next_frame_outcome byte_stream unit
              (fun _ => SAIL_OK)
              (fun _ w => (SAIL_OK, 4096, w))
              (fun w => (SAIL_OK, w))
              (fun w => (SAIL_OK, w))
              sample_pixel_format
              (fun _ _ _ w => (SAIL_OK, None, w))
              (fun x y w =>
                 (SAIL_OK,
                  Some {| resolution_unit := 1; resolution_x := x;
                          resolution_y := y |},
                  w))
              sample_state stream_io true ([1; 2; 3; 4], 0))
    as (Hiff & _).
  apply Hiff. vm_compute. discriminate.
Defined.

Lemma read_finish_releases_once_witness :
  sample_finish (snd (fst (sample_finish (Some sample_state) ([], 0))))
                (snd (sample_finish (Some sample_state) ([], 0)))
  = (SAIL_OK, None, ([], 0)).
Proof.
  destruct (read_finish_releases_once byte_stream unit 0
              (fun _ => SAIL_OK)
              (fun _ w => (SAIL_OK, 4096, w))
              (fun w => (SAIL_OK, w))
              (fun w => (SAIL_OK, w))
              sample_pixel_format
              (fun _ _ _ w => (SAIL_OK, None, w))
              (fun x y w =>
                 (SAIL_OK,
                  Some {| resolution_unit := 1; resolution_x := x;
                          resolution_y := y |},
                  w))
              unit (fun _ w => w) (fun _ w => w) (fun _ w => w)
              (fun w => w)
              (Some sample_state) stream_io
              (sample_image SAIL_PIXEL_FORMAT_BPP8_INDEXED) ([], 0)
              (fun _ => 0) eq_refl)
    as (_ & Hsecond & _).
  exact Hsecond.
Defined.

Lemma writing_is_not_implemented_witness :
  sail_codec_write_init_v6_pcx byte_stream (fun _ => SAIL_OK) stream_io
                               true true
  = SAIL_ERROR_NOT_IMPLEMENTED.
Proof.
  destruct (writing_is_not_implemented byte_stream (fun _ => SAIL_OK)
              stream_io (sample_image SAIL_PIXEL_FORMAT_BPP8_INDEXED)
              true true)
    as (_ & _ & _ & _ & Hvalid).
  destruct (Hvalid eq_refl) as (Hinit & _).
  exact Hinit.
Defined.

Lemma spread_plane_interleaves_witness :
  load8 (spread_plane 2 0 1000 2000 1 (mem_of_list 2000 [7; 9])) 1004
  = load8 (mem_of_list 2000 [7; 9]) 2001.
Proof.
  destruct (spread_plane_interleaves 2 1000 2000 1 (mem_of_list 2000 [7; 9]))
    as (Hvalues & _).
  - lia.
  - simpl. lia.
  - simpl. lia.
  - apply (Hvalues 1). simpl. lia.
Defined.

Lemma read_frame_plain_rows_witness :
  exists m',
    sample_read_frame 0 sample_state
      (sample_image SAIL_PIXEL_FORMAT_BPP8_INDEXED) ([1; 2; 3; 4], 0)
      (fun _ => 0)
    = (SAIL_OK, ([1; 2; 3; 4], 4), m')
    /\ load8 m' 1003 = u8 (stream_byte [1; 2; 3; 4] 3).
Proof.
  destruct (read_frame_plain_rows unit 0 (fun _ => SAIL_OK) sample_state
              (sample_image SAIL_PIXEL_FORMAT_BPP8_INDEXED) [1; 2; 3; 4] 0
              (fun _ => 0))
    as (m' & Hrun & Hpixels & _).
  - reflexivity.
  - reflexivity.
  - reflexivity.
  - simpl. right. right. left. reflexivity.
  - simpl. lia.
  - simpl. lia.
  - simpl. lia.
  - simpl. lia.
  - lia.
  - simpl. lia.
  - exists m'. split; [exact Hrun |].
    apply (Hpixels 1 1); simpl; lia.
Defined.

Lemma read_frame_rgb_planes_witness :
  exists m',
    sample_read_frame 0 sample_rgb_state sample_rgb_frame
      ([1; 2; 3; 4; 5; 6], 0) (fun _ => 0)
    = (SAIL_OK, ([1; 2; 3; 4; 5; 6], 6), m')
    /\ load8 m' 1005 = u8 (stream_byte [1; 2; 3; 4; 5; 6] 5).
Proof.
  destruct (read_frame_rgb_planes unit 0 (fun _ => SAIL_OK) sample_rgb_state
              sample_rgb_frame [1; 2; 3; 4; 5; 6] 0 (fun _ => 0))
    as (m' & Hrun & Hpixels & _).
  - reflexivity.
  - reflexivity.
  - reflexivity.
  - reflexivity.
  - simpl. lia.
  - simpl. lia.
  - simpl. lia.
  - simpl. lia.
  - simpl. lia.
  - simpl. lia.
  - lia.
  - simpl. lia.
  - exists m'. split; [exact Hrun |].
    apply (Hpixels 0 1 2); simpl; lia.
Defined.

End Pcx.

(* ================================================================== *)
(** * Conversion to 64-bit RGBA kinds ([libsail-manip/convert_to_64.c]) *)
(* ================================================================== *)

Module Manip.

(** [sail_rgba64_t]: four 16-bit components. *)
Record sail_rgba64_t : Type := {
  component1 : Z;
  component2 : Z;
  component3 : Z;
  component4 : Z
}.

Definition with_component4 (color : sail_rgba64_t) (v : Z) : sail_rgba64_t :=
  {| component1 := component1 color; component2 := component2 color;
     component3 := component3 color; component4 := v |}.

(** The four channel values handed to [fill_rgba64_pixel]. *)
Definition channels : Type := (Z * Z * Z * Z)%type.

Definition channels_of (color : sail_rgba64_t) : channels :=
  (component1 color, component2 color, component3 color, component4 color).

(** [verify_and_construct_rgba64_indexes]: the indexes of red, green, blue and
    alpha in an output pixel; the alpha index is [-1] when the format has no
    alpha. On failure the indexes are not assigned. *)
Definition verify_and_construct_rgba64_indexes
    (output_pixel_format : SailPixelFormat) : sail_status_t * channels :=
  match output_pixel_format with
  | SAIL_PIXEL_FORMAT_BPP64_RGBX => (SAIL_OK, (0, 1, 2, -1))
  | SAIL_PIXEL_FORMAT_BPP64_BGRX => (SAIL_OK, (2, 1, 0, -1))
  | SAIL_PIXEL_FORMAT_BPP64_XRGB => (SAIL_OK, (1, 2, 3, -1))
  | SAIL_PIXEL_FORMAT_BPP64_XBGR => (SAIL_OK, (3, 2, 1, -1))
  | SAIL_PIXEL_FORMAT_BPP64_RGBA => (SAIL_OK, (0, 1, 2, 3))
  | SAIL_PIXEL_FORMAT_BPP64_BGRA => (SAIL_OK, (2, 1, 0, 3))
  | SAIL_PIXEL_FORMAT_BPP64_ARGB => (SAIL_OK, (1, 2, 3, 0))
  | SAIL_PIXEL_FORMAT_BPP64_ABGR => (SAIL_OK, (3, 2, 1, 0))
  | _ => (SAIL_ERROR_UNSUPPORTED_PIXEL_FORMAT, (0, 0, 0, 0))
  end.

(** [get_palette_rgba64]. The default branch of the switch only logs: the
    function then returns [SAIL_OK] and leaves [*color] as it was. *)
Definition get_palette_rgba64 (m : mem) (palette : sail_palette) (index : Z)
    (color : sail_rgba64_t) : sail_status_t * sail_rgba64_t :=
  if color_count palette <=? index then (SAIL_ERROR_BROKEN_IMAGE, color) else
  match palette_pixel_format palette with
  | SAIL_PIXEL_FORMAT_BPP24_RGB =>
      let entry := palette_data palette + u32 (index * 3) in
      (SAIL_OK,
       {| component1 := u16 (load8 m (entry + 0) * 257);
          component2 := u16 (load8 m (entry + 1) * 257);
          component3 := u16 (load8 m (entry + 2) * 257);
          component4 := 65535 |})
  | SAIL_PIXEL_FORMAT_BPP32_RGBA =>
      let entry := palette_data palette + u32 (index * 4) in
      (SAIL_OK,
       {| component1 := u16 (load8 m (entry + 0) * 257);
          component2 := u16 (load8 m (entry + 1) * 257);
          component3 := u16 (load8 m (entry + 2) * 257);
          component4 := u16 (load8 m (entry + 3) * 257) |})
  | _ => (SAIL_OK, color)
  end.

(** [spread_gray8_to_rgba64]; the argument is converted to [uint8_t] at the
    call. *)
Definition spread_gray8_to_rgba64 (value : Z) : sail_rgba64_t :=
  let v := u16 (u16 (u8 value) * 257) in
  {| component1 := v; component2 := v; component3 := v; component4 := 65535 |}.

(** [spread_gray16_to_rgba64]. *)
Definition spread_gray16_to_rgba64 (value : Z) : sail_rgba64_t :=
  let v := u16 value in
  {| component1 := v; component2 := v; component3 := v; component4 := 65535 |}.

Section Engine.

(** The byte order of the machine. *)
Variable E : byte_order.

(** The colour space collaborators of [cmyk.h] and [ycbcr.h]; each returns
    the three values it stores through its [uint8_t] out-pointers. *)
Variable convert_cmyk32_to_rgb24 : Z -> Z -> Z -> Z -> Z * Z * Z.
Variable convert_ycbcr_to_rgb : Z -> Z -> Z -> Z * Z * Z.

(** The allocating collaborators of [sail-common]. *)
Variable sail_copy_image_skeleton : sail_image -> sail_status_t * sail_image.
Variable sail_malloc : Z -> sail_status_t * Z.

(** [fill_rgba64_pixel]: [scan] points to 16-bit channels, so channel [i] is
    at byte offset [2 * i]; the values are [uint16_t] parameters. *)
Definition fill_rgba64_pixel (m : mem) (scan r g b a rv gv bv av : Z) : mem :=
  let m := store16 E m (scan + 2 * r) rv in
  let m := store16 E m (scan + 2 * g) gv in
  let m := store16 E m (scan + 2 * b) bv in
  if 0 <=? a then store16 E m (scan + 2 * a) av else m.

(** The loop
    [for (pixel_index = 0; pixel_index < width; pixel_index++)
       { fill_rgba64_pixel(scan_output, r, g, b, a, values);
         scan_input += step; scan_output += 4; }]
    of the scan functions and of the packed formats: the four values are
    read from the input position; [step] is in bytes and the output advances
    by four 16-bit channels. *)
Fixpoint scan_loop (values : mem -> Z -> channels) (step : Z) (n : nat)
    (scan_input scan_output r g b a : Z) (m : mem) : mem :=
  match n with
  | O => m
  | S n' =>
      match values m scan_input with
      | (rv, gv, bv, av) =>
          let m' := fill_rgba64_pixel m scan_output r g b a rv gv bv av in
          scan_loop values step n' (scan_input + step) (scan_output + 8)
                    r g b a m'
      end
  end.

(** The same loop for the formats that go through the local [rgba]: each
    iteration assigns [rgba] from the input position, which may fail and then
    returns at once, and fills the output pixel with its four components. *)
Fixpoint rgba_loop
    (assign : mem -> Z -> sail_rgba64_t -> sail_status_t * sail_rgba64_t)
    (step : Z) (n : nat) (scan_input scan_output r g b a : Z)
    (rgba : sail_rgba64_t) (m : mem) : sail_status_t * sail_rgba64_t * mem :=
  match n with
  | O => (SAIL_OK, rgba, m)
  | S n' =>
      match assign m scan_input rgba with
      | (SAIL_OK, rgba') =>
          let m' := fill_rgba64_pixel m scan_output r g b a
                      (component1 rgba') (component2 rgba')
                      (component3 rgba') (component4 rgba') in
          rgba_loop assign step n' (scan_input + step) (scan_output + 8)
                    r g b a rgba' m'
      | (err, rgba') => (err, rgba', m)
      end
  end.

Definition rgb24_kind_values (ri gi bi : Z) (m : mem) (p : Z) : channels :=
  (load8 m (p + ri) * 257, load8 m (p + gi) * 257, load8 m (p + bi) * 257,
   65535).

Definition rgba32_kind_values (ri gi bi ai : Z) (m : mem) (p : Z) : channels :=
  (load8 m (p + ri) * 257, load8 m (p + gi) * 257, load8 m (p + bi) * 257,
   load8 m (p + ai) * 257).

Definition rgb48_kind_values (ri gi bi : Z) (m : mem) (p : Z) : channels :=
  (load16 E m (p + 2 * ri) * 257, load16 E m (p + 2 * gi) * 257,
   load16 E m (p + 2 * bi) * 257, 65535).

Definition rgba64_kind_values (ri gi bi ai : Z) (m : mem) (p : Z) : channels :=
  (load16 E m (p + 2 * ri), load16 E m (p + 2 * gi), load16 E m (p + 2 * bi),
   load16 E m (p + 2 * ai)).

Definition rgbx64_kind_values (ri gi bi : Z) (m : mem) (p : Z) : channels :=
  (load16 E m (p + 2 * ri), load16 E m (p + 2 * gi), load16 E m (p + 2 * bi),
   65535).

(** [fill_rgba64_scan_from_rgb24_kind]. *)
Definition fill_rgba64_scan_from_rgb24_kind (scan_input : Z) (width : Z)
    (ri gi bi : Z) (scan_output r g b a : Z) (m : mem) : mem :=
  scan_loop (rgb24_kind_values ri gi bi) 3 (Z.to_nat width)
            scan_input scan_output r g b a m.

(** [fill_rgba64_scan_from_rgba32_kind]. *)
Definition fill_rgba64_scan_from_rgba32_kind (scan_input : Z) (width : Z)
    (ri gi bi ai : Z) (scan_output r g b a : Z) (m : mem) : mem :=
  scan_loop (rgba32_kind_values ri gi bi ai) 4 (Z.to_nat width)
            scan_input scan_output r g b a m.

(** [fill_rgba64_scan_from_rgbx32_kind]. *)
Definition fill_rgba64_scan_from_rgbx32_kind (scan_input : Z) (width : Z)
    (ri gi bi : Z) (scan_output r g b a : Z) (m : mem) : mem :=
  scan_loop (rgb24_kind_values ri gi bi) 4 (Z.to_nat width)
            scan_input scan_output r g b a m.

(** [fill_rgba64_scan_from_rgb48_kind]; the 16-bit input channels are
    multiplied by 257 as well, and truncated by the [uint16_t] parameters of
    [fill_rgba64_pixel]. *)
Definition fill_rgba64_scan_from_rgb48_kind (scan_input : Z) (width : Z)
    (ri gi bi : Z) (scan_output r g b a : Z) (m : mem) : mem :=
  scan_loop (rgb48_kind_values ri gi bi) 6 (Z.to_nat width)
            scan_input scan_output r g b a m.

(** [fill_rgba64_scan_from_rgba64_kind]. *)
Definition fill_rgba64_scan_from_rgba64_kind (scan_input : Z) (width : Z)
    (ri gi bi ai : Z) (scan_output r g b a : Z) (m : mem) : mem :=
  scan_loop (rgba64_kind_values ri gi bi ai) 8 (Z.to_nat width)
            scan_input scan_output r g b a m.

(** [fill_rgba64_scan_from_rgbx64_kind]. *)
Definition fill_rgba64_scan_from_rgbx64_kind (scan_input : Z) (width : Z)
    (ri gi bi : Z) (scan_output r g b a : Z) (m : mem) : mem :=
  scan_loop (rgbx64_kind_values ri gi bi) 8 (Z.to_nat width)
            scan_input scan_output r g b a m.

(** ** [to_bpp64_rgba_kind] *)

(** [get_palette_rgba64(image_input->palette, index, &rgba)]. A NULL palette
    is dereferenced by the C code; the model reports it as a NULL pointer
    error. *)
Definition resolve_index (m : mem) (palette : option sail_palette) (index : Z)
    (rgba : sail_rgba64_t) : sail_status_t * sail_rgba64_t :=
  match palette with
  | Some palette => get_palette_rgba64 m palette index rgba
  | None => (SAIL_ERROR_NULL_PTR, rgba)
  end.

(** The inner loop of the formats below 8 bits per pixel,
    [while (bit_mask > 0 && pixel_index < width)], over the samples of one
    byte; [bits] is what [bit_shift] and [bit_mask] move by. The result
    carries [pixel_index] and [scan_output] back to the outer loop. The mask
    is below 256 and loses at least one bit per iteration, so 8 iterations
    exhaust it. *)
Fixpoint unpack_byte (fuel : nat)
    (sample : mem -> Z -> sail_rgba64_t -> sail_status_t * sail_rgba64_t)
    (bits byte bit_shift bit_mask pixel_index width scan_output r g b a : Z)
    (rgba : sail_rgba64_t) (m : mem)
  : sail_status_t * (Z * Z) * sail_rgba64_t * mem :=
  match fuel with
  | O => (SAIL_OK, (pixel_index, scan_output), rgba, m)
  | S fuel' =>
      if (0 <? bit_mask) && (pixel_index <? width) then
        let index := u8 (Z.shiftr (Z.land byte bit_mask) bit_shift) in
        match sample m index rgba with
        | (SAIL_OK, rgba') =>
            let m' := fill_rgba64_pixel m scan_output r g b a
                        (component1 rgba') (component2 rgba')
                        (component3 rgba') (component4 rgba') in
            unpack_byte fuel' sample bits byte (u32 (bit_shift - bits))
                        (Z.shiftr bit_mask bits) (pixel_index + 1) width
                        (scan_output + 8) r g b a rgba' m'
        | (err, rgba') => (err, (pixel_index, scan_output), rgba', m)
        end
      else (SAIL_OK, (pixel_index, scan_output), rgba, m)
  end.

(** The outer loop [for (pixel_index = 0; pixel_index < width;)] over the
    bytes of a row. Every byte yields at least one pixel, so [width]
    iterations suffice. *)
Fixpoint unpack_row (fuel : nat)
    (sample : mem -> Z -> sail_rgba64_t -> sail_status_t * sail_rgba64_t)
    (bits bit_shift bit_mask : Z)
    (scan_input pixel_index width scan_output r g b a : Z)
    (rgba : sail_rgba64_t) (m : mem) : sail_status_t * sail_rgba64_t * mem :=
  match fuel with
  | O => (SAIL_OK, rgba, m)
  | S fuel' =>
      if pixel_index <? width then
        let byte := load8 m scan_input in
        match unpack_byte 8 sample bits byte bit_shift bit_mask pixel_index
                          width scan_output r g b a rgba m with
        | (SAIL_OK, (pixel_index', scan_output'), rgba', m') =>
            unpack_row fuel' sample bits bit_shift bit_mask (scan_input + 1)
                       pixel_index' width scan_output' r g b a rgba' m'
        | (err, _, rgba', m') => (err, rgba', m')
        end
      else (SAIL_OK, rgba, m)
  end.

Definition rgb555_values (m : mem) (p : Z) : channels :=
  (Z.shiftl (Z.land (Z.shiftr (load16 E m p) 0) 31) 3 * 257,
   Z.shiftl (Z.land (Z.shiftr (load16 E m p) 5) 31) 3 * 257,
   Z.shiftl (Z.land (Z.shiftr (load16 E m p) 10) 31) 3 * 257,
   65535).

Definition bgr555_values (m : mem) (p : Z) : channels :=
  (Z.shiftl (Z.land (Z.shiftr (load16 E m p) 10) 31) 3 * 257,
   Z.shiftl (Z.land (Z.shiftr (load16 E m p) 5) 31) 3 * 257,
   Z.shiftl (Z.land (Z.shiftr (load16 E m p) 0) 31) 3 * 257,
   65535).

Definition cmyk32_values (m : mem) (p : Z) : channels :=
  match convert_cmyk32_to_rgb24 (load8 m (p + 0)) (load8 m (p + 1))
                                (load8 m (p + 2)) (load8 m (p + 3)) with
  | (rv, gv, bv) => (u8 rv * 257, u8 gv * 257, u8 bv * 257, 65535)
  end.

Definition ycbcr24_values (m : mem) (p : Z) : channels :=
  match convert_ycbcr_to_rgb (load8 m (p + 0)) (load8 m (p + 1))
                             (load8 m (p + 2)) with
  | (rv, gv, bv) => (u8 rv * 257, u8 gv * 257, u8 bv * 257, 65535)
  end.

(** The body of the row loop of [to_bpp64_rgba_kind]: the switch on the
    input pixel format, for the row at [scan_input] and [scan_output]. *)
Definition convert_row (image_input : sail_image)
    (scan_input scan_output r g b a : Z) (rgba : sail_rgba64_t) (m : mem)
  : sail_status_t * sail_rgba64_t * mem :=
  let width := width image_input in
  let columns := Z.to_nat width in
  let indexed := fun m index rgba =>
                   resolve_index m (palette image_input) index rgba in
  match pixel_format image_input with
  | SAIL_PIXEL_FORMAT_BPP1_INDEXED =>
      unpack_row columns indexed 1 7 (Z.shiftl 1 7)
                 scan_input 0 width scan_output r g b a rgba m
  | SAIL_PIXEL_FORMAT_BPP1_GRAYSCALE =>
      unpack_row columns
        (fun _ index _ =>
           (SAIL_OK, spread_gray8_to_rgba64 (if index =? 0 then 0 else 255)))
        1 7 (Z.shiftl 1 7) scan_input 0 width scan_output r g b a rgba m
  | SAIL_PIXEL_FORMAT_BPP2_INDEXED =>
      unpack_row columns indexed 2 6 (Z.shiftl 3 6)
                 scan_input 0 width scan_output r g b a rgba m
  | SAIL_PIXEL_FORMAT_BPP2_GRAYSCALE =>
      unpack_row columns
        (fun _ index _ => (SAIL_OK, spread_gray8_to_rgba64 (index * 85)))
        2 6 (Z.shiftl 3 6) scan_input 0 width scan_output r g b a rgba m
  | SAIL_PIXEL_FORMAT_BPP4_INDEXED =>
      unpack_row columns indexed 4 4 (Z.shiftl 15 4)
                 scan_input 0 width scan_output r g b a rgba m
  | SAIL_PIXEL_FORMAT_BPP4_GRAYSCALE =>
      unpack_row columns
        (fun _ index _ => (SAIL_OK, spread_gray8_to_rgba64 (index * 17)))
        4 4 (Z.shiftl 15 4) scan_input 0 width scan_output r g b a rgba m
  | SAIL_PIXEL_FORMAT_BPP8_INDEXED =>
      rgba_loop (fun m p rgba => indexed m (load8 m p) rgba)
                1 columns scan_input scan_output r g b a rgba m
  | SAIL_PIXEL_FORMAT_BPP8_GRAYSCALE =>
      rgba_loop (fun m p _ => (SAIL_OK, spread_gray8_to_rgba64 (load8 m p)))
                1 columns scan_input scan_output r g b a rgba m
  | SAIL_PIXEL_FORMAT_BPP16_GRAYSCALE =>
      rgba_loop
        (fun m p _ => (SAIL_OK, spread_gray16_to_rgba64 (load16 E m p)))
        2 columns scan_input scan_output r g b a rgba m
  | SAIL_PIXEL_FORMAT_BPP16_GRAYSCALE_ALPHA =>
      rgba_loop
        (fun m p _ =>
           let value := load8 m p in
           let alpha := load8 m (p + 1) in
           (SAIL_OK,
            with_component4 (spread_gray8_to_rgba64 value) (u16 (alpha * 257))))
        2 columns scan_input scan_output r g b a rgba m
  | SAIL_PIXEL_FORMAT_BPP32_GRAYSCALE_ALPHA =>
      rgba_loop
        (fun m p _ =>
           let value := load16 E m p in
           let alpha := load16 E m (p + 2) in
           (SAIL_OK, with_component4 (spread_gray16_to_rgba64 value) alpha))
        4 columns scan_input scan_output r g b a rgba m
  | SAIL_PIXEL_FORMAT_BPP16_RGB555 =>
      (SAIL_OK, rgba,
       scan_loop rgb555_values 2 columns scan_input scan_output r g b a m)
  | SAIL_PIXEL_FORMAT_BPP16_BGR555 =>
      (SAIL_OK, rgba,
       scan_loop bgr555_values 2 columns scan_input scan_output r g b a m)
  | SAIL_PIXEL_FORMAT_BPP24_RGB =>
      (SAIL_OK, rgba,
       fill_rgba64_scan_from_rgb24_kind scan_input width 0 1 2
                                        scan_output r g b a m)
  | SAIL_PIXEL_FORMAT_BPP24_BGR =>
      (SAIL_OK, rgba,
       fill_rgba64_scan_from_rgb24_kind scan_input width 2 1 0
                                        scan_output r g b a m)
  | SAIL_PIXEL_FORMAT_BPP48_RGB =>
      (SAIL_OK, rgba,
       fill_rgba64_scan_from_rgb48_kind scan_input width 0 1 2
                                        scan_output r g b a m)
  | SAIL_PIXEL_FORMAT_BPP48_BGR =>
      (SAIL_OK, rgba,
       fill_rgba64_scan_from_rgb48_kind scan_input width 2 1 0
                                        scan_output r g b a m)
  | SAIL_PIXEL_FORMAT_BPP32_RGBX =>
      (SAIL_OK, rgba,
       fill_rgba64_scan_from_rgbx32_kind scan_input width 0 1 2
                                         scan_output r g b a m)
  | SAIL_PIXEL_FORMAT_BPP32_BGRX =>
      (SAIL_OK, rgba,
       fill_rgba64_scan_from_rgbx32_kind scan_input width 2 1 0
                                         scan_output r g b a m)
  | SAIL_PIXEL_FORMAT_BPP32_XRGB =>
      (SAIL_OK, rgba,
       fill_rgba64_scan_from_rgbx32_kind scan_input width 1 2 3
                                         scan_output r g b a m)
  | SAIL_PIXEL_FORMAT_BPP32_XBGR =>
      (SAIL_OK, rgba,
       fill_rgba64_scan_from_rgbx32_kind scan_input width 3 2 1
                                         scan_output r g b a m)
  | SAIL_PIXEL_FORMAT_BPP32_RGBA =>
      (SAIL_OK, rgba,
       fill_rgba64_scan_from_rgba32_kind scan_input width 0 1 2 3
                                         scan_output r g b a m)
  | SAIL_PIXEL_FORMAT_BPP32_BGRA =>
      (SAIL_OK, rgba,
       fill_rgba64_scan_from_rgba32_kind scan_input width 2 1 0 3
                                         scan_output r g b a m)
  | SAIL_PIXEL_FORMAT_BPP32_ARGB =>
      (SAIL_OK, rgba,
       fill_rgba64_scan_from_rgba32_kind scan_input width 1 2 3 0
                                         scan_output r g b a m)
  | SAIL_PIXEL_FORMAT_BPP32_ABGR =>
      (SAIL_OK, rgba,
       fill_rgba64_scan_from_rgba32_kind scan_input width 3 2 1 0
                                         scan_output r g b a m)
  | SAIL_PIXEL_FORMAT_BPP64_RGBX =>
      (SAIL_OK, rgba,
       fill_rgba64_scan_from_rgbx64_kind scan_input width 0 1 2
                                         scan_output r g b a m)
  | SAIL_PIXEL_FORMAT_BPP64_BGRX =>
      (SAIL_OK, rgba,
       fill_rgba64_scan_from_rgbx64_kind scan_input width 2 1 0
                                         scan_output r g b a m)
  | SAIL_PIXEL_FORMAT_BPP64_XRGB =>
      (SAIL_OK, rgba,
       fill_rgba64_scan_from_rgbx64_kind scan_input width 1 2 3
                                         scan_output r g b a m)
  | SAIL_PIXEL_FORMAT_BPP64_XBGR =>
      (SAIL_OK, rgba,
       fill_rgba64_scan_from_rgbx64_kind scan_input width 3 2 1
                                         scan_output r g b a m)
  | SAIL_PIXEL_FORMAT_BPP64_RGBA =>
      (SAIL_OK, rgba,
       fill_rgba64_scan_from_rgba64_kind scan_input width 0 1 2 3
                                         scan_output r g b a m)
  | SAIL_PIXEL_FORMAT_BPP64_BGRA =>
      (SAIL_OK, rgba,
       fill_rgba64_scan_from_rgba64_kind scan_input width 2 1 0 3
                                         scan_output r g b a m)
  | SAIL_PIXEL_FORMAT_BPP64_ARGB =>
      (SAIL_OK, rgba,
       fill_rgba64_scan_from_rgba64_kind scan_input width 1 2 3 0
                                         scan_output r g b a m)
  | SAIL_PIXEL_FORMAT_BPP64_ABGR =>
      (SAIL_OK, rgba,
       fill_rgba64_scan_from_rgba64_kind scan_input width 3 2 1 0
                                         scan_output r g b a m)
  | SAIL_PIXEL_FORMAT_BPP32_CMYK =>
      (SAIL_OK, rgba,
       scan_loop cmyk32_values 4 columns scan_input scan_output r g b a m)
  | SAIL_PIXEL_FORMAT_BPP24_YCBCR =>
      (SAIL_OK, rgba,
       scan_loop ycbcr24_values 3 columns scan_input scan_output r g b a m)
  | _ => (SAIL_ERROR_UNSUPPORTED_PIXEL_FORMAT, rgba, m)
  end.

(** The row loop [for (row = 0; row < height; row++)]; the offsets
    [bytes_per_line * row] are products of [unsigned] values. *)
Fixpoint convert_rows (rows : nat) (row : Z)
    (image_input : sail_image) (r g b a : Z) (image_output : sail_image)
    (rgba : sail_rgba64_t) (m : mem) : sail_status_t * sail_rgba64_t * mem :=
  match rows with
  | O => (SAIL_OK, rgba, m)
  | S rows' =>
      let scan_output :=
        pixels image_output + u32 (bytes_per_line image_output * row) in
      let scan_input :=
        pixels image_input + u32 (bytes_per_line image_input * row) in
      match convert_row image_input scan_input scan_output r g b a rgba m with
      | (SAIL_OK, rgba', m') =>
          convert_rows rows' (row + 1) image_input r g b a image_output
                       rgba' m'
      | failure => failure
      end
  end.

(** [to_bpp64_rgba_kind]. [rgba] is the content of the local variable of
    that name when the function starts, which C leaves indeterminate. The
    two images may be the same descriptor: all accesses go to the one
    memory [m]. *)
Definition to_bpp64_rgba_kind (image_input : sail_image) (r g b a : Z)
    (image_output : sail_image) (rgba : sail_rgba64_t) (m : mem)
  : sail_status_t * mem :=
  match convert_rows (Z.to_nat (height image_input)) 0 image_input r g b a
                     image_output rgba m with
  | (status, _, m') => (status, m')
  end.

(** ** Public functions *)

Definition with_pixel_format (image : sail_image) (pf : SailPixelFormat)
  : sail_image :=
  {| pixels := pixels image; width := width image; height := height image;
     bytes_per_line := bytes_per_line image; pixel_format := pf;
     palette := palette image; source_image := source_image image;
     resolution := resolution image |}.

Definition with_bytes_per_line (image : sail_image) (stride : Z) : sail_image :=
  {| pixels := pixels image; width := width image; height := height image;
     bytes_per_line := stride; pixel_format := pixel_format image;
     palette := palette image; source_image := source_image image;
     resolution := resolution image |}.

Definition with_pixels (image : sail_image) (p : Z) : sail_image :=
  {| pixels := p; width := width image; height := height image;
     bytes_per_line := bytes_per_line image;
     pixel_format := pixel_format image;
     palette := palette image; source_image := source_image image;
     resolution := resolution image |}.

(** [sail_convert_image_to_bpp64_rgba_kind]. [image_output_ptr] tells whether
    the out-pointer is not NULL; the result carries [*image_output] when it
    was assigned. The fresh pixel buffer holds whatever [m] holds at the
    address the allocator returns. *)
Definition sail_convert_image_to_bpp64_rgba_kind (image_input : sail_image)
    (output_pixel_format : SailPixelFormat) (image_output_ptr : bool)
    (rgba : sail_rgba64_t) (m : mem)
  : sail_status_t * option sail_image * mem :=
  match sail_check_image_valid image_input with
  | SAIL_OK =>
  if negb image_output_ptr then (SAIL_ERROR_NULL_PTR, None, m) else
  match verify_and_construct_rgba64_indexes output_pixel_format with
  | (SAIL_OK, (r, g, b, a)) =>
  match sail_copy_image_skeleton image_input with
  | (SAIL_OK, skeleton) =>
      let image_local := with_pixel_format skeleton output_pixel_format in
      match sail_bytes_per_line (width image_local)
                                (pixel_format image_local) with
      | (SAIL_OK, stride) =>
          let image_local := with_bytes_per_line image_local stride in
          let pixels_size :=
            u32 (height image_local * bytes_per_line image_local) in
          match sail_malloc pixels_size with
          | (SAIL_OK, p) =>
              let image_local := with_pixels image_local p in
              match to_bpp64_rgba_kind image_input r g b a image_local
                                       rgba m with
              | (SAIL_OK, m') => (SAIL_OK, Some image_local, m')
              | (err, m') => (err, None, m')
              end
          | (err, _) => (err, None, m)
          end
      | (err, _) => (err, None, m)
      end
  | (err, _) => (err, None, m)
  end
  | (err, _) => (err, None, m)
  end
  | err => (err, None, m)
  end.

(** [sail_convert_image_to_bpp64_rgba_kind_in_place]. The result carries the
    descriptor as the call leaves it. *)
Definition sail_convert_image_to_bpp64_rgba_kind_in_place (image : sail_image)
    (output_pixel_format : SailPixelFormat) (rgba : sail_rgba64_t) (m : mem)
  : sail_status_t * sail_image * mem :=
  match sail_check_image_valid image with
  | SAIL_OK =>
  match verify_and_construct_rgba64_indexes output_pixel_format with
  | (SAIL_OK, (r, g, b, a)) =>
      if pixel_format_eqb (pixel_format image) output_pixel_format
      then (SAIL_OK, image, m)
      else
        match sail_greater_equal_bits_per_pixel (pixel_format image)
                                                output_pixel_format with
        | (SAIL_OK, new_image_fits_into_existing) =>
            if negb new_image_fits_into_existing
            then (SAIL_ERROR_UNSUPPORTED_PIXEL_FORMAT, image, m)
            else
              match to_bpp64_rgba_kind image r g b a image rgba m with
              | (SAIL_OK, m') =>
                  (SAIL_OK, with_pixel_format image output_pixel_format, m')
              | (err, m') => (err, image, m')
              end
        | (err, _) => (err, image, m)
        end
  | (err, _) => (err, image, m)
  end
  | err => (err, image, m)
  end.

(** ** Facts about the memory *)

Lemma u8_range (x : Z) : 0 <= u8 x < 256.
Proof. unfold u8. apply Z.mod_pos_bound. lia. Qed.

Lemma u16_range (x : Z) : 0 <= u16 x < 65536.
Proof. unfold u16. apply Z.mod_pos_bound. lia. Qed.

Lemma u8_small (x : Z) : 0 <= x < 256 -> u8 x = x.
Proof. intros H. unfold u8. now apply Z.mod_small. Qed.

Lemma u16_small (x : Z) : 0 <= x < 65536 -> u16 x = x.
Proof. intros H. unfold u16. now apply Z.mod_small. Qed.

Lemma u32_small (x : Z) : 0 <= x < 4294967296 -> u32 x = x.
Proof. intros H. unfold u32. now apply Z.mod_small. Qed.

Lemma load8_range (m : mem) (p : Z) : 0 <= load8 m p < 256.
Proof. apply u8_range. Qed.

Lemma store8_same (m : mem) (p v : Z) : store8 m p v p = u8 v.
Proof. unfold store8. now rewrite Z.eqb_refl. Qed.

Lemma store8_other (m : mem) (p v q : Z) : q <> p -> store8 m p v q = m q.
Proof. intros H. unfold store8. apply Z.eqb_neq in H. now rewrite H. Qed.

Lemma store16_other (m : mem) (p v q : Z) :
  q <> p -> q <> p + 1 -> store16 E m p v q = m q.
Proof.
  intros H0 H1. unfold store16.
  destruct E; rewrite !store8_other by assumption; reflexivity.
Qed.

Lemma load16_range (m : mem) (p : Z) : 0 <= load16 E m p < 65536.
Proof.
  unfold load16.
  pose proof (load8_range m p). pose proof (load8_range m (p + 1)).
  destruct E; lia.
Qed.

Lemma load16_ext (m1 m2 : mem) (p : Z) :
  m1 p = m2 p -> m1 (p + 1) = m2 (p + 1) -> load16 E m1 p = load16 E m2 p.
Proof. intros H0 H1. unfold load16, load8. now rewrite H0, H1. Qed.

Lemma load16_store16 (m : mem) (p v : Z) :
  load16 E (store16 E m p v) p = u16 v.
Proof.
  pose proof (u16_range v) as Hv.
  assert (Hlo : 0 <= u16 v mod 256 < 256) by (apply Z.mod_pos_bound; lia).
  assert (Hhi : 0 <= u16 v / 256 < 256).
  { split; [apply Z.div_pos; lia | apply Z.div_lt_upper_bound; lia]. }
  pose proof (Z.div_mod (u16 v) 256 ltac:(lia)) as Hdm.
  assert (Hidem : forall x, 0 <= x < 256 -> u8 (u8 x) = x).
  { intros x Hx. now rewrite !u8_small by (rewrite ?u8_small; assumption). }
  unfold load16, store16, load8.
  destruct E.
  - rewrite store8_same.
    rewrite (store8_other _ (p + 1) _ p) by lia. rewrite store8_same.
    rewrite !Hidem by assumption. lia.
  - rewrite store8_same.
    rewrite (store8_other _ (p + 1) _ p) by lia. rewrite store8_same.
    rewrite !Hidem by assumption. lia.
Qed.

(** ** What a pixel write touches *)

(** Channel [c] is one that [fill_rgba64_pixel] writes for the indexes
    [r g b a]. *)
Definition written_channel (r g b a c : Z) : Prop :=
  c = r \/ c = g \/ c = b \/ (0 <= a /\ c = a).

(** Address [q] is one of the two bytes of channel [c] of the pixel at
    [scan]. *)
Definition in_channel (scan c q : Z) : Prop :=
  q = scan + 2 * c \/ q = scan + 2 * c + 1.

Definition touched_pixel (r g b a scan q : Z) : Prop :=
  exists c, written_channel r g b a c /\ in_channel scan c q.

(** [q] is written when [n] pixels are filled from [scan] on. *)
Definition touched_scan (r g b a scan n q : Z) : Prop :=
  exists i, 0 <= i < n /\ touched_pixel r g b a (scan + 8 * i) q.

(** The indexes are those of a row of the table of
    [verify_and_construct_rgba64_indexes]: distinct channels of a
    four-channel pixel, the alpha index possibly absent. *)
Definition table_indexes (r g b a : Z) : Prop :=
  0 <= r <= 3 /\ 0 <= g <= 3 /\ 0 <= b <= 3 /\ -1 <= a <= 3
  /\ r <> g /\ r <> b /\ g <> b /\ a <> r /\ a <> g /\ a <> b.

Lemma verify_and_construct_table (pf : SailPixelFormat) (r g b a : Z) :
  verify_and_construct_rgba64_indexes pf = (SAIL_OK, (r, g, b, a)) ->
  table_indexes r g b a.
Proof.
  destruct pf; simpl; intros H; inversion H; subst; unfold table_indexes; lia.
Qed.

Lemma fill_rgba64_pixel_frame (m : mem) (scan r g b a rv gv bv av q : Z) :
  ~ touched_pixel r g b a scan q ->
  fill_rgba64_pixel m scan r g b a rv gv bv av q = m q.
Proof.
  intros H. unfold fill_rgba64_pixel.
  assert (Hc : forall c, written_channel r g b a c ->
                         q <> scan + 2 * c /\ q <> scan + 2 * c + 1).
  { intros c Hw. split; intros Hq; apply H; exists c; split; trivial;
      [left | right]; exact Hq. }
  destruct (Hc r) as [? ?]; [now left |].
  destruct (Hc g) as [? ?]; [now right; left |].
  destruct (Hc b) as [? ?]; [now right; right; left |].
  destruct (0 <=? a) eqn:Ha.
  - apply Z.leb_le in Ha.
    destruct (Hc a) as [? ?]; [right; right; right; now split |].
    rewrite !store16_other by assumption. reflexivity.
  - rewrite !store16_other by assumption. reflexivity.
Qed.

Lemma fill_rgba64_pixel_values (m : mem) (scan r g b a rv gv bv av : Z) :
  table_indexes r g b a ->
  let m' := fill_rgba64_pixel m scan r g b a rv gv bv av in
  load16 E m' (scan + 2 * r) = u16 rv
  /\ load16 E m' (scan + 2 * g) = u16 gv
  /\ load16 E m' (scan + 2 * b) = u16 bv
  /\ (0 <= a -> load16 E m' (scan + 2 * a) = u16 av).
Proof.
  intros (Hr & Hg & Hb & Ha & Hrg & Hrb & Hgb & Har & Hag & Hab). cbv zeta.
  unfold fill_rgba64_pixel.
  assert (Hskip : forall m0 c c' v, c <> c' ->
            load16 E (store16 E m0 (scan + 2 * c') v) (scan + 2 * c)
            = load16 E m0 (scan + 2 * c)).
  { intros m0 c c' v Hne. apply load16_ext; apply store16_other; lia. }
  destruct (0 <=? a) eqn:Hle.
  - apply Z.leb_le in Hle. repeat split.
    + rewrite (Hskip _ r a) by lia. rewrite (Hskip _ r b) by lia.
      rewrite (Hskip _ r g) by lia. apply load16_store16.
    + rewrite (Hskip _ g a) by lia. rewrite (Hskip _ g b) by lia.
      apply load16_store16.
    + rewrite (Hskip _ b a) by lia. apply load16_store16.
    + intros _. apply load16_store16.
  - apply Z.leb_gt in Hle. repeat split.
    + rewrite (Hskip _ r b) by lia. rewrite (Hskip _ r g) by lia.
      apply load16_store16.
    + rewrite (Hskip _ g b) by lia. apply load16_store16.
    + apply load16_store16.
    + intros Hge. lia.
Qed.

Lemma touched_scan_head (r g b a scan n q : Z) :
  0 < n -> touched_pixel r g b a scan q -> touched_scan r g b a scan n q.
Proof.
  intros Hn H. exists 0. split; [lia |].
  now replace (scan + 8 * 0) with scan by lia.
Qed.

Lemma touched_scan_tail (r g b a scan n q : Z) :
  touched_scan r g b a (scan + 8) n q ->
  touched_scan r g b a scan (n + 1) q.
Proof.
  intros (i & Hi & H). exists (i + 1). split; [lia |].
  now replace (scan + 8 * (i + 1)) with (scan + 8 + 8 * i) by lia.
Qed.

Lemma touched_scan_mono (r g b a scan n n' q : Z) :
  n <= n' -> touched_scan r g b a scan n q -> touched_scan r g b a scan n' q.
Proof. intros Hn (i & Hi & H). exists i. split; [lia | exact H]. Qed.

(** ** Frame properties of the loops: what is not touched is not changed *)

Lemma scan_loop_frame (values : mem -> Z -> channels) (step : Z) (n : nat) :
  forall (scan_input scan_output r g b a : Z) (m : mem) (q : Z),
    ~ touched_scan r g b a scan_output (Z.of_nat n) q ->
    scan_loop values step n scan_input scan_output r g b a m q = m q.
Proof.
  induction n as [| n IH]; intros scan_input scan_output r g b a m q H.
  - reflexivity.
  - cbn [scan_loop].
    destruct (values m scan_input) as [[[rv gv] bv] av].
    rewrite IH.
    + apply fill_rgba64_pixel_frame. intros Ht. apply H.
      apply touched_scan_head; [lia | exact Ht].
    + intros Ht. apply H. rewrite Nat2Z.inj_succ.
      now apply touched_scan_tail.
Qed.

Lemma rgba_loop_frame
    (assign : mem -> Z -> sail_rgba64_t -> sail_status_t * sail_rgba64_t)
    (step : Z) (n : nat) :
  forall (scan_input scan_output r g b a : Z) (rgba : sail_rgba64_t)
         (m : mem) (q : Z),
    ~ touched_scan r g b a scan_output (Z.of_nat n) q ->
    snd (rgba_loop assign step n scan_input scan_output r g b a rgba m) q
    = m q.
Proof.
  induction n as [| n IH]; intros scan_input scan_output r g b a rgba m q H.
  - reflexivity.
  - cbn [rgba_loop].
    destruct (assign m scan_input rgba) as [status rgba'].
    destruct status; try reflexivity.
    rewrite IH.
    + apply fill_rgba64_pixel_frame. intros Ht. apply H.
      apply touched_scan_head; [lia | exact Ht].
    + intros Ht. apply H. rewrite Nat2Z.inj_succ.
      now apply touched_scan_tail.
Qed.

Lemma touched_scan_shift (r g b a scan k n q : Z) :
  0 <= k ->
  touched_scan r g b a (scan + 8 * k) n q ->
  touched_scan r g b a scan (k + n) q.
Proof.
  intros Hk (i & Hi & H). exists (k + i). split; [lia |].
  now replace (scan + 8 * (k + i)) with (scan + 8 * k + 8 * i) by lia.
Qed.

Lemma unpack_byte_frame
    (sample : mem -> Z -> sail_rgba64_t -> sail_status_t * sail_rgba64_t)
    (bits byte width r g b a : Z) (fuel : nat) :
  forall (bit_shift bit_mask pixel_index scan_output : Z)
         (rgba : sail_rgba64_t) (m : mem),
    match unpack_byte fuel sample bits byte bit_shift bit_mask pixel_index
                      width scan_output r g b a rgba m with
    | (_, (pixel_index', scan_output'), _, m') =>
        pixel_index <= pixel_index'
        /\ (pixel_index' <= width \/ pixel_index' = pixel_index)
        /\ scan_output' = scan_output + 8 * (pixel_index' - pixel_index)
        /\ forall q,
             ~ touched_scan r g b a scan_output (pixel_index' - pixel_index) q ->
             m' q = m q
    end.
Proof.
  induction fuel as [| fuel IH];
    intros bit_shift bit_mask pixel_index scan_output rgba m.
  - cbn [unpack_byte]. repeat split; lia.
  - cbn [unpack_byte].
    destruct ((0 <? bit_mask) && (pixel_index <? width)) eqn:Hcond.
    + apply andb_true_iff in Hcond. destruct Hcond as [_ Hlt].
      apply Z.ltb_lt in Hlt.
      destruct (sample m _ rgba) as [status rgba'].
      destruct status; try (repeat split; lia).
      specialize (IH (u32 (bit_shift - bits)) (Z.shiftr bit_mask bits)
                     (pixel_index + 1) (scan_output + 8) rgba'
                     (fill_rgba64_pixel m scan_output r g b a
                        (component1 rgba') (component2 rgba')
                        (component3 rgba') (component4 rgba'))).
      destruct (unpack_byte fuel sample bits byte _ _ _ width _ r g b a _ _)
        as [[[status [pixel_index' scan_output']] rgba''] m'].
      destruct IH as (Hle & Hw & Hso & Hframe).
      repeat split; try lia.
      intros q Hq. rewrite Hframe.
      * apply fill_rgba64_pixel_frame. intros Ht. apply Hq.
        apply touched_scan_head; [lia | exact Ht].
      * intros Ht. apply Hq.
        replace (pixel_index' - pixel_index)
          with (pixel_index' - (pixel_index + 1) + 1) by lia.
        now apply touched_scan_tail.
    + repeat split; lia.
Qed.

Lemma unpack_row_frame
    (sample : mem -> Z -> sail_rgba64_t -> sail_status_t * sail_rgba64_t)
    (bits bit_shift bit_mask width r g b a : Z) (fuel : nat) :
  forall (scan_input pixel_index scan_output : Z) (rgba : sail_rgba64_t)
         (m : mem) (q : Z),
    ~ touched_scan r g b a scan_output (width - pixel_index) q ->
    snd (unpack_row fuel sample bits bit_shift bit_mask scan_input pixel_index
                    width scan_output r g b a rgba m) q
    = m q.
Proof.
  induction fuel as [| fuel IH];
    intros scan_input pixel_index scan_output rgba m q Hq.
  - reflexivity.
  - cbn [unpack_row].
    destruct (pixel_index <? width) eqn:Hlt; [| reflexivity].
    apply Z.ltb_lt in Hlt.
    pose proof (unpack_byte_frame sample bits (load8 m scan_input) width
                  r g b a 8 bit_shift bit_mask pixel_index scan_output rgba m)
      as Hbyte.
    destruct (unpack_byte 8 sample bits _ bit_shift bit_mask pixel_index
                          width scan_output r g b a rgba m)
      as [[[status [pixel_index' scan_output']] rgba'] m'].
    destruct Hbyte as (Hle & Hw & Hso & Hframe).
    assert (Hm' : m' q = m q).
    { apply Hframe. intros Ht. apply Hq.
      apply (touched_scan_mono _ _ _ _ _ (pixel_index' - pixel_index));
        [lia | exact Ht]. }
    destruct status; try exact Hm'.
    rewrite IH; [exact Hm' |].
    intros Ht. apply Hq. subst scan_output'.
    replace (width - pixel_index)
      with (pixel_index' - pixel_index + (width - pixel_index')) by lia.
    apply touched_scan_shift; [lia | exact Ht].
Qed.

Lemma touched_scan_columns (r g b a scan width q : Z) :
  touched_scan r g b a scan (Z.of_nat (Z.to_nat width)) q ->
  touched_scan r g b a scan width q.
Proof. intros (i & Hi & H). exists i. split; [lia | exact H]. Qed.

Lemma convert_row_frame (image_input : sail_image)
    (scan_input scan_output r g b a : Z) (rgba : sail_rgba64_t) (m : mem)
    (q : Z) :
  ~ touched_scan r g b a scan_output (width image_input) q ->
  snd (convert_row image_input scan_input scan_output r g b a rgba m) q = m q.
Proof.
  intros Hq.
  assert (Hcols : ~ touched_scan r g b a scan_output
                      (Z.of_nat (Z.to_nat (width image_input))) q).
  { intros Ht. apply Hq. now apply touched_scan_columns. }
  assert (Hbits : ~ touched_scan r g b a scan_output
                      (width image_input - 0) q).
  { now rewrite Z.sub_0_r. }
  unfold convert_row; cbv zeta.
  destruct (pixel_format image_input);
    first [ reflexivity
          | now apply unpack_row_frame
          | now apply rgba_loop_frame
          | cbn [snd];
            unfold fill_rgba64_scan_from_rgb24_kind,
              fill_rgba64_scan_from_rgba32_kind,
              fill_rgba64_scan_from_rgbx32_kind,
              fill_rgba64_scan_from_rgb48_kind,
              fill_rgba64_scan_from_rgba64_kind,
              fill_rgba64_scan_from_rgbx64_kind;
            now apply scan_loop_frame ].
Qed.

Lemma convert_rows_frame (image_input : sail_image) (r g b a : Z)
    (image_output : sail_image) (q : Z) (rows : nat) :
  forall (row : Z) (rgba : sail_rgba64_t) (m : mem),
    (forall k, row <= k < row + Z.of_nat rows ->
       ~ touched_scan r g b a
           (pixels image_output + u32 (bytes_per_line image_output * k))
           (width image_input) q) ->
    snd (convert_rows rows row image_input r g b a image_output rgba m) q
    = m q.
Proof.
  induction rows as [| rows IH]; intros row rgba m Hq.
  - reflexivity.
  - cbn [convert_rows].
    pose proof (convert_row_frame image_input
                  (pixels image_input + u32 (bytes_per_line image_input * row))
                  (pixels image_output + u32 (bytes_per_line image_output * row))
                  r g b a rgba m q) as Hrow.
    destruct (convert_row image_input _ _ r g b a rgba m)
      as [[status rgba'] m'].
    cbn [snd] in Hrow.
    assert (Hm' : m' q = m q) by (apply Hrow, Hq; lia).
    destruct status; try exact Hm'.
    rewrite IH; [exact Hm' |].
    intros k Hk. apply Hq. lia.
Qed.

(** The bytes [to_bpp64_rgba_kind] can write: the written channels of the
    first [width] pixels of the first [height] output rows. *)
Definition touched_image (image_input image_output : sail_image)
    (r g b a q : Z) : Prop :=
  exists row, 0 <= row < height image_input
    /\ touched_scan r g b a
         (pixels image_output + u32 (bytes_per_line image_output * row))
         (width image_input) q.

Lemma to_bpp64_rgba_kind_frame (image_input : sail_image) (r g b a : Z)
    (image_output : sail_image) (rgba : sail_rgba64_t) (m : mem) (q : Z) :
  ~ touched_image image_input image_output r g b a q ->
  snd (to_bpp64_rgba_kind image_input r g b a image_output rgba m) q = m q.
Proof.
  intros Hq. unfold to_bpp64_rgba_kind.
  pose proof (convert_rows_frame image_input r g b a image_output q
                (Z.to_nat (height image_input)) 0 rgba m) as H.
  destruct (convert_rows _ 0 image_input r g b a image_output rgba m)
    as [[status rgba'] m'].
  cbn [snd] in *. apply H.
  intros k Hk Ht. apply Hq. exists k. split; [lia | exact Ht].
Qed.

(** ** The unpacking loops end by their own conditions

    More iterations than the models allow change nothing: the mask of the
    inner loop is exhausted after 8 shifts, and every byte of the outer loop
    yields a pixel. *)

Lemma unpack_byte_fuel
    (sample : mem -> Z -> sail_rgba64_t -> sail_status_t * sail_rgba64_t)
    (bits byte width r g b a : Z) (extra : nat) :
  1 <= bits ->
  forall (fuel : nat) (bit_shift bit_mask pixel_index scan_output : Z)
         (rgba : sail_rgba64_t) (m : mem),
    0 <= bit_mask < 2 ^ Z.of_nat fuel ->
    unpack_byte (fuel + extra) sample bits byte bit_shift bit_mask pixel_index
                width scan_output r g b a rgba m
    = unpack_byte fuel sample bits byte bit_shift bit_mask pixel_index
                  width scan_output r g b a rgba m.
Proof.
  intros Hbits. induction fuel as [| fuel IH];
    intros bit_shift bit_mask pixel_index scan_output rgba m Hmask.
  - simpl in Hmask. assert (bit_mask = 0) by lia. subst bit_mask.
    destruct extra; reflexivity.
  - cbn [Nat.add unpack_byte].
    destruct ((0 <? bit_mask) && (pixel_index <? width)); [| reflexivity].
    destruct (sample m _ rgba) as [status rgba'].
    destruct status; try reflexivity.
    apply IH. rewrite Z.shiftr_div_pow2 by lia.
    rewrite Nat2Z.inj_succ, Z.pow_succ_r in Hmask by lia.
    assert (Hpow : 2 <= 2 ^ bits).
    { change 2 with (2 ^ 1) at 1. apply Z.pow_le_mono_r; lia. }
    assert (Hfuel : 0 < 2 ^ Z.of_nat fuel) by (apply Z.pow_pos_nonneg; lia).
    split; [apply Z.div_pos; lia |].
    apply Z.div_lt_upper_bound; [lia |]. nia.
Qed.

Lemma unpack_byte_progress
    (sample : mem -> Z -> sail_rgba64_t -> sail_status_t * sail_rgba64_t)
    (bits byte width r g b a : Z) (fuel : nat)
    (bit_shift bit_mask pixel_index scan_output : Z)
    (rgba : sail_rgba64_t) (m : mem) :
  0 < bit_mask -> pixel_index < width ->
  match unpack_byte (S fuel) sample bits byte bit_shift bit_mask pixel_index
                    width scan_output r g b a rgba m with
  | (SAIL_OK, (pixel_index', _), _, _) => pixel_index + 1 <= pixel_index'
  | _ => True
  end.
Proof.
  intros Hmask Hlt. cbn [unpack_byte].
  apply Z.ltb_lt in Hmask, Hlt. rewrite Hmask, Hlt. cbn [andb].
  destruct (sample m _ rgba) as [status rgba'].
  destruct status; try exact I.
  pose proof (unpack_byte_frame sample bits byte width r g b a fuel
                (u32 (bit_shift - bits)) (Z.shiftr bit_mask bits)
                (pixel_index + 1) (scan_output + 8) rgba'
                (fill_rgba64_pixel m scan_output r g b a
                   (component1 rgba') (component2 rgba')
                   (component3 rgba') (component4 rgba'))) as H.
  destruct (unpack_byte fuel sample bits byte _ _ _ width _ r g b a _ _)
    as [[[status [pixel_index' scan_output']] rgba''] m'].
  destruct status; try exact I. lia.
Qed.

Lemma unpack_row_fuel
    (sample : mem -> Z -> sail_rgba64_t -> sail_status_t * sail_rgba64_t)
    (bits bit_shift bit_mask width r g b a : Z) (extra : nat) :
  0 < bit_mask ->
  forall (fuel : nat) (scan_input pixel_index scan_output : Z)
         (rgba : sail_rgba64_t) (m : mem),
    width - pixel_index <= Z.of_nat fuel ->
    unpack_row (fuel + extra) sample bits bit_shift bit_mask scan_input
               pixel_index width scan_output r g b a rgba m
    = unpack_row fuel sample bits bit_shift bit_mask scan_input
                 pixel_index width scan_output r g b a rgba m.
Proof.
  intros Hmask. induction fuel as [| fuel IH];
    intros scan_input pixel_index scan_output rgba m Hleft.
  - simpl in Hleft. destruct extra; [reflexivity |].
    cbn [Nat.add unpack_row].
    assert (Hge : (pixel_index <? width) = false) by (apply Z.ltb_ge; lia).
    now rewrite Hge.
  - cbn [Nat.add unpack_row].
    destruct (pixel_index <? width) eqn:Hlt; [| reflexivity].
    apply Z.ltb_lt in Hlt.
    pose proof (unpack_byte_progress sample bits (load8 m scan_input) width
                  r g b a 7 bit_shift bit_mask pixel_index scan_output rgba m
                  Hmask Hlt) as Hprogress.
    destruct (unpack_byte 8 sample bits _ bit_shift bit_mask pixel_index
                          width scan_output r g b a rgba m)
      as [[[status [pixel_index' scan_output']] rgba'] m'].
    destruct status; try reflexivity.
    apply IH. lia.
Qed.

(** ** Geometry of the output buffer *)

(** The output rows hold the converted pixels and do not wrap around:
    [width] pixels of 8 bytes fit into the stride, and the offsets of the
    [height] rows are below [2^32]. *)
Definition rows_apart (width height stride : Z) : Prop :=
  0 <= width /\ 0 <= height /\ 8 * width <= stride
  /\ stride * height <= 4294967296.

Lemma row_offset_exact (width height stride row : Z) :
  rows_apart width height stride -> 0 < width -> 0 <= row < height ->
  u32 (stride * row) = stride * row.
Proof.
  intros (Hw & Hh & Hs & Hsize) Hpos Hrow. apply u32_small. nia.
Qed.

Lemma offsets_apart (stride row row' x x' : Z) :
  0 <= x < stride -> 0 <= x' < stride ->
  stride * row + x = stride * row' + x' ->
  row = row' /\ x = x'.
Proof.
  intros Hx Hx' Heq.
  destruct (Z.lt_trichotomy row row') as [Hlt | [Heq' | Hgt]].
  - assert (H : stride * (row + 1) <= stride * row')
      by (apply Z.mul_le_mono_nonneg_l; lia).
    rewrite Z.mul_add_distr_l, Z.mul_1_r in H. lia.
  - subst row'. split; [reflexivity | lia].
  - assert (H : stride * (row' + 1) <= stride * row)
      by (apply Z.mul_le_mono_nonneg_l; lia).
    rewrite Z.mul_add_distr_l, Z.mul_1_r in H. lia.
Qed.

Lemma written_channel_range (r g b a c : Z) :
  table_indexes r g b a -> written_channel r g b a c -> 0 <= c <= 3.
Proof.
  unfold table_indexes, written_channel. intros Ht Hw. lia.
Qed.

(** A byte of channel [c] of pixel [(row, i)] of the output is touched only
    if [c] is a written channel. *)
Lemma touched_image_channel (image_input image_output : sail_image)
    (r g b a row i c d : Z) :
  table_indexes r g b a ->
  rows_apart (width image_input) (height image_input)
             (bytes_per_line image_output) ->
  0 <= row < height image_input -> 0 <= i < width image_input ->
  0 <= c <= 3 -> 0 <= d <= 1 ->
  touched_image image_input image_output r g b a
    (pixels image_output + bytes_per_line image_output * row
     + 8 * i + 2 * c + d) ->
  written_channel r g b a c.
Proof.
  intros Ht Hgeo Hrow Hi Hc Hd (row' & Hrow' & i' & Hi' & c' & Hw & Hin).
  pose proof (written_channel_range _ _ _ _ _ Ht Hw) as Hc'.
  rewrite (row_offset_exact _ _ _ row' Hgeo) in Hin by lia.
  destruct Hgeo as (Hw0 & Hh0 & Hs & Hsize).
  assert (Hsame : row = row'
                  /\ 8 * i + 2 * c + d = 8 * i' + 2 * c'
                     + (pixels image_output + bytes_per_line image_output * row
                        + 8 * i + 2 * c + d
                        - (pixels image_output
                           + bytes_per_line image_output * row'
                           + 8 * i' + 2 * c'))).
  { apply (offsets_apart (bytes_per_line image_output)).
    - lia.
    - destruct Hin as [Hin | Hin]; lia.
    - lia. }
  destruct Hsame as [-> Heq].
  assert (c = c') by (destruct Hin as [Hin | Hin]; lia).
  now subst c'.
Qed.

(** ** The padding slot of an alpha-less target *)

(** Alpha-less targets are those whose alpha index is [-1] in the table. *)
Definition alpha_less (output_pixel_format : SailPixelFormat) : bool :=
  match output_pixel_format with
  | SAIL_PIXEL_FORMAT_BPP64_RGBX | SAIL_PIXEL_FORMAT_BPP64_BGRX
  | SAIL_PIXEL_FORMAT_BPP64_XRGB | SAIL_PIXEL_FORMAT_BPP64_XBGR => true
  | _ => false
  end.

(** The slot of an output pixel that holds none of red, green and blue. *)
Definition padding_index (output_pixel_format : SailPixelFormat) : Z :=
  match output_pixel_format with
  | SAIL_PIXEL_FORMAT_BPP64_RGBX | SAIL_PIXEL_FORMAT_BPP64_BGRX => 3
  | _ => 0
  end.

Lemma alpha_less_table (pf : SailPixelFormat) :
  alpha_less pf = true ->
  exists r g b,
    verify_and_construct_rgba64_indexes pf = (SAIL_OK, (r, g, b, -1))
    /\ 0 <= padding_index pf <= 3
    /\ ~ written_channel r g b (-1) (padding_index pf).
Proof.
  destruct pf; try discriminate; intros _; do 3 eexists;
    (split; [reflexivity |]); unfold written_channel; simpl; lia.
Qed.

(** For an alpha-less target, [to_bpp64_rgba_kind] does not write the
    padding slot of any output pixel: whatever the source format and the
    outcome, the slot holds after the conversion what the output buffer held
    there before. *)
Lemma to_bpp64_rgba_kind_keeps_padding
    (image_input image_output : sail_image)
    (output_pixel_format : SailPixelFormat) (r g b a : Z)
    (rgba : sail_rgba64_t) (m : mem) (row i : Z) :
  alpha_less output_pixel_format = true ->
  verify_and_construct_rgba64_indexes output_pixel_format
  = (SAIL_OK, (r, g, b, a)) ->
  rows_apart (width image_input) (height image_input)
             (bytes_per_line image_output) ->
  0 <= row < height image_input -> 0 <= i < width image_input ->
  let slot := pixels image_output + bytes_per_line image_output * row
              + 8 * i + 2 * padding_index output_pixel_format in
  load16 E (snd (to_bpp64_rgba_kind image_input r g b a image_output rgba m))
         slot
  = load16 E m slot.
Proof.
  intros Hless Htable Hgeo Hrow Hi slot.
  destruct (alpha_less_table _ Hless) as (r' & g' & b' & Htable' & Hpad & Hnot).
  rewrite Htable in Htable'. inversion Htable'; subst r' g' b' a.
  pose proof (verify_and_construct_table _ _ _ _ _ Htable) as Ht.
  apply load16_ext; apply to_bpp64_rgba_kind_frame; intros Htouched;
    apply Hnot.
  - apply (touched_image_channel image_input image_output r g b (-1) row i
             (padding_index output_pixel_format) 0); try assumption; try lia.
    unfold slot in Htouched.
    now replace (pixels image_output + bytes_per_line image_output * row
                 + 8 * i + 2 * padding_index output_pixel_format + 0)
      with (pixels image_output + bytes_per_line image_output * row
            + 8 * i + 2 * padding_index output_pixel_format) by lia.
  - apply (touched_image_channel image_input image_output r g b (-1) row i
             (padding_index output_pixel_format) 1); try assumption; try lia.
Qed.

(** ** What the scan loops write *)

Lemma touched_scan_bounds (r g b a scan n q : Z) :
  table_indexes r g b a ->
  touched_scan r g b a scan n q -> scan <= q < scan + 8 * n.
Proof.
  intros Ht (i & Hi & c & Hw & Hin).
  pose proof (written_channel_range _ _ _ _ _ Ht Hw).
  destruct Hin; lia.
Qed.

(** The four channels of the output pixel at [scan] hold the values [v]
    in [m], as far as the indexes [r g b a] write them. *)
Definition pixel_holds (m : mem) (scan r g b a : Z) (v : channels) : Prop :=
  match v with
  | (rv, gv, bv, av) =>
      load16 E m (scan + 2 * r) = u16 rv
      /\ load16 E m (scan + 2 * g) = u16 gv
      /\ load16 E m (scan + 2 * b) = u16 bv
      /\ (0 <= a -> load16 E m (scan + 2 * a) = u16 av)
  end.

Lemma pixel_holds_ext (m1 m2 : mem) (scan r g b a : Z) (v : channels) :
  table_indexes r g b a ->
  (forall q, scan <= q < scan + 8 -> m1 q = m2 q) ->
  pixel_holds m2 scan r g b a v -> pixel_holds m1 scan r g b a v.
Proof.
  intros Ht Hagree. unfold pixel_holds.
  destruct v as [[[rv gv] bv] av]. unfold table_indexes in Ht.
  intros (Hr & Hg & Hb & Ha).
  repeat split; intros;
    (erewrite load16_ext; [eauto | apply Hagree; lia | apply Hagree; lia]).
Qed.

(** If the values of pixel [k] do not depend on the output pixels before
    [k], the loop leaves in every output pixel the values computed from the
    initial memory. *)
Lemma scan_loop_values (values : mem -> Z -> channels) (step r g b a : Z)
    (n : nat) :
  table_indexes r g b a ->
  forall (scan_input scan_output : Z) (m : mem),
    (forall k m', 0 <= k < Z.of_nat n ->
       (forall q, ~ (scan_output <= q < scan_output + 8 * k) -> m' q = m q) ->
       values m' (scan_input + step * k) = values m (scan_input + step * k)) ->
    forall k, 0 <= k < Z.of_nat n ->
      pixel_holds
        (scan_loop values step n scan_input scan_output r g b a m)
        (scan_output + 8 * k) r g b a (values m (scan_input + step * k)).
Proof.
  intros Ht. induction n as [| n IH]; intros scan_input scan_output m Hst k Hk.
  - simpl in Hk. lia.
  - cbn [scan_loop].
    destruct (values m scan_input) as [[[rv gv] bv] av] eqn:Hv.
    set (m1 := fill_rgba64_pixel m scan_output r g b a rv gv bv av).
    assert (Hm1 : forall q, ~ (scan_output <= q < scan_output + 8) ->
                            m1 q = m q).
    { intros q Hq. apply fill_rgba64_pixel_frame. intros (c & Hw & Hin).
      pose proof (written_channel_range _ _ _ _ _ Ht Hw).
      apply Hq. destruct Hin; lia. }
    destruct (Z.eq_dec k 0) as [-> | Hne].
    + replace (scan_input + step * 0) with scan_input by lia.
      replace (scan_output + 8 * 0) with scan_output by lia.
      rewrite Hv.
      apply (pixel_holds_ext _ m1); [exact Ht | |].
      * intros q Hq. apply scan_loop_frame. intros Htouched.
        apply (touched_scan_bounds _ _ _ _ _ _ _ Ht) in Htouched. lia.
      * apply (fill_rgba64_pixel_values m scan_output r g b a rv gv bv av Ht).
    + replace (scan_input + step * k)
        with (scan_input + step + step * (k - 1)) by lia.
      replace (scan_output + 8 * k)
        with (scan_output + 8 + 8 * (k - 1)) by lia.
      assert (Hsame : forall j, 0 <= j < Z.of_nat n ->
                values m1 (scan_input + step + step * j)
                = values m (scan_input + step + step * j)).
      { intros j Hj.
        replace (scan_input + step + step * j)
          with (scan_input + step * (j + 1)) by lia.
        apply Hst; [lia |]. intros q Hq. apply Hm1. lia. }
      rewrite <- Hsame by lia.
      apply IH; [| lia].
      intros j m' Hj Hagree. rewrite Hsame by lia.
      replace (scan_input + step + step * j)
        with (scan_input + step * (j + 1)) by lia.
      apply Hst; [lia |]. intros q Hq.
      rewrite Hagree by lia. apply Hm1. lia.
Qed.

(** ** Conversion into a separate buffer *)

Section Rows.

Variable image_input image_output : sail_image.
Variable r g b a : Z.
Variable values : mem -> Z -> channels.
Variable step : Z.

(** The input pixel [(row, i)]. *)
Definition input_pixel (row i : Z) : Z :=
  pixels image_input + u32 (bytes_per_line image_input * row) + step * i.

(** The output pixel [(row, i)]. *)
Definition output_pixel (row i : Z) : Z :=
  pixels image_output + bytes_per_line image_output * row + 8 * i.

Definition in_output_buffer (q : Z) : Prop :=
  pixels image_output <= q
  < pixels image_output + bytes_per_line image_output * height image_input.

Hypothesis Htable : table_indexes r g b a.
Hypothesis Hgeometry :
  rows_apart (width image_input) (height image_input)
             (bytes_per_line image_output).
Hypothesis Hrow :
  forall scan_input scan_output rgba m,
    exists rgba',
      convert_row image_input scan_input scan_output r g b a rgba m
      = (SAIL_OK, rgba',
         scan_loop values step (Z.to_nat (width image_input))
                   scan_input scan_output r g b a m).
Hypothesis Hlocal :
  forall m1 m2 p,
    (forall q, p <= q < p + step -> m1 q = m2 q) ->
    values m1 p = values m2 p.
Hypothesis Hseparate :
  forall row i q,
    0 <= row < height image_input -> 0 <= i < width image_input ->
    input_pixel row i <= q < input_pixel row i + step ->
    ~ in_output_buffer q.

Lemma output_range_in_buffer (row q : Z) :
  0 <= row < height image_input -> 0 < width image_input ->
  pixels image_output + u32 (bytes_per_line image_output * row) <= q
  < pixels image_output + u32 (bytes_per_line image_output * row)
    + 8 * width image_input ->
  pixels image_output + bytes_per_line image_output * row <= q
  < pixels image_output + bytes_per_line image_output * row
    + 8 * width image_input
  /\ in_output_buffer q.
Proof.
  intros Hr Hpos Hq.
  rewrite (row_offset_exact _ _ _ row Hgeometry) in Hq by lia.
  split; [exact Hq |].
  destruct Hgeometry as (Hw & Hh & Hs & Hsize). unfold in_output_buffer.
  assert (H : bytes_per_line image_output * (row + 1)
              <= bytes_per_line image_output * height image_input)
    by (apply Z.mul_le_mono_nonneg_l; lia).
  rewrite Z.mul_add_distr_l, Z.mul_1_r in H.
  assert (0 <= bytes_per_line image_output * row)
    by (apply Z.mul_nonneg_nonneg; lia).
  lia.
Qed.

Lemma output_row_in_buffer (row q : Z) :
  0 <= row < height image_input ->
  touched_scan r g b a
    (pixels image_output + u32 (bytes_per_line image_output * row))
    (width image_input) q ->
  pixels image_output + bytes_per_line image_output * row <= q
  < pixels image_output + bytes_per_line image_output * row
    + 8 * width image_input
  /\ in_output_buffer q.
Proof.
  intros Hr Ht.
  assert (Hpos : 0 < width image_input).
  { destruct Ht as (i & Hi & _). lia. }
  apply output_range_in_buffer; [exact Hr | exact Hpos |].
  now apply (touched_scan_bounds _ _ _ _ _ _ _ Htable) in Ht.
Qed.

Lemma convert_rows_values (m0 : mem) (rows : nat) :
  forall (row0 : Z) (rgba : sail_rgba64_t) (m : mem),
    0 <= row0 -> row0 + Z.of_nat rows <= height image_input ->
    (forall q, ~ in_output_buffer q -> m q = m0 q) ->
    let result := convert_rows rows row0 image_input r g b a image_output
                               rgba m in
    fst (fst result) = SAIL_OK
    /\ (forall q, ~ in_output_buffer q -> snd result q = m0 q)
    /\ forall row i,
         row0 <= row < row0 + Z.of_nat rows -> 0 <= i < width image_input ->
         pixel_holds (snd result) (output_pixel row i) r g b a
                     (values m0 (input_pixel row i)).
Proof.
  induction rows as [| rows IH]; intros row0 rgba m Hrow0 Hlast Hagree.
  - cbn [convert_rows fst snd]. repeat split; [exact Hagree |].
    intros row i Hr. simpl in Hr. lia.
  - cbn zeta. cbn [convert_rows].
    destruct (Hrow (pixels image_input
                    + u32 (bytes_per_line image_input * row0))
                   (pixels image_output
                    + u32 (bytes_per_line image_output * row0)) rgba m)
      as [rgba' Hconv].
    rewrite Hconv. clear Hconv.
    set (scan_input := pixels image_input
                       + u32 (bytes_per_line image_input * row0)).
    set (scan_output := pixels image_output
                        + u32 (bytes_per_line image_output * row0)).
    set (m1 := scan_loop values step (Z.to_nat (width image_input))
                         scan_input scan_output r g b a m).
    assert (Hm1 : forall q, ~ in_output_buffer q -> m1 q = m0 q).
    { intros q Hq. unfold m1. rewrite scan_loop_frame; [now apply Hagree |].
      intros Ht. apply touched_scan_columns in Ht.
      apply output_row_in_buffer in Ht; [| lia]. now apply Hq. }
    assert (Hinput : forall (m' : mem) i,
              0 <= i < width image_input ->
              (forall q, ~ in_output_buffer q -> m' q = m0 q) ->
              values m' (scan_input + step * i)
              = values m0 (input_pixel row0 i)).
    { intros m' i Hi Hm'. apply Hlocal. intros q Hq. apply Hm'.
      apply (Hseparate row0 i); [lia | exact Hi | exact Hq]. }
    assert (Hfirst : forall i, 0 <= i < width image_input ->
              pixel_holds m1 (output_pixel row0 i) r g b a
                          (values m0 (input_pixel row0 i))).
    { intros i Hi. rewrite <- (Hinput m i Hi Hagree).
      unfold output_pixel.
      rewrite <- (row_offset_exact _ _ _ row0 Hgeometry) by lia.
      apply scan_loop_values; [exact Htable | | lia].
      intros k m' Hk Hm'.
      rewrite (Hinput m k) by (try lia; exact Hagree).
      apply Hinput; [lia |].
      intros q Hq. rewrite Hm'; [now apply Hagree |].
      intros Hin. apply Hq.
      apply (output_range_in_buffer row0); [lia | lia |].
      fold scan_output. lia. }
    specialize (IH (row0 + 1) rgba' m1 ltac:(lia) ltac:(lia) Hm1).
    cbv zeta in IH. destruct IH as (Hstatus & Hout & Hrest).
    split; [exact Hstatus |]. split; [exact Hout |].
    intros row i Hr Hi.
    destruct (Z.eq_dec row row0) as [-> | Hne]; [| apply Hrest; lia].
    apply (pixel_holds_ext _ m1); [exact Htable | | now apply Hfirst].
    intros q Hq. apply convert_rows_frame.
    intros k Hk Ht. apply output_row_in_buffer in Ht; [| lia].
    destruct Ht as [Ht _]. unfold output_pixel in Hq.
    destruct Hgeometry as (Hw & Hh & Hs & Hsize).
    assert (H : bytes_per_line image_output * (row0 + 1)
                <= bytes_per_line image_output * k)
      by (apply Z.mul_le_mono_nonneg_l; lia).
    rewrite Z.mul_add_distr_l, Z.mul_1_r in H. lia.
Qed.

End Rows.

(** ** Palette resolution *)

Lemma get_palette_rgba64_status (m : mem) (palette : sail_palette) (index : Z)
    (color : sail_rgba64_t) :
  get_palette_rgba64 m palette index color = (SAIL_ERROR_BROKEN_IMAGE, color)
  /\ color_count palette <= index
  \/ fst (get_palette_rgba64 m palette index color) = SAIL_OK
     /\ index < color_count palette.
Proof.
  unfold get_palette_rgba64.
  destruct (color_count palette <=? index) eqn:Hle.
  - left. apply Z.leb_le in Hle. now split.
  - right. apply Z.leb_gt in Hle. split; [| exact Hle].
    now destruct (palette_pixel_format palette).
Qed.

(** C3. Resolving an index through a palette fails with
    [SAIL_ERROR_BROKEN_IMAGE] exactly when the index is at least the color
    count of the palette, and then leaves the color alone; the last index of
    a palette that has colors is accepted. *)
Theorem get_palette_rgba64_bounds (m : mem) (palette : sail_palette)
    (index : Z) (color : sail_rgba64_t) :
  (fst (get_palette_rgba64 m palette index color) = SAIL_ERROR_BROKEN_IMAGE
   <-> color_count palette <= index)
  /\ (color_count palette <= index ->
      snd (get_palette_rgba64 m palette index color) = color)
  /\ (0 < color_count palette ->
      fst (get_palette_rgba64 m palette (color_count palette - 1) color)
      = SAIL_OK).
Proof.
  repeat split.
  - intros H.
    destruct (get_palette_rgba64_status m palette index color)
      as [[_ Hle] | [Hok _]]; [exact Hle |].
    rewrite Hok in H. discriminate H.
  - intros H.
    destruct (get_palette_rgba64_status m palette index color)
      as [[Heq _] | [_ Hlt]]; [now rewrite Heq | lia].
  - intros H.
    destruct (get_palette_rgba64_status m palette index color)
      as [[Heq _] | [_ Hlt]]; [now rewrite Heq | lia].
  - intros H.
    destruct (get_palette_rgba64_status m palette (color_count palette - 1)
                color) as [[_ Hle] | [Hok _]]; [lia | exact Hok].
Qed.

(** What the default branch of [get_palette_rgba64] does: for a palette
    that stores neither 24-bit RGB nor 32-bit RGBA entries, an index in range
    is reported as resolved and the color is not assigned. *)
Lemma get_palette_rgba64_other_format (m : mem) (palette : sail_palette)
    (index : Z) (color : sail_rgba64_t) :
  index < color_count palette ->
  palette_pixel_format palette <> SAIL_PIXEL_FORMAT_BPP24_RGB ->
  palette_pixel_format palette <> SAIL_PIXEL_FORMAT_BPP32_RGBA ->
  get_palette_rgba64 m palette index color = (SAIL_OK, color).
Proof.
  intros Hlt Hrgb Hrgba. unfold get_palette_rgba64.
  apply Z.leb_gt in Hlt. rewrite Hlt.
  destruct (palette_pixel_format palette); try reflexivity;
    [now elim Hrgb | now elim Hrgba].
Qed.

(** ** Promotion of 8-bit channels *)

Lemma promote_exact (v : Z) : 0 <= v <= 255 -> u16 (v * 257) = v * 257.
Proof. intros H. apply u16_small. lia. Qed.

Lemma promote_load8 (m : mem) (p : Z) :
  u16 (load8 m p * 257) = load8 m p * 257.
Proof. apply promote_exact. pose proof (load8_range m p). lia. Qed.

Lemma promote_u8 (v : Z) : u16 (u8 v * 257) = u8 v * 257.
Proof. apply promote_exact. pose proof (u8_range v). lia. Qed.

Lemma spread_gray8_to_rgba64_exact (value : Z) :
  spread_gray8_to_rgba64 value
  = {| component1 := u8 value * 257; component2 := u8 value * 257;
       component3 := u8 value * 257; component4 := 65535 |}.
Proof.
  unfold spread_gray8_to_rgba64. cbv zeta.
  pose proof (u8_range value).
  rewrite (u16_small (u8 value)) by lia.
  now rewrite promote_u8.
Qed.

Lemma get_palette_rgba64_rgb (m : mem) (palette : sail_palette) (index : Z)
    (color : sail_rgba64_t) :
  index < color_count palette ->
  palette_pixel_format palette = SAIL_PIXEL_FORMAT_BPP24_RGB ->
  let entry := palette_data palette + u32 (index * 3) in
  get_palette_rgba64 m palette index color
  = (SAIL_OK,
     {| component1 := load8 m (entry + 0) * 257;
        component2 := load8 m (entry + 1) * 257;
        component3 := load8 m (entry + 2) * 257;
        component4 := 65535 |}).
Proof.
  intros Hlt Hpf. cbv zeta. unfold get_palette_rgba64.
  apply Z.leb_gt in Hlt. rewrite Hlt, Hpf. cbv zeta.
  now rewrite !promote_load8.
Qed.

Lemma get_palette_rgba64_rgba (m : mem) (palette : sail_palette) (index : Z)
    (color : sail_rgba64_t) :
  index < color_count palette ->
  palette_pixel_format palette = SAIL_PIXEL_FORMAT_BPP32_RGBA ->
  let entry := palette_data palette + u32 (index * 4) in
  get_palette_rgba64 m palette index color
  = (SAIL_OK,
     {| component1 := load8 m (entry + 0) * 257;
        component2 := load8 m (entry + 1) * 257;
        component3 := load8 m (entry + 2) * 257;
        component4 := load8 m (entry + 3) * 257 |}).
Proof.
  intros Hlt Hpf. cbv zeta. unfold get_palette_rgba64.
  apply Z.leb_gt in Hlt. rewrite Hlt, Hpf. cbv zeta.
  now rewrite !promote_load8.
Qed.

(** ** The in-place entry point *)

Lemma sail_check_image_valid_inv (image : sail_image) :
  sail_check_image_valid image = SAIL_OK ->
  pixel_format image <> SAIL_PIXEL_FORMAT_UNKNOWN
  /\ width image <> 0 /\ height image <> 0
  /\ bytes_per_line image <> 0 /\ pixels image <> 0.
Proof.
  unfold sail_check_image_valid, sail_check_image_skeleton_valid,
    pixel_format_eqb.
  destruct (SailPixelFormat_eq_dec _ _) as [| Hpf]; [discriminate |].
  destruct (width image =? 0) eqn:Hw; [discriminate |].
  destruct (height image =? 0) eqn:Hh; [discriminate |].
  cbn [orb].
  destruct (bytes_per_line image =? 0) eqn:Hs; [discriminate |].
  destruct (pixels image =? 0) eqn:Hp; [discriminate |].
  intros _. repeat split; trivial; now apply Z.eqb_neq.
Qed.

Lemma verify_and_construct_bits (pf : SailPixelFormat) (idx : channels) :
  verify_and_construct_rgba64_indexes pf = (SAIL_OK, idx) ->
  sail_bits_per_pixel pf = (SAIL_OK, 64).
Proof. destruct pf; simpl; intros H; try discriminate H; reflexivity. Qed.

Lemma sail_bits_per_pixel_known (pf : SailPixelFormat) :
  pf <> SAIL_PIXEL_FORMAT_UNKNOWN ->
  exists bits, sail_bits_per_pixel pf = (SAIL_OK, bits) /\ 1 <= bits <= 64.
Proof.
  intros H. destruct pf; try (now elim H); eexists; (split; [reflexivity | lia]).
Qed.

(** The values [to_bpp64_rgba_kind] reads from a pixel of a 64-bit source
    whose indexes are [ri gi bi ai]. *)
Definition bpp64_values (ri gi bi ai : Z) : mem -> Z -> channels :=
  if ai <? 0 then rgbx64_kind_values ri gi bi
  else rgba64_kind_values ri gi bi ai.

(** The channel indexes the switch of [to_bpp64_rgba_kind] passes for a
    64-bit source are those of the table of the targets. *)
Lemma convert_row_bpp64 (image_input : sail_image) (ri gi bi ai : Z)
    (scan_input scan_output r g b a : Z) (rgba : sail_rgba64_t) (m : mem) :
  verify_and_construct_rgba64_indexes (pixel_format image_input)
  = (SAIL_OK, (ri, gi, bi, ai)) ->
  convert_row image_input scan_input scan_output r g b a rgba m
  = (SAIL_OK, rgba,
     scan_loop (bpp64_values ri gi bi ai) 8 (Z.to_nat (width image_input))
               scan_input scan_output r g b a m).
Proof.
  unfold convert_row. cbv zeta.
  destruct (pixel_format image_input); simpl; intros H;
    try discriminate H; inversion H; subst; reflexivity.
Qed.

Lemma convert_rows_bpp64_status (image_input : sail_image) (ri gi bi ai : Z)
    (r g b a : Z) (image_output : sail_image) (rows : nat) :
  verify_and_construct_rgba64_indexes (pixel_format image_input)
  = (SAIL_OK, (ri, gi, bi, ai)) ->
  forall (row : Z) (rgba : sail_rgba64_t) (m : mem),
    fst (fst (convert_rows rows row image_input r g b a image_output rgba m))
    = SAIL_OK.
Proof.
  intros Hpf. induction rows as [| rows IH]; intros row rgba m.
  - reflexivity.
  - cbn [convert_rows].
    rewrite (convert_row_bpp64 _ _ _ _ _ _ _ _ _ _ _ _ _ Hpf). apply IH.
Qed.

Lemma to_bpp64_rgba_kind_bpp64_status (image_input : sail_image)
    (ri gi bi ai : Z) (r g b a : Z) (image_output : sail_image)
    (rgba : sail_rgba64_t) (m : mem) :
  verify_and_construct_rgba64_indexes (pixel_format image_input)
  = (SAIL_OK, (ri, gi, bi, ai)) ->
  fst (to_bpp64_rgba_kind image_input r g b a image_output rgba m) = SAIL_OK.
Proof.
  intros Hpf. unfold to_bpp64_rgba_kind.
  pose proof (convert_rows_bpp64_status image_input ri gi bi ai r g b a
                image_output (Z.to_nat (height image_input)) Hpf 0 rgba m) as H.
  destruct (convert_rows _ 0 image_input r g b a image_output rgba m)
    as [[status rgba'] m'].
  exact H.
Qed.

(** Every byte [to_bpp64_rgba_kind] touches lies in the first [height] rows
    of the output buffer. *)
Lemma touched_image_in_buffer (image_input image_output : sail_image)
    (r g b a q : Z) :
  table_indexes r g b a ->
  rows_apart (width image_input) (height image_input)
             (bytes_per_line image_output) ->
  touched_image image_input image_output r g b a q ->
  in_output_buffer image_input image_output q.
Proof.
  intros Ht Hgeo (row & Hrow & Htouched).
  now apply (output_row_in_buffer image_input image_output r g b a Ht Hgeo)
    in Htouched.
Qed.

(** ** Conversion between 64-bit kinds into a separate buffer *)

Lemma load16_inj (m1 m2 : mem) (p q : Z) :
  load16 E m1 p = load16 E m2 q ->
  load8 m1 p = load8 m2 q /\ load8 m1 (p + 1) = load8 m2 (q + 1).
Proof.
  unfold load16.
  pose proof (load8_range m1 p). pose proof (load8_range m1 (p + 1)).
  pose proof (load8_range m2 q). pose proof (load8_range m2 (q + 1)).
  destruct E; lia.
Qed.

(** [n] bytes from [p'] on in [m'] are the [n] bytes from [p] on in [m]. *)
Definition same_bytes (m' m : mem) (p' p n : Z) : Prop :=
  forall d, 0 <= d < n -> load8 m' (p' + d) = load8 m (p + d).

Lemma same_bytes_of_load16 (m' m : mem) (p' p : Z) :
  load16 E m' p' = load16 E m p -> same_bytes m' m p' p 2.
Proof.
  intros H d Hd. apply load16_inj in H. destruct H as [H0 H1].
  assert (Hcase : d = 0 \/ d = 1) by lia.
  destruct Hcase as [-> | ->]; [now rewrite !Z.add_0_r | exact H1].
Qed.

Lemma bpp64_values_local (ri gi bi ai : Z) (m1 m2 : mem) (p : Z) :
  table_indexes ri gi bi ai ->
  (forall q, p <= q < p + 8 -> m1 q = m2 q) ->
  bpp64_values ri gi bi ai m1 p = bpp64_values ri gi bi ai m2 p.
Proof.
  intros Ht Hagree. unfold table_indexes in Ht.
  unfold bpp64_values, rgbx64_kind_values, rgba64_kind_values.
  destruct (ai <? 0) eqn:Hai.
  - rewrite (load16_ext m1 m2 (p + 2 * ri)) by (apply Hagree; lia).
    rewrite (load16_ext m1 m2 (p + 2 * gi)) by (apply Hagree; lia).
    rewrite (load16_ext m1 m2 (p + 2 * bi)) by (apply Hagree; lia).
    reflexivity.
  - apply Z.ltb_ge in Hai.
    rewrite (load16_ext m1 m2 (p + 2 * ri)) by (apply Hagree; lia).
    rewrite (load16_ext m1 m2 (p + 2 * gi)) by (apply Hagree; lia).
    rewrite (load16_ext m1 m2 (p + 2 * bi)) by (apply Hagree; lia).
    rewrite (load16_ext m1 m2 (p + 2 * ai)) by (apply Hagree; lia).
    reflexivity.
Qed.

(** The two buffers do not overlap, and the input rows hold their pixels of
    [step] bytes without wrapping around. *)
Definition separate_buffers (step : Z) (image_input image_output : sail_image)
  : Prop :=
  (0 <= step
   /\ step * width image_input <= bytes_per_line image_input
   /\ bytes_per_line image_input * height image_input <= 4294967296)
  /\ (pixels image_input
      + bytes_per_line image_input * height image_input
      <= pixels image_output
      \/ pixels image_output
         + bytes_per_line image_output * height image_input
         <= pixels image_input).

(** For a source format whose rows are converted by a scan loop that reads
    [step] bytes per pixel, conversion into a separate buffer succeeds and
    leaves in every output pixel the values of the source pixel. *)
Lemma scan_to_separate_buffer (image_input image_output : sail_image)
    (values : mem -> Z -> channels) (step r g b a : Z)
    (rgba : sail_rgba64_t) (m : mem) :
  (forall scan_input scan_output rgba m,
     exists rgba',
       convert_row image_input scan_input scan_output r g b a rgba m
       = (SAIL_OK, rgba',
          scan_loop values step (Z.to_nat (width image_input))
                    scan_input scan_output r g b a m)) ->
  (forall m1 m2 p,
     (forall q, p <= q < p + step -> m1 q = m2 q) ->
     values m1 p = values m2 p) ->
  table_indexes r g b a ->
  rows_apart (width image_input) (height image_input)
             (bytes_per_line image_output) ->
  separate_buffers step image_input image_output ->
  let result := to_bpp64_rgba_kind image_input r g b a image_output rgba m in
  fst result = SAIL_OK
  /\ forall row i,
       0 <= row < height image_input -> 0 <= i < width image_input ->
       pixel_holds (snd result)
         (pixels image_output + bytes_per_line image_output * row + 8 * i)
         r g b a
         (values m
            (pixels image_input + bytes_per_line image_input * row
             + step * i)).
Proof.
  intros Hrow Hlocal Ht Hgeo ((Hstep & Hs & Hsize) & Hdisjoint). cbv zeta.
  pose proof Hgeo as (Hw & Hh & Hgeo').
  assert (Hexact : forall row, 0 <= row < height image_input ->
            0 < width image_input ->
            u32 (bytes_per_line image_input * row)
            = bytes_per_line image_input * row).
  { intros row Hr Hpos. apply u32_small.
    assert (H : bytes_per_line image_input * (row + 1)
                <= bytes_per_line image_input * height image_input)
      by (apply Z.mul_le_mono_nonneg_l; nia).
    rewrite Z.mul_add_distr_l, Z.mul_1_r in H.
    assert (0 <= bytes_per_line image_input * row)
      by (apply Z.mul_nonneg_nonneg; nia).
    nia. }
  assert (Hvalues :
    forall rows row0 rgba0 m1,
      0 <= row0 -> row0 + Z.of_nat rows <= height image_input ->
      (forall q, ~ in_output_buffer image_input image_output q -> m1 q = m q) ->
      let result := convert_rows rows row0 image_input r g b a image_output
                                 rgba0 m1 in
      fst (fst result) = SAIL_OK
      /\ (forall q, ~ in_output_buffer image_input image_output q ->
                    snd result q = m q)
      /\ forall row i,
           row0 <= row < row0 + Z.of_nat rows -> 0 <= i < width image_input ->
           pixel_holds (snd result)
             (output_pixel image_output row i) r g b a
             (values m (input_pixel image_input step row i))).
  { intros rows. apply convert_rows_values; try assumption.
    intros row i q Hr Hi Hq. unfold input_pixel in Hq.
    rewrite (Hexact row) in Hq by lia.
    unfold in_output_buffer.
    assert (H : bytes_per_line image_input * (row + 1)
                <= bytes_per_line image_input * height image_input)
      by (apply Z.mul_le_mono_nonneg_l; nia).
    rewrite Z.mul_add_distr_l, Z.mul_1_r in H.
    assert (0 <= bytes_per_line image_input * row)
      by (apply Z.mul_nonneg_nonneg; nia).
    assert (step * (i + 1) <= step * width image_input)
      by (apply Z.mul_le_mono_nonneg_l; lia).
    nia. }
  unfold to_bpp64_rgba_kind.
  specialize (Hvalues (Z.to_nat (height image_input)) 0 rgba m).
  destruct (convert_rows _ 0 image_input r g b a image_output rgba m)
    as [[status rgba'] m'].
  cbv zeta in Hvalues. cbn [fst snd] in *.
  destruct Hvalues as (Hstatus & _ & Hpix); [lia | lia | reflexivity |].
  split; [exact Hstatus |].
  intros row i Hr Hi.
  specialize (Hpix row i ltac:(lia) Hi).
  unfold output_pixel, input_pixel in Hpix.
  now rewrite (Hexact row) in Hpix by lia.
Qed.

Lemma bpp64_to_separate_buffer (image_input image_output : sail_image)
    (ri gi bi ai r g b a : Z) (rgba : sail_rgba64_t) (m : mem) :
  verify_and_construct_rgba64_indexes (pixel_format image_input)
  = (SAIL_OK, (ri, gi, bi, ai)) ->
  table_indexes r g b a ->
  rows_apart (width image_input) (height image_input)
             (bytes_per_line image_output) ->
  separate_buffers 8 image_input image_output ->
  let result := to_bpp64_rgba_kind image_input r g b a image_output rgba m in
  fst result = SAIL_OK
  /\ forall row i,
       0 <= row < height image_input -> 0 <= i < width image_input ->
       pixel_holds (snd result)
         (pixels image_output + bytes_per_line image_output * row + 8 * i)
         r g b a
         (bpp64_values ri gi bi ai m
            (pixels image_input + bytes_per_line image_input * row + 8 * i)).
Proof.
  intros Hsrc Ht Hgeo Hsep.
  pose proof (verify_and_construct_table _ _ _ _ _ Hsrc) as Hsrct.
  apply scan_to_separate_buffer; try assumption.
  - intros. eexists. now apply convert_row_bpp64.
  - intros m1 m2 p0. now apply bpp64_values_local.
Qed.

Lemma stride_of_64_bits (w : Z) :
  0 <= w -> 8 * w < 4294967296 -> u32 ((w * 64 + 7) / 8) = 8 * w.
Proof.
  intros Hw Hsmall.
  replace (w * 64 + 7) with (7 + 8 * w * 8) by lia.
  rewrite Z.div_add by lia. rewrite (Z.div_small 7 8) by lia.
  apply u32_small. lia.
Qed.

(** The memory the in-place entry point leaves is the initial one or the one
    [to_bpp64_rgba_kind] leaves when run on the image itself. *)
Lemma in_place_memory (image : sail_image)
    (output_pixel_format : SailPixelFormat) (r g b a : Z)
    (rgba : sail_rgba64_t) (m : mem) :
  verify_and_construct_rgba64_indexes output_pixel_format
  = (SAIL_OK, (r, g, b, a)) ->
  let result :=
    sail_convert_image_to_bpp64_rgba_kind_in_place image output_pixel_format
                                                   rgba m in
  snd result = m
  \/ snd result = snd (to_bpp64_rgba_kind image r g b a image rgba m).
Proof.
  intros Htable. cbv zeta.
  unfold sail_convert_image_to_bpp64_rgba_kind_in_place. rewrite Htable.
  destruct (sail_check_image_valid image); try (now left).
  destruct (pixel_format_eqb _ _); [now left |].
  destruct (sail_greater_equal_bits_per_pixel _ _) as [status fits].
  destruct status; try (now left).
  destruct fits; cbn [negb]; [| now left].
  destruct (to_bpp64_rgba_kind image r g b a image rgba m) as [status m'].
  destruct status; now right.
Qed.

(** When the allocating entry point hands out an image, its buffer has the
    stride of a 64-bit row and the memory is the one [to_bpp64_rgba_kind]
    leaves when run into it. *)
Lemma allocated_image (image : sail_image)
    (output_pixel_format : SailPixelFormat) (r g b a : Z)
    (rgba : sail_rgba64_t) (m : mem) (image_local : sail_image) (m' : mem) :
  verify_and_construct_rgba64_indexes output_pixel_format
  = (SAIL_OK, (r, g, b, a)) ->
  (forall skeleton,
     sail_copy_image_skeleton image = (SAIL_OK, skeleton) ->
     width skeleton = width image) ->
  0 <= width image -> 8 * width image < 4294967296 ->
  sail_convert_image_to_bpp64_rgba_kind image output_pixel_format true rgba m
  = (SAIL_OK, Some image_local, m') ->
  bytes_per_line image_local = 8 * width image
  /\ m' = snd (to_bpp64_rgba_kind image r g b a image_local rgba m).
Proof.
  intros Htable Hskeleton Hw Hsmall.
  pose proof (verify_and_construct_bits _ _ Htable) as Hbits.
  unfold sail_convert_image_to_bpp64_rgba_kind. rewrite Htable.
  destruct (sail_check_image_valid image); try discriminate.
  cbn [negb].
  destruct (sail_copy_image_skeleton image) as [status skeleton] eqn:Hcopy.
  destruct status; try discriminate.
  specialize (Hskeleton skeleton eq_refl).
  unfold sail_bytes_per_line.
  cbn [width pixel_format height bytes_per_line with_pixel_format
       with_bytes_per_line].
  rewrite Hbits, Hskeleton, (stride_of_64_bits (width image)) by lia.
  destruct (sail_malloc _) as [status p].
  destruct status; try discriminate.
  destruct (to_bpp64_rgba_kind image r g b a _ rgba m) as [status m'']
    eqn:Hrun.
  destruct status; try discriminate.
  intros H.
  pose proof (f_equal (fun x => match snd (fst x) with
                                | Some produced => produced
                                | None => image_local
                                end) H) as Himage.
  pose proof (f_equal snd H) as Hmem.
  cbn [fst snd] in Himage, Hmem. subst image_local m'.
  split; [reflexivity |]. now rewrite Hrun.
Qed.

(** C2, as the code has it. For an alpha-less target the padding slot of an
    output pixel is never written: after [to_bpp64_rgba_kind], after the
    in-place entry point and after the allocating entry point, whatever the
    source format and the outcome, the slot holds what the memory held there
    before the call (for the in-place entry point the fourth channel of the
    source, for the allocating one the content of the fresh block). *)
Theorem padding_slot_not_written (output_pixel_format : SailPixelFormat)
    (r g b a : Z) (rgba : sail_rgba64_t) (m : mem) (row i : Z) :
  alpha_less output_pixel_format = true ->
  verify_and_construct_rgba64_indexes output_pixel_format
  = (SAIL_OK, (r, g, b, a)) ->
  let padding := 2 * padding_index output_pixel_format in
  (forall image_input image_output,
     rows_apart (width image_input) (height image_input)
                (bytes_per_line image_output) ->
     0 <= row < height image_input -> 0 <= i < width image_input ->
     let slot := pixels image_output + bytes_per_line image_output * row
                 + 8 * i + padding in
     load16 E (snd (to_bpp64_rgba_kind image_input r g b a image_output
                                       rgba m)) slot
     = load16 E m slot)
  /\ (forall image,
        rows_apart (width image) (height image) (bytes_per_line image) ->
        0 <= row < height image -> 0 <= i < width image ->
        let slot := pixels image + bytes_per_line image * row
                    + 8 * i + padding in
        load16 E (snd (sail_convert_image_to_bpp64_rgba_kind_in_place
                         image output_pixel_format rgba m)) slot
        = load16 E m slot)
  /\ (forall image image_local m',
        (forall skeleton,
           sail_copy_image_skeleton image = (SAIL_OK, skeleton) ->
           width skeleton = width image) ->
        rows_apart (width image) (height image) (8 * width image) ->
        8 * width image < 4294967296 ->
        0 <= row < height image -> 0 <= i < width image ->
        sail_convert_image_to_bpp64_rgba_kind image output_pixel_format true
                                              rgba m
        = (SAIL_OK, Some image_local, m') ->
        let slot := pixels image_local + bytes_per_line image_local * row
                    + 8 * i + padding in
        load16 E m' slot = load16 E m slot).
Proof.
  intros Hless Htable padding.
  split; [| split].
  - intros image_input image_output Hgeo Hrow Hi.
    now apply (to_bpp64_rgba_kind_keeps_padding image_input image_output
                 output_pixel_format).
  - intros image Hgeo Hrow Hi slot.
    destruct (in_place_memory image output_pixel_format r g b a rgba m Htable)
      as [Hm | Hm]; rewrite Hm; [reflexivity |].
    now apply (to_bpp64_rgba_kind_keeps_padding image image
                 output_pixel_format).
  - intros image image_local m' Hskeleton Hgeo Hsmall Hrow Hi Hrun slot.
    destruct (allocated_image image output_pixel_format r g b a rgba m
                image_local m' Htable Hskeleton ltac:(lia) Hsmall Hrun)
      as [Hstride ->].
    apply (to_bpp64_rgba_kind_keeps_padding image image_local
             output_pixel_format); try assumption.
    now rewrite Hstride.
Qed.

(** C8, as the code has it. For a valid image of one of the eight 64-bit
    kinds, converted to its own format: the in-place entry point returns
    [SAIL_OK] at once and changes nothing. The allocating entry point fills a
    fresh buffer of stride [8 * width]: the bytes of every channel the target
    writes are those of the source pixel, and the bytes of a channel it does
    not write (the padding slot of the alpha-less kinds) are what the fresh
    buffer held. *)
Theorem same_format_conversion (image : sail_image) (r g b a : Z)
    (rgba : sail_rgba64_t) (m : mem) :
  sail_check_image_valid image = SAIL_OK ->
  verify_and_construct_rgba64_indexes (pixel_format image)
  = (SAIL_OK, (r, g, b, a)) ->
  sail_convert_image_to_bpp64_rgba_kind_in_place image (pixel_format image)
                                                 rgba m
  = (SAIL_OK, image, m)
  /\ forall skeleton p,
       sail_copy_image_skeleton image = (SAIL_OK, skeleton) ->
       width skeleton = width image -> height skeleton = height image ->
       sail_malloc (u32 (height image * (8 * width image))) = (SAIL_OK, p) ->
       bytes_per_line image < 4294967296 ->
       rows_apart (width image) (height image) (bytes_per_line image) ->
       (pixels image + bytes_per_line image * height image <= p
        \/ p + 8 * width image * height image <= pixels image) ->
       exists image_local m',
         sail_convert_image_to_bpp64_rgba_kind image (pixel_format image)
                                               true rgba m
         = (SAIL_OK, Some image_local, m')
         /\ pixels image_local = p
         /\ bytes_per_line image_local = 8 * width image
         /\ pixel_format image_local = pixel_format image
         /\ forall row i c,
              0 <= row < height image -> 0 <= i < width image ->
              0 <= c <= 3 ->
              let target := p + 8 * width image * row + 8 * i + 2 * c in
              let source := pixels image + bytes_per_line image * row
                            + 8 * i + 2 * c in
              (written_channel r g b a c -> same_bytes m' m target source 2)
              /\ (~ written_channel r g b a c ->
                  same_bytes m' m target target 2).
Proof.
  intros Hvalid Htable. split.
  - unfold sail_convert_image_to_bpp64_rgba_kind_in_place.
    rewrite Hvalid, Htable. unfold pixel_format_eqb.
    now destruct (SailPixelFormat_eq_dec _ _).
  - intros skeleton p Hskel Hsw Hsh Hmalloc Hstride Hgeo Hdisjoint.
    pose proof (verify_and_construct_table _ _ _ _ _ Htable) as Ht.
    pose proof (verify_and_construct_bits _ _ Htable) as Hbits.
    destruct (sail_check_image_valid_inv _ Hvalid) as (_ & Hw0 & Hh0 & _).
    pose proof Hgeo as (Hw & Hh & Hs & Hsize).
    assert (Hstride64 : u32 ((width image * 64 + 7) / 8) = 8 * width image)
      by (apply stride_of_64_bits; lia).
    set (image_local :=
           with_pixels
             (with_bytes_per_line
                (with_pixel_format skeleton (pixel_format image))
                (8 * width image)) p).
    assert (Hout : rows_apart (width image) (height image)
                              (bytes_per_line image_local)).
    { unfold rows_apart, image_local.
      cbn [bytes_per_line with_pixels with_bytes_per_line with_pixel_format].
      repeat split; try lia.
      assert (8 * width image * height image
              <= bytes_per_line image * height image)
        by (apply Z.mul_le_mono_nonneg_r; lia).
      lia. }
    assert (Hsep : separate_buffers 8 image image_local).
    { split; [lia |]. unfold image_local.
      cbn [pixels bytes_per_line with_pixels with_bytes_per_line
           with_pixel_format].
      lia. }
    pose proof (bpp64_to_separate_buffer image image_local r g b a r g b a
                  rgba m Htable Ht Hout Hsep) as Hconv.
    pose proof (to_bpp64_rgba_kind_frame image r g b a image_local rgba m)
      as Hframe.
    unfold sail_convert_image_to_bpp64_rgba_kind.
    rewrite Hvalid, Htable, Hskel. cbn [negb].
    unfold sail_bytes_per_line.
    cbn [width pixel_format height bytes_per_line with_pixel_format
         with_bytes_per_line].
    rewrite Hbits, Hsw, Hsh, Hstride64, Hmalloc.
    fold image_local.
    destruct (to_bpp64_rgba_kind image r g b a image_local rgba m)
      as [status m'].
    cbv zeta in Hconv. cbn [fst snd] in Hconv, Hframe.
    destruct Hconv as (-> & Hpix).
    exists image_local, m'.
    split; [reflexivity |]. split; [reflexivity |]. split; [reflexivity |].
    split; [reflexivity |].
    intros row i c Hrow Hi Hc. split.
    + intros Hwritten. apply same_bytes_of_load16.
      specialize (Hpix row i Hrow Hi). unfold pixel_holds in Hpix.
      cbn [pixels bytes_per_line image_local with_pixels with_bytes_per_line]
        in Hpix.
      assert (Hai : forall ai, 0 <= ai ->
                bpp64_values r g b ai m
                  (pixels image + bytes_per_line image * row + 8 * i)
                = rgba64_kind_values r g b ai m
                    (pixels image + bytes_per_line image * row + 8 * i)).
      { intros ai Hge. unfold bpp64_values.
        assert (Hlt : (ai <? 0) = false) by (apply Z.ltb_ge; lia).
        now rewrite Hlt. }
      destruct Hwritten as [-> | [-> | [-> | [Hge ->]]]].
      * unfold bpp64_values, rgbx64_kind_values, rgba64_kind_values in Hpix.
        destruct (a <? 0); destruct Hpix as (Hr & _);
          rewrite Hr; apply u16_small, load16_range.
      * unfold bpp64_values, rgbx64_kind_values, rgba64_kind_values in Hpix.
        destruct (a <? 0); destruct Hpix as (_ & Hg & _);
          rewrite Hg; apply u16_small, load16_range.
      * unfold bpp64_values, rgbx64_kind_values, rgba64_kind_values in Hpix.
        destruct (a <? 0); destruct Hpix as (_ & _ & Hb & _);
          rewrite Hb; apply u16_small, load16_range.
      * rewrite (Hai a Hge) in Hpix. unfold rgba64_kind_values in Hpix.
        destruct Hpix as (_ & _ & _ & Ha).
        rewrite (Ha Hge). apply u16_small, load16_range.
    + intros Hnot d Hd. unfold load8. f_equal. apply Hframe.
      intros Htouched. apply Hnot.
      apply (touched_image_channel image image_local r g b a row i c d);
        try assumption; lia.
Qed.

(** ** Sources with 8-bit channels *)

Lemma scan_loop_ext (v1 v2 : mem -> Z -> channels) (step : Z) (n : nat) :
  (forall m p, v1 m p = v2 m p) ->
  forall scan_input scan_output r g b a m,
    scan_loop v1 step n scan_input scan_output r g b a m
    = scan_loop v2 step n scan_input scan_output r g b a m.
Proof.
  intros Hext. induction n as [| n IH]; intros; [reflexivity |].
  cbn [scan_loop]. rewrite Hext.
  destruct (v2 m scan_input) as [[[rv gv] bv] av]. apply IH.
Qed.

(** A loop through [rgba] whose assignment neither fails nor looks at the
    previous content of [rgba] is a scan loop. *)
Lemma rgba_loop_pure
    (assign : mem -> Z -> sail_rgba64_t -> sail_status_t * sail_rgba64_t)
    (color : mem -> Z -> sail_rgba64_t) (step : Z) (n : nat) :
  (forall m p rgba, assign m p rgba = (SAIL_OK, color m p)) ->
  forall scan_input scan_output r g b a rgba m,
    exists rgba',
      rgba_loop assign step n scan_input scan_output r g b a rgba m
      = (SAIL_OK, rgba',
         scan_loop (fun m p => channels_of (color m p)) step n
                   scan_input scan_output r g b a m).
Proof.
  intros Hpure. induction n as [| n IH]; intros.
  - now exists rgba.
  - cbn [rgba_loop scan_loop]. rewrite Hpure. unfold channels_of. apply IH.
Qed.

(** The four 8-bit channels red, green, blue, alpha of a pixel. *)
Definition rgb_bytes (ri gi bi : Z) (m : mem) (p : Z) : channels :=
  (load8 m (p + ri), load8 m (p + gi), load8 m (p + bi), 255).

Definition rgba_bytes (ri gi bi ai : Z) (m : mem) (p : Z) : channels :=
  (load8 m (p + ri), load8 m (p + gi), load8 m (p + bi), load8 m (p + ai)).

Definition gray_bytes (m : mem) (p : Z) : channels :=
  (load8 m p, load8 m p, load8 m p, 255).

Definition gray_alpha_bytes (m : mem) (p : Z) : channels :=
  (load8 m p, load8 m p, load8 m p, load8 m (p + 1)).

Definition cmyk_bytes (m : mem) (p : Z) : channels :=
  match convert_cmyk32_to_rgb24 (load8 m (p + 0)) (load8 m (p + 1))
                                (load8 m (p + 2)) (load8 m (p + 3)) with
  | (rv, gv, bv) => (u8 rv, u8 gv, u8 bv, 255)
  end.

Definition ycbcr_bytes (m : mem) (p : Z) : channels :=
  match convert_ycbcr_to_rgb (load8 m (p + 0)) (load8 m (p + 1))
                             (load8 m (p + 2)) with
  | (rv, gv, bv) => (u8 rv, u8 gv, u8 bv, 255)
  end.

(** For the source formats made of whole 8-bit channels: the 8-bit red,
    green, blue and alpha of the pixel at an address (alpha 255 when the
    format has none, the collaborator's outputs for CMYK and YCbCr), and the
    size of a pixel in bytes. *)
Definition eight_bit_source (pf : SailPixelFormat)
  : option ((mem -> Z -> channels) * Z) :=
  match pf with
  | SAIL_PIXEL_FORMAT_BPP8_GRAYSCALE => Some (gray_bytes, 1)
  | SAIL_PIXEL_FORMAT_BPP16_GRAYSCALE_ALPHA => Some (gray_alpha_bytes, 2)
  | SAIL_PIXEL_FORMAT_BPP24_RGB => Some (rgb_bytes 0 1 2, 3)
  | SAIL_PIXEL_FORMAT_BPP24_BGR => Some (rgb_bytes 2 1 0, 3)
  | SAIL_PIXEL_FORMAT_BPP32_RGBX => Some (rgb_bytes 0 1 2, 4)
  | SAIL_PIXEL_FORMAT_BPP32_BGRX => Some (rgb_bytes 2 1 0, 4)
  | SAIL_PIXEL_FORMAT_BPP32_XRGB => Some (rgb_bytes 1 2 3, 4)
  | SAIL_PIXEL_FORMAT_BPP32_XBGR => Some (rgb_bytes 3 2 1, 4)
  | SAIL_PIXEL_FORMAT_BPP32_RGBA => Some (rgba_bytes 0 1 2 3, 4)
  | SAIL_PIXEL_FORMAT_BPP32_BGRA => Some (rgba_bytes 2 1 0 3, 4)
  | SAIL_PIXEL_FORMAT_BPP32_ARGB => Some (rgba_bytes 1 2 3 0, 4)
  | SAIL_PIXEL_FORMAT_BPP32_ABGR => Some (rgba_bytes 3 2 1 0, 4)
  | SAIL_PIXEL_FORMAT_BPP32_CMYK => Some (cmyk_bytes, 4)
  | SAIL_PIXEL_FORMAT_BPP24_YCBCR => Some (ycbcr_bytes, 3)
  | _ => None
  end.

(** Every channel multiplied by 257. *)
Definition promote (v : channels) : channels :=
  match v with
  | (rv, gv, bv, av) => (rv * 257, gv * 257, bv * 257, av * 257)
  end.

Definition is_byte (v : Z) : Prop := 0 <= v <= 255.

Definition all_bytes (v : channels) : Prop :=
  match v with
  | (rv, gv, bv, av) => is_byte rv /\ is_byte gv /\ is_byte bv /\ is_byte av
  end.

Lemma is_byte_load8 (m : mem) (p : Z) : is_byte (load8 m p).
Proof. unfold is_byte. pose proof (load8_range m p). lia. Qed.

Lemma is_byte_u8 (v : Z) : is_byte (u8 v).
Proof. unfold is_byte. pose proof (u8_range v). lia. Qed.

Lemma eight_bit_source_bytes (pf : SailPixelFormat)
    (bytes : mem -> Z -> channels) (step : Z) (m : mem) (p : Z) :
  eight_bit_source pf = Some (bytes, step) -> all_bytes (bytes m p).
Proof.
  destruct pf; simpl; intros H; try discriminate H; inversion H; subst;
    unfold gray_bytes, gray_alpha_bytes, rgb_bytes, rgba_bytes, cmyk_bytes,
      ycbcr_bytes;
    try destruct (convert_cmyk32_to_rgb24 _ _ _ _) as [[rv gv] bv];
    try destruct (convert_ycbcr_to_rgb _ _ _) as [[rv gv] bv];
    unfold all_bytes; repeat split;
    try apply is_byte_load8; try apply is_byte_u8; unfold is_byte; lia.
Qed.

Lemma eight_bit_source_local (pf : SailPixelFormat)
    (bytes : mem -> Z -> channels) (step : Z) (m1 m2 : mem) (p : Z) :
  eight_bit_source pf = Some (bytes, step) ->
  (forall q, p <= q < p + step -> m1 q = m2 q) ->
  bytes m1 p = bytes m2 p.
Proof.
  intros Hsrc Hagree.
  assert (Hload : forall d, 0 <= d < step ->
                            load8 m1 (p + d) = load8 m2 (p + d)).
  { intros d Hd. unfold load8. f_equal. apply Hagree. lia. }
  assert (Hload0 : 0 < step -> load8 m1 p = load8 m2 p).
  { intros Hd. unfold load8. f_equal. apply Hagree. lia. }
  destruct pf; simpl in Hsrc; try discriminate Hsrc; inversion Hsrc; subst;
    unfold gray_bytes, gray_alpha_bytes, rgb_bytes, rgba_bytes, cmyk_bytes,
      ycbcr_bytes;
    rewrite ?Hload0 by lia;
    rewrite ?(Hload 0), ?(Hload 1), ?(Hload 2), ?(Hload 3) by lia;
    reflexivity.
Qed.

(** The switch of [to_bpp64_rgba_kind] converts a row of such a source by
    writing, for every pixel, its 8-bit channels multiplied by 257. *)
Lemma convert_row_eight_bit (image_input : sail_image)
    (bytes : mem -> Z -> channels) (step : Z)
    (scan_input scan_output r g b a : Z) (rgba : sail_rgba64_t) (m : mem) :
  eight_bit_source (pixel_format image_input) = Some (bytes, step) ->
  exists rgba',
    convert_row image_input scan_input scan_output r g b a rgba m
    = (SAIL_OK, rgba',
       scan_loop (fun m p => promote (bytes m p)) step
                 (Z.to_nat (width image_input))
                 scan_input scan_output r g b a m).
Proof.
  unfold convert_row. cbv zeta.
  destruct (pixel_format image_input); simpl; intros H;
    try discriminate H; inversion H; subst; clear H.
  - (* BPP8_GRAYSCALE *)
    destruct (rgba_loop_pure
                (fun m p (_ : sail_rgba64_t) =>
                   (SAIL_OK, spread_gray8_to_rgba64 (load8 m p)))
                (fun m p => spread_gray8_to_rgba64 (load8 m p))
                1 (Z.to_nat (width image_input)) ltac:(reflexivity)
                scan_input scan_output r g b a rgba m) as [rgba' Hloop].
    exists rgba'. rewrite Hloop. f_equal. apply scan_loop_ext.
    intros m0 p. rewrite spread_gray8_to_rgba64_exact.
    unfold channels_of, gray_bytes, promote. cbn.
    now rewrite (u8_small (load8 m0 p)) by apply load8_range.
  - (* BPP16_GRAYSCALE_ALPHA *)
    destruct (rgba_loop_pure
                (fun m p (_ : sail_rgba64_t) =>
                   (SAIL_OK,
                    with_component4 (spread_gray8_to_rgba64 (load8 m p))
                                    (u16 (load8 m (p + 1) * 257))))
                (fun m p =>
                   with_component4 (spread_gray8_to_rgba64 (load8 m p))
                                   (u16 (load8 m (p + 1) * 257)))
                2 (Z.to_nat (width image_input)) ltac:(reflexivity)
                scan_input scan_output r g b a rgba m) as [rgba' Hloop].
    exists rgba'. rewrite Hloop. f_equal. apply scan_loop_ext.
    intros m0 p. rewrite spread_gray8_to_rgba64_exact.
    unfold channels_of, gray_alpha_bytes, promote, with_component4. cbn.
    rewrite (u8_small (load8 m0 p)) by apply load8_range.
    now rewrite promote_load8.
  - now exists rgba.
  - now exists rgba.
  - now exists rgba.
  - now exists rgba.
  - now exists rgba.
  - now exists rgba.
  - now exists rgba.
  - now exists rgba.
  - now exists rgba.
  - now exists rgba.
  - (* BPP32_CMYK *)
    exists rgba. f_equal. apply scan_loop_ext. intros m0 p.
    unfold cmyk32_values, cmyk_bytes, promote.
    now destruct (convert_cmyk32_to_rgb24 _ _ _ _) as [[rv gv] bv].
  - (* BPP24_YCBCR *)
    exists rgba. f_equal. apply scan_loop_ext. intros m0 p.
    unfold ycbcr24_values, ycbcr_bytes, promote.
    now destruct (convert_ycbcr_to_rgb _ _ _) as [[rv gv] bv].
Qed.

(** An indexed image of one pixel, whose byte is the index 0, with a palette
    of three 24-bit RGB entries of which the first is (255, 0, 128). *)
Definition sample_palette : sail_palette :=
  {| palette_pixel_format := SAIL_PIXEL_FORMAT_BPP24_RGB;
     palette_data := 5000; color_count := 3 |}.

Definition sample_indexed_image : sail_image :=
  {| pixels := 1000; width := 1; height := 1; bytes_per_line := 1;
     pixel_format := SAIL_PIXEL_FORMAT_BPP8_INDEXED;
     palette := Some sample_palette; source_image := None;
     resolution := None |}.

Definition sample_indexed_memory : mem :=
  fun q => if q =? 1000 then 0
           else mem_of_list 5000 [255; 0; 128; 10; 20; 30; 1; 2; 3] q.

(** A 64-bit output descriptor of one pixel at address 2000. *)
Definition sample_output_image (pf : SailPixelFormat) : sail_image :=
  {| pixels := 2000; width := 1; height := 1; bytes_per_line := 8;
     pixel_format := pf; palette := None; source_image := None;
     resolution := None |}.

Lemma sample_indexed_conversion (pf : SailPixelFormat) (r g b a : Z)
    (rgba : sail_rgba64_t) :
  verify_and_construct_rgba64_indexes pf = (SAIL_OK, (r, g, b, a)) ->
  let result := to_bpp64_rgba_kind sample_indexed_image r g b a
                  (sample_output_image pf) rgba sample_indexed_memory in
  fst result = SAIL_OK
  /\ load16 E (snd result) (2000 + 2 * r) = 65535
  /\ load16 E (snd result) (2000 + 2 * g) = 0
  /\ load16 E (snd result) (2000 + 2 * b) = 32896
  /\ (0 <= a -> load16 E (snd result) (2000 + 2 * a) = 65535).
Proof.
  intros Htable. cbv zeta.
  pose proof (verify_and_construct_table _ _ _ _ _ Htable) as Ht.
  assert (Hrun : to_bpp64_rgba_kind sample_indexed_image r g b a
                   (sample_output_image pf) rgba sample_indexed_memory
                 = (SAIL_OK,
                    fill_rgba64_pixel sample_indexed_memory 2000 r g b a
                                      65535 0 32896 65535)).
  { lazy -[fill_rgba64_pixel]. reflexivity. }
  rewrite Hrun. cbn [fst snd]. split; [reflexivity |].
  exact (fill_rgba64_pixel_values sample_indexed_memory 2000 r g b a
           65535 0 32896 65535 Ht).
Qed.

(** C1. An 8-bit channel value is promoted to 16 bits as exactly 257 times
    the value, without truncation: 0 becomes 0 and 255 becomes 65535. This is
    what the grayscale spreading and the palette resolution compute, and what
    [to_bpp64_rgba_kind] leaves in every written channel of every output
    pixel for the sources made of 8-bit channels (gray, gray with alpha,
    RGB and RGBA in all orders, and the outputs of the CMYK and YCbCr
    collaborators). An 8-bit indexed pixel resolved through the 24-bit RGB
    palette entry (255, 0, 128) yields red 65535, green 0, blue 32896 and
    alpha 65535 for every target that has the channel. *)
Theorem eight_bit_channels_times_257 :
  (forall v, is_byte v -> u16 (v * 257) = v * 257)
  /\ u16 (0 * 257) = 0 /\ u16 (255 * 257) = 65535
  /\ (forall value,
        spread_gray8_to_rgba64 value
        = {| component1 := u8 value * 257; component2 := u8 value * 257;
             component3 := u8 value * 257; component4 := 65535 |})
  /\ (forall m palette index color,
        index < color_count palette ->
        (palette_pixel_format palette = SAIL_PIXEL_FORMAT_BPP24_RGB ->
         let entry := palette_data palette + u32 (index * 3) in
         get_palette_rgba64 m palette index color
         = (SAIL_OK,
            {| component1 := load8 m (entry + 0) * 257;
               component2 := load8 m (entry + 1) * 257;
               component3 := load8 m (entry + 2) * 257;
               component4 := 65535 |}))
        /\ (palette_pixel_format palette = SAIL_PIXEL_FORMAT_BPP32_RGBA ->
            let entry := palette_data palette + u32 (index * 4) in
            get_palette_rgba64 m palette index color
            = (SAIL_OK,
               {| component1 := load8 m (entry + 0) * 257;
                  component2 := load8 m (entry + 1) * 257;
                  component3 := load8 m (entry + 2) * 257;
                  component4 := load8 m (entry + 3) * 257 |})))
  /\ (forall image_input image_output bytes step output_pixel_format r g b a
             rgba m,
        eight_bit_source (pixel_format image_input) = Some (bytes, step) ->
        verify_and_construct_rgba64_indexes output_pixel_format
        = (SAIL_OK, (r, g, b, a)) ->
        rows_apart (width image_input) (height image_input)
                   (bytes_per_line image_output) ->
        separate_buffers step image_input image_output ->
        let result :=
          to_bpp64_rgba_kind image_input r g b a image_output rgba m in
        fst result = SAIL_OK
        /\ forall row i,
             0 <= row < height image_input -> 0 <= i < width image_input ->
             let target := pixels image_output
                           + bytes_per_line image_output * row + 8 * i in
             match bytes m (pixels image_input
                            + bytes_per_line image_input * row + step * i) with
             | (r8, g8, b8, a8) =>
                 all_bytes (r8, g8, b8, a8)
                 /\ load16 E (snd result) (target + 2 * r) = r8 * 257
                 /\ load16 E (snd result) (target + 2 * g) = g8 * 257
                 /\ load16 E (snd result) (target + 2 * b) = b8 * 257
                 /\ (0 <= a ->
                     load16 E (snd result) (target + 2 * a) = a8 * 257)
             end)
  /\ (forall output_pixel_format r g b a rgba,
        verify_and_construct_rgba64_indexes output_pixel_format
        = (SAIL_OK, (r, g, b, a)) ->
        let result := to_bpp64_rgba_kind sample_indexed_image r g b a
                        (sample_output_image output_pixel_format) rgba
                        sample_indexed_memory in
        fst result = SAIL_OK
        /\ load16 E (snd result) (2000 + 2 * r) = 65535
        /\ load16 E (snd result) (2000 + 2 * g) = 0
        /\ load16 E (snd result) (2000 + 2 * b) = 32896
        /\ (0 <= a -> load16 E (snd result) (2000 + 2 * a) = 65535)).
Proof.
  split; [intros v Hv; now apply promote_exact |].
  split; [reflexivity |]. split; [reflexivity |].
  split; [exact spread_gray8_to_rgba64_exact |].
  split.
  { intros m palette index color Hlt. split; intros Hpf.
    - now apply get_palette_rgba64_rgb.
    - now apply get_palette_rgba64_rgba. }
  split;
    [| intros output_pixel_format r g b a rgba Htable;
       exact (sample_indexed_conversion output_pixel_format r g b a rgba
                Htable)].
  intros image_input image_output bytes step output_pixel_format r g b a rgba m
         Hsrc Htable Hgeo Hsep.
  pose proof (verify_and_construct_table _ _ _ _ _ Htable) as Ht.
  pose proof (scan_to_separate_buffer image_input image_output
                (fun m p => promote (bytes m p)) step r g b a rgba m) as Hconv.
  cbv zeta in *.
  destruct Hconv as (Hstatus & Hpix); try assumption.
  - intros. now apply convert_row_eight_bit.
  - intros m1 m2 p0 Hagree. f_equal.
    now apply (eight_bit_source_local (pixel_format image_input) bytes step).
  - split; [exact Hstatus |].
    intros row i Hrow Hi. specialize (Hpix row i Hrow Hi).
    pose proof (eight_bit_source_bytes _ bytes step m
                  (pixels image_input + bytes_per_line image_input * row
                   + step * i) Hsrc) as Hbytes.
    destruct (bytes m _) as [[[r8 g8] b8] a8].
    unfold promote, pixel_holds in Hpix.
    destruct Hbytes as (Hr8 & Hg8 & Hb8 & Ha8).
    destruct Hpix as (Hr & Hg & Hb & Ha).
    rewrite promote_exact in Hr, Hg, Hb by assumption.
    split; [exact (conj Hr8 (conj Hg8 (conj Hb8 Ha8))) |].
    split; [exact Hr |]. split; [exact Hg |]. split; [exact Hb |].
    intros Hge. rewrite (Ha Hge). now apply promote_exact.
Qed.

(** ** Rows converted one after the other

    A general description of the row loop: if every row, converted from a
    memory in which only the output rows before it may have changed, leaves
    in its output pixels values that depend on the initial memory alone, then
    so does the whole conversion. The input may be the output buffer itself. *)

Section RowByRow.

Variable image_input image_output : sail_image.
Variable r g b a : Z.
Variable m0 : mem.

(** The values expected in the output pixel [(row, i)]. *)
Variable expected : Z -> Z -> channels.

(** The rows that can be converted. *)
Variable convertible : Z -> Prop.

(** The bytes of the output rows before [row]. *)
Definition rows_done (row q : Z) : Prop :=
  pixels image_output <= q
  < pixels image_output + bytes_per_line image_output * row.

Hypothesis Htable : table_indexes r g b a.
Hypothesis Hgeometry :
  rows_apart (width image_input) (height image_input)
             (bytes_per_line image_output).
Hypothesis Hrow :
  forall row rgba m,
    0 <= row < height image_input ->
    (forall q, ~ rows_done row q -> m q = m0 q) ->
    let result :=
      convert_row image_input
        (pixels image_input + u32 (bytes_per_line image_input * row))
        (pixels image_output + u32 (bytes_per_line image_output * row))
        r g b a rgba m in
    (fst (fst result) = SAIL_OK -> convertible row)
    /\ (convertible row ->
        fst (fst result) = SAIL_OK
        /\ forall i, 0 <= i < width image_input ->
             pixel_holds (snd result)
               (pixels image_output + bytes_per_line image_output * row
                + 8 * i) r g b a (expected row i)).

Lemma row_within_rows_done (row q : Z) :
  0 <= row < height image_input ->
  touched_scan r g b a
    (pixels image_output + u32 (bytes_per_line image_output * row))
    (width image_input) q ->
  pixels image_output + bytes_per_line image_output * row <= q
  /\ rows_done (row + 1) q.
Proof.
  intros Hr Ht.
  destruct (output_row_in_buffer image_input image_output r g b a
              Htable Hgeometry row q Hr Ht) as [Hq _].
  destruct Hgeometry as (Hw & Hh & Hs & Hsize).
  unfold rows_done.
  assert (0 <= bytes_per_line image_output * row)
    by (apply Z.mul_nonneg_nonneg; lia).
  rewrite Z.mul_add_distr_l, Z.mul_1_r. lia.
Qed.

Lemma rows_done_mono (row row' q : Z) :
  0 <= row <= row' -> 0 <= bytes_per_line image_output ->
  rows_done row q -> rows_done row' q.
Proof.
  intros Hr Hs [Hlo Hhi]. unfold rows_done. split; [exact Hlo |].
  assert (bytes_per_line image_output * row
          <= bytes_per_line image_output * row')
    by (apply Z.mul_le_mono_nonneg_l; lia).
  lia.
Qed.

Lemma stride_nonnegative : 0 <= bytes_per_line image_output.
Proof. destruct Hgeometry as (Hw & Hh & Hs & Hsize). lia. Qed.

Lemma convert_rows_row_by_row (rows : nat) :
  forall (row0 : Z) (rgba : sail_rgba64_t) (m : mem),
    0 <= row0 -> row0 + Z.of_nat rows <= height image_input ->
    (forall q, ~ rows_done row0 q -> m q = m0 q) ->
    let result := convert_rows rows row0 image_input r g b a image_output
                               rgba m in
    (fst (fst result) = SAIL_OK ->
     forall row, row0 <= row < row0 + Z.of_nat rows -> convertible row)
    /\ ((forall row, row0 <= row < row0 + Z.of_nat rows -> convertible row) ->
        fst (fst result) = SAIL_OK
        /\ (forall q, ~ rows_done (row0 + Z.of_nat rows) q ->
                      snd result q = m0 q)
        /\ forall row i,
             row0 <= row < row0 + Z.of_nat rows ->
             0 <= i < width image_input ->
             pixel_holds (snd result)
               (pixels image_output + bytes_per_line image_output * row
                + 8 * i) r g b a (expected row i)).
Proof.
  pose proof stride_nonnegative as Hstride.
  induction rows as [| rows IH]; intros row0 rgba m Hrow0 Hlast Hagree.
  - cbn [convert_rows fst snd]. split.
    + intros _ row Hr. simpl in Hr. lia.
    + intros _. split; [reflexivity |]. split.
      * intros q Hq. apply Hagree. now rewrite Z.add_0_r in Hq.
      * intros row i Hr. simpl in Hr. lia.
  - cbv zeta. cbn [convert_rows].
    pose proof (Hrow row0 rgba m ltac:(lia) Hagree) as Hthis.
    pose proof (convert_row_frame image_input
                  (pixels image_input + u32 (bytes_per_line image_input * row0))
                  (pixels image_output
                   + u32 (bytes_per_line image_output * row0))
                  r g b a rgba m) as Hframe.
    destruct (convert_row image_input _ _ r g b a rgba m)
      as [[status rgba'] m1].
    cbv zeta in Hthis. cbn [fst snd] in Hthis, Hframe.
    destruct Hthis as (Hneeds & Hgives).
    assert (Hm1 : forall q, ~ rows_done (row0 + 1) q -> m1 q = m0 q).
    { intros q Hq. rewrite Hframe.
      - apply Hagree. intros Hdone. apply Hq.
        apply (rows_done_mono row0); [lia | exact Hstride | exact Hdone].
      - intros Ht. apply Hq.
        apply (row_within_rows_done row0 q); [lia | exact Ht]. }
    specialize (IH (row0 + 1) rgba' m1 ltac:(lia) ltac:(lia) Hm1).
    cbv zeta in IH. destruct IH as (IHneeds & IHgives).
    replace (row0 + 1 + Z.of_nat rows) with (row0 + Z.of_nat (S rows))
      in IHneeds, IHgives by lia.
    split.
    + intros Hok row Hr.
      destruct status; cbn [fst] in Hok; try discriminate Hok.
      destruct (Z.eq_dec row row0) as [-> | Hne];
        [now apply Hneeds | apply IHneeds; [exact Hok | lia]].
    + intros Hall.
      destruct (Hgives (Hall row0 ltac:(lia))) as (-> & Hpixels).
      destruct IHgives as (Hstatus & Hout & Hrest);
        [intros row Hr; apply Hall; lia |].
      split; [exact Hstatus |]. split; [exact Hout |].
      intros row i Hr Hi.
      destruct (Z.eq_dec row row0) as [-> | Hne]; [| apply Hrest; lia].
      apply (pixel_holds_ext _ m1); [exact Htable | | now apply Hpixels].
      intros q Hq. apply convert_rows_frame.
      intros k Hk Ht. apply row_within_rows_done in Ht; [| lia].
      destruct Ht as [Ht _].
      destruct Hgeometry as (Hw & Hh & Hs & Hsize).
      assert (H : bytes_per_line image_output * (row0 + 1)
                  <= bytes_per_line image_output * k)
        by (apply Z.mul_le_mono_nonneg_l; lia).
      rewrite Z.mul_add_distr_l, Z.mul_1_r in H. lia.
Qed.

(** The same for [to_bpp64_rgba_kind] run on the initial memory. *)
Lemma to_bpp64_rgba_kind_row_by_row (rgba : sail_rgba64_t) :
  let result :=
    to_bpp64_rgba_kind image_input r g b a image_output rgba m0 in
  (fst result = SAIL_OK ->
   forall row, 0 <= row < height image_input -> convertible row)
  /\ ((forall row, 0 <= row < height image_input -> convertible row) ->
      fst result = SAIL_OK
      /\ forall row i,
           0 <= row < height image_input -> 0 <= i < width image_input ->
           pixel_holds (snd result)
             (pixels image_output + bytes_per_line image_output * row
              + 8 * i) r g b a (expected row i)).
Proof.
  cbv zeta. unfold to_bpp64_rgba_kind.
  pose proof (convert_rows_row_by_row (Z.to_nat (height image_input)) 0
                rgba m0) as H.
  destruct Hgeometry as (Hw & Hh & Hs & Hsize).
  destruct (convert_rows _ 0 image_input r g b a image_output rgba m0)
    as [[status rgba'] m'].
  cbv zeta in H. cbn [fst snd] in *.
  destruct H as (Hneeds & Hgives); [lia | lia | reflexivity |].
  split.
  - intros Hok row Hr. apply Hneeds; [exact Hok | lia].
  - intros Hall.
    destruct Hgives as (Hstatus & _ & Hpixels);
      [intros row Hr; apply Hall; lia |].
    split; [exact Hstatus |].
    intros row i Hr Hi. apply Hpixels; lia.
Qed.

End RowByRow.

(** ** Conversion between 64-bit kinds in place *)

Lemma with_pixel_format_same (image : sail_image) :
  with_pixel_format image (pixel_format image) = image.
Proof. now destruct image. Qed.

Lemma bpp64_values_channels (ri gi bi ai : Z) (m : mem) (p : Z) :
  bpp64_values ri gi bi ai m p
  = (load16 E m (p + 2 * ri), load16 E m (p + 2 * gi),
     load16 E m (p + 2 * bi),
     if ai <? 0 then 65535 else load16 E m (p + 2 * ai)).
Proof.
  unfold bpp64_values, rgbx64_kind_values, rgba64_kind_values.
  now destruct (ai <? 0).
Qed.

Lemma u16_channel (ai : Z) (m : mem) (p : Z) :
  u16 (if ai <? 0 then 65535 else load16 E m (p + 2 * ai))
  = if ai <? 0 then 65535 else load16 E m (p + 2 * ai).
Proof.
  destruct (ai <? 0); [reflexivity |]. apply u16_small, load16_range.
Qed.

(** The pixels of a conversion between two 64-bit kinds in place: the
    row-by-row argument, with every pixel read before it is written. *)
Lemma in_place_bpp64_pixels (image : sail_image)
    (output_pixel_format : SailPixelFormat) (ri gi bi ai r g b a : Z)
    (rgba : sail_rgba64_t) (m : mem) :
  sail_check_image_valid image = SAIL_OK ->
  verify_and_construct_rgba64_indexes (pixel_format image)
  = (SAIL_OK, (ri, gi, bi, ai)) ->
  verify_and_construct_rgba64_indexes output_pixel_format
  = (SAIL_OK, (r, g, b, a)) ->
  rows_apart (width image) (height image) (bytes_per_line image) ->
  let result :=
    sail_convert_image_to_bpp64_rgba_kind_in_place image output_pixel_format
                                                   rgba m in
  fst (fst result) = SAIL_OK
  /\ snd (fst result) = with_pixel_format image output_pixel_format
  /\ forall row i,
       0 <= row < height image -> 0 <= i < width image ->
       let pixel := pixels image + bytes_per_line image * row + 8 * i in
       load16 E (snd result) (pixel + 2 * r) = load16 E m (pixel + 2 * ri)
       /\ load16 E (snd result) (pixel + 2 * g) = load16 E m (pixel + 2 * gi)
       /\ load16 E (snd result) (pixel + 2 * b) = load16 E m (pixel + 2 * bi)
       /\ (0 <= a ->
           load16 E (snd result) (pixel + 2 * a)
           = if ai <? 0 then 65535 else load16 E m (pixel + 2 * ai)).
Proof.
  intros Hvalid Hsource Htarget Hgeo. cbv zeta.
  pose proof (verify_and_construct_table _ _ _ _ _ Hsource) as Hst.
  pose proof (verify_and_construct_table _ _ _ _ _ Htarget) as Ht.
  pose proof (verify_and_construct_bits _ _ Hsource) as Hsbits.
  pose proof (verify_and_construct_bits _ _ Htarget) as Htbits.
  unfold sail_convert_image_to_bpp64_rgba_kind_in_place.
  rewrite Hvalid, Htarget. unfold pixel_format_eqb.
  destruct (SailPixelFormat_eq_dec (pixel_format image) output_pixel_format)
    as [Heq | Hne].
  - cbn [fst snd]. split; [reflexivity |]. split.
    + rewrite <- Heq. symmetry. apply with_pixel_format_same.
    + rewrite <- Heq, Hsource in Htarget.
      inversion Htarget; subst r g b a.
      intros row i Hrow Hi.
      split; [reflexivity |]. split; [reflexivity |].
      split; [reflexivity |].
      intros Hge. assert (Hlt : (ai <? 0) = false) by (apply Z.ltb_ge; lia).
      now rewrite Hlt.
  - unfold sail_greater_equal_bits_per_pixel. rewrite Hsbits, Htbits.
    cbn [Z.leb Z.compare Pos.compare Pos.compare_cont negb].
    pose proof (to_bpp64_rgba_kind_row_by_row image image r g b a m
                  (fun row i =>
                     bpp64_values ri gi bi ai m
                       (pixels image + bytes_per_line image * row + 8 * i))
                  (fun _ => True) Ht Hgeo) as Hspec.
    assert (Hrows : forall row rgba0 m1,
              0 <= row < height image ->
              (forall q, ~ rows_done image row q -> m1 q = m q) ->
              let result :=
                convert_row image
                  (pixels image + u32 (bytes_per_line image * row))
                  (pixels image + u32 (bytes_per_line image * row))
                  r g b a rgba0 m1 in
              (fst (fst result) = SAIL_OK -> True)
              /\ (True ->
                  fst (fst result) = SAIL_OK
                  /\ forall i, 0 <= i < width image ->
                       pixel_holds (snd result)
                         (pixels image + bytes_per_line image * row + 8 * i)
                         r g b a
                         (bpp64_values ri gi bi ai m
                            (pixels image + bytes_per_line image * row
                             + 8 * i)))).
    { intros row rgba0 m1 Hrow Hagree. cbv zeta.
      rewrite (convert_row_bpp64 image ri gi bi ai _ _ r g b a rgba0 m1
                 Hsource).
      cbn [fst snd]. split; [trivial |]. intros _.
      split; [reflexivity |]. intros i Hi.
      rewrite (row_offset_exact _ _ _ row Hgeo) by lia.
      set (scan := pixels image + bytes_per_line image * row).
      assert (Hinput : bpp64_values ri gi bi ai m1 (scan + 8 * i)
                       = bpp64_values ri gi bi ai m (scan + 8 * i)).
      { apply bpp64_values_local; [exact Hst |].
        intros q Hq. apply Hagree. unfold rows_done, scan in *. lia. }
      rewrite <- Hinput.
      apply scan_loop_values; [exact Ht | | lia].
      intros k m' Hk Hm'. apply bpp64_values_local; [exact Hst |].
      intros q Hq. apply Hm'. lia. }
    specialize (Hspec Hrows rgba). cbv zeta in Hspec.
    destruct (to_bpp64_rgba_kind image r g b a image rgba m) as [status m'].
    cbn [fst snd] in Hspec.
    destruct Hspec as (_ & Hgives).
    destruct Hgives as (-> & Hpixels); [trivial |].
    cbn [fst snd]. split; [reflexivity |]. split; [reflexivity |].
    intros row i Hrow Hi.
    specialize (Hpixels row i Hrow Hi).
    rewrite bpp64_values_channels in Hpixels. unfold pixel_holds in Hpixels.
    rewrite !(u16_small (load16 E m _)) in Hpixels by apply load16_range.
    rewrite u16_channel in Hpixels. exact Hpixels.
Qed.

(** X14. Converting a valid image of one of the eight 64-bit kinds in place to
    any of the eight kinds succeeds, retags the descriptor, and permutes the
    channels of every pixel where it lies: red, green and blue move from
    their source slots to their target slots, and a target alpha slot
    receives the source alpha, or 65535 when the source has none. *)
Theorem in_place_permutes_channels (image : sail_image)
    (output_pixel_format : SailPixelFormat) (ri gi bi ai r g b a : Z)
    (rgba : sail_rgba64_t) (m : mem) :
  sail_check_image_valid image = SAIL_OK ->
  verify_and_construct_rgba64_indexes (pixel_format image)
  = (SAIL_OK, (ri, gi, bi, ai)) ->
  verify_and_construct_rgba64_indexes output_pixel_format
  = (SAIL_OK, (r, g, b, a)) ->
  rows_apart (width image) (height image) (bytes_per_line image) ->
  let result :=
    sail_convert_image_to_bpp64_rgba_kind_in_place image output_pixel_format
                                                   rgba m in
  fst (fst result) = SAIL_OK
  /\ snd (fst result) = with_pixel_format image output_pixel_format
  /\ forall row i,
       0 <= row < height image -> 0 <= i < width image ->
       let pixel := pixels image + bytes_per_line image * row + 8 * i in
       load16 E (snd result) (pixel + 2 * r) = load16 E m (pixel + 2 * ri)
       /\ load16 E (snd result) (pixel + 2 * g) = load16 E m (pixel + 2 * gi)
       /\ load16 E (snd result) (pixel + 2 * b) = load16 E m (pixel + 2 * bi)
       /\ (0 <= a ->
           load16 E (snd result) (pixel + 2 * a)
           = if ai <? 0 then 65535 else load16 E m (pixel + 2 * ai)).
Proof.
  exact (in_place_bpp64_pixels image output_pixel_format ri gi bi ai r g b a
           rgba m).
Qed.

Lemma bpp64_source_indexes (pf : SailPixelFormat) :
  sail_bits_per_pixel pf = (SAIL_OK, 64) ->
  exists ri gi bi ai,
    verify_and_construct_rgba64_indexes pf = (SAIL_OK, (ri, gi, bi, ai)).
Proof.
  destruct pf; cbn; intros H; try discriminate H;
    do 4 eexists; reflexivity.
Qed.

(** C7. For a valid image and a target among the eight 64-bit kinds, the
    in-place entry point returns [SAIL_ERROR_UNSUPPORTED_PIXEL_FORMAT] and
    leaves descriptor and memory alone when the target has more bits per
    pixel than the source. When the target has at most as many, the source
    is itself one of the eight 64-bit kinds and the conversion proceeds in
    the existing buffer: the status is [SAIL_OK], the descriptor is the
    image retagged with the target format, so the pixel buffer stays where
    it is, nothing outside its [height] rows changes, and every pixel has
    its channels permuted where it lies: red, green and blue move from their
    source slots to their target slots, and a target alpha slot receives
    the source alpha, or 65535 when the source has none. The conversion is
    the one [to_bpp64_rgba_kind] performs with the image as both input and
    output. *)
Theorem in_place_needs_fitting_target (image : sail_image)
    (output_pixel_format : SailPixelFormat) (r g b a : Z)
    (rgba : sail_rgba64_t) (m : mem) :
  sail_check_image_valid image = SAIL_OK ->
  verify_and_construct_rgba64_indexes output_pixel_format
  = (SAIL_OK, (r, g, b, a)) ->
  let source_bits := snd (sail_bits_per_pixel (pixel_format image)) in
  let target_bits := snd (sail_bits_per_pixel output_pixel_format) in
  let result :=
    sail_convert_image_to_bpp64_rgba_kind_in_place image output_pixel_format
                                                   rgba m in
  (source_bits < target_bits ->
   result = (SAIL_ERROR_UNSUPPORTED_PIXEL_FORMAT, image, m))
  /\ (target_bits <= source_bits ->
      pixels (snd (fst result)) = pixels image
      /\ (pixel_format image <> output_pixel_format ->
          fst (fst result)
          = fst (to_bpp64_rgba_kind image r g b a image rgba m)
          /\ snd result
             = snd (to_bpp64_rgba_kind image r g b a image rgba m))
      /\ (rows_apart (width image) (height image) (bytes_per_line image) ->
          forall q, ~ in_output_buffer image image q -> snd result q = m q)
      /\ exists ri gi bi ai,
           verify_and_construct_rgba64_indexes (pixel_format image)
           = (SAIL_OK, (ri, gi, bi, ai))
           /\ fst (fst result) = SAIL_OK
           /\ snd (fst result) = with_pixel_format image output_pixel_format
           /\ (rows_apart (width image) (height image)
                          (bytes_per_line image) ->
               forall row i,
                 0 <= row < height image -> 0 <= i < width image ->
                 let pixel :=
                   pixels image + bytes_per_line image * row + 8 * i in
                 load16 E (snd result) (pixel + 2 * r)
                 = load16 E m (pixel + 2 * ri)
                 /\ load16 E (snd result) (pixel + 2 * g)
                    = load16 E m (pixel + 2 * gi)
                 /\ load16 E (snd result) (pixel + 2 * b)
                    = load16 E m (pixel + 2 * bi)
                 /\ (0 <= a ->
                     load16 E (snd result) (pixel + 2 * a)
                     = if ai <? 0 then 65535
                       else load16 E m (pixel + 2 * ai)))).
Proof.
  intros Hvalid Htable source_bits target_bits result.
  destruct (sail_check_image_valid_inv _ Hvalid) as (Hknown & _).
  destruct (sail_bits_per_pixel_known _ Hknown) as (bits & Hbits & Hrange).
  pose proof (verify_and_construct_bits _ _ Htable) as Htarget.
  pose proof (verify_and_construct_table _ _ _ _ _ Htable) as Hidx.
  assert (Hsb : source_bits = bits) by (unfold source_bits; now rewrite Hbits).
  assert (Htb : target_bits = 64) by (unfold target_bits; now rewrite Htarget).
  split.
  - intros Hlt.
    unfold result, sail_convert_image_to_bpp64_rgba_kind_in_place.
    rewrite Hvalid, Htable. unfold sail_greater_equal_bits_per_pixel.
    rewrite Hbits, Htarget. unfold pixel_format_eqb.
    destruct (SailPixelFormat_eq_dec (pixel_format image) output_pixel_format)
      as [Heq | Hne].
    + rewrite Heq, Htarget in Hbits. inversion Hbits. lia.
    + assert (Hle : (64 <=? bits) = false) by (apply Z.leb_gt; lia).
      now rewrite Hle.
  - intros Hfit.
    assert (Hfull : bits = 64) by lia. rewrite Hfull in Hbits.
    destruct (bpp64_source_indexes _ Hbits) as (ri & gi & bi & ai & Hsource).
    pose proof (fun Hgeo =>
                  in_place_bpp64_pixels image output_pixel_format
                    ri gi bi ai r g b a rgba m Hvalid Hsource Htable Hgeo)
      as Hpixels.
    cbv zeta in Hpixels. fold result in Hpixels.
    assert (Hrun :
      pixels (snd (fst result)) = pixels image
      /\ (pixel_format image <> output_pixel_format ->
          fst (fst result)
          = fst (to_bpp64_rgba_kind image r g b a image rgba m)
          /\ snd result
             = snd (to_bpp64_rgba_kind image r g b a image rgba m))
      /\ (rows_apart (width image) (height image) (bytes_per_line image) ->
          forall q, ~ in_output_buffer image image q -> snd result q = m q)
      /\ fst (fst result) = SAIL_OK
      /\ snd (fst result) = with_pixel_format image output_pixel_format).
    { unfold result, sail_convert_image_to_bpp64_rgba_kind_in_place.
      rewrite Hvalid, Htable. unfold sail_greater_equal_bits_per_pixel.
      rewrite Hbits, Htarget. unfold pixel_format_eqb.
      destruct (SailPixelFormat_eq_dec (pixel_format image)
                                       output_pixel_format) as [Heq | Hne].
      - cbn [fst snd].
        split; [reflexivity |].
        split; [intros Hne; now elim Hne |].
        split; [intros _ q _; reflexivity |].
        split; [reflexivity |].
        rewrite <- Heq. symmetry. apply with_pixel_format_same.
      - cbn [Z.leb Z.compare Pos.compare Pos.compare_cont negb].
        pose proof (to_bpp64_rgba_kind_frame image r g b a image rgba m)
          as Hframe.
        pose proof (to_bpp64_rgba_kind_bpp64_status image ri gi bi ai
                      r g b a image rgba m Hsource) as Hstatus.
        destruct (to_bpp64_rgba_kind image r g b a image rgba m)
          as [status m'].
        cbn [fst snd] in Hframe, Hstatus. subst status. cbn [fst snd].
        split; [reflexivity |].
        split; [intros _; split; reflexivity |].
        split; [| split; reflexivity].
        intros Hgeo q Hq. apply Hframe. intros Ht. apply Hq.
        now apply (touched_image_in_buffer image image r g b a). }
    destruct Hrun as (Hkept & Hworker & Hframe & Hstatus & Htag).
    split; [exact Hkept |]. split; [exact Hworker |].
    split; [exact Hframe |].
    exists ri, gi, bi, ai. split; [exact Hsource |].
    split; [exact Hstatus |]. split; [exact Htag |].
    intros Hgeo. exact (proj2 (proj2 (Hpixels Hgeo))).
Qed.

(** ** Sources with 16-bit channels, into a separate buffer *)

Lemma load16_local (m1 m2 : mem) (p q n : Z) :
  (forall x, p <= x < p + n -> m1 x = m2 x) ->
  p <= q -> q + 2 <= p + n ->
  load16 E m1 q = load16 E m2 q.
Proof. intros Hagree Hlo Hhi. apply load16_ext; apply Hagree; lia. Qed.

(** X15. A 16-bit grayscale source is copied without scaling: red, green and
    blue of every output pixel are the 16-bit gray value, and a target alpha
    slot receives 65535, or the 16-bit alpha of a BPP32-GRAYSCALE-ALPHA
    source. *)
Theorem gray16_copied_unscaled (image_input image_output : sail_image)
    (output_pixel_format : SailPixelFormat) (r g b a : Z)
    (rgba : sail_rgba64_t) (m : mem) (step : Z) :
  (pixel_format image_input = SAIL_PIXEL_FORMAT_BPP16_GRAYSCALE /\ step = 2
   \/ pixel_format image_input = SAIL_PIXEL_FORMAT_BPP32_GRAYSCALE_ALPHA
      /\ step = 4) ->
  verify_and_construct_rgba64_indexes output_pixel_format
  = (SAIL_OK, (r, g, b, a)) ->
  rows_apart (width image_input) (height image_input)
             (bytes_per_line image_output) ->
  separate_buffers step image_input image_output ->
  let result := to_bpp64_rgba_kind image_input r g b a image_output rgba m in
  fst result = SAIL_OK
  /\ forall row i,
       0 <= row < height image_input -> 0 <= i < width image_input ->
       let source := pixels image_input + bytes_per_line image_input * row
                     + step * i in
       let target := pixels image_output + bytes_per_line image_output * row
                     + 8 * i in
       load16 E (snd result) (target + 2 * r) = load16 E m source
       /\ load16 E (snd result) (target + 2 * g) = load16 E m source
       /\ load16 E (snd result) (target + 2 * b) = load16 E m source
       /\ (0 <= a ->
           load16 E (snd result) (target + 2 * a)
           = if step =? 2 then 65535 else load16 E m (source + 2)).
Proof.
  intros Hsource Htable Hgeo Hsep.
  pose proof (verify_and_construct_table _ _ _ _ _ Htable) as Ht.
  destruct Hsource as [[Hpf ->] | [Hpf ->]].
  - pose proof (scan_to_separate_buffer image_input image_output
                  (fun m p => channels_of (spread_gray16_to_rgba64
                                             (load16 E m p)))
                  2 r g b a rgba m) as Hconv.
    cbv zeta in *. destruct Hconv as (Hstatus & Hpix); try assumption.
    + intros scan_input scan_output rgba0 m1.
      unfold convert_row. rewrite Hpf. cbv zeta.
      apply (rgba_loop_pure
               (fun m p (_ : sail_rgba64_t) =>
                  (SAIL_OK, spread_gray16_to_rgba64 (load16 E m p)))
               (fun m p => spread_gray16_to_rgba64 (load16 E m p))).
      reflexivity.
    + intros m1 m2 p Hagree.
      now rewrite (load16_local m1 m2 p p 2 Hagree) by lia.
    + split; [exact Hstatus |]. intros row i Hrow Hi.
      specialize (Hpix row i Hrow Hi).
      unfold channels_of, spread_gray16_to_rgba64, pixel_holds in Hpix.
      cbn [component1 component2 component3 component4] in Hpix.
      rewrite !(u16_small (load16 E m _)) in Hpix by apply load16_range.
      exact Hpix.
  - pose proof (scan_to_separate_buffer image_input image_output
                  (fun m p =>
                     channels_of
                       (with_component4
                          (spread_gray16_to_rgba64 (load16 E m p))
                          (load16 E m (p + 2))))
                  4 r g b a rgba m) as Hconv.
    cbv zeta in *. destruct Hconv as (Hstatus & Hpix); try assumption.
    + intros scan_input scan_output rgba0 m1.
      unfold convert_row. rewrite Hpf. cbv zeta.
      apply (rgba_loop_pure
               (fun m p (_ : sail_rgba64_t) =>
                  (SAIL_OK,
                   with_component4 (spread_gray16_to_rgba64 (load16 E m p))
                                   (load16 E m (p + 2))))
               (fun m p =>
                  with_component4 (spread_gray16_to_rgba64 (load16 E m p))
                                  (load16 E m (p + 2)))).
      reflexivity.
    + intros m1 m2 p Hagree.
      rewrite (load16_local m1 m2 p p 4 Hagree) by lia.
      now rewrite (load16_local m1 m2 p (p + 2) 4 Hagree) by lia.
    + split; [exact Hstatus |]. intros row i Hrow Hi.
      specialize (Hpix row i Hrow Hi).
      unfold channels_of, with_component4, spread_gray16_to_rgba64,
        pixel_holds in Hpix.
      cbn [component1 component2 component3 component4] in Hpix.
      rewrite !(u16_small (load16 E m _)) in Hpix by apply load16_range.
      exact Hpix.
Qed.

Lemma times_257_truncated (v : Z) :
  0 <= v < 65536 -> (u16 (v * 257) = v <-> v mod 256 = 0).
Proof.
  intros Hv. unfold u16.
  pose proof (Z.div_mod v 256 ltac:(lia)) as Hdm.
  pose proof (Z.mod_pos_bound v 256 ltac:(lia)) as Hlow.
  assert (Hq : 0 <= v / 256 < 256).
  { split; [apply Z.div_pos; lia | apply Z.div_lt_upper_bound; lia]. }
  replace (v * 257) with (v + 256 * (v mod 256) + (v / 256) * 65536) by lia.
  rewrite Z.mod_add by lia.
  split.
  - intros H.
    destruct (Z.eq_dec (v mod 256) 0) as [Hz | Hnz]; [exact Hz |].
    exfalso.
    pose proof (Z.div_mod (v + 256 * (v mod 256)) 65536 ltac:(lia)) as Hdm2.
    pose proof (Z.mod_pos_bound (v + 256 * (v mod 256)) 65536 ltac:(lia)).
    assert (Hsmall : 0 <= (v + 256 * (v mod 256)) / 65536 < 2).
    { split; [apply Z.div_pos; lia | apply Z.div_lt_upper_bound; lia]. }
    assert (Hcase : (v + 256 * (v mod 256)) / 65536 = 0
                    \/ (v + 256 * (v mod 256)) / 65536 = 1) by lia.
    destruct Hcase as [Hc | Hc]; rewrite Hc in Hdm2; lia.
  - intros Hz. rewrite Hz. rewrite Z.mul_0_r, Z.add_0_r.
    apply Z.mod_small. lia.
Qed.

(** X16. A 48-bit RGB or BGR source is multiplied by 257 like an 8-bit one and
    truncated to 16 bits: every colour channel of the output holds
    [(v * 257) mod 65536] for the 16-bit source channel [v], which is [v]
    itself exactly when the low byte of [v] is zero; a target alpha slot
    receives 65535. *)
Theorem rgb48_multiplied_and_truncated (image_input image_output : sail_image)
    (output_pixel_format : SailPixelFormat) (ri gi bi r g b a : Z)
    (rgba : sail_rgba64_t) (m : mem) :
  (pixel_format image_input = SAIL_PIXEL_FORMAT_BPP48_RGB
   /\ (ri, gi, bi) = (0, 1, 2)
   \/ pixel_format image_input = SAIL_PIXEL_FORMAT_BPP48_BGR
      /\ (ri, gi, bi) = (2, 1, 0)) ->
  verify_and_construct_rgba64_indexes output_pixel_format
  = (SAIL_OK, (r, g, b, a)) ->
  rows_apart (width image_input) (height image_input)
             (bytes_per_line image_output) ->
  separate_buffers 6 image_input image_output ->
  let result := to_bpp64_rgba_kind image_input r g b a image_output rgba m in
  fst result = SAIL_OK
  /\ (forall row i,
        0 <= row < height image_input -> 0 <= i < width image_input ->
        let source := pixels image_input + bytes_per_line image_input * row
                      + 6 * i in
        let target := pixels image_output + bytes_per_line image_output * row
                      + 8 * i in
        load16 E (snd result) (target + 2 * r)
        = (load16 E m (source + 2 * ri) * 257) mod 65536
        /\ load16 E (snd result) (target + 2 * g)
           = (load16 E m (source + 2 * gi) * 257) mod 65536
        /\ load16 E (snd result) (target + 2 * b)
           = (load16 E m (source + 2 * bi) * 257) mod 65536
        /\ (0 <= a -> load16 E (snd result) (target + 2 * a) = 65535))
  /\ forall v, 0 <= v < 65536 ->
       ((v * 257) mod 65536 = v <-> v mod 256 = 0).
Proof.
  intros Hsource Htable Hgeo Hsep.
  pose proof (verify_and_construct_table _ _ _ _ _ Htable) as Ht.
  pose proof (scan_to_separate_buffer image_input image_output
                (rgb48_kind_values ri gi bi) 6 r g b a rgba m) as Hconv.
  assert (Hidx : 0 <= ri <= 2 /\ 0 <= gi <= 2 /\ 0 <= bi <= 2).
  { destruct Hsource as [[_ Hi] | [_ Hi]]; inversion Hi; lia. }
  cbv zeta in *. destruct Hconv as (Hstatus & Hpix); try assumption.
  - intros scan_input scan_output rgba0 m1. exists rgba0.
    unfold convert_row. cbv zeta.
    destruct Hsource as [[Hpf Hi] | [Hpf Hi]]; rewrite Hpf;
      inversion Hi; reflexivity.
  - intros m1 m2 p Hagree. unfold rgb48_kind_values.
    rewrite (load16_local m1 m2 p (p + 2 * ri) 6 Hagree) by lia.
    rewrite (load16_local m1 m2 p (p + 2 * gi) 6 Hagree) by lia.
    now rewrite (load16_local m1 m2 p (p + 2 * bi) 6 Hagree) by lia.
  - split; [exact Hstatus |]. split.
    + intros row i Hrow Hi. specialize (Hpix row i Hrow Hi).
      unfold rgb48_kind_values, pixel_holds in Hpix. exact Hpix.
    + intros v Hv. now apply times_257_truncated.
Qed.

(** ** 15-bit sources *)

Lemma five_bit_field (x k : Z) :
  0 <= x -> 0 <= k ->
  Z.shiftl (Z.land (Z.shiftr x k) 31) 3 * 257 = 2056 * ((x / 2 ^ k) mod 32)
  /\ 0 <= 2056 * ((x / 2 ^ k) mod 32) <= 63736.
Proof.
  intros Hx Hk.
  rewrite Z.shiftr_div_pow2 by assumption.
  change 31 with (Z.ones 5). rewrite Z.land_ones by lia.
  rewrite Z.shiftl_mul_pow2 by lia.
  change (2 ^ 5) with 32. change (2 ^ 3) with 8.
  pose proof (Z.mod_pos_bound (x / 2 ^ k) 32 ltac:(lia)).
  lia.
Qed.

(** X17. A BPP16-RGB555 or BPP16-BGR555 source: each colour channel of the output
    is the 5-bit field of the source pixel times 2056 (shifted left by three
    and multiplied by 257), so it never exceeds 63736; RGB555 takes red from
    the five low bits and blue from bits 10 to 14, BGR555 the other way
    round. The top bit of the source pixel is not looked at and a target
    alpha slot receives 65535. *)
Theorem rgb555_fields_times_2056 (image_input image_output : sail_image)
    (output_pixel_format : SailPixelFormat) (rs gs bs r g b a : Z)
    (rgba : sail_rgba64_t) (m : mem) :
  (pixel_format image_input = SAIL_PIXEL_FORMAT_BPP16_RGB555
   /\ (rs, gs, bs) = (0, 5, 10)
   \/ pixel_format image_input = SAIL_PIXEL_FORMAT_BPP16_BGR555
      /\ (rs, gs, bs) = (10, 5, 0)) ->
  verify_and_construct_rgba64_indexes output_pixel_format
  = (SAIL_OK, (r, g, b, a)) ->
  rows_apart (width image_input) (height image_input)
             (bytes_per_line image_output) ->
  separate_buffers 2 image_input image_output ->
  let result := to_bpp64_rgba_kind image_input r g b a image_output rgba m in
  fst result = SAIL_OK
  /\ forall row i,
       0 <= row < height image_input -> 0 <= i < width image_input ->
       let source := load16 E m (pixels image_input
                                 + bytes_per_line image_input * row + 2 * i) in
       let target := pixels image_output + bytes_per_line image_output * row
                     + 8 * i in
       load16 E (snd result) (target + 2 * r)
       = 2056 * ((source / 2 ^ rs) mod 32)
       /\ load16 E (snd result) (target + 2 * g)
          = 2056 * ((source / 2 ^ gs) mod 32)
       /\ load16 E (snd result) (target + 2 * b)
          = 2056 * ((source / 2 ^ bs) mod 32)
       /\ (0 <= a -> load16 E (snd result) (target + 2 * a) = 65535)
       /\ load16 E (snd result) (target + 2 * r) <= 63736
       /\ load16 E (snd result) (target + 2 * g) <= 63736
       /\ load16 E (snd result) (target + 2 * b) <= 63736.
Proof.
  intros Hsource Htable Hgeo Hsep.
  pose proof (verify_and_construct_table _ _ _ _ _ Htable) as Ht.
  set (values := fun (m : mem) (p : Z) =>
         (Z.shiftl (Z.land (Z.shiftr (load16 E m p) rs) 31) 3 * 257,
          Z.shiftl (Z.land (Z.shiftr (load16 E m p) gs) 31) 3 * 257,
          Z.shiftl (Z.land (Z.shiftr (load16 E m p) bs) 31) 3 * 257,
          65535)).
  pose proof (scan_to_separate_buffer image_input image_output
                values 2 r g b a rgba m) as Hconv.
  assert (Hshift : 0 <= rs /\ 0 <= gs /\ 0 <= bs).
  { destruct Hsource as [[_ Hi] | [_ Hi]]; inversion Hi; lia. }
  cbv zeta in *. destruct Hconv as (Hstatus & Hpix); try assumption.
  - intros scan_input scan_output rgba0 m1. exists rgba0.
    unfold convert_row. cbv zeta.
    destruct Hsource as [[Hpf Hi] | [Hpf Hi]]; rewrite Hpf;
      inversion Hi as [[Hrs Hgs Hbs]]; unfold values;
      rewrite Hrs, Hgs, Hbs; reflexivity.
  - intros m1 m2 p Hagree. unfold values.
    now rewrite (load16_local m1 m2 p p 2 Hagree) by lia.
  - split; [exact Hstatus |].
    intros row i Hrow Hi. specialize (Hpix row i Hrow Hi).
    unfold values, pixel_holds in Hpix.
    destruct Hshift as (Hrs & Hgs & Hbs).
    match type of Hpix with
    | context [load16 E m ?p] =>
        pose proof (load16_range m p) as Hx;
        destruct (five_bit_field (load16 E m p) rs ltac:(lia) Hrs)
          as [Hre Hrb];
        destruct (five_bit_field (load16 E m p) gs ltac:(lia) Hgs)
          as [Hge Hgb];
        destruct (five_bit_field (load16 E m p) bs ltac:(lia) Hbs)
          as [Hbe Hbb]
    end.
    rewrite Hre, Hge, Hbe in Hpix.
    rewrite !u16_small in Hpix by lia.
    destruct Hpix as (Hr & Hg & Hb & Ha).
    rewrite Hr, Hg, Hb.
    repeat (split; [first [assumption | lia] |]). lia.
Qed.

(** ** Which conversions succeed *)

(** The source formats with a palette. *)
Definition indexed_source (pf : SailPixelFormat) : bool :=
  match pf with
  | SAIL_PIXEL_FORMAT_BPP1_INDEXED | SAIL_PIXEL_FORMAT_BPP2_INDEXED
  | SAIL_PIXEL_FORMAT_BPP4_INDEXED | SAIL_PIXEL_FORMAT_BPP8_INDEXED => true
  | _ => false
  end.

(** The source formats that have a case in the switch of
    [to_bpp64_rgba_kind]; the others fall to its default. *)
Definition handled_source (pf : SailPixelFormat) : bool :=
  match pf with
  | SAIL_PIXEL_FORMAT_UNKNOWN | SAIL_PIXEL_FORMAT_BPP16_RGBA => false
  | _ => true
  end.

Lemma unpack_byte_status (P : sail_status_t -> Prop)
    (sample : mem -> Z -> sail_rgba64_t -> sail_status_t * sail_rgba64_t)
    (bits byte width r g b a : Z) :
  P SAIL_OK ->
  (forall m index rgba, P (fst (sample m index rgba))) ->
  forall fuel bit_shift bit_mask pixel_index scan_output rgba m,
    P (fst (fst (fst (unpack_byte fuel sample bits byte bit_shift bit_mask
                                  pixel_index width scan_output r g b a
                                  rgba m)))).
Proof.
  intros Hok Hsample. induction fuel as [| fuel IH]; intros; cbn [unpack_byte].
  - exact Hok.
  - destruct (_ && _); [| exact Hok].
    match goal with
    | |- context [sample ?m ?i ?c] =>
        pose proof (Hsample m i c) as Hs;
        destruct (sample m i c) as [status rgba']
    end.
    destruct status; first [apply IH | exact Hs].
Qed.

Lemma unpack_row_status (P : sail_status_t -> Prop)
    (sample : mem -> Z -> sail_rgba64_t -> sail_status_t * sail_rgba64_t)
    (bits bit_shift bit_mask width r g b a : Z) :
  P SAIL_OK ->
  (forall m index rgba, P (fst (sample m index rgba))) ->
  forall fuel scan_input pixel_index scan_output rgba m,
    P (fst (fst (unpack_row fuel sample bits bit_shift bit_mask scan_input
                            pixel_index width scan_output r g b a rgba m))).
Proof.
  intros Hok Hsample. induction fuel as [| fuel IH]; intros; cbn [unpack_row].
  - exact Hok.
  - destruct (_ <? _); [| exact Hok].
    match goal with
    | |- context [unpack_byte ?f ?s ?bi ?by_ ?sh ?ma ?pi ?w ?so r g b a ?c ?m] =>
        pose proof (unpack_byte_status P s bi by_ w r g b a Hok Hsample
                      f sh ma pi so c m) as Hs;
        destruct (unpack_byte f s bi by_ sh ma pi w so r g b a c m)
          as [[[status [pixel_index' scan_output']] rgba'] m']
    end.
    cbn [fst] in Hs.
    destruct status; first [apply IH | exact Hs].
Qed.

Lemma rgba_loop_status (P : sail_status_t -> Prop)
    (assign : mem -> Z -> sail_rgba64_t -> sail_status_t * sail_rgba64_t)
    (step r g b a : Z) :
  P SAIL_OK ->
  (forall m p rgba, P (fst (assign m p rgba))) ->
  forall n scan_input scan_output rgba m,
    P (fst (fst (rgba_loop assign step n scan_input scan_output r g b a
                           rgba m))).
Proof.
  intros Hok Hassign. induction n as [| n IH]; intros; cbn [rgba_loop].
  - exact Hok.
  - pose proof (Hassign m scan_input rgba) as Hs.
    destruct (assign m scan_input rgba) as [status rgba'].
    destruct status; first [apply IH | exact Hs].
Qed.

Lemma convert_row_unhandled (image_input : sail_image)
    (scan_input scan_output r g b a : Z) (rgba : sail_rgba64_t) (m : mem) :
  handled_source (pixel_format image_input) = false ->
  convert_row image_input scan_input scan_output r g b a rgba m
  = (SAIL_ERROR_UNSUPPORTED_PIXEL_FORMAT, rgba, m).
Proof.
  unfold convert_row.
  destruct (pixel_format image_input); try discriminate; reflexivity.
Qed.

Lemma convert_row_status (P : sail_status_t -> Prop)
    (image_input : sail_image) (scan_input scan_output r g b a : Z)
    (rgba : sail_rgba64_t) (m : mem) :
  handled_source (pixel_format image_input) = true ->
  P SAIL_OK ->
  (indexed_source (pixel_format image_input) = true ->
   forall m index rgba,
     P (fst (resolve_index m (palette image_input) index rgba))) ->
  P (fst (fst (convert_row image_input scan_input scan_output r g b a
                           rgba m))).
Proof.
  intros Hhandled Hok Hindexed. unfold convert_row. cbv zeta.
  destruct (pixel_format image_input); try discriminate Hhandled;
    try exact Hok;
    first [ apply unpack_row_status | apply rgba_loop_status ];
    try exact Hok; intros;
    first [ exact Hok | apply (Hindexed eq_refl) ].
Qed.

Lemma convert_rows_status (P : sail_status_t -> Prop)
    (image_input image_output : sail_image) (r g b a : Z) :
  handled_source (pixel_format image_input) = true ->
  P SAIL_OK ->
  (indexed_source (pixel_format image_input) = true ->
   forall m index rgba,
     P (fst (resolve_index m (palette image_input) index rgba))) ->
  forall rows row rgba m,
    P (fst (fst (convert_rows rows row image_input r g b a image_output
                              rgba m))).
Proof.
  intros Hhandled Hok Hindexed.
  induction rows as [| rows IH]; intros; cbn [convert_rows].
  - exact Hok.
  - match goal with
    | |- context [convert_row ?i ?si ?so r g b a ?c ?m] =>
        pose proof (convert_row_status P i si so r g b a c m Hhandled Hok
                      Hindexed) as Hs;
        destruct (convert_row i si so r g b a c m) as [[status rgba'] m']
    end.
    cbn [fst] in Hs.
    destruct status; first [apply IH | exact Hs].
Qed.

Lemma to_bpp64_rgba_kind_status (P : sail_status_t -> Prop)
    (image_input image_output : sail_image) (r g b a : Z)
    (rgba : sail_rgba64_t) (m : mem) :
  handled_source (pixel_format image_input) = true ->
  P SAIL_OK ->
  (indexed_source (pixel_format image_input) = true ->
   forall m index rgba,
     P (fst (resolve_index m (palette image_input) index rgba))) ->
  P (fst (to_bpp64_rgba_kind image_input r g b a image_output rgba m)).
Proof.
  intros Hhandled Hok Hindexed. unfold to_bpp64_rgba_kind.
  pose proof (convert_rows_status P image_input image_output r g b a
                Hhandled Hok Hindexed (Z.to_nat (height image_input)) 0
                rgba m) as Hs.
  destruct (convert_rows _ _ _ _ _ _ _ _ _ _) as [[status rgba'] m'].
  exact Hs.
Qed.

Lemma to_bpp64_rgba_kind_unhandled (image_input image_output : sail_image)
    (r g b a : Z) (rgba : sail_rgba64_t) (m : mem) :
  handled_source (pixel_format image_input) = false ->
  0 < height image_input ->
  to_bpp64_rgba_kind image_input r g b a image_output rgba m
  = (SAIL_ERROR_UNSUPPORTED_PIXEL_FORMAT, m).
Proof.
  intros Hunhandled Hheight. unfold to_bpp64_rgba_kind.
  destruct (Z.to_nat (height image_input)) as [| rows] eqn:Hrows; [lia |].
  cbn [convert_rows]. now rewrite convert_row_unhandled.
Qed.

(** X18. What [to_bpp64_rgba_kind] can return. A source format without a case
    in its switch gives [SAIL_ERROR_UNSUPPORTED_PIXEL_FORMAT] on the first
    row, before anything is written. A source format with a case and without
    a palette always gives [SAIL_OK], wherever the two buffers lie. An
    indexed source gives [SAIL_OK] or [SAIL_ERROR_BROKEN_IMAGE]. *)
Theorem to_bpp64_rgba_kind_outcomes (image_input image_output : sail_image)
    (r g b a : Z) (rgba : sail_rgba64_t) (m : mem) :
  let result := to_bpp64_rgba_kind image_input r g b a image_output rgba m in
  (handled_source (pixel_format image_input) = false ->
   0 < height image_input ->
   result = (SAIL_ERROR_UNSUPPORTED_PIXEL_FORMAT, m))
  /\ (handled_source (pixel_format image_input) = true ->
      indexed_source (pixel_format image_input) = false ->
      fst result = SAIL_OK)
  /\ (indexed_source (pixel_format image_input) = true ->
      palette image_input <> None ->
      fst result = SAIL_OK \/ fst result = SAIL_ERROR_BROKEN_IMAGE).
Proof.
  cbv zeta. split; [| split].
  - apply to_bpp64_rgba_kind_unhandled.
  - intros Hhandled Hplain.
    apply (to_bpp64_rgba_kind_status (fun s => s = SAIL_OK));
      [exact Hhandled | reflexivity |].
    intros Hindexed. congruence.
  - intros Hindexed Hpalette.
    apply (to_bpp64_rgba_kind_status
             (fun s => s = SAIL_OK \/ s = SAIL_ERROR_BROKEN_IMAGE)).
    + now destruct (pixel_format image_input).
    + now left.
    + intros _ m0 index rgba0. unfold resolve_index.
      destruct (palette image_input) as [pal |]; [| congruence].
      unfold get_palette_rgba64.
      destruct (_ <=? _); [now right |].
      destruct (palette_pixel_format pal); now left.
Qed.

(** ** The allocating entry point as a whole *)

(** X19. Outcomes of [sail_convert_image_to_bpp64_rgba_kind]. An image is handed
    out exactly when the call returns [SAIL_OK]. It returns [SAIL_OK] only for
    a valid input, an out-pointer that is not NULL, a target among the eight
    64-bit kinds and a source format with a case in the switch, and the image
    handed out carries the target format. For a valid input and any other
    target the call returns [SAIL_ERROR_UNSUPPORTED_PIXEL_FORMAT] and the
    memory is as before. *)
Theorem allocating_conversion_outcome (image_input : sail_image)
    (output_pixel_format : SailPixelFormat) (image_output_ptr : bool)
    (rgba : sail_rgba64_t) (m : mem) :
  let result :=
    sail_convert_image_to_bpp64_rgba_kind image_input output_pixel_format
                                          image_output_ptr rgba m in
  (snd (fst result) = None <-> fst (fst result) <> SAIL_OK)
  /\ (fst (fst result) = SAIL_OK ->
      sail_check_image_valid image_input = SAIL_OK
      /\ image_output_ptr = true
      /\ fst (verify_and_construct_rgba64_indexes output_pixel_format)
         = SAIL_OK
      /\ (0 <= height image_input ->
          handled_source (pixel_format image_input) = true)
      /\ forall image_output,
           snd (fst result) = Some image_output ->
           pixel_format image_output = output_pixel_format)
  /\ (sail_check_image_valid image_input = SAIL_OK ->
      image_output_ptr = true ->
      fst (verify_and_construct_rgba64_indexes output_pixel_format)
      <> SAIL_OK ->
      result = (SAIL_ERROR_UNSUPPORTED_PIXEL_FORMAT, None, m)).
Proof.
  cbv zeta. unfold sail_convert_image_to_bpp64_rgba_kind.
  destruct (sail_check_image_valid image_input) eqn:Hvalid;
    try (cbn [fst snd]; repeat split; intros; congruence).
  destruct image_output_ptr; cbn [negb];
    [| cbn [fst snd]; repeat split; intros; congruence].
  destruct (verify_and_construct_rgba64_indexes output_pixel_format)
    as [status [[[r g] b] a]] eqn:Htable.
  destruct status;
    try (cbn [fst snd]; repeat split; intros; try congruence;
         destruct output_pixel_format; discriminate Htable).
  destruct (sail_copy_image_skeleton image_input) as [status skeleton].
  destruct status;
    try (cbn [fst snd]; repeat split; intros; congruence).
  destruct (sail_bytes_per_line _ _) as [status stride].
  destruct status;
    try (cbn [fst snd]; repeat split; intros; congruence).
  destruct (sail_malloc _) as [status p].
  destruct status;
    try (cbn [fst snd]; repeat split; intros; congruence).
  match goal with
  | |- context [to_bpp64_rgba_kind ?i r g b a ?o rgba m] =>
      pose proof (to_bpp64_rgba_kind_unhandled i o r g b a rgba m) as Hun;
      destruct (to_bpp64_rgba_kind i r g b a o rgba m) as [status m']
  end.
  destruct (sail_check_image_valid_inv _ Hvalid) as (_ & _ & Hheight & _).
  destruct status;
    try (cbn [fst snd]; repeat split; intros; congruence).
  cbn [fst snd]. split; [split; intros; congruence |].
  split; [| intros; congruence].
  intros _. repeat split.
  - intros Hnonneg.
    destruct (handled_source (pixel_format image_input)) eqn:Hhandled;
      [reflexivity |].
    specialize (Hun eq_refl ltac:(lia)). discriminate Hun.
  - intros image_output Himage.
    injection Himage as <-. reflexivity.
Qed.

(** X20. A source without a palette always converts: for a valid image whose
    format has a case in the switch and is not indexed, a target among the
    eight 64-bit kinds and collaborators that succeed, the allocating entry
    point returns [SAIL_OK] and hands out an image whose buffer is the block
    the allocator returned. *)
Theorem plain_source_always_converts (image_input : sail_image)
    (output_pixel_format : SailPixelFormat) (skeleton : sail_image)
    (rgba : sail_rgba64_t) (m : mem) :
  sail_check_image_valid image_input = SAIL_OK ->
  fst (verify_and_construct_rgba64_indexes output_pixel_format) = SAIL_OK ->
  handled_source (pixel_format image_input) = true ->
  indexed_source (pixel_format image_input) = false ->
  sail_copy_image_skeleton image_input = (SAIL_OK, skeleton) ->
  (forall size, fst (sail_malloc size) = SAIL_OK) ->
  exists image_output m',
    sail_convert_image_to_bpp64_rgba_kind image_input output_pixel_format
                                          true rgba m
    = (SAIL_OK, Some image_output, m')
    /\ pixels image_output
       = snd (sail_malloc (u32 (height skeleton
                                * u32 ((width skeleton * 64 + 7) / 8))))
    /\ bytes_per_line image_output = u32 ((width skeleton * 64 + 7) / 8)
    /\ pixel_format image_output = output_pixel_format.
Proof.
  intros Hvalid Htable Hhandled Hplain Hcopy Hmalloc.
  unfold sail_convert_image_to_bpp64_rgba_kind.
  rewrite Hvalid. cbn [negb].
  destruct (verify_and_construct_rgba64_indexes output_pixel_format)
    as [status [[[r g] b] a]] eqn:Hidx.
  cbn [fst] in Htable. subst status.
  pose proof (verify_and_construct_bits _ _ Hidx) as Hbits.
  rewrite Hcopy. unfold sail_bytes_per_line.
  cbn [width pixel_format height bytes_per_line with_pixel_format
       with_bytes_per_line].
  rewrite Hbits.
  match goal with
  | |- context [sail_malloc ?size] =>
      pose proof (Hmalloc size) as Hblock;
      destruct (sail_malloc size) as [status p] eqn:Hp
  end.
  cbn [fst] in Hblock. subst status.
  match goal with
  | |- context [to_bpp64_rgba_kind ?i r g b a ?o rgba m] =>
      pose proof (to_bpp64_rgba_kind_status (fun s => s = SAIL_OK)
                    i o r g b a rgba m Hhandled eq_refl) as Hs;
      destruct (to_bpp64_rgba_kind i r g b a o rgba m) as [status m']
  end.
  cbn [fst] in Hs. rewrite Hs by (intros; congruence).
  eexists. exists m'. split; [reflexivity |].
  cbn [pixels bytes_per_line pixel_format with_pixels with_bytes_per_line
       with_pixel_format snd].
  repeat split.
Qed.

(** X21. The allocating entry point writes into the fresh block alone. When the
    skeleton copy keeps width and height and [height] rows of [8 * width]
    bytes have a size below [2^32], every address outside the block the
    allocator returns holds after the call what it held before, whatever the
    source format and the outcome; so the pixels and the palette of the input
    are not modified. *)
Theorem allocating_conversion_keeps_memory (image_input : sail_image)
    (output_pixel_format : SailPixelFormat) (image_output_ptr : bool)
    (rgba : sail_rgba64_t) (m : mem) :
  (forall skeleton,
     sail_copy_image_skeleton image_input = (SAIL_OK, skeleton) ->
     width skeleton = width image_input
     /\ height skeleton = height image_input) ->
  0 <= width image_input -> 0 <= height image_input ->
  8 * width image_input < 4294967296 ->
  8 * width image_input * height image_input <= 4294967296 ->
  let size := height image_input * (8 * width image_input) in
  let block := snd (sail_malloc (u32 size)) in
  forall q,
    ~ (block <= q < block + size) ->
    snd (sail_convert_image_to_bpp64_rgba_kind image_input
           output_pixel_format image_output_ptr rgba m) q
    = m q.
Proof.
  intros Hskeleton Hw Hh Hrow Hsize. cbv zeta. intros q Hq.
  unfold sail_convert_image_to_bpp64_rgba_kind.
  destruct (sail_check_image_valid image_input); try reflexivity.
  destruct image_output_ptr; cbn [negb]; [| reflexivity].
  destruct (verify_and_construct_rgba64_indexes output_pixel_format)
    as [status [[[r g] b] a]] eqn:Htable.
  destruct status; try reflexivity.
  pose proof (verify_and_construct_bits _ _ Htable) as Hbits.
  pose proof (verify_and_construct_table _ _ _ _ _ Htable) as Ht.
  destruct (sail_copy_image_skeleton image_input) as [status skeleton].
  destruct status; try reflexivity.
  destruct (Hskeleton skeleton eq_refl) as [Hsw Hsh].
  unfold sail_bytes_per_line.
  cbn [width pixel_format height bytes_per_line with_pixel_format
       with_bytes_per_line].
  rewrite Hbits, Hsw, Hsh, (stride_of_64_bits (width image_input)) by lia.
  destruct (sail_malloc _) as [status p] eqn:Hp.
  cbn [snd] in Hq.
  destruct status; try reflexivity.
  match goal with
  | |- context [to_bpp64_rgba_kind ?i r g b a ?o rgba m] =>
      pose proof (to_bpp64_rgba_kind_frame i r g b a o rgba m q) as Hframe;
      pose proof (touched_image_in_buffer i o r g b a q Ht) as Hin;
      destruct (to_bpp64_rgba_kind i r g b a o rgba m) as [status m']
  end.
  cbn [snd] in Hframe.
  assert (Hkeep : m' q = m q).
  { apply Hframe. intros Htouched. apply Hq.
    apply Hin in Htouched.
    - unfold in_output_buffer in Htouched.
      cbn [pixels bytes_per_line with_pixels with_bytes_per_line
           with_pixel_format] in Htouched.
      lia.
    - unfold rows_apart.
      cbn [pixels bytes_per_line with_pixels with_bytes_per_line
           with_pixel_format].
      repeat split; lia. }
  destruct status; exact Hkeep.
Qed.

(** ** Indexed sources *)

(** A loop through [rgba] whose assignment may fail: it returns [SAIL_OK]
    exactly when the assignment succeeds at every pixel, and then leaves in
    every output pixel the assigned color. The assignment is described for
    every memory that differs from [m0] inside [region] only, which holds the
    output pixels. *)
Lemma rgba_loop_values
    (assign : mem -> Z -> sail_rgba64_t -> sail_status_t * sail_rgba64_t)
    (step r g b a : Z) (m0 : mem) (region : Z -> Prop) :
  table_indexes r g b a ->
  forall (n : nat) (ok : Z -> Prop) (color : Z -> sail_rgba64_t)
         (scan_input scan_output : Z) (rgba : sail_rgba64_t) (m : mem),
    (forall q, scan_output <= q < scan_output + 8 * Z.of_nat n -> region q) ->
    (forall q, ~ region q -> m q = m0 q) ->
    (forall k m' rgba', 0 <= k < Z.of_nat n ->
       (forall q, ~ region q -> m' q = m0 q) ->
       (fst (assign m' (scan_input + step * k) rgba') = SAIL_OK -> ok k)
       /\ (ok k ->
           assign m' (scan_input + step * k) rgba' = (SAIL_OK, color k))) ->
    let result :=
      rgba_loop assign step n scan_input scan_output r g b a rgba m in
    (fst (fst result) = SAIL_OK -> forall k, 0 <= k < Z.of_nat n -> ok k)
    /\ ((forall k, 0 <= k < Z.of_nat n -> ok k) ->
        fst (fst result) = SAIL_OK
        /\ forall k, 0 <= k < Z.of_nat n ->
             pixel_holds (snd result) (scan_output + 8 * k) r g b a
                         (channels_of (color k))).
Proof.
  intros Ht. induction n as [| n IH];
    intros ok color scan_input scan_output rgba m Hregion Hm Hassign.
  - cbn [rgba_loop fst snd]. split; [intros _ k Hk; simpl in Hk; lia |].
    intros _. split; [reflexivity | intros k Hk; simpl in Hk; lia].
  - cbv zeta. cbn [rgba_loop].
    destruct (Hassign 0 m rgba ltac:(lia) Hm) as [Hneeds Hgives].
    replace (scan_input + step * 0) with scan_input in Hneeds, Hgives by lia.
    destruct (assign m scan_input rgba) as [status rgba'] eqn:Hfirst.
    assert (Hfail : status <> SAIL_OK ->
              (status = SAIL_OK ->
               forall k, 0 <= k < Z.of_nat (S n) -> ok k)
              /\ ((forall k, 0 <= k < Z.of_nat (S n) -> ok k) ->
                  status = SAIL_OK
                  /\ forall k, 0 <= k < Z.of_nat (S n) ->
                       pixel_holds m (scan_output + 8 * k) r g b a
                                   (channels_of (color k)))).
    { intros Hne. split; [intros Heq; now elim Hne |].
      intros Hall. specialize (Hgives (Hall 0 ltac:(lia))).
      elim Hne. congruence. }
    destruct status; try (cbn [fst snd]; apply Hfail; discriminate).
    clear Hfail. cbn [fst] in Hneeds.
    specialize (Hneeds eq_refl). specialize (Hgives Hneeds).
    assert (Hcolor : rgba' = color 0) by congruence. subst rgba'.
    set (m1 := fill_rgba64_pixel m scan_output r g b a
                 (component1 (color 0)) (component2 (color 0))
                 (component3 (color 0)) (component4 (color 0))).
    assert (Hm1 : forall q, ~ (scan_output <= q < scan_output + 8) ->
                            m1 q = m q).
    { intros q Hq. apply fill_rgba64_pixel_frame. intros (c & Hw & Hin).
      pose proof (written_channel_range _ _ _ _ _ Ht Hw).
      apply Hq. destruct Hin; lia. }
    specialize (IH (fun k => ok (k + 1)) (fun k => color (k + 1))
                   (scan_input + step) (scan_output + 8) (color 0) m1).
    cbv zeta in IH. destruct IH as [IHneeds IHgives].
    + intros q Hq. apply Hregion. lia.
    + intros q Hq. rewrite Hm1; [now apply Hm |].
      intros Hin. apply Hq, Hregion. lia.
    + intros k m' rgba' Hk Hm'.
      replace (scan_input + step + step * k)
        with (scan_input + step * (k + 1)) by lia.
      apply Hassign; [lia | exact Hm'].
    + split.
      * intros Hok k Hk.
        destruct (Z.eq_dec k 0) as [-> | Hne]; [exact Hneeds |].
        replace k with (k - 1 + 1) by lia. apply IHneeds; [exact Hok | lia].
      * intros Hall.
        destruct IHgives as [Hstatus Hpix];
          [intros k Hk; apply Hall; lia |].
        split; [exact Hstatus |].
        intros k Hk.
        destruct (Z.eq_dec k 0) as [-> | Hne].
        -- replace (scan_output + 8 * 0) with scan_output by lia.
           apply (pixel_holds_ext _ m1); [exact Ht | |].
           ++ intros q Hq. apply rgba_loop_frame. intros Htouched.
              apply (touched_scan_bounds _ _ _ _ _ _ _ Ht) in Htouched. lia.
           ++ apply (fill_rgba64_pixel_values m scan_output r g b a _ _ _ _
                       Ht).
        -- replace (scan_output + 8 * k)
             with (scan_output + 8 + 8 * (k - 1)) by lia.
           replace k with (k - 1 + 1) at 2 by lia.
           apply Hpix. lia.
Qed.

(** The color of entry [index] of a palette of [n]-byte entries, as
    [get_palette_rgba64] assigns it. *)
Definition palette_color (m : mem) (pal : sail_palette) (n index : Z)
  : sail_rgba64_t :=
  let entry := palette_data pal + n * index in
  {| component1 := load8 m entry * 257;
     component2 := load8 m (entry + 1) * 257;
     component3 := load8 m (entry + 2) * 257;
     component4 := if n =? 3 then 65535 else load8 m (entry + 3) * 257 |}.

Lemma get_palette_rgba64_color (m : mem) (pal : sail_palette) (n index : Z)
    (color : sail_rgba64_t) :
  (palette_pixel_format pal = SAIL_PIXEL_FORMAT_BPP24_RGB /\ n = 3
   \/ palette_pixel_format pal = SAIL_PIXEL_FORMAT_BPP32_RGBA /\ n = 4) ->
  n * color_count pal <= 4294967296 ->
  0 <= index < color_count pal ->
  get_palette_rgba64 m pal index color = (SAIL_OK, palette_color m pal n index).
Proof.
  intros Hformat Hsize Hindex. unfold palette_color. cbv zeta.
  destruct Hformat as [[Hpf ->] | [Hpf ->]].
  - rewrite (get_palette_rgba64_rgb m pal index color) by (lia || exact Hpf).
    cbv zeta. rewrite (u32_small (index * 3)) by lia.
    replace (index * 3) with (3 * index) by lia.
    now rewrite Z.add_0_r.
  - rewrite (get_palette_rgba64_rgba m pal index color) by (lia || exact Hpf).
    cbv zeta. rewrite (u32_small (index * 4)) by lia.
    replace (index * 4) with (4 * index) by lia.
    now rewrite Z.add_0_r.
Qed.

Lemma palette_color_local (m1 m2 : mem) (pal : sail_palette) (n index : Z) :
  (n = 3 \/ n = 4) ->
  (forall q, palette_data pal + n * index <= q
             < palette_data pal + n * index + n -> m1 q = m2 q) ->
  palette_color m1 pal n index = palette_color m2 pal n index.
Proof.
  intros Hn Hagree. unfold palette_color, load8. cbv zeta.
  rewrite (Hagree (palette_data pal + n * index)) by lia.
  rewrite (Hagree (palette_data pal + n * index + 1)) by lia.
  rewrite (Hagree (palette_data pal + n * index + 2)) by lia.
  destruct Hn as [-> | ->]; cbn [Z.eqb Pos.eqb]; [reflexivity |].
  now rewrite (Hagree (palette_data pal + 4 * index + 3)) by lia.
Qed.

(** X22. An 8-bit indexed image with a palette of 24-bit RGB or 32-bit RGBA
    entries, converted into a buffer that overlaps neither the input rows
    nor the palette: the conversion returns [SAIL_OK] exactly when every
    pixel is an index below the color count, and
    [SAIL_ERROR_BROKEN_IMAGE] otherwise; on success every output pixel holds
    257 times the bytes of the palette entry of its index, and a target alpha
    slot holds 65535 for a palette without alpha. *)
Theorem indexed8_through_palette (image_input image_output : sail_image)
    (pal : sail_palette) (output_pixel_format : SailPixelFormat)
    (n r g b a : Z) (rgba : sail_rgba64_t) (m : mem) :
  pixel_format image_input = SAIL_PIXEL_FORMAT_BPP8_INDEXED ->
  palette image_input = Some pal ->
  (palette_pixel_format pal = SAIL_PIXEL_FORMAT_BPP24_RGB /\ n = 3
   \/ palette_pixel_format pal = SAIL_PIXEL_FORMAT_BPP32_RGBA /\ n = 4) ->
  verify_and_construct_rgba64_indexes output_pixel_format
  = (SAIL_OK, (r, g, b, a)) ->
  rows_apart (width image_input) (height image_input)
             (bytes_per_line image_output) ->
  separate_buffers 1 image_input image_output ->
  n * color_count pal <= 4294967296 ->
  (forall q, palette_data pal <= q < palette_data pal + n * color_count pal ->
             ~ in_output_buffer image_input image_output q) ->
  let result := to_bpp64_rgba_kind image_input r g b a image_output rgba m in
  let index row i :=
    load8 m (pixels image_input + bytes_per_line image_input * row + i) in
  (fst result = SAIL_OK
   <-> forall row i,
         0 <= row < height image_input -> 0 <= i < width image_input ->
         index row i < color_count pal)
  /\ (fst result = SAIL_OK \/ fst result = SAIL_ERROR_BROKEN_IMAGE)
  /\ (fst result = SAIL_OK ->
      forall row i,
        0 <= row < height image_input -> 0 <= i < width image_input ->
        let entry := palette_data pal + n * index row i in
        let target := pixels image_output + bytes_per_line image_output * row
                      + 8 * i in
        load16 E (snd result) (target + 2 * r) = load8 m entry * 257
        /\ load16 E (snd result) (target + 2 * g) = load8 m (entry + 1) * 257
        /\ load16 E (snd result) (target + 2 * b) = load8 m (entry + 2) * 257
        /\ (0 <= a ->
            load16 E (snd result) (target + 2 * a)
            = if n =? 3 then 65535 else load8 m (entry + 3) * 257)).
Proof.
  intros Hpf Hpal Hformat Htable Hgeo ((Hstep & Hs & Hsize) & Hdisjoint)
         Hpsize Hpalette.
  pose proof (verify_and_construct_table _ _ _ _ _ Htable) as Ht.
  pose proof Hgeo as (Hw & Hh & Hgeo').
  assert (Hn : n = 3 \/ n = 4) by (destruct Hformat as [[_ ->] | [_ ->]]; lia).
  assert (Hexact : forall row, 0 <= row < height image_input ->
            0 < width image_input ->
            u32 (bytes_per_line image_input * row)
            = bytes_per_line image_input * row
            /\ 0 <= bytes_per_line image_input * row
            /\ bytes_per_line image_input * row + bytes_per_line image_input
               <= bytes_per_line image_input * height image_input).
  { intros row Hr Hpos.
    assert (H : bytes_per_line image_input * (row + 1)
                <= bytes_per_line image_input * height image_input)
      by (apply Z.mul_le_mono_nonneg_l; nia).
    rewrite Z.mul_add_distr_l, Z.mul_1_r in H.
    assert (0 <= bytes_per_line image_input * row)
      by (apply Z.mul_nonneg_nonneg; nia).
    split; [apply u32_small; nia | lia]. }
  set (index := fun row i =>
         load8 m (pixels image_input + bytes_per_line image_input * row + i)).
  pose proof (to_bpp64_rgba_kind_row_by_row image_input image_output
                r g b a m
                (fun row i => channels_of (palette_color m pal n (index row i)))
                (fun row => forall i, 0 <= i < width image_input ->
                                      index row i < color_count pal)
                Ht Hgeo) as Hrows.
  cbv zeta in Hrows.
  destruct (fun H => Hrows H rgba) as [Hneeds Hgives]; clear Hrows.
  { intros row rgba0 m1 Hr Hm1.
    unfold convert_row. rewrite Hpf, Hpal. cbv zeta.
    destruct (Z.eq_dec (width image_input) 0) as [Hzero | Hpos].
    { rewrite Hzero. cbn [Z.to_nat rgba_loop fst snd].
      split; [intros _ i Hi; lia |].
      intros _. split; [reflexivity | intros i Hi; lia]. }
    destruct (Hexact row Hr ltac:(lia)) as (Hu & Hlow & Hhigh).
    pose proof (rgba_loop_values
                  (fun m p rgba =>
                     resolve_index m (Some pal) (load8 m p) rgba)
                  1 r g b a m
                  (in_output_buffer image_input image_output) Ht
                  (Z.to_nat (width image_input))
                  (fun i => index row i < color_count pal)
                  (fun i => palette_color m pal n (index row i))
                  (pixels image_input
                   + u32 (bytes_per_line image_input * row))
                  (pixels image_output
                   + u32 (bytes_per_line image_output * row))
                  rgba0 m1) as Hloop.
    cbv zeta in Hloop. rewrite Z2Nat.id in Hloop by lia.
    destruct Hloop as [Hloop_needs Hloop_gives].
    - intros q Hq.
      now apply (output_range_in_buffer image_input image_output
                   Hgeo row q Hr ltac:(lia)).
    - intros q Hq. apply Hm1. intros Hdone. apply Hq.
      unfold rows_done in Hdone. unfold in_output_buffer.
      assert (bytes_per_line image_output * row
              <= bytes_per_line image_output * height image_input)
        by (apply Z.mul_le_mono_nonneg_l; lia).
      lia.
    - intros k m' rgba' Hk Hm'. rewrite Hu.
      assert (Hbyte : load8 m' (pixels image_input
                                + bytes_per_line image_input * row + 1 * k)
                      = index row k).
      { unfold index, load8. rewrite Hm'.
        - now replace (1 * k) with k by lia.
        - unfold in_output_buffer. lia. }
      rewrite Hbyte. unfold resolve_index.
      pose proof (load8_range m (pixels image_input
                                 + bytes_per_line image_input * row + k))
        as Hrange.
      fold (index row k) in Hrange.
      split.
      + intros Hok.
        destruct (get_palette_rgba64_status m' pal (index row k) rgba')
          as [[Heq _] | [_ Hlt]]; [| exact Hlt].
        rewrite Heq in Hok. discriminate Hok.
      + intros Hlt.
        rewrite (get_palette_rgba64_color m' pal n) by (assumption || lia).
        f_equal. apply palette_color_local; [exact Hn |].
        intros q Hq. apply Hm'. apply Hpalette.
        assert (n * (index row k + 1) <= n * color_count pal)
          by (apply Z.mul_le_mono_nonneg_l; lia).
        lia.
    - split; [exact Hloop_needs |].
      intros Hall. destruct (Hloop_gives Hall) as [Hstatus Hpix].
      split; [exact Hstatus |].
      intros i Hi. specialize (Hpix i Hi).
      rewrite (row_offset_exact _ _ _ row Hgeo) in Hpix |- * by lia.
      exact Hpix. }
  cbv zeta.
  assert (Hiff : fst (to_bpp64_rgba_kind image_input r g b a image_output
                                          rgba m) = SAIL_OK
                 <-> forall row i,
                       0 <= row < height image_input ->
                       0 <= i < width image_input ->
                       index row i < color_count pal).
  { split.
    - intros Hok row i Hr Hi. now apply (Hneeds Hok row Hr).
    - intros Hall. apply Hgives. intros row Hr i Hi. now apply Hall. }
  split; [exact Hiff |]. split.
  - apply (to_bpp64_rgba_kind_status
             (fun s => s = SAIL_OK \/ s = SAIL_ERROR_BROKEN_IMAGE)).
    + now rewrite Hpf.
    + now left.
    + intros _ m1 idx rgba1. rewrite Hpal. unfold resolve_index.
      destruct (get_palette_rgba64_status m1 pal idx rgba1)
        as [[Heq _] | [Hok _]]; [rewrite Heq; now right | now left].
  - intros Hok row i Hr Hi.
    destruct Hgives as [_ Hpix].
    { intros row0 Hr0 i0 Hi0. now apply (proj1 Hiff Hok). }
    specialize (Hpix row i Hr Hi).
    unfold pixel_holds, channels_of, palette_color in Hpix.
    cbn [component1 component2 component3 component4] in Hpix.
    rewrite !promote_load8 in Hpix.
    destruct Hpix as (Hr16 & Hg16 & Hb16 & Ha16).
    split; [exact Hr16 |]. split; [exact Hg16 |]. split; [exact Hb16 |].
    intros Ha. rewrite (Ha16 Ha).
    destruct (n =? 3); [reflexivity | apply promote_load8].
Qed.

(** ** Samples packed into bytes *)

(** Sample [slot] of a byte, counted from the least significant end, for
    samples of [bits] bits. *)
Definition packed_sample (bits byte slot : Z) : Z :=
  (byte / 2 ^ (bits * slot)) mod 2 ^ bits.

Lemma packed_sample_range (bits byte slot : Z) :
  0 < bits <= 8 ->
  0 <= packed_sample bits byte slot < 2 ^ bits /\ 2 ^ bits <= 256.
Proof.
  intros Hbits. unfold packed_sample.
  pose proof (Z.mod_pos_bound (byte / 2 ^ (bits * slot)) (2 ^ bits)
                ltac:(apply Z.pow_pos_nonneg; lia)).
  assert (2 ^ bits <= 2 ^ 8) by (apply Z.pow_le_mono_r; lia).
  change (2 ^ 8) with 256 in *. lia.
Qed.

Lemma packed_sample_index (bits byte slot : Z) :
  0 < bits <= 8 -> 0 <= slot ->
  u8 (Z.shiftr (Z.land byte (Z.shiftl (Z.ones bits) (bits * slot)))
               (bits * slot))
  = packed_sample bits byte slot.
Proof.
  intros Hbits Hslot.
  assert (0 <= bits * slot) by nia.
  rewrite Z.shiftr_land, Z.shiftr_shiftl_l by lia.
  rewrite Z.sub_diag, Z.shiftl_0_r, Z.land_ones, Z.shiftr_div_pow2 by lia.
  apply u8_small. pose proof (packed_sample_range bits byte slot Hbits).
  unfold packed_sample in *. lia.
Qed.

(** The shift and the mask of the inner loop when [left] samples of the
    byte are still to be taken. *)
Definition byte_state (bits left bit_shift bit_mask : Z) : Prop :=
  (left = 0 /\ bit_mask = 0)
  \/ (0 < left /\ bit_shift = bits * (left - 1)
      /\ bit_mask = Z.shiftl (Z.ones bits) bit_shift).

Lemma byte_state_next (bits left bit_shift bit_mask : Z) :
  0 < bits <= 8 -> bits * left <= 8 -> 0 < left ->
  byte_state bits left bit_shift bit_mask ->
  0 < bit_mask
  /\ bit_shift = bits * (left - 1)
  /\ bit_mask = Z.shiftl (Z.ones bits) bit_shift
  /\ byte_state bits (left - 1) (u32 (bit_shift - bits))
                (Z.shiftr bit_mask bits).
Proof.
  intros Hbits Hfit Hleft [[H0 _] | (_ & Hshift & Hmask)]; [lia |].
  assert (Hs : 0 <= bit_shift) by nia.
  assert (Hones : 0 < Z.ones bits).
  { rewrite Z.ones_equiv.
    assert (2 ^ 1 <= 2 ^ bits) by (apply Z.pow_le_mono_r; lia).
    change (2 ^ 1) with 2 in *. lia. }
  split.
  { rewrite Hmask, Z.shiftl_mul_pow2 by lia.
    apply Z.mul_pos_pos; [exact Hones | apply Z.pow_pos_nonneg; lia]. }
  split; [exact Hshift |]. split; [exact Hmask |].
  destruct (Z.eq_dec left 1) as [-> | Hmore].
  - left. split; [lia |].
    rewrite Hmask, Hshift. replace (bits * (1 - 1)) with 0 by lia.
    rewrite Z.shiftl_0_r, Z.shiftr_div_pow2, Z.ones_equiv by lia.
    apply Z.div_small.
    pose proof (Z.pow_pos_nonneg 2 bits ltac:(lia) ltac:(lia)). lia.
  - right. split; [lia |].
    assert (Hnext : u32 (bit_shift - bits) = bits * (left - 1 - 1)).
    { rewrite Hshift.
      replace (bits * (left - 1) - bits) with (bits * (left - 1 - 1)) by lia.
      apply u32_small. nia. }
    split; [exact Hnext |].
    rewrite Hnext, Hmask, Z.shiftr_shiftl_l by nia.
    f_equal. rewrite Hshift. lia.
Qed.

(** The inner loop over samples that the sample function resolves: it
    takes the samples of the byte from the most significant one on, as many
    as the byte and the row have left. The sample function may read the
    addresses in [region], which the output pixels stay clear of, so that
    they hold what they held in [m0] throughout. *)
Lemma unpack_byte_values
    (sample : mem -> Z -> sail_rgba64_t -> sail_status_t * sail_rgba64_t)
    (color : Z -> sail_rgba64_t) (region : Z -> Prop) (m0 : mem)
    (resolved : Z -> Prop) (bits byte width r g b a : Z) :
  table_indexes r g b a -> 0 < bits <= 8 ->
  (forall m index rgba,
     (forall q, region q -> m q = m0 q) -> resolved index ->
     sample m index rgba = (SAIL_OK, color index)) ->
  forall (fuel : nat) (left bit_shift bit_mask pixel_index scan_output : Z)
         (rgba : sail_rgba64_t) (m : mem),
    byte_state bits left bit_shift bit_mask ->
    0 <= left -> bits * left <= 8 -> left <= Z.of_nat fuel ->
    let n := Z.min left (Z.max 0 (width - pixel_index)) in
    (forall q, region q -> m q = m0 q) ->
    (forall q, scan_output <= q < scan_output + 8 * n -> ~ region q) ->
    (forall t, 0 <= t < n ->
       resolved (packed_sample bits byte (left - 1 - t))) ->
    exists rgba' m',
      unpack_byte fuel sample bits byte bit_shift bit_mask pixel_index width
                  scan_output r g b a rgba m
      = (SAIL_OK, (pixel_index + n, scan_output + 8 * n), rgba', m')
      /\ (forall t, 0 <= t < n ->
            pixel_holds m' (scan_output + 8 * t) r g b a
              (channels_of (color (packed_sample bits byte (left - 1 - t)))))
      /\ (forall q, ~ (scan_output <= q < scan_output + 8 * n) ->
                    m' q = m q).
Proof.
  intros Ht Hbits Hsample.
  induction fuel as [| fuel IH];
    intros left bit_shift bit_mask pixel_index scan_output rgba m
           Hstate Hleft Hfit Hfuel; cbv zeta; intros Hregion Hclear Hresolved.
  - assert (left = 0) by lia. subst left.
    replace (Z.min 0 (Z.max 0 (width - pixel_index))) with 0 by lia.
    exists rgba, m. cbn [unpack_byte].
    rewrite Z.add_0_r, Z.mul_0_r, Z.add_0_r.
    split; [reflexivity |]. split; [intros t Ht0; lia | reflexivity].
  - cbn [unpack_byte].
    destruct (Z.eq_dec left 0) as [-> | Hpos].
    { destruct Hstate as [[_ Hmask] | (Hbad & _)]; [| lia].
      rewrite Hmask. cbn [Z.ltb Z.compare andb].
      replace (Z.min 0 (Z.max 0 (width - pixel_index))) with 0 by lia.
      exists rgba, m. rewrite Z.add_0_r, Z.mul_0_r, Z.add_0_r.
      split; [reflexivity |]. split; [intros t Ht0; lia | reflexivity]. }
    destruct (byte_state_next bits left bit_shift bit_mask Hbits Hfit
                ltac:(lia) Hstate) as (Hmask & Hshift & Hones & Hnext).
    replace (0 <? bit_mask) with true by (symmetry; now apply Z.ltb_lt).
    cbn [andb].
    destruct (pixel_index <? width) eqn:Hrow.
    + apply Z.ltb_lt in Hrow.
      assert (Hindex : u8 (Z.shiftr (Z.land byte bit_mask) bit_shift)
                       = packed_sample bits byte (left - 1)).
      { rewrite Hones, Hshift. apply packed_sample_index; lia. }
      rewrite Hindex, Hsample;
        [| exact Hregion
         | replace (left - 1) with (left - 1 - 0) by lia;
           apply Hresolved; lia].
      set (c := color (packed_sample bits byte (left - 1))).
      set (m1 := fill_rgba64_pixel m scan_output r g b a (component1 c)
                   (component2 c) (component3 c) (component4 c)).
      assert (Hm1 : forall q, ~ (scan_output <= q < scan_output + 8) ->
                              m1 q = m q).
      { intros q Hq. apply fill_rgba64_pixel_frame. intros (ch & Hw & Hin).
        pose proof (written_channel_range _ _ _ _ _ Ht Hw).
        apply Hq. destruct Hin; lia. }
      set (n' := Z.min (left - 1) (Z.max 0 (width - (pixel_index + 1)))).
      assert (Hn : Z.min left (Z.max 0 (width - pixel_index)) = n' + 1)
        by (unfold n'; lia).
      rewrite Hn in Hclear, Hresolved.
      destruct (IH (left - 1) (u32 (bit_shift - bits))
                   (Z.shiftr bit_mask bits) (pixel_index + 1)
                   (scan_output + 8) c m1 Hnext ltac:(lia) ltac:(nia)
                   ltac:(lia))
        as (rgba' & m' & Hloop & Hvalues & Hframe).
      { intros q Hq. rewrite Hm1; [now apply Hregion |].
        intros Hin. apply (Hclear q); [lia | exact Hq]. }
      { fold n'. intros q Hq. apply Hclear. lia. }
      { fold n'. intros t Ht0.
        replace (left - 1 - 1 - t) with (left - 1 - (t + 1)) by lia.
        apply Hresolved. lia. }
      cbv zeta in Hloop. fold n' in Hloop, Hvalues, Hframe.
      rewrite Hn. exists rgba', m'. split; [| split].
      * rewrite Hloop. do 4 f_equal; lia.
      * intros t Ht0. destruct (Z.eq_dec t 0) as [-> | Hne].
        -- replace (scan_output + 8 * 0) with scan_output by lia.
           replace (left - 1 - 0) with (left - 1) by lia.
           apply (pixel_holds_ext _ m1); [exact Ht | |].
           ++ intros q Hq. apply Hframe. lia.
           ++ apply (fill_rgba64_pixel_values m scan_output r g b a _ _ _ _
                       Ht).
        -- replace (scan_output + 8 * t)
             with (scan_output + 8 + 8 * (t - 1)) by lia.
           replace (left - 1 - t) with (left - 1 - 1 - (t - 1)) by lia.
           apply Hvalues. lia.
      * intros q Hq. rewrite Hframe by lia. apply Hm1. lia.
    + apply Z.ltb_ge in Hrow.
      replace (Z.min left (Z.max 0 (width - pixel_index))) with 0 by lia.
      exists rgba, m. rewrite Z.add_0_r, Z.mul_0_r, Z.add_0_r.
      split; [reflexivity |]. split; [intros t Ht0; lia | reflexivity].
Qed.

(** The outer loop: pixel [t] of the row is sample [t mod per] of byte
    [t / per], the most significant sample first. The bytes of the row are
    read from memory outside the output pixels. *)
Lemma unpack_row_values
    (sample : mem -> Z -> sail_rgba64_t -> sail_status_t * sail_rgba64_t)
    (color : Z -> sail_rgba64_t) (region : Z -> Prop) (m0 : mem)
    (resolved : Z -> Prop) (bits per bit_shift bit_mask width
     r g b a : Z) :
  table_indexes r g b a -> 0 < bits <= 8 -> bits * per = 8 ->
  (forall m index rgba,
     (forall q, region q -> m q = m0 q) -> resolved index ->
     sample m index rgba = (SAIL_OK, color index)) ->
  byte_state bits per bit_shift bit_mask ->
  forall (fuel : nat) (bytes : Z -> Z)
         (scan_input pixel_index scan_output : Z)
         (rgba : sail_rgba64_t) (m : mem),
    let n := Z.max 0 (width - pixel_index) in
    n <= Z.of_nat fuel ->
    (forall j, 0 <= j -> per * j < n ->
       load8 m (scan_input + j) = bytes j
       /\ ~ (scan_output <= scan_input + j < scan_output + 8 * n)) ->
    (forall q, region q -> m q = m0 q) ->
    (forall q, scan_output <= q < scan_output + 8 * n -> ~ region q) ->
    (forall t, 0 <= t < n ->
       resolved (packed_sample bits (bytes (t / per))
                               (per - 1 - t mod per))) ->
    exists rgba' m',
      unpack_row fuel sample bits bit_shift bit_mask scan_input pixel_index
                 width scan_output r g b a rgba m
      = (SAIL_OK, rgba', m')
      /\ (forall t, 0 <= t < n ->
            pixel_holds m' (scan_output + 8 * t) r g b a
              (channels_of
                 (color (packed_sample bits (bytes (t / per))
                                       (per - 1 - t mod per)))))
      /\ (forall q, ~ (scan_output <= q < scan_output + 8 * n) ->
                    m' q = m q).
Proof.
  intros Ht Hbits Hper Hsample Hstate.
  assert (Hper_pos : 0 < per) by nia.
  induction fuel as [| fuel IH];
    intros bytes scan_input pixel_index scan_output rgba m n Hfuel Hinput
           Hregion Hclear Hresolved.
  - assert (Hn : n = 0) by lia. rewrite Hn.
    exists rgba, m. cbn [unpack_row].
    split; [reflexivity |]. split; [intros t Ht0; lia | reflexivity].
  - cbn [unpack_row].
    destruct (pixel_index <? width) eqn:Hrow.
    + apply Z.ltb_lt in Hrow.
      assert (Hn : n = width - pixel_index) by (unfold n; lia).
      destruct (Hinput 0 ltac:(lia) ltac:(lia)) as [Hbyte _].
      rewrite Z.add_0_r in Hbyte. rewrite Hbyte.
      set (n1 := Z.min per (Z.max 0 (width - pixel_index))).
      assert (Hn1 : 1 <= n1 <= n /\ n1 <= per /\ (n1 < per -> n1 = n))
        by (unfold n1; lia).
      destruct (unpack_byte_values sample color region m0 resolved bits
                  (bytes 0) width
                  r g b a Ht Hbits Hsample 8 per bit_shift bit_mask
                  pixel_index scan_output rgba m Hstate ltac:(lia)
                  ltac:(lia) ltac:(simpl; nia))
        as (rgba1 & m1 & Hfirst & Hvalues1 & Hframe1).
      { exact Hregion. }
      { fold n1. intros q Hq. apply Hclear. lia. }
      { fold n1. intros t Ht0.
        specialize (Hresolved t ltac:(lia)).
        rewrite (Z.div_small t per), (Z.mod_small t per) in Hresolved
          by lia.
        exact Hresolved. }
      cbv zeta in Hfirst. fold n1 in Hfirst, Hvalues1, Hframe1.
      rewrite Hfirst.
      destruct (IH (fun j => bytes (j + 1)) (scan_input + 1)
                   (pixel_index + n1) (scan_output + 8 * n1) rgba1 m1)
        as (rgba' & m' & Hloop & Hvalues & Hframe).
      { lia. }
      { intros j Hj Hmore.
        replace (Z.max 0 (width - (pixel_index + n1))) with (n - n1)
          in * by lia.
        assert (Hfull : n1 = per) by lia.
        destruct (Hinput (j + 1) ltac:(lia) ltac:(nia)) as [Hbytes Hout].
        replace (scan_input + 1 + j) with (scan_input + (j + 1)) by lia.
        split.
        - rewrite <- Hbytes. unfold load8. f_equal.
          apply Hframe1. lia.
        - lia. }
      { intros q Hq. rewrite Hframe1; [now apply Hregion |].
        intros Hin. apply (Hclear q); [lia | exact Hq]. }
      { intros q Hq. apply Hclear.
        replace (Z.max 0 (width - (pixel_index + n1))) with (n - n1)
          in Hq by lia.
        lia. }
      { intros t Ht0.
        replace (Z.max 0 (width - (pixel_index + n1))) with (n - n1)
          in Ht0 by lia.
        destruct (Z.lt_ge_cases 0 (n - n1)) as [Hmore | Hnone]; [| lia].
        assert (Hfull : n1 = per) by lia.
        specialize (Hresolved (t + n1) ltac:(lia)).
        rewrite Hfull in Hresolved.
        replace (t + per) with (t + 1 * per) in Hresolved by lia.
        rewrite Z.div_add, Z.mod_add in Hresolved by lia.
        exact Hresolved. }
      replace (Z.max 0 (width - (pixel_index + n1))) with (n - n1)
        in * by lia.
      exists rgba', m'. split; [exact Hloop |]. split.
      * intros t Ht0.
        destruct (Z.lt_ge_cases t n1) as [Hin | Hafter].
        -- rewrite (Z.div_small t per), (Z.mod_small t per) by lia.
           apply (pixel_holds_ext _ m1); [exact Ht | |].
           ++ intros q Hq. apply Hframe. lia.
           ++ apply Hvalues1. lia.
        -- assert (Hfull : n1 = per) by lia.
           specialize (Hvalues (t - n1) ltac:(lia)).
           cbv beta in Hvalues.
           replace (scan_output + 8 * n1 + 8 * (t - n1))
             with (scan_output + 8 * t) in Hvalues by lia.
           rewrite Hfull in Hvalues.
           replace t with ((t - per) + 1 * per) at 2 3 by lia.
           rewrite Z.div_add, Z.mod_add by lia.
           exact Hvalues.
      * intros q Hq. rewrite Hframe by lia. apply Hframe1. lia.
    + apply Z.ltb_ge in Hrow.
      assert (Hn : n = 0) by (unfold n; lia). rewrite Hn.
      exists rgba, m.
      split; [reflexivity |]. split; [intros t Ht0; lia | reflexivity].
Qed.

(** The gray level of a packed sample, as the three cases of the switch
    compute it. *)
Definition gray_level (bits index : Z) : Z :=
  if bits =? 1 then (if index =? 0 then 0 else 255)
  else if bits =? 2 then index * 85
  else index * 17.

Lemma gray_level_full_scale (bits index : Z) :
  bits = 1 \/ bits = 2 \/ bits = 4 ->
  0 <= index < 2 ^ bits ->
  u16 (u8 (gray_level bits index) * 257)
  = index * (65535 / (2 ^ bits - 1)).
Proof.
  intros [-> | [-> | ->]] Hindex; unfold gray_level; cbn [Z.eqb Pos.eqb].
  - change (2 ^ 1) with 2 in *. change (65535 / (2 - 1)) with 65535.
    assert (Hcase : index = 0 \/ index = 1) by lia.
    destruct Hcase as [-> | ->]; reflexivity.
  - change (2 ^ 2) with 4 in *. change (65535 / (4 - 1)) with 21845.
    rewrite u8_small by lia. rewrite u16_small by lia. lia.
  - change (2 ^ 4) with 16 in *. change (65535 / (16 - 1)) with 4369.
    rewrite u8_small by lia. rewrite u16_small by lia. lia.
Qed.

Lemma convert_row_packed_gray (image_input : sail_image)
    (bits scan_input scan_output r g b a : Z) (rgba : sail_rgba64_t)
    (m : mem) :
  (pixel_format image_input = SAIL_PIXEL_FORMAT_BPP1_GRAYSCALE /\ bits = 1
   \/ pixel_format image_input = SAIL_PIXEL_FORMAT_BPP2_GRAYSCALE /\ bits = 2
   \/ pixel_format image_input = SAIL_PIXEL_FORMAT_BPP4_GRAYSCALE
      /\ bits = 4) ->
  convert_row image_input scan_input scan_output r g b a rgba m
  = unpack_row (Z.to_nat (width image_input))
      (fun _ index _ =>
         (SAIL_OK, spread_gray8_to_rgba64 (gray_level bits index)))
      bits (bits * (8 / bits - 1))
      (Z.shiftl (Z.ones bits) (bits * (8 / bits - 1)))
      scan_input 0 (width image_input) scan_output r g b a rgba m.
Proof.
  intros [[Hpf ->] | [[Hpf ->] | [Hpf ->]]]; unfold convert_row;
    rewrite Hpf; reflexivity.
Qed.

(** X23. A 1-, 2- or 4-bit grayscale source converted into a separate buffer:
    the conversion succeeds; pixel [i] of a row is the sample of byte
    [i / per] that lies [i mod per] samples below the most significant one,
    where [per] is the number of samples in a byte; and the sample is spread
    to the full 16-bit scale, so that every colour channel holds the sample
    times [65535 / (2 ^ bits - 1)] and the largest sample gives 65535. A
    target alpha slot receives 65535. *)
Theorem packed_gray_unpacked (image_input image_output : sail_image)
    (output_pixel_format : SailPixelFormat) (bits r g b a : Z)
    (rgba : sail_rgba64_t) (m : mem) :
  (pixel_format image_input = SAIL_PIXEL_FORMAT_BPP1_GRAYSCALE /\ bits = 1
   \/ pixel_format image_input = SAIL_PIXEL_FORMAT_BPP2_GRAYSCALE /\ bits = 2
   \/ pixel_format image_input = SAIL_PIXEL_FORMAT_BPP4_GRAYSCALE
      /\ bits = 4) ->
  verify_and_construct_rgba64_indexes output_pixel_format
  = (SAIL_OK, (r, g, b, a)) ->
  rows_apart (width image_input) (height image_input)
             (bytes_per_line image_output) ->
  let per := 8 / bits in
  (width image_input + per - 1) / per <= bytes_per_line image_input ->
  bytes_per_line image_input * height image_input <= 4294967296 ->
  (pixels image_input + bytes_per_line image_input * height image_input
   <= pixels image_output
   \/ pixels image_output + bytes_per_line image_output * height image_input
      <= pixels image_input) ->
  let result := to_bpp64_rgba_kind image_input r g b a image_output rgba m in
  fst result = SAIL_OK
  /\ forall row i,
       0 <= row < height image_input -> 0 <= i < width image_input ->
       let byte := load8 m (pixels image_input
                            + bytes_per_line image_input * row + i / per) in
       let sample := (byte / 2 ^ (bits * (per - 1 - i mod per)))
                     mod 2 ^ bits in
       let level := sample * (65535 / (2 ^ bits - 1)) in
       let target := pixels image_output + bytes_per_line image_output * row
                     + 8 * i in
       load16 E (snd result) (target + 2 * r) = level
       /\ load16 E (snd result) (target + 2 * g) = level
       /\ load16 E (snd result) (target + 2 * b) = level
       /\ (0 <= a -> load16 E (snd result) (target + 2 * a) = 65535).
Proof.
  intros Hformat Htable Hgeo per Hline Hsize Hapart.
  pose proof (verify_and_construct_table _ _ _ _ _ Htable) as Ht.
  pose proof Hgeo as (Hw & Hh & Hgeo').
  assert (Hbits : bits = 1 \/ bits = 2 \/ bits = 4).
  { destruct Hformat as [[_ ->] | [[_ ->] | [_ ->]]]; lia. }
  assert (Hper : 0 < bits <= 8 /\ bits * per = 8 /\ 0 < per).
  { unfold per. destruct Hbits as [-> | [-> | ->]]; cbn; lia. }
  destruct Hper as (Hbits8 & Hper & Hper_pos).
  set (bytes := fun row j =>
         load8 m (pixels image_input + bytes_per_line image_input * row + j)).
  set (color := fun index => spread_gray8_to_rgba64 (gray_level bits index)).
  pose proof (to_bpp64_rgba_kind_row_by_row image_input image_output
                r g b a m
                (fun row i =>
                   channels_of
                     (color (packed_sample bits (bytes row (i / per))
                                           (per - 1 - i mod per))))
                (fun _ => True) Ht Hgeo) as Hrows.
  cbv zeta in Hrows.
  destruct (fun H => Hrows H rgba) as [_ Hgives]; clear Hrows.
  { intros row rgba0 m1 Hr Hm1.
    rewrite (convert_row_packed_gray image_input bits) by exact Hformat.
    fold per.
    destruct (Z.eq_dec (width image_input) 0) as [Hzero | Hpos].
    { rewrite Hzero. cbn [Z.to_nat unpack_row fst snd].
      split; [trivial |]. intros _. split; [reflexivity | intros i Hi; lia]. }
    assert (Hrow_in : 0 <= bytes_per_line image_input * row
                      /\ bytes_per_line image_input * row
                         + bytes_per_line image_input
                         <= bytes_per_line image_input * height image_input
                      /\ 0 < bytes_per_line image_input).
    { assert (1 <= (width image_input + per - 1) / per).
      { apply Z.div_le_lower_bound; lia. }
      nia. }
    destruct Hrow_in as (Hlow & Hhigh & Hstride).
    assert (Hin : u32 (bytes_per_line image_input * row)
                  = bytes_per_line image_input * row)
      by (apply u32_small; lia).
    pose proof (row_offset_exact _ _ _ row Hgeo ltac:(lia) Hr) as Hout.
    rewrite Hin, Hout.
    assert (Hrow_out : 0 <= bytes_per_line image_output * row
                       /\ bytes_per_line image_output * row
                          + bytes_per_line image_output
                          <= bytes_per_line image_output * height image_input)
      by nia.
    destruct (unpack_row_values
                (fun _ index _ => (SAIL_OK, color index)) color
                (fun _ => False) m (fun _ => True) bits per
                (bits * (per - 1))
                (Z.shiftl (Z.ones bits) (bits * (per - 1)))
                (width image_input) r g b a Ht Hbits8 Hper
                ltac:(reflexivity)
                ltac:(right; split; [lia | split; reflexivity])
                (Z.to_nat (width image_input)) (bytes row)
                (pixels image_input + bytes_per_line image_input * row) 0
                (pixels image_output + bytes_per_line image_output * row)
                rgba0 m1)
      as (rgba' & m' & Hloop & Hvalues & _);
      [| | intros q [] | intros q _ [] | trivial |].
    - lia.
    - intros j Hj Hmore.
      replace (Z.max 0 (width image_input - 0)) with (width image_input)
        in * by lia.
      assert (Hj' : j < bytes_per_line image_input).
      { assert (j + 1 <= (width image_input + per - 1) / per)
          by (apply Z.div_le_lower_bound; lia).
        lia. }
      split.
      + unfold bytes, load8. f_equal. apply Hm1. unfold rows_done. lia.
      + lia.
    - unfold color in Hloop. rewrite Hloop. cbn [fst snd].
      split; [trivial |]. intros _. split; [reflexivity |].
      intros i Hi. apply Hvalues. lia. }
  cbv zeta. destruct (Hgives ltac:(trivial)) as [Hstatus Hpix].
  split; [exact Hstatus |].
  intros row i Hr Hi. specialize (Hpix row i Hr Hi).
  unfold color, bytes in Hpix.
  rewrite spread_gray8_to_rgba64_exact in Hpix.
  unfold pixel_holds, channels_of in Hpix.
  cbn [component1 component2 component3 component4] in Hpix.
  pose proof (packed_sample_range bits
                (load8 m (pixels image_input
                          + bytes_per_line image_input * row + i / per))
                (per - 1 - i mod per) Hbits8) as [Hrange _].
  rewrite (gray_level_full_scale bits _ Hbits Hrange) in Hpix.
  unfold packed_sample in Hpix. exact Hpix.
Qed.

Lemma convert_row_packed_indexed (image_input : sail_image)
    (bits scan_input scan_output r g b a : Z) (rgba : sail_rgba64_t)
    (m : mem) :
  (pixel_format image_input = SAIL_PIXEL_FORMAT_BPP1_INDEXED /\ bits = 1
   \/ pixel_format image_input = SAIL_PIXEL_FORMAT_BPP2_INDEXED /\ bits = 2
   \/ pixel_format image_input = SAIL_PIXEL_FORMAT_BPP4_INDEXED
      /\ bits = 4) ->
  convert_row image_input scan_input scan_output r g b a rgba m
  = unpack_row (Z.to_nat (width image_input))
      (fun m index rgba =>
         resolve_index m (palette image_input) index rgba)
      bits (bits * (8 / bits - 1))
      (Z.shiftl (Z.ones bits) (bits * (8 / bits - 1)))
      scan_input 0 (width image_input) scan_output r g b a rgba m.
Proof.
  intros [[Hpf ->] | [[Hpf ->] | [Hpf ->]]]; unfold convert_row;
    rewrite Hpf; reflexivity.
Qed.

(** X24. A 1-, 2- or 4-bit indexed image with a palette of 24-bit RGB or
    32-bit RGBA entries, converted into a buffer that overlaps neither the
    input rows nor the palette: when every sample of the image is an index
    below the color count, as it is with a palette of [2 ^ bits] colors, the
    conversion succeeds and pixel [i] of a row holds 257 times the bytes of
    the palette entry that the sample selects, the samples of a byte taken
    from the most significant one on; a target alpha slot holds 65535 for a
    palette without alpha. *)
Theorem packed_indexed_through_palette
    (image_input image_output : sail_image) (pal : sail_palette)
    (output_pixel_format : SailPixelFormat) (bits n r g b a : Z)
    (rgba : sail_rgba64_t) (m : mem) :
  (pixel_format image_input = SAIL_PIXEL_FORMAT_BPP1_INDEXED /\ bits = 1
   \/ pixel_format image_input = SAIL_PIXEL_FORMAT_BPP2_INDEXED /\ bits = 2
   \/ pixel_format image_input = SAIL_PIXEL_FORMAT_BPP4_INDEXED
      /\ bits = 4) ->
  palette image_input = Some pal ->
  (palette_pixel_format pal = SAIL_PIXEL_FORMAT_BPP24_RGB /\ n = 3
   \/ palette_pixel_format pal = SAIL_PIXEL_FORMAT_BPP32_RGBA /\ n = 4) ->
  verify_and_construct_rgba64_indexes output_pixel_format
  = (SAIL_OK, (r, g, b, a)) ->
  rows_apart (width image_input) (height image_input)
             (bytes_per_line image_output) ->
  let per := 8 / bits in
  (width image_input + per - 1) / per <= bytes_per_line image_input ->
  bytes_per_line image_input * height image_input <= 4294967296 ->
  (pixels image_input + bytes_per_line image_input * height image_input
   <= pixels image_output
   \/ pixels image_output + bytes_per_line image_output * height image_input
      <= pixels image_input) ->
  n * color_count pal <= 4294967296 ->
  (forall q, palette_data pal <= q < palette_data pal + n * color_count pal ->
             ~ in_output_buffer image_input image_output q) ->
  let index row i :=
    (load8 m (pixels image_input + bytes_per_line image_input * row + i / per)
     / 2 ^ (bits * (per - 1 - i mod per))) mod 2 ^ bits in
  (forall row i,
     0 <= row < height image_input -> 0 <= i < width image_input ->
     index row i < color_count pal) ->
  let result := to_bpp64_rgba_kind image_input r g b a image_output rgba m in
  fst result = SAIL_OK
  /\ forall row i,
       0 <= row < height image_input -> 0 <= i < width image_input ->
       let entry := palette_data pal + n * index row i in
       let target := pixels image_output + bytes_per_line image_output * row
                     + 8 * i in
       load16 E (snd result) (target + 2 * r) = load8 m entry * 257
       /\ load16 E (snd result) (target + 2 * g) = load8 m (entry + 1) * 257
       /\ load16 E (snd result) (target + 2 * b) = load8 m (entry + 2) * 257
       /\ (0 <= a ->
           load16 E (snd result) (target + 2 * a)
           = if n =? 3 then 65535 else load8 m (entry + 3) * 257).
Proof.
  intros Hformat Hpal Hentries Htable Hgeo per Hline Hsize Hapart Hpsize
         Hpalette index Hindexes.
  pose proof (verify_and_construct_table _ _ _ _ _ Htable) as Ht.
  pose proof Hgeo as (Hw & Hh & Hgeo').
  assert (Hn : n = 3 \/ n = 4)
    by (destruct Hentries as [[_ ->] | [_ ->]]; lia).
  assert (Hbits : bits = 1 \/ bits = 2 \/ bits = 4).
  { destruct Hformat as [[_ ->] | [[_ ->] | [_ ->]]]; lia. }
  assert (Hper : 0 < bits <= 8 /\ bits * per = 8 /\ 0 < per).
  { unfold per. destruct Hbits as [-> | [-> | ->]]; cbn; lia. }
  destruct Hper as (Hbits8 & Hper & Hper_pos).
  set (bytes := fun row j =>
         load8 m (pixels image_input + bytes_per_line image_input * row + j)).
  set (region := fun q =>
         palette_data pal <= q < palette_data pal + n * color_count pal).
  assert (Hsample : forall m' idx rgba',
            (forall q, region q -> m' q = m q) ->
            0 <= idx < color_count pal ->
            resolve_index m' (palette image_input) idx rgba'
            = (SAIL_OK, palette_color m pal n idx)).
  { intros m' idx rgba' Hagree Hidx. rewrite Hpal. unfold resolve_index.
    rewrite (get_palette_rgba64_color m' pal n) by (assumption || lia).
    f_equal. apply palette_color_local; [exact Hn |].
    intros q Hq. apply Hagree. unfold region.
    assert (n * (idx + 1) <= n * color_count pal)
      by (apply Z.mul_le_mono_nonneg_l; lia).
    lia. }
  pose proof (to_bpp64_rgba_kind_row_by_row image_input image_output
                r g b a m
                (fun row i =>
                   channels_of
                     (palette_color m pal n
                        (packed_sample bits (bytes row (i / per))
                                       (per - 1 - i mod per))))
                (fun _ => True) Ht Hgeo) as Hrows.
  cbv zeta in Hrows.
  destruct (fun H => Hrows H rgba) as [_ Hgives]; clear Hrows.
  { intros row rgba0 m1 Hr Hm1.
    rewrite (convert_row_packed_indexed image_input bits) by exact Hformat.
    fold per.
    destruct (Z.eq_dec (width image_input) 0) as [Hzero | Hpos].
    { rewrite Hzero. cbn [Z.to_nat unpack_row fst snd].
      split; [trivial |]. intros _. split; [reflexivity | intros i Hi; lia]. }
    assert (Hrow_in : 0 <= bytes_per_line image_input * row
                      /\ bytes_per_line image_input * row
                         + bytes_per_line image_input
                         <= bytes_per_line image_input * height image_input
                      /\ 0 < bytes_per_line image_input).
    { assert (1 <= (width image_input + per - 1) / per).
      { apply Z.div_le_lower_bound; lia. }
      nia. }
    destruct Hrow_in as (Hlow & Hhigh & Hstride).
    assert (Hin : u32 (bytes_per_line image_input * row)
                  = bytes_per_line image_input * row)
      by (apply u32_small; lia).
    pose proof (row_offset_exact _ _ _ row Hgeo ltac:(lia) Hr) as Hout.
    rewrite Hin, Hout.
    assert (Hrow_out : 0 <= bytes_per_line image_output * row
                       /\ bytes_per_line image_output * row
                          + bytes_per_line image_output
                          <= bytes_per_line image_output * height image_input)
      by nia.
    destruct (unpack_row_values
                (fun m index rgba =>
                   resolve_index m (palette image_input) index rgba)
                (palette_color m pal n) region m
                (fun idx => 0 <= idx < color_count pal) bits per
                (bits * (per - 1))
                (Z.shiftl (Z.ones bits) (bits * (per - 1)))
                (width image_input) r g b a Ht Hbits8 Hper Hsample
                ltac:(right; split; [lia | split; reflexivity])
                (Z.to_nat (width image_input)) (bytes row)
                (pixels image_input + bytes_per_line image_input * row) 0
                (pixels image_output + bytes_per_line image_output * row)
                rgba0 m1)
      as (rgba' & m' & Hloop & Hvalues & _).
    - lia.
    - intros j Hj Hmore.
      replace (Z.max 0 (width image_input - 0)) with (width image_input)
        in * by lia.
      assert (Hj' : j < bytes_per_line image_input).
      { assert (j + 1 <= (width image_input + per - 1) / per)
          by (apply Z.div_le_lower_bound; lia).
        lia. }
      split.
      + unfold bytes, load8. f_equal. apply Hm1. unfold rows_done. lia.
      + lia.
    - intros q Hq. apply Hm1. intros Hdone. apply (Hpalette q Hq).
      unfold rows_done in Hdone. unfold in_output_buffer.
      assert (bytes_per_line image_output * row
              <= bytes_per_line image_output * height image_input)
        by (apply Z.mul_le_mono_nonneg_l; lia).
      lia.
    - intros q Hq Hregion.
      replace (Z.max 0 (width image_input - 0)) with (width image_input)
        in Hq by lia.
      apply (Hpalette q Hregion). unfold in_output_buffer. nia.
    - intros t Ht0.
      replace (Z.max 0 (width image_input - 0)) with (width image_input)
        in Ht0 by lia.
      split.
      + apply packed_sample_range. exact Hbits8.
      + apply (Hindexes row t Hr Ht0).
    - rewrite Hloop. cbn [fst snd].
      split; [trivial |]. intros _. split; [reflexivity |].
      intros i Hi. apply Hvalues. lia. }
  cbv zeta. destruct (Hgives ltac:(trivial)) as [Hstatus Hpix].
  split; [exact Hstatus |].
  intros row i Hr Hi. specialize (Hpix row i Hr Hi).
  unfold pixel_holds, channels_of, palette_color, bytes, packed_sample
    in Hpix.
  cbn [component1 component2 component3 component4] in Hpix.
  rewrite !promote_load8 in Hpix.
  destruct Hpix as (Hr16 & Hg16 & Hb16 & Ha16).
  unfold index.
  split; [exact Hr16 |]. split; [exact Hg16 |]. split; [exact Hb16 |].
  intros Ha. rewrite (Ha16 Ha).
  destruct (n =? 3); [reflexivity | apply promote_load8].
Qed.

End Engine.

(** ** Runs on concrete images *)

(** A collaborator set for the runs below: a naive CMYK and YCbCr
    conversion, a skeleton copy that keeps every field but the pixel buffer,
    and an allocator that hands out the block at address 2000. *)
Definition sample_cmyk32_to_rgb24 (c m y k : Z) : Z * Z * Z :=
  ((255 - c) * (255 - k) / 255, (255 - m) * (255 - k) / 255,
   (255 - y) * (255 - k) / 255).

Definition sample_ycbcr_to_rgb (y cb cr : Z) : Z * Z * Z :=
  (y + (cr - 128), y - (cb - 128) / 2 - (cr - 128) / 2, y + (cb - 128)).

Definition sample_copy_image_skeleton (image : sail_image)
  : sail_status_t * sail_image :=
  (SAIL_OK, with_pixels image 0).

Definition sample_malloc (size : Z) : sail_status_t * Z := (SAIL_OK, 2000).

Definition convert (E : byte_order) :=
  sail_convert_image_to_bpp64_rgba_kind E sample_cmyk32_to_rgb24
    sample_ycbcr_to_rgb sample_copy_image_skeleton sample_malloc.

Definition convert_in_place (E : byte_order) :=
  sail_convert_image_to_bpp64_rgba_kind_in_place E sample_cmyk32_to_rgb24
    sample_ycbcr_to_rgb.

(** One 64-bit pixel at address 1000 whose four channels are 257, 514, 771
    and 1028 in either byte order; everything else is zero. *)
Definition sample_pixel_memory : mem :=
  mem_of_list 1000 [1; 1; 2; 2; 3; 3; 4; 4].

Definition sample_64_bit_image (pf : SailPixelFormat) : sail_image :=
  {| pixels := 1000; width := 1; height := 1; bytes_per_line := 8;
     pixel_format := pf; palette := None; source_image := None;
     resolution := None |}.

(** One 24-bit RGB pixel (255, 0, 128) at address 1000. *)
Definition sample_rgb_memory : mem := mem_of_list 1000 [255; 0; 128].

Definition sample_rgb_image : sail_image :=
  {| pixels := 1000; width := 1; height := 1; bytes_per_line := 3;
     pixel_format := SAIL_PIXEL_FORMAT_BPP24_RGB; palette := None;
     source_image := None; resolution := None |}.

(** The local [rgba] of [to_bpp64_rgba_kind] before its first assignment. *)
Definition stale_rgba : sail_rgba64_t :=
  {| component1 := 11; component2 := 22; component3 := 33;
     component4 := 44 |}.

(** The indexed image of the example above with its palette tagged as
    24-bit BGR entries. *)
Definition sample_bgr_palette : sail_palette :=
  {| palette_pixel_format := SAIL_PIXEL_FORMAT_BPP24_BGR;
     palette_data := 5000; color_count := 3 |}.

Definition sample_bgr_indexed_image : sail_image :=
  {| pixels := 1000; width := 1; height := 1; bytes_per_line := 1;
     pixel_format := SAIL_PIXEL_FORMAT_BPP8_INDEXED;
     palette := Some sample_bgr_palette; source_image := None;
     resolution := None |}.

(** The example of the specification through the allocating entry point:
    index 0 of the palette whose first entry is (255, 0, 128), converted to
    BPP64-RGBA. *)
Example indexed_pixel_to_rgba64 :
  match convert LittleEndian sample_indexed_image
          SAIL_PIXEL_FORMAT_BPP64_RGBA true stale_rgba
          sample_indexed_memory with
  | (status, Some image, m') =>
      (status, pixels image, bytes_per_line image,
       map (load16 LittleEndian m') [2000; 2002; 2004; 2006])
      = (SAIL_OK, 2000, 8, [65535; 0; 32896; 65535])
  | _ => False
  end.
Proof. vm_compute. reflexivity. Qed.

(** A 2-bit grayscale row of five pixels is unpacked most significant bits
    first and spread by 85 then 257. *)
Example gray2_row_to_rgba64 :
  let image :=
    {| pixels := 1000; width := 5; height := 1; bytes_per_line := 2;
       pixel_format := SAIL_PIXEL_FORMAT_BPP2_GRAYSCALE; palette := None;
       source_image := None; resolution := None |} in
  match convert LittleEndian image SAIL_PIXEL_FORMAT_BPP64_RGBA true
          stale_rgba (mem_of_list 1000 [27; 192]) with
  | (status, _, m') =>
      (status,
       map (load16 LittleEndian m') [2000; 2008; 2016; 2024; 2032; 2040])
      = (SAIL_OK, [0; 21845; 43690; 65535; 65535; 0])
  end.
Proof. vm_compute. reflexivity. Qed.

(** An in-place conversion between two 64-bit kinds permutes the channels of
    every pixel where it lies. *)
Example in_place_rgba_to_bgra :
  match convert_in_place BigEndian
          (sample_64_bit_image SAIL_PIXEL_FORMAT_BPP64_RGBA)
          SAIL_PIXEL_FORMAT_BPP64_BGRA stale_rgba sample_pixel_memory with
  | (status, image, m') =>
      (status, pixels image, pixel_format image,
       map (load16 BigEndian m') [1000; 1002; 1004; 1006])
      = (SAIL_OK, 1000, SAIL_PIXEL_FORMAT_BPP64_BGRA, [771; 514; 257; 1028])
  end.
Proof. vm_compute. reflexivity. Qed.

(** C2, counterexample. A BPP64-RGBA pixel with alpha 1028 is converted in
    place to BPP64-RGBX: the call returns [SAIL_OK], the descriptor is tagged
    BPP64-RGBX, and the padding slot still holds 1028, not 65535. *)
Lemma padding_slot_counterexample :
  let result E :=
    convert_in_place E (sample_64_bit_image SAIL_PIXEL_FORMAT_BPP64_RGBA)
      SAIL_PIXEL_FORMAT_BPP64_RGBX stale_rgba sample_pixel_memory in
  let slot := 1000 + 2 * padding_index SAIL_PIXEL_FORMAT_BPP64_RGBX in
  (fst (fst (result LittleEndian)) = SAIL_OK
   /\ pixel_format (snd (fst (result LittleEndian)))
      = SAIL_PIXEL_FORMAT_BPP64_RGBX
   /\ load16 LittleEndian (snd (result LittleEndian)) slot = 1028
   /\ load16 LittleEndian (snd (result LittleEndian)) slot <> 65535)
  /\ (fst (fst (result BigEndian)) = SAIL_OK
      /\ pixel_format (snd (fst (result BigEndian)))
         = SAIL_PIXEL_FORMAT_BPP64_RGBX
      /\ load16 BigEndian (snd (result BigEndian)) slot = 1028
      /\ load16 BigEndian (snd (result BigEndian)) slot <> 65535).
Proof. vm_compute. repeat split; congruence. Qed.

(** C8, counterexample. A BPP64-RGBX pixel whose padding slot holds 1028 is
    converted to BPP64-RGBX by the allocating entry point into a fresh buffer
    that holds zeros: the call returns [SAIL_OK] and the two bytes of the
    padding slot of the result are 0, not the 4 and 4 of the source. *)
Lemma same_format_counterexample :
  let m := sample_pixel_memory in
  let image := sample_64_bit_image SAIL_PIXEL_FORMAT_BPP64_RGBX in
  let result E :=
    convert E image SAIL_PIXEL_FORMAT_BPP64_RGBX true stale_rgba m in
  let copied E :=
    (fst (fst (result E)), option_map pixels (snd (fst (result E))),
     map (load8 (snd (result E))) [2000; 2001; 2002; 2003; 2004; 2005],
     map (load8 (snd (result E))) [2006; 2007]) in
  copied LittleEndian = (SAIL_OK, Some 2000, [1; 1; 2; 2; 3; 3], [0; 0])
  /\ copied BigEndian = (SAIL_OK, Some 2000, [1; 1; 2; 2; 3; 3], [0; 0])
  /\ map (load8 m) [1000; 1001; 1002; 1003; 1004; 1005; 1006; 1007]
     = [1; 1; 2; 2; 3; 3; 4; 4].
Proof. vm_compute. repeat split; reflexivity. Qed.

(** C4, at the failing input. The palette stores 24-bit BGR entries and the
    index 0 is in range: [get_palette_rgba64] returns [SAIL_OK] and leaves the
    color as it was, and the conversion of the indexed pixel returns
    [SAIL_OK] with the stale content of the local [rgba] in the output
    pixel. *)
Lemma unsupported_palette_resolves :
  get_palette_rgba64 sample_indexed_memory sample_bgr_palette 0 stale_rgba
  = (SAIL_OK, stale_rgba)
  /\ match convert LittleEndian sample_bgr_indexed_image
             SAIL_PIXEL_FORMAT_BPP64_RGBA true stale_rgba
             sample_indexed_memory with
     | (status, _, m') =>
         (status, map (load16 LittleEndian m') [2000; 2002; 2004; 2006])
         = (SAIL_OK, [11; 22; 33; 44])
     end.
Proof. split; vm_compute; reflexivity. Qed.

(** ** The theorems at concrete inputs *)

Lemma eight_bit_channels_times_257_witness :
  let result :=
    to_bpp64_rgba_kind LittleEndian sample_cmyk32_to_rgb24 sample_ycbcr_to_rgb
      sample_rgb_image 0 1 2 3
      (sample_output_image SAIL_PIXEL_FORMAT_BPP64_RGBA) stale_rgba
      sample_rgb_memory in
  fst result = SAIL_OK
  /\ load16 LittleEndian (snd result) 2000 = 65535
  /\ load16 LittleEndian (snd result) 2002 = 0
  /\ load16 LittleEndian (snd result) 2004 = 32896
  /\ load16 LittleEndian (snd result) 2006 = 65535.
Proof.
  destruct (eight_bit_channels_times_257 LittleEndian sample_cmyk32_to_rgb24
              sample_ycbcr_to_rgb) as (_ & _ & _ & _ & _ & Hconv & _).
  destruct (Hconv sample_rgb_image
              (sample_output_image SAIL_PIXEL_FORMAT_BPP64_RGBA)
              (rgb_bytes 0 1 2) 3 SAIL_PIXEL_FORMAT_BPP64_RGBA 0 1 2 3
              stale_rgba sample_rgb_memory)
    as (Hstatus & Hpix).
  - reflexivity.
  - reflexivity.
  - unfold rows_apart. simpl. lia.
  - unfold separate_buffers. simpl. lia.
  - split; [exact Hstatus |].
    assert (Hrow : 0 <= 0 < height sample_rgb_image) by (simpl; lia).
    assert (Hcol : 0 <= 0 < width sample_rgb_image) by (simpl; lia).
    pose proof (Hpix 0 0 Hrow Hcol) as Hpixel.
    cbv beta iota zeta delta [rgb_bytes] in Hpixel.
    destruct Hpixel as (_ & Hr & Hg & Hb & Ha).
    split; [exact Hr |]. split; [exact Hg |]. split; [exact Hb |].
    apply Ha. lia.
Defined.

Lemma padding_slot_not_written_witness :
  load16 LittleEndian
    (snd (convert_in_place LittleEndian
            (sample_64_bit_image SAIL_PIXEL_FORMAT_BPP64_RGBA)
            SAIL_PIXEL_FORMAT_BPP64_RGBX stale_rgba sample_pixel_memory))
    1006
  = load16 LittleEndian sample_pixel_memory 1006.
Proof.
  destruct (padding_slot_not_written LittleEndian sample_cmyk32_to_rgb24
              sample_ycbcr_to_rgb sample_copy_image_skeleton sample_malloc
              SAIL_PIXEL_FORMAT_BPP64_RGBX 0 1 2 (-1) stale_rgba
              sample_pixel_memory 0 0 eq_refl eq_refl)
    as (_ & Hplace & _).
  apply (Hplace (sample_64_bit_image SAIL_PIXEL_FORMAT_BPP64_RGBA)).
  - unfold rows_apart. simpl. lia.
  - simpl. lia.
  - simpl. lia.
Defined.

Lemma get_palette_rgba64_bounds_witness :
  fst (get_palette_rgba64 sample_indexed_memory sample_palette 2 stale_rgba)
  = SAIL_OK
  /\ fst (get_palette_rgba64 sample_indexed_memory sample_palette 3 stale_rgba)
     = SAIL_ERROR_BROKEN_IMAGE.
Proof.
  split.
  - apply (proj2 (proj2 (get_palette_rgba64_bounds sample_indexed_memory
                           sample_palette 2 stale_rgba))).
    simpl. lia.
  - apply (proj1 (get_palette_rgba64_bounds sample_indexed_memory
                    sample_palette 3 stale_rgba)).
    simpl. lia.
Defined.

Lemma in_place_needs_fitting_target_witness :
  convert_in_place LittleEndian sample_rgb_image SAIL_PIXEL_FORMAT_BPP64_RGBA
                   stale_rgba sample_rgb_memory
  = (SAIL_ERROR_UNSUPPORTED_PIXEL_FORMAT, sample_rgb_image, sample_rgb_memory)
  /\ (let result :=
        convert_in_place LittleEndian
          (sample_64_bit_image SAIL_PIXEL_FORMAT_BPP64_RGBA)
          SAIL_PIXEL_FORMAT_BPP64_BGRA stale_rgba sample_pixel_memory in
      fst (fst result) = SAIL_OK
      /\ pixels (snd (fst result)) = 1000
      /\ load16 LittleEndian (snd result) 1004
         = load16 LittleEndian sample_pixel_memory 1000).
Proof.
  split.
  - apply (proj1 (in_place_needs_fitting_target LittleEndian
                    sample_cmyk32_to_rgb24 sample_ycbcr_to_rgb
                    sample_rgb_image SAIL_PIXEL_FORMAT_BPP64_RGBA 0 1 2 3
                    stale_rgba sample_rgb_memory eq_refl eq_refl)).
    simpl. lia.
  - destruct (proj2 (in_place_needs_fitting_target LittleEndian
                       sample_cmyk32_to_rgb24 sample_ycbcr_to_rgb
                       (sample_64_bit_image SAIL_PIXEL_FORMAT_BPP64_RGBA)
                       SAIL_PIXEL_FORMAT_BPP64_BGRA 2 1 0 3 stale_rgba
                       sample_pixel_memory eq_refl eq_refl))
      as (Hkept & _ & _ & ri & gi & bi & ai & Hsource & Hstatus & _ & Hpix).
    + simpl. lia.
    + cbv zeta. split; [exact Hstatus |]. split; [exact Hkept |].
      simpl in Hsource. inversion Hsource; subst ri gi bi ai.
      destruct (Hpix ltac:(unfold rows_apart; simpl; lia) 0 0) as (Hr & _);
        [simpl; lia | simpl; lia |].
      exact Hr.
Defined.

Lemma same_format_conversion_witness :
  convert_in_place LittleEndian
    (sample_64_bit_image SAIL_PIXEL_FORMAT_BPP64_ARGB)
    SAIL_PIXEL_FORMAT_BPP64_ARGB stale_rgba sample_pixel_memory
  = (SAIL_OK, sample_64_bit_image SAIL_PIXEL_FORMAT_BPP64_ARGB,
     sample_pixel_memory)
  /\ exists image_local m',
       convert LittleEndian (sample_64_bit_image SAIL_PIXEL_FORMAT_BPP64_ARGB)
               SAIL_PIXEL_FORMAT_BPP64_ARGB true stale_rgba sample_pixel_memory
       = (SAIL_OK, Some image_local, m')
       /\ pixels image_local = 2000
       /\ same_bytes m' sample_pixel_memory 2000 1000 2.
Proof.
  destruct (same_format_conversion LittleEndian sample_cmyk32_to_rgb24
              sample_ycbcr_to_rgb sample_copy_image_skeleton sample_malloc
              (sample_64_bit_image SAIL_PIXEL_FORMAT_BPP64_ARGB) 1 2 3 0
              stale_rgba sample_pixel_memory eq_refl eq_refl)
    as [Hplace Halloc].
  split; [exact Hplace |].
  destruct (Halloc (with_pixels
                      (sample_64_bit_image SAIL_PIXEL_FORMAT_BPP64_ARGB) 0)
                   2000)
    as (image_local & m' & Hrun & Hpixels & _ & _ & Hbytes).
  - reflexivity.
  - reflexivity.
  - reflexivity.
  - reflexivity.
  - simpl. lia.
  - unfold rows_apart. simpl. lia.
  - simpl. lia.
  - exists image_local, m'.
    split; [exact Hrun |]. split; [exact Hpixels |].
    destruct (Hbytes 0 0 0) as [Hwritten _]; simpl; try lia.
    simpl in Hwritten. apply Hwritten. unfold written_channel. lia.
Defined.

(** ** Further runs of the theorems *)

(** A one-pixel image of the given format and stride over the bytes at
    address 1000. *)
Definition sample_image_of (pf : SailPixelFormat) (stride : Z) : sail_image :=
  {| pixels := 1000; width := 1; height := 1; bytes_per_line := stride;
     pixel_format := pf; palette := None; source_image := None;
     resolution := None |}.

Definition worker (E : byte_order) :=
  to_bpp64_rgba_kind E sample_cmyk32_to_rgb24 sample_ycbcr_to_rgb.

Lemma in_place_permutes_channels_witness :
  let result :=
    convert_in_place LittleEndian
      (sample_64_bit_image SAIL_PIXEL_FORMAT_BPP64_RGBA)
      SAIL_PIXEL_FORMAT_BPP64_BGRA stale_rgba sample_pixel_memory in
  fst (fst result) = SAIL_OK
  /\ load16 LittleEndian (snd result) 1004
     = load16 LittleEndian sample_pixel_memory 1000.
Proof.
  destruct (in_place_permutes_channels LittleEndian sample_cmyk32_to_rgb24
              sample_ycbcr_to_rgb
              (sample_64_bit_image SAIL_PIXEL_FORMAT_BPP64_RGBA)
              SAIL_PIXEL_FORMAT_BPP64_BGRA 0 1 2 3 2 1 0 3 stale_rgba
              sample_pixel_memory eq_refl eq_refl eq_refl)
    as (Hstatus & _ & Hpix).
  - unfold rows_apart. simpl. lia.
  - split; [exact Hstatus |].
    destruct (Hpix 0 0) as (Hr & _); [simpl; lia | simpl; lia |].
    exact Hr.
Defined.

Lemma gray16_copied_unscaled_witness :
  let result :=
    worker LittleEndian
      (sample_image_of SAIL_PIXEL_FORMAT_BPP16_GRAYSCALE 2) 0 1 2 3
      (sample_output_image SAIL_PIXEL_FORMAT_BPP64_RGBA) stale_rgba
      sample_pixel_memory in
  fst result = SAIL_OK
  /\ load16 LittleEndian (snd result) 2000
     = load16 LittleEndian sample_pixel_memory 1000.
Proof.
  destruct (gray16_copied_unscaled LittleEndian sample_cmyk32_to_rgb24
              sample_ycbcr_to_rgb
              (sample_image_of SAIL_PIXEL_FORMAT_BPP16_GRAYSCALE 2)
              (sample_output_image SAIL_PIXEL_FORMAT_BPP64_RGBA)
              SAIL_PIXEL_FORMAT_BPP64_RGBA 0 1 2 3 stale_rgba
              sample_pixel_memory 2)
    as (Hstatus & Hpix).
  - left. split; reflexivity.
  - reflexivity.
  - unfold rows_apart. simpl. lia.
  - unfold separate_buffers. simpl. lia.
  - split; [exact Hstatus |].
    destruct (Hpix 0 0) as (Hr & _); [simpl; lia | simpl; lia |].
    exact Hr.
Defined.

Lemma rgb48_multiplied_and_truncated_witness :
  let result :=
    worker LittleEndian (sample_image_of SAIL_PIXEL_FORMAT_BPP48_RGB 6)
      0 1 2 3 (sample_output_image SAIL_PIXEL_FORMAT_BPP64_RGBA) stale_rgba
      sample_pixel_memory in
  fst result = SAIL_OK
  /\ load16 LittleEndian (snd result) 2000
     = (load16 LittleEndian sample_pixel_memory 1000 * 257) mod 65536.
Proof.
  destruct (rgb48_multiplied_and_truncated LittleEndian sample_cmyk32_to_rgb24
              sample_ycbcr_to_rgb
              (sample_image_of SAIL_PIXEL_FORMAT_BPP48_RGB 6)
              (sample_output_image SAIL_PIXEL_FORMAT_BPP64_RGBA)
              SAIL_PIXEL_FORMAT_BPP64_RGBA 0 1 2 0 1 2 3 stale_rgba
              sample_pixel_memory)
    as (Hstatus & Hpix & _).
  - left. split; reflexivity.
  - reflexivity.
  - unfold rows_apart. simpl. lia.
  - unfold separate_buffers. simpl. lia.
  - split; [exact Hstatus |].
    destruct (Hpix 0 0) as (Hr & _); [simpl; lia | simpl; lia |].
    exact Hr.
Defined.

Lemma rgb555_fields_times_2056_witness :
  let result :=
    worker LittleEndian (sample_image_of SAIL_PIXEL_FORMAT_BPP16_BGR555 2)
      0 1 2 3 (sample_output_image SAIL_PIXEL_FORMAT_BPP64_RGBA) stale_rgba
      sample_pixel_memory in
  fst result = SAIL_OK
  /\ load16 LittleEndian (snd result) 2002
     = 2056 * ((load16 LittleEndian sample_pixel_memory 1000 / 2 ^ 5) mod 32).
Proof.
  destruct (rgb555_fields_times_2056 LittleEndian sample_cmyk32_to_rgb24
              sample_ycbcr_to_rgb
              (sample_image_of SAIL_PIXEL_FORMAT_BPP16_BGR555 2)
              (sample_output_image SAIL_PIXEL_FORMAT_BPP64_RGBA)
              SAIL_PIXEL_FORMAT_BPP64_RGBA 10 5 0 0 1 2 3 stale_rgba
              sample_pixel_memory)
    as (Hstatus & Hpix).
  - right. split; reflexivity.
  - reflexivity.
  - unfold rows_apart. simpl. lia.
  - unfold separate_buffers. simpl. lia.
  - split; [exact Hstatus |].
    destruct (Hpix 0 0) as (_ & Hg & _); [simpl; lia | simpl; lia |].
    exact Hg.
Defined.

Lemma to_bpp64_rgba_kind_outcomes_witness :
  fst (worker BigEndian sample_rgb_image 0 1 2 3
         (sample_output_image SAIL_PIXEL_FORMAT_BPP64_RGBA) stale_rgba
         sample_rgb_memory)
  = SAIL_OK
  /\ worker BigEndian (sample_image_of SAIL_PIXEL_FORMAT_BPP16_RGBA 2)
       0 1 2 3 (sample_output_image SAIL_PIXEL_FORMAT_BPP64_RGBA) stale_rgba
       sample_pixel_memory
     = (SAIL_ERROR_UNSUPPORTED_PIXEL_FORMAT, sample_pixel_memory).
Proof.
  split.
  - apply (proj1 (proj2 (to_bpp64_rgba_kind_outcomes BigEndian
                           sample_cmyk32_to_rgb24 sample_ycbcr_to_rgb
                           sample_rgb_image
                           (sample_output_image SAIL_PIXEL_FORMAT_BPP64_RGBA)
                           0 1 2 3 stale_rgba sample_rgb_memory)));
      reflexivity.
  - apply (proj1 (to_bpp64_rgba_kind_outcomes BigEndian
                    sample_cmyk32_to_rgb24 sample_ycbcr_to_rgb
                    (sample_image_of SAIL_PIXEL_FORMAT_BPP16_RGBA 2)
                    (sample_output_image SAIL_PIXEL_FORMAT_BPP64_RGBA)
                    0 1 2 3 stale_rgba sample_pixel_memory)).
    + reflexivity.
    + simpl. lia.
Defined.

Lemma allocating_conversion_outcome_witness :
  convert LittleEndian sample_rgb_image SAIL_PIXEL_FORMAT_BPP24_BGR true
          stale_rgba sample_rgb_memory
  = (SAIL_ERROR_UNSUPPORTED_PIXEL_FORMAT, None, sample_rgb_memory).
Proof.
  apply (proj2 (proj2 (allocating_conversion_outcome LittleEndian
                         sample_cmyk32_to_rgb24 sample_ycbcr_to_rgb
                         sample_copy_image_skeleton sample_malloc
                         sample_rgb_image SAIL_PIXEL_FORMAT_BPP24_BGR true
                         stale_rgba sample_rgb_memory))).
  - reflexivity.
  - reflexivity.
  - simpl. discriminate.
Defined.

Lemma plain_source_always_converts_witness :
  exists image_output m',
    convert LittleEndian sample_rgb_image SAIL_PIXEL_FORMAT_BPP64_ARGB true
            stale_rgba sample_rgb_memory
    = (SAIL_OK, Some image_output, m')
    /\ pixels image_output = 2000.
Proof.
  destruct (plain_source_always_converts LittleEndian sample_cmyk32_to_rgb24
              sample_ycbcr_to_rgb sample_copy_image_skeleton sample_malloc
              sample_rgb_image SAIL_PIXEL_FORMAT_BPP64_ARGB
              (with_pixels sample_rgb_image 0) stale_rgba sample_rgb_memory)
    as (image_output & m' & Hrun & Hpixels & _).
  - reflexivity.
  - reflexivity.
  - reflexivity.
  - reflexivity.
  - reflexivity.
  - intros size. reflexivity.
  - exists image_output, m'. split; [exact Hrun | exact Hpixels].
Defined.

Lemma allocating_conversion_keeps_memory_witness :
  snd (convert BigEndian sample_rgb_image SAIL_PIXEL_FORMAT_BPP64_RGBA true
               stale_rgba sample_rgb_memory) 1000
  = sample_rgb_memory 1000.
Proof.
  apply (allocating_conversion_keeps_memory BigEndian sample_cmyk32_to_rgb24
           sample_ycbcr_to_rgb sample_copy_image_skeleton sample_malloc
           sample_rgb_image SAIL_PIXEL_FORMAT_BPP64_RGBA true stale_rgba
           sample_rgb_memory).
  - intros skeleton Hcopy. injection Hcopy as <-. split; reflexivity.
  - simpl. lia.
  - simpl. lia.
  - simpl. lia.
  - simpl. lia.
  - simpl. lia.
Defined.

Lemma indexed8_through_palette_witness :
  fst (worker LittleEndian sample_indexed_image 0 1 2 3
         (sample_output_image SAIL_PIXEL_FORMAT_BPP64_RGBA) stale_rgba
         sample_indexed_memory)
  = SAIL_OK.
Proof.
  destruct (indexed8_through_palette LittleEndian sample_cmyk32_to_rgb24
              sample_ycbcr_to_rgb sample_indexed_image
              (sample_output_image SAIL_PIXEL_FORMAT_BPP64_RGBA)
              sample_palette SAIL_PIXEL_FORMAT_BPP64_RGBA 3 0 1 2 3
              stale_rgba sample_indexed_memory)
    as (Hiff & _).
  - reflexivity.
  - reflexivity.
  - left. split; reflexivity.
  - reflexivity.
  - unfold rows_apart. simpl. lia.
  - unfold separate_buffers. simpl. lia.
  - simpl. lia.
  - intros q Hq. unfold in_output_buffer. simpl in *. lia.
  - apply Hiff. intros row i Hrow Hi. simpl in Hrow, Hi.
    assert (Hr : row = 0) by lia. assert (Hc : i = 0) by lia.
    rewrite Hr, Hc. vm_compute. reflexivity.
Defined.

(** A row of five 2-bit samples in the bytes 27 and 192, and a target of
    one row of five 64-bit pixels. *)
Definition sample_gray2_image : sail_image :=
  {| pixels := 1000; width := 5; height := 1; bytes_per_line := 2;
     pixel_format := SAIL_PIXEL_FORMAT_BPP2_GRAYSCALE; palette := None;
     source_image := None; resolution := None |}.

Definition sample_gray2_target : sail_image :=
  {| pixels := 2000; width := 5; height := 1; bytes_per_line := 40;
     pixel_format := SAIL_PIXEL_FORMAT_BPP64_RGBA; palette := None;
     source_image := None; resolution := None |}.

Lemma packed_gray_unpacked_witness :
  let result :=
    worker LittleEndian sample_gray2_image 0 1 2 3 sample_gray2_target
      stale_rgba (mem_of_list 1000 [27; 192]) in
  fst result = SAIL_OK
  /\ load16 LittleEndian (snd result) 2008 = 21845
  /\ load16 LittleEndian (snd result) 2032 = 65535.
Proof.
  destruct (packed_gray_unpacked LittleEndian sample_cmyk32_to_rgb24
              sample_ycbcr_to_rgb sample_gray2_image sample_gray2_target
              SAIL_PIXEL_FORMAT_BPP64_RGBA 2 0 1 2 3 stale_rgba
              (mem_of_list 1000 [27; 192]))
    as (Hstatus & Hpix).
  - right. left. split; reflexivity.
  - reflexivity.
  - unfold rows_apart. simpl. lia.
  - vm_compute. discriminate.
  - simpl. lia.
  - simpl. lia.
  - split; [exact Hstatus |].
    destruct (Hpix 0 1) as (Hone & _); [simpl; lia | simpl; lia |].
    destruct (Hpix 0 4) as (Hfour & _); [simpl; lia | simpl; lia |].
    split; [exact Hone | exact Hfour].
Defined.

(** A row of three 1-bit indexes in the byte 160, a palette of two 24-bit
    colors, and a target of one row of three 64-bit pixels. *)
Definition sample_two_colors : sail_palette :=
  {| palette_pixel_format := SAIL_PIXEL_FORMAT_BPP24_RGB;
     palette_data := 5000; color_count := 2 |}.

Definition sample_bitmap_image : sail_image :=
  {| pixels := 1000; width := 3; height := 1; bytes_per_line := 1;
     pixel_format := SAIL_PIXEL_FORMAT_BPP1_INDEXED;
     palette := Some sample_two_colors; source_image := None;
     resolution := None |}.

Definition sample_bitmap_target : sail_image :=
  {| pixels := 2000; width := 3; height := 1; bytes_per_line := 24;
     pixel_format := SAIL_PIXEL_FORMAT_BPP64_RGBA; palette := None;
     source_image := None; resolution := None |}.

Definition sample_bitmap_memory : mem :=
  fun q => if q =? 1000 then 160
           else mem_of_list 5000 [255; 0; 128; 10; 20; 30] q.

Lemma packed_indexed_through_palette_witness :
  let result :=
    worker LittleEndian sample_bitmap_image 0 1 2 3 sample_bitmap_target
      stale_rgba sample_bitmap_memory in
  fst result = SAIL_OK
  /\ load16 LittleEndian (snd result) 2000 = 2570
  /\ load16 LittleEndian (snd result) 2008 = 65535.
Proof.
  destruct (packed_indexed_through_palette LittleEndian
              sample_cmyk32_to_rgb24 sample_ycbcr_to_rgb
              sample_bitmap_image sample_bitmap_target sample_two_colors
              SAIL_PIXEL_FORMAT_BPP64_RGBA 1 3 0 1 2 3 stale_rgba
              sample_bitmap_memory)
    as (Hstatus & Hpix).
  - left. split; reflexivity.
  - reflexivity.
  - left. split; reflexivity.
  - reflexivity.
  - unfold rows_apart. simpl. lia.
  - vm_compute. discriminate.
  - simpl. lia.
  - simpl. lia.
  - simpl. lia.
  - intros q Hq. unfold in_output_buffer. simpl in *. lia.
  - intros row i Hrow Hi. change (color_count sample_two_colors) with (2 ^ 1).
    apply Z.mod_pos_bound. reflexivity.
  - split; [exact Hstatus |].
    destruct (Hpix 0 0) as (Hfirst & _); [simpl; lia | simpl; lia |].
    destruct (Hpix 0 1) as (Hsecond & _); [simpl; lia | simpl; lia |].
    split; [exact Hfirst | exact Hsecond].
Defined.

End Manip.

(** * The C++ palette class *)

Module CppPalette.

(** The private part of a [sail::palette]: the C palette that the constructor
    allocates, [None] when [sail_alloc_palette] failed and the pointer stayed
    null, and the vector that owns the bytes of the entries. The class never
    uses the [data] pointer of the C palette. *)
Record pimpl : Type := {
  pimpl_sail_palette : option sail_palette;
  pimpl_data : list Z
}.

(** The palette objects that exist, by identity: two references to one
    object are one identity. *)
Definition objects : Type := nat -> pimpl.

Definition put (o : objects) (this : nat) (d : pimpl) : objects :=
  fun id => if Nat.eqb id this then d else o id.

(** What a byte pointer, or a reference to a vector of bytes, designates:
    bytes that belong to no palette, or the vector of a palette. *)
Inductive bytes_ref : Type :=
| outside (bytes : list Z)
| data_of (id : nat).

Definition referenced (o : objects) (ref : bytes_ref) : list Z :=
  match ref with
  | outside bytes => bytes
  | data_of id => pimpl_data (o id)
  end.

Definition set_format_and_count (p : sail_palette) (pf : SailPixelFormat)
    (count : Z) : sail_palette :=
  {| palette_pixel_format := pf; palette_data := palette_data p;
     color_count := count |}.

Definition count_of (p : sail_palette) : Z :=
  match p with
  | Build_sail_palette _ _ count => count
  end.

(** The [n] bytes that [memcpy] reads through [data] into the vector of
    [this]. The copy is undefined when the bytes are not all inside what
    [data] designates, and when [data] points into the vector of [this]
    itself: clearing and resizing that vector invalidated the pointer. *)
Definition memcpy_from (o : objects) (this : nat) (data : bytes_ref)
    (n : nat) : option (list Z) :=
  let usable :=
    match data with
    | outside _ => true
    | data_of id => negb (Nat.eqb id this)
    end in
  if usable && (n <=? List.length (referenced o data))%nat
  then Some (firstn n (referenced o data))
  else None.

Section Class.

(** The value of a local variable that was never written. *)
Variable indeterminate_unsigned : Z.

(** The methods take the objects and the identity of [this]; [None] is
    undefined behaviour: a null [sail_palette] dereferenced, an undefined
    copy, a division by zero. *)
Definition is_valid (o : objects) (this : nat) : option bool :=
  match pimpl_data (o this) with
  | [] => Some false
  | _ :: _ =>
      match pimpl_sail_palette (o this) with
      | None => None
      | Some p =>
          Some (negb (pixel_format_eqb (palette_pixel_format p)
                                       SAIL_PIXEL_FORMAT_UNKNOWN)
                && (0 <? count_of p))
      end
  end.

Definition pixel_format (o : objects) (this : nat) : option SailPixelFormat :=
  option_map palette_pixel_format (pimpl_sail_palette (o this)).

Definition data (o : objects) (this : nat) : list Z := pimpl_data (o this).

Definition color_count (o : objects) (this : nat) : option Z :=
  option_map count_of (pimpl_sail_palette (o this)).

Definition copy (o : objects) (this : nat) (pf : SailPixelFormat)
    (source : bytes_ref) (count : Z) : option (sail_status_t * objects) :=
  match sail_bytes_per_line count pf with
  | (SAIL_OK, palette_size) =>
      match memcpy_from o this source (Z.to_nat palette_size) with
      | None => None
      | Some bytes =>
          match pimpl_sail_palette (o this) with
          | None => None
          | Some p =>
              Some (SAIL_OK,
                    put o this
                      {| pimpl_sail_palette :=
                           Some (set_format_and_count p pf count);
                         pimpl_data := bytes |})
          end
      end
  | (err, _) => Some (err, o)
  end.

(** [with_data(SailPixelFormat, const void *, unsigned)]; the status of
    [copy] is suppressed. *)
Definition with_data (o : objects) (this : nat) (pf : SailPixelFormat)
    (source : bytes_ref) (count : Z) : option objects :=
  match pimpl_sail_palette (o this) with
  | None => None
  | Some p =>
      let cleared :=
        put o this
          {| pimpl_sail_palette :=
               Some (set_format_and_count p SAIL_PIXEL_FORMAT_UNKNOWN 0);
             pimpl_data := [] |} in
      if pixel_format_eqb pf SAIL_PIXEL_FORMAT_UNKNOWN then Some cleared
      else
        match copy cleared this pf source count with
        | None => None
        | Some (_, o') => Some o'
        end
  end.

(** [with_data(SailPixelFormat, const arbitrary_data &)]: the status of
    [sail_bits_per_pixel] is suppressed, so that after a failure the bits
    are those of the unwritten local; the size of the vector is divided as
    a [size_t] and passed as an [unsigned]. *)
Definition with_data_arbitrary (o : objects) (this : nat)
    (pf : SailPixelFormat) (source : bytes_ref) : option objects :=
  let bits_per_pixel :=
    match sail_bits_per_pixel pf with
    | (SAIL_OK, bits) => bits
    | _ => indeterminate_unsigned
    end in
  let bytes_per_pixel := u32 (bits_per_pixel + 7) / 8 in
  if bytes_per_pixel =? 0 then None
  else
    with_data o this pf source
      (u32 (Z.of_nat (List.length (referenced o source)) / bytes_per_pixel)).

(** [operator=(const sail::palette &)]. *)
Definition operator_assign (o : objects) (this other : nat)
  : option objects :=
  match pixel_format o other with
  | None => None
  | Some pf => with_data_arbitrary o this pf (data_of other)
  end.

(** ** Properties *)

Lemma put_same (o : objects) (this : nat) (d : pimpl) : put o this d this = d.
Proof. unfold put. now rewrite Nat.eqb_refl. Qed.

Lemma put_other (o : objects) (this id : nat) (d : pimpl) :
  id <> this -> put o this d id = o id.
Proof.
  intros H. unfold put. apply Nat.eqb_neq in H. now rewrite H.
Qed.

Lemma known_format (pf : SailPixelFormat) (bits : Z) :
  sail_bits_per_pixel pf = (SAIL_OK, bits) ->
  pixel_format_eqb pf SAIL_PIXEL_FORMAT_UNKNOWN = false /\ 1 <= bits <= 64.
Proof.
  destruct pf; cbn; intros H; inversion H; subst; split;
    try reflexivity; lia.
Qed.

(** What [with_data] leaves behind for a known format when the copy is
    defined. *)
Lemma with_data_known (o : objects) (this : nat) (p : sail_palette)
    (pf : SailPixelFormat) (bits : Z) (source : bytes_ref) (count : Z) :
  pimpl_sail_palette (o this) = Some p ->
  sail_bits_per_pixel pf = (SAIL_OK, bits) ->
  source <> data_of this ->
  let size := Z.to_nat (u32 ((count * bits + 7) / 8)) in
  (size <= List.length (referenced o source))%nat ->
  exists o',
    with_data o this pf source count = Some o'
    /\ o' this
       = {| pimpl_sail_palette := Some (set_format_and_count p pf count);
            pimpl_data := firstn size (referenced o source) |}
    /\ forall id, id <> this -> o' id = o id.
Proof.
  intros Hp Hbits Hsource size Hsize.
  destruct (known_format pf bits Hbits) as [Hknown _].
  unfold with_data. rewrite Hp, Hknown. unfold copy, sail_bytes_per_line.
  rewrite Hbits, put_same. cbn [pimpl_sail_palette].
  assert (Href : referenced
                   (put o this
                      {| pimpl_sail_palette :=
                           Some (set_format_and_count p
                                   SAIL_PIXEL_FORMAT_UNKNOWN 0);
                         pimpl_data := [] |}) source
                 = referenced o source).
  { destruct source as [bytes | id]; cbn [referenced]; [reflexivity |].
    rewrite put_other; [reflexivity |]. intros ->. now apply Hsource. }
  assert (Husable : match source with
                    | outside _ => true
                    | data_of id => negb (Nat.eqb id this)
                    end = true).
  { destruct source as [bytes | id]; [reflexivity |].
    apply Bool.negb_true_iff, Nat.eqb_neq. intros ->. now apply Hsource. }
  unfold memcpy_from. rewrite Href, Husable. fold size.
  apply Nat.leb_le in Hsize. rewrite Hsize. cbn [andb].
  eexists. split; [reflexivity |]. split.
  - rewrite put_same. reflexivity.
  - intros id Hid. now rewrite !put_other.
Qed.

(** X25. [with_data] from bytes outside the palettes, on a palette whose C
    palette was allocated, with as many bytes readable as the entries take:
    the call is defined and touches no other palette. With the unknown
    format the palette is emptied: no data, no colors, unknown format. With
    a known format the palette takes the format and the color count as
    given, and as its data the first [(count * bits + 7) / 8] bytes. Either
    way the palette is valid afterwards exactly when the format is known and
    the color count is not zero. *)
Theorem with_data_outcome (o : objects) (this : nat) (p : sail_palette)
    (pf : SailPixelFormat) (bytes : list Z) (count : Z) :
  pimpl_sail_palette (o this) = Some p ->
  0 <= count ->
  (forall bits,
     sail_bits_per_pixel pf = (SAIL_OK, bits) ->
     (count * bits + 7) / 8 <= Z.of_nat (List.length bytes) < 4294967296) ->
  exists o',
    with_data o this pf (outside bytes) count = Some o'
    /\ (forall id, id <> this -> o' id = o id)
    /\ is_valid o' this
       = Some (negb (pixel_format_eqb pf SAIL_PIXEL_FORMAT_UNKNOWN)
               && (0 <? count))
    /\ (pf = SAIL_PIXEL_FORMAT_UNKNOWN ->
        data o' this = []
        /\ color_count o' this = Some 0
        /\ pixel_format o' this = Some SAIL_PIXEL_FORMAT_UNKNOWN)
    /\ (forall bits,
          sail_bits_per_pixel pf = (SAIL_OK, bits) ->
          pixel_format o' this = Some pf
          /\ color_count o' this = Some count
          /\ data o' this
             = firstn (Z.to_nat ((count * bits + 7) / 8)) bytes).
Proof.
  intros Hp Hcount Hreadable.
  destruct (sail_bits_per_pixel pf) as [status bits] eqn:Hbits.
  destruct (pixel_format_eqb pf SAIL_PIXEL_FORMAT_UNKNOWN) eqn:Hknown.
  - assert (Hpf : pf = SAIL_PIXEL_FORMAT_UNKNOWN)
      by (destruct pf; try discriminate Hknown; reflexivity).
    subst pf. unfold with_data. rewrite Hp. cbn [pixel_format_eqb].
    eexists. split; [reflexivity |].
    split; [intros id Hid; now rewrite put_other |].
    unfold is_valid, data, color_count, pixel_format. rewrite put_same.
    cbn. split; [reflexivity |]. split; [intros _; repeat split |].
    intros bits' Hbits'. cbn in Hbits. congruence.
  - assert (Hstatus : status = SAIL_OK).
    { destruct pf; cbn in Hbits, Hknown; try discriminate Hknown;
        inversion Hbits; reflexivity. }
    subst status.
    destruct (known_format pf bits Hbits) as [_ Hrange].
    specialize (Hreadable bits eq_refl).
    assert (Hsize : 0 <= (count * bits + 7) / 8)
      by (apply Z.div_pos; nia).
    assert (Hu32 : u32 ((count * bits + 7) / 8) = (count * bits + 7) / 8)
      by (unfold u32; apply Z.mod_small; lia).
    destruct (with_data_known o this p pf bits (outside bytes) count Hp
                Hbits ltac:(discriminate)) as (o' & Hrun & Hthis & Hothers).
    { cbn [referenced]. rewrite Hu32. lia. }
    rewrite Hu32 in Hthis. cbn [referenced] in Hthis.
    exists o'. split; [exact Hrun |]. split; [exact Hothers |].
    unfold is_valid, data, color_count, pixel_format. rewrite Hthis.
    cbn [pimpl_data pimpl_sail_palette option_map set_format_and_count
         palette_pixel_format count_of negb andb].
    split; [| split; [intros ->; discriminate Hknown |]].
    + destruct (Z.eq_dec count 0) as [-> | Hpositive].
      * cbn. reflexivity.
      * assert (Hone : 1 <= (count * bits + 7) / 8)
          by (apply Z.div_le_lower_bound; nia).
        destruct bytes as [| byte bytes'].
        { cbn [List.length] in Hreadable. lia. }
        destruct (Z.to_nat ((count * bits + 7) / 8)) as [| n'] eqn:Hn;
          [lia |].
        cbn [firstn]. rewrite Hknown. cbn [negb andb].
        reflexivity.
    + intros bits' Hbits'. inversion Hbits'; subst bits'.
      repeat split.
Qed.

(** What a copy assignment between two palettes leaves behind, for a source
    of a known format. *)
Lemma operator_assign_known (o : objects) (this other : nat)
    (p q : sail_palette) (bits : Z) :
  this <> other ->
  pimpl_sail_palette (o this) = Some p ->
  pimpl_sail_palette (o other) = Some q ->
  sail_bits_per_pixel (palette_pixel_format q) = (SAIL_OK, bits) ->
  let length_of_data := Z.of_nat (List.length (data o other)) in
  let bytes_per_pixel := (bits + 7) / 8 in
  let count := u32 (length_of_data / bytes_per_pixel) in
  let size := u32 ((count * bits + 7) / 8) in
  size <= length_of_data
  /\ exists o',
       operator_assign o this other = Some o'
       /\ o' this
          = {| pimpl_sail_palette :=
                 Some (set_format_and_count p (palette_pixel_format q) count);
               pimpl_data := firstn (Z.to_nat size) (data o other) |}
       /\ forall id, id <> this -> o' id = o id.
Proof.
  intros Hdistinct Hp Hq Hbits length_of_data bytes_per_pixel count size.
  destruct (known_format _ bits Hbits) as [_ Hrange].
  assert (Hper : 1 <= bytes_per_pixel <= 8).
  { unfold bytes_per_pixel. split.
    - apply Z.div_le_lower_bound; lia.
    - assert ((bits + 7) / 8 < 9) by (apply Z.div_lt_upper_bound; lia).
      lia. }
  assert (Hlen : 0 <= length_of_data) by (unfold length_of_data; lia).
  assert (Hbits_per : bits <= 8 * bytes_per_pixel).
  { unfold bytes_per_pixel.
    pose proof (Z.mul_succ_div_gt (bits + 7) 8 ltac:(lia)). lia. }
  assert (Hcount : 0 <= count <= length_of_data / bytes_per_pixel).
  { unfold count, u32.
    assert (0 <= length_of_data / bytes_per_pixel)
      by (apply Z.div_pos; lia).
    split; [apply Z.mod_pos_bound; lia | apply Z.mod_le; lia]. }
  assert (Hfit : count * bytes_per_pixel <= length_of_data).
  { pose proof (Z.mul_div_le length_of_data bytes_per_pixel ltac:(lia)).
    nia. }
  assert (Hsize : 0 <= size <= length_of_data).
  { unfold size, u32.
    assert (0 <= (count * bits + 7) / 8) by (apply Z.div_pos; nia).
    split; [apply Z.mod_pos_bound; lia |].
    apply Z.le_trans with ((count * bits + 7) / 8); [apply Z.mod_le; lia |].
    assert ((count * bits + 7) / 8 < length_of_data + 1)
      by (apply Z.div_lt_upper_bound; [lia | nia]).
    lia. }
  split; [lia |].
  unfold operator_assign, pixel_format. rewrite Hq. cbn [option_map].
  unfold with_data_arbitrary. rewrite Hbits.
  assert (Hu32 : u32 (bits + 7) = bits + 7)
    by (unfold u32; apply Z.mod_small; lia).
  rewrite Hu32. fold bytes_per_pixel.
  destruct (bytes_per_pixel =? 0) eqn:Hzero; [apply Z.eqb_eq in Hzero; lia |].
  cbn [referenced]. fold (data o other). fold length_of_data. fold count.
  destruct (with_data_known o this p (palette_pixel_format q) bits
              (data_of other) count Hp Hbits) as (o' & Hrun & Hthis & Hothers).
  - intros H. inversion H. now apply Hdistinct.
  - cbn [referenced]. fold (data o other). fold size.
    unfold length_of_data in Hsize. lia.
  - exists o'. split; [exact Hrun |]. split; [| exact Hothers].
    rewrite Hthis. reflexivity.
Qed.

(** X26. A copy assignment between two distinct palettes whose C palettes were
    allocated, from a source of a known format, whatever bytes the source
    holds: the assignment is defined, so nothing is read beyond the bytes
    of the source; the target takes the format of the source, as many
    colors as whole entries of [(bits + 7) / 8] bytes fit into the data of
    the source, and a leading part of that data; no other palette, the
    source included, is touched. *)
Theorem copy_assignment_stays_inside (o : objects) (this other : nat)
    (p q : sail_palette) (bits : Z) :
  this <> other ->
  pimpl_sail_palette (o this) = Some p ->
  pimpl_sail_palette (o other) = Some q ->
  sail_bits_per_pixel (palette_pixel_format q) = (SAIL_OK, bits) ->
  exists o' n,
    operator_assign o this other = Some o'
    /\ (n <= List.length (data o other))%nat
    /\ data o' this = firstn n (data o other)
    /\ pixel_format o' this = pixel_format o other
    /\ color_count o' this
       = Some (u32 (Z.of_nat (List.length (data o other))
                    / ((bits + 7) / 8)))
    /\ forall id, id <> this -> o' id = o id.
Proof.
  intros Hdistinct Hp Hq Hbits.
  destruct (operator_assign_known o this other p q bits Hdistinct Hp Hq Hbits)
    as (Hsize & o' & Hrun & Hthis & Hothers).
  exists o'. eexists. split; [exact Hrun |].
  unfold data at 2, pixel_format, color_count. rewrite Hthis, Hq.
  cbn [pimpl_data pimpl_sail_palette option_map set_format_and_count
       palette_pixel_format count_of].
  split; [| split; [reflexivity |
                    split; [reflexivity | split; [reflexivity |
                                                  exact Hothers]]]].
  lia.
Qed.

(** X27. A copy assignment reproduces a palette of whole-byte entries: when
    the two palettes are distinct, their C palettes were allocated, the
    format of the source has a multiple of 8 bits, and the source holds
    exactly the bytes of its colors, as [with_data] leaves it, then the
    target has the format, the color count, the data and the validity of
    the source afterwards, and no other palette is touched. *)
Theorem copy_assignment_reproduces (o : objects) (this other : nat)
    (p q : sail_palette) (bits : Z) :
  this <> other ->
  pimpl_sail_palette (o this) = Some p ->
  pimpl_sail_palette (o other) = Some q ->
  sail_bits_per_pixel (palette_pixel_format q) = (SAIL_OK, bits) ->
  bits mod 8 = 0 ->
  0 <= count_of q ->
  Z.of_nat (List.length (data o other)) = count_of q * (bits / 8) ->
  Z.of_nat (List.length (data o other)) < 4294967296 ->
  exists o',
    operator_assign o this other = Some o'
    /\ pixel_format o' this = pixel_format o other
    /\ color_count o' this = color_count o other
    /\ data o' this = data o other
    /\ is_valid o' this = is_valid o other
    /\ forall id, id <> this -> o' id = o id.
Proof.
  intros Hdistinct Hp Hq Hbits Hwhole Hcount Hholds Hsmall.
  destruct (operator_assign_known o this other p q bits Hdistinct Hp Hq Hbits)
    as (_ & o' & Hrun & Hthis & Hothers).
  destruct (known_format _ bits Hbits) as [_ Hrange].
  pose proof (Z.div_mod bits 8 ltac:(lia)) as Hsplit.
  rewrite Hwhole, Z.add_0_r in Hsplit.
  set (per := bits / 8) in *.
  assert (Hper : 1 <= per) by lia.
  assert (Hbytes : (bits + 7) / 8 = per).
  { rewrite Hsplit. rewrite Z.mul_comm, Z.div_add_l by lia.
    change (7 / 8) with 0. lia. }
  rewrite Hbytes, Hholds in Hthis.
  rewrite Z.div_mul in Hthis by lia.
  assert (Hsame : u32 (count_of q) = count_of q).
  { unfold u32. apply Z.mod_small. nia. }
  rewrite Hsame in Hthis.
  assert (Hsize : u32 ((count_of q * bits + 7) / 8) = count_of q * per).
  { rewrite Hsplit.
    replace (count_of q * (8 * per) + 7) with (count_of q * per * 8 + 7)
      by lia.
    rewrite Z.div_add_l by lia. change (7 / 8) with 0.
    rewrite Z.add_0_r. unfold u32. apply Z.mod_small. nia. }
  rewrite Hsize, <- Hholds, Nat2Z.id, firstn_all in Hthis.
  exists o'. split; [exact Hrun |].
  unfold is_valid, data, pixel_format, color_count. rewrite Hthis, Hq.
  cbn [pimpl_data pimpl_sail_palette option_map set_format_and_count
       palette_pixel_format count_of].
  repeat split; exact Hothers.
Qed.

End Class.

(** ** Runs *)

(** Two palettes: an empty one, and one that holds two 24-bit colors. *)
Definition sample_c_palette : sail_palette :=
  Build_sail_palette SAIL_PIXEL_FORMAT_UNKNOWN 0 0.

Definition sample_objects : objects :=
  fun id =>
    match id with
    | 1%nat =>
        {| pimpl_sail_palette :=
             Some (set_format_and_count sample_c_palette
                     SAIL_PIXEL_FORMAT_BPP24_RGB 2);
           pimpl_data := [10; 20; 30; 40; 50; 60] |}
    | _ => {| pimpl_sail_palette := Some sample_c_palette; pimpl_data := [] |}
    end.

(** Assigning a palette to itself is not defined: the data is cleared before
    it is copied. *)
Example self_assignment_undefined :
  operator_assign 0 sample_objects 1 1 = None.
Proof. reflexivity. Qed.

(** A copy recomputes the color count from the bytes: three 4-bit entries in
    two bytes become two entries in one byte. *)
Example sub_byte_entries_recounted :
  let o (id : nat) :=
    match id with
    | 1%nat =>
        {| pimpl_sail_palette :=
             Some (set_format_and_count sample_c_palette
                     SAIL_PIXEL_FORMAT_BPP4_INDEXED 3);
           pimpl_data := [18; 48] |}
    | _ => {| pimpl_sail_palette := Some sample_c_palette; pimpl_data := [] |}
    end in
  match operator_assign 0 o 0 1 with
  | Some o' => (color_count o' 0, data o' 0) = (Some 2, [18])
  | None => False
  end.
Proof. reflexivity. Qed.

Lemma with_data_outcome_witness :
  exists o',
    with_data sample_objects 0 SAIL_PIXEL_FORMAT_BPP24_RGB
      (outside [1; 2; 3; 4; 5; 6; 7]) 2 = Some o'
    /\ is_valid o' 0 = Some true
    /\ data o' 0 = [1; 2; 3; 4; 5; 6].
Proof.
  destruct (with_data_outcome sample_objects 0 sample_c_palette
              SAIL_PIXEL_FORMAT_BPP24_RGB [1; 2; 3; 4; 5; 6; 7] 2 eq_refl)
    as (o' & Hrun & _ & Hvalid & _ & Hknown).
  - lia.
  - intros bits H. inversion H. subst bits. vm_compute.
    split; [discriminate | reflexivity].
  - exists o'. split; [exact Hrun |]. split; [exact Hvalid |].
    destruct (Hknown 24 eq_refl) as (_ & _ & Hdata). exact Hdata.
Defined.

Lemma copy_assignment_stays_inside_witness :
  exists o' n,
    operator_assign 0 sample_objects 0 1 = Some o'
    /\ (n <= 6)%nat
    /\ data o' 0 = firstn n [10; 20; 30; 40; 50; 60].
Proof.
  destruct (copy_assignment_stays_inside 0 sample_objects 0 1
              sample_c_palette
              (set_format_and_count sample_c_palette
                 SAIL_PIXEL_FORMAT_BPP24_RGB 2) 24)
    as (o' & n & Hrun & Hn & Hdata & _).
  - discriminate.
  - reflexivity.
  - reflexivity.
  - reflexivity.
  - exists o', n. split; [exact Hrun |]. split; [exact Hn | exact Hdata].
Defined.

Lemma copy_assignment_reproduces_witness :
  exists o',
    operator_assign 0 sample_objects 0 1 = Some o'
    /\ color_count o' 0 = Some 2
    /\ data o' 0 = [10; 20; 30; 40; 50; 60]
    /\ is_valid o' 0 = Some true.
Proof.
  destruct (copy_assignment_reproduces 0 sample_objects 0 1
              sample_c_palette
              (set_format_and_count sample_c_palette
                 SAIL_PIXEL_FORMAT_BPP24_RGB 2) 24)
    as (o' & Hrun & _ & Hcount & Hdata & Hvalid & _).
  - discriminate.
  - reflexivity.
  - reflexivity.
  - reflexivity.
  - reflexivity.
  - simpl. lia.
  - reflexivity.
  - simpl. lia.
  - exists o'. split; [exact Hrun |].
    split; [exact Hcount | split; [exact Hdata | exact Hvalid]].
Defined.

End CppPalette.

(** * Releasing chains of string nodes *)

Module StringNodes.

(** A [sail_string_node], with its two pointers as addresses; 0 is [NULL]. *)
Record sail_string_node : Type := {
  value : Z;
  next : Z
}.

(** The heap: which blocks are allocated, and the nodes they hold. *)
Record heap : Type := {
  allocated : Z -> bool;
  node_at : Z -> sail_string_node
}.

Definition release (p : Z) (h : heap) : heap :=
  {| allocated := fun q => if q =? p then false else allocated h q;
     node_at := node_at h |}.

(** [free]: nothing for [NULL]; undefined, [None], for a block that is not
    allocated. *)
Definition free (p : Z) (h : heap) : option heap :=
  if p =? 0 then Some h
  else if allocated h p then Some (release p h)
  else None.

(** Reading a node that is not allocated is undefined as well. *)
Definition destroy_string_node (string_node : Z) (h : heap) : option heap :=
  if string_node =? 0 then Some h
  else if allocated h string_node then
    match free (value (node_at h string_node)) h with
    | Some h' => free string_node h'
    | None => None
    end
  else None.

Inductive outcome : Type :=
| returned (h : heap)
| undefined
| unfinished.

(** The loop of [destroy_string_node_chain], one iteration per unit of
    fuel. *)
Fixpoint destroy_string_node_chain (fuel : nat) (string_node : Z) (h : heap)
  : outcome :=
  match fuel with
  | O => unfinished
  | S fuel' =>
      if string_node =? 0 then returned h
      else if allocated h string_node then
        let string_node_next := next (node_at h string_node) in
        match destroy_string_node string_node h with
        | Some h' => destroy_string_node_chain fuel' string_node_next h'
        | None => undefined
        end
      else undefined
  end.

(** [nodes] are the addresses of the nodes linked from [p] to the [NULL]
    that ends the chain. *)
Fixpoint chain (h : heap) (p : Z) (nodes : list Z) : Prop :=
  match nodes with
  | [] => p = 0
  | q :: rest =>
      p = q /\ p <> 0 /\ chain h (next (node_at h p)) rest
  end.

(** The blocks of a chain: every node and the string it owns, if any. *)
Definition blocks_of (h : heap) (p : Z) : list Z :=
  (if value (node_at h p) =? 0 then [] else [value (node_at h p)]) ++ [p].

Definition blocks (h : heap) (nodes : list Z) : list Z :=
  flat_map (blocks_of h) nodes.

Lemma chain_same_nodes (h h' : heap) (nodes : list Z) (p : Z) :
  node_at h' = node_at h -> chain h p nodes -> chain h' p nodes.
Proof.
  intros Hsame. revert p.
  induction nodes as [| q rest IH]; intros p; cbn [chain]; [trivial |].
  intros (Hp & Hnonnull & Hrest). rewrite Hsame.
  split; [exact Hp |]. split; [exact Hnonnull |]. now apply IH.
Qed.

Lemma blocks_same_nodes (h h' : heap) (nodes : list Z) :
  node_at h' = node_at h -> blocks h' nodes = blocks h nodes.
Proof.
  intros Hsame. unfold blocks, blocks_of. now rewrite Hsame.
Qed.

Lemma no_dup_app_disjoint (l1 l2 : list Z) :
  NoDup (l1 ++ l2) -> forall q, In q l1 -> ~ In q l2.
Proof.
  induction l1 as [| x l1 IH]; cbn [app]; intros Hdistinct q; [intros [] |].
  inversion Hdistinct as [| ? ? Hfresh Hrest]; subst.
  intros [<- | Hq] Hin.
  - apply Hfresh, in_or_app. now right.
  - now apply (IH Hrest q).
Qed.

(** Destroying one node whose blocks are distinct and allocated releases
    exactly them. *)
Lemma destroy_string_node_releases (h : heap) (p : Z) :
  p <> 0 ->
  NoDup (blocks_of h p) ->
  (forall q, In q (blocks_of h p) -> allocated h q = true) ->
  exists h',
    destroy_string_node p h = Some h'
    /\ node_at h' = node_at h
    /\ (forall q, In q (blocks_of h p) -> allocated h' q = false)
    /\ (forall q, ~ In q (blocks_of h p) -> allocated h' q = allocated h q).
Proof.
  intros Hp Hdistinct Hlive. unfold destroy_string_node, blocks_of in *.
  apply Z.eqb_neq in Hp. rewrite Hp.
  rewrite (Hlive p) by (apply in_or_app; right; now left).
  unfold free at 1.
  destruct (value (node_at h p) =? 0) eqn:Hvalue.
  - unfold free. rewrite Hp.
    rewrite (Hlive p) by (now left).
    eexists. split; [reflexivity |]. split; [reflexivity |].
    cbn [app In release allocated]. split.
    + intros q [<- | []]. now rewrite Z.eqb_refl.
    + intros q Hq. destruct (q =? p) eqn:Heq; [| reflexivity].
      apply Z.eqb_eq in Heq. elim Hq. now left.
  - set (v := value (node_at h p)) in *.
    rewrite (Hlive v) by (now left).
    cbn [app] in Hdistinct. inversion Hdistinct as [| ? ? Hfresh _].
    assert (Hpv : (p =? v) = false).
    { apply Z.eqb_neq. intros Heq. apply Hfresh. now left. }
    unfold free. rewrite Hp. cbn [release allocated]. rewrite Hpv.
    rewrite (Hlive p) by (right; now left).
    eexists. split; [reflexivity |]. split; [reflexivity |].
    cbn [app In release allocated]. split.
    + intros q [<- | [<- | []]].
      * rewrite Z.eqb_refl. now destruct (v =? p).
      * now rewrite Z.eqb_refl.
    + intros q Hq.
      destruct (q =? p) eqn:Hqp;
        [apply Z.eqb_eq in Hqp; elim Hq; right; now left |].
      destruct (q =? v) eqn:Hqv;
        [apply Z.eqb_eq in Hqv; elim Hq; now left |].
      reflexivity.
Qed.

(** X28. [destroy_string_node_chain] on a chain that ends in [NULL], whose
    nodes and strings are distinct allocated blocks: the loop ends without
    reading or freeing a block that is not allocated, it releases every node
    of the chain and every string a node owns, and it leaves every other
    block as it was. One iteration more than the chain has nodes is
    enough. *)
Theorem destroy_string_node_chain_releases (nodes : list Z) :
  forall (fuel : nat) (string_node : Z) (h : heap),
    chain h string_node nodes ->
    NoDup (blocks h nodes) ->
    (forall q, In q (blocks h nodes) -> allocated h q = true) ->
    (List.length nodes < fuel)%nat ->
    exists h',
      destroy_string_node_chain fuel string_node h = returned h'
      /\ (forall q, In q (blocks h nodes) -> allocated h' q = false)
      /\ (forall q, ~ In q (blocks h nodes) ->
                    allocated h' q = allocated h q).
Proof.
  induction nodes as [| p rest IH];
    intros fuel string_node h Hchain Hdistinct Hlive Hfuel;
    (destruct fuel as [| fuel]; [cbn in Hfuel; lia |]);
    cbn [destroy_string_node_chain].
  - cbn [chain] in Hchain. subst string_node. cbn [Z.eqb].
    exists h. split; [reflexivity |]. split; [intros q [] | reflexivity].
  - cbn [chain] in Hchain. destruct Hchain as (-> & Hp & Hrest).
    change (blocks h (p :: rest)) with (blocks_of h p ++ blocks h rest) in *.
    pose proof (NoDup_app_remove_r _ _ Hdistinct) as Hfirst.
    pose proof (NoDup_app_remove_l _ _ Hdistinct) as Hothers.
    pose proof (no_dup_app_disjoint _ _ Hdistinct) as Hdisjoint.
    destruct (destroy_string_node_releases h p Hp Hfirst) as
      (h1 & Hrun & Hsame & Hoff & Hkept).
    { intros q Hq. apply Hlive, in_or_app. now left. }
    assert (Hpz : (p =? 0) = false) by now apply Z.eqb_neq.
    rewrite Hpz.
    rewrite (Hlive p)
      by (apply in_or_app; left; unfold blocks_of; apply in_or_app; right;
          now left).
    rewrite Hrun.
    destruct (IH fuel (next (node_at h p)) h1) as (h' & Hloop & Hoff' & Hkept').
    + now apply (chain_same_nodes h).
    + now rewrite (blocks_same_nodes h).
    + intros q Hq. rewrite (blocks_same_nodes h) in Hq by exact Hsame.
      rewrite Hkept.
      * apply Hlive, in_or_app. now right.
      * intros Hin. now apply (Hdisjoint q).
    + cbn [List.length] in Hfuel. lia.
    + rewrite (blocks_same_nodes h) in Hoff', Hkept' by exact Hsame.
      exists h'. split; [exact Hloop |]. split.
      * intros q Hq. apply in_app_or in Hq. destruct Hq as [Hq | Hq].
        -- destruct (in_dec Z.eq_dec q (blocks h rest)) as [Hin | Hout].
           ++ now apply Hoff'.
           ++ rewrite (Hkept' q Hout). now apply Hoff.
        -- now apply Hoff'.
      * intros q Hq. rewrite Hkept', Hkept; [reflexivity | |];
          intros Hin; apply Hq, in_or_app; [now left | now right].
Qed.

(** ** A run *)

(** Two nodes at 100 and 200; the first owns the string at 150, the second
    owns none. *)
Definition sample_heap : heap :=
  {| allocated := fun q => (q =? 100) || (q =? 150) || (q =? 200);
     node_at := fun q => if q =? 100 then {| value := 150; next := 200 |}
                         else {| value := 0; next := 0 |} |}.

Lemma destroy_string_node_chain_releases_witness :
  exists h',
    destroy_string_node_chain 3 100 sample_heap = returned h'
    /\ allocated h' 100 = false
    /\ allocated h' 150 = false
    /\ allocated h' 200 = false.
Proof.
  destruct (destroy_string_node_chain_releases [100; 200] 3%nat 100
              sample_heap)
    as (h' & Hrun & Hoff & _).
  - simpl. repeat split; discriminate.
  - vm_compute. repeat constructor; simpl; intros H;
      repeat (destruct H as [H | H]; try discriminate H); exact H.
  - intros q Hq. vm_compute in Hq.
    destruct Hq as [<- | [<- | [<- | []]]]; reflexivity.
  - simpl. lia.
  - exists h'. split; [exact Hrun |].
    repeat split; apply Hoff; vm_compute; tauto.
Defined.

End StringNodes.

(** * The JPEG XL codec *)

Module Jpegxl.

(** The statuses of the [sail-common] this codec is written against: the
    ones the codec names, and every other one a collaborator may return. *)
Inductive sail_status_t : Type :=
| SAIL_OK
| SAIL_ERROR_UNDERLYING_CODEC
| SAIL_ERROR_NO_MORE_FRAMES
| SAIL_ERROR_NOT_IMPLEMENTED
| SAIL_ERROR_OTHER (code : Z).

(** The decoder statuses the codec tells apart; [JXL_DEC_OTHER] stands for
    every value that falls to the [default] label. *)
Inductive JxlDecoderStatus : Type :=
| JXL_DEC_SUCCESS
| JXL_DEC_ERROR
| JXL_DEC_NEED_MORE_INPUT
| JXL_DEC_BASIC_INFO
| JXL_DEC_COLOR_ENCODING
| JXL_DEC_NEED_IMAGE_OUT_BUFFER
| JXL_DEC_FULL_IMAGE
| JXL_DEC_OTHER (code : Z).

(** The fields of [JxlBasicInfo] the codec reads. *)
Record JxlBasicInfo : Type := {
  xsize : Z;
  ysize : Z;
  num_color_channels : Z;
  alpha_bits : Z
}.

Section Codec.

(** The allocator, and the decoder that [jpegxl_state->decoder] designates. *)
Variable world : Type.
Variable JxlDecoder : Type.

(** Codec-specific state; the pointers the functions below do not follow
    are addresses. *)
Record jpegxl_state : Type := {
  io : Z;
  load_options : Z;
  save_options : Z;
  frame_loaded : bool;
  image_data : Z;
  memory_manager : Z;
  runner : Z;
  decoder : JxlDecoder
}.

(** Collaborators of [sail-common], [helpers.c] and the decoder library.
    [sail_destroy_image] is applied to [image_local]. *)
Variable sail_alloc_image : world -> sail_status_t * sail_image * world.
Variable sail_alloc_source_image :
  world -> sail_status_t * sail_source_image * world.
Variable sail_destroy_image : world -> world.
Variable sail_bytes_per_line : Z -> SailPixelFormat -> Z.
Variable jpegxl_private_sail_pixel_format : Z -> Z -> SailPixelFormat.
Variable JxlDecoderProcessInput : JxlDecoder -> JxlDecoderStatus * JxlDecoder.
Variable JxlDecoderGetBasicInfo : JxlDecoder -> JxlDecoderStatus * JxlBasicInfo.

Definition with_frame_loaded (st : jpegxl_state) : jpegxl_state :=
  {| io := io st; load_options := load_options st;
     save_options := save_options st; frame_loaded := true;
     image_data := image_data st; memory_manager := memory_manager st;
     runner := runner st; decoder := decoder st |}.

Definition with_decoder (st : jpegxl_state) (d : JxlDecoder) : jpegxl_state :=
  {| io := io st; load_options := load_options st;
     save_options := save_options st; frame_loaded := frame_loaded st;
     image_data := image_data st; memory_manager := memory_manager st;
     runner := runner st; decoder := d |}.

(** The assignments of the [JXL_DEC_BASIC_INFO] case. *)
Definition with_basic_info (image_local : sail_image) (info : JxlBasicInfo)
  : sail_image :=
  let source_format :=
    jpegxl_private_sail_pixel_format (num_color_channels info)
                                     (alpha_bits info) in
  {| pixels := pixels image_local;
     width := xsize info;
     height := ysize info;
     bytes_per_line := sail_bytes_per_line (xsize info) source_format;
     pixel_format := source_format;
     palette := palette image_local;
     source_image :=
       option_map (fun source =>
                     {| source_pixel_format := source_format;
                        compression := compression source |})
                  (source_image image_local);
     resolution := resolution image_local |}.

(** The loop [while (!done)], one iteration per unit of fuel; [None] when
    the fuel runs out before the loop is left. The result carries the
    decoder, [*image] when it was assigned, and the allocator. *)
Fixpoint decode (fuel : nat) (d : JxlDecoder) (image_local : sail_image)
    (w : world)
  : option (sail_status_t * JxlDecoder * option sail_image * world) :=
  match fuel with
  | O => None
  | S fuel' =>
      match JxlDecoderProcessInput d with
      | (JXL_DEC_ERROR, d1) =>
          Some (SAIL_ERROR_UNDERLYING_CODEC, d1, None, sail_destroy_image w)
      | (JXL_DEC_NEED_MORE_INPUT, d1) =>
          Some (SAIL_ERROR_UNDERLYING_CODEC, d1, None, sail_destroy_image w)
      | (JXL_DEC_BASIC_INFO, d1) =>
          match JxlDecoderGetBasicInfo d1 with
          | (JXL_DEC_SUCCESS, info) =>
              decode fuel' d1 (with_basic_info image_local info) w
          | _ =>
              Some (SAIL_ERROR_UNDERLYING_CODEC, d1, None,
                    sail_destroy_image w)
          end
      | (JXL_DEC_COLOR_ENCODING, d1) => decode fuel' d1 image_local w
      | (JXL_DEC_NEED_IMAGE_OUT_BUFFER, d1) => decode fuel' d1 image_local w
      | (JXL_DEC_FULL_IMAGE, d1) => decode fuel' d1 image_local w
      | (JXL_DEC_SUCCESS, d1) => Some (SAIL_OK, d1, Some image_local, w)
      | (JXL_DEC_OTHER _, d1) =>
          Some (SAIL_ERROR_UNDERLYING_CODEC, d1, None, sail_destroy_image w)
      end
  end.

(** [sail_codec_load_seek_next_frame_v8_jpegxl]. *)
Definition sail_codec_load_seek_next_frame_v8_jpegxl (fuel : nat)
    (state : jpegxl_state) (w : world)
  : option (sail_status_t * jpegxl_state * option sail_image * world) :=
  if frame_loaded state
  then Some (SAIL_ERROR_NO_MORE_FRAMES, state, None, w)
  else
    let state1 := with_frame_loaded state in
    match sail_alloc_image w with
    | (SAIL_OK, image_local, w1) =>
        match sail_alloc_source_image w1 with
        | (SAIL_OK, source, w2) =>
            let image_local :=
              {| pixels := pixels image_local; width := width image_local;
                 height := height image_local;
                 bytes_per_line := bytes_per_line image_local;
                 pixel_format := pixel_format image_local;
                 palette := palette image_local;
                 source_image := Some source;
                 resolution := resolution image_local |} in
            match decode fuel (decoder state1) image_local w2 with
            | Some (status, d, image, w3) =>
                Some (status, with_decoder state1 d, image, w3)
            | None => None
            end
        | (err, _, w2) => Some (err, state1, None, sail_destroy_image w2)
        end
    | (err, _, w1) => Some (err, state1, None, w1)
    end.

(** ** The decoder's events *)

(** The decoder after [k] calls of [JxlDecoderProcessInput]. *)
Fixpoint decoder_after (k : nat) (d : JxlDecoder) : JxlDecoder :=
  match k with
  | O => d
  | S k' => decoder_after k' (snd (JxlDecoderProcessInput d))
  end.

(** The status of the call that follows them. *)
Definition event (k : nat) (d : JxlDecoder) : JxlDecoderStatus :=
  fst (JxlDecoderProcessInput (decoder_after k d)).

(** The events after which the loop goes on: the three it ignores, and a
    basic info that can be fetched. *)
Definition goes_on (d : JxlDecoder) : bool :=
  match JxlDecoderProcessInput d with
  | (JXL_DEC_BASIC_INFO, d1) =>
      match fst (JxlDecoderGetBasicInfo d1) with
      | JXL_DEC_SUCCESS => true
      | _ => false
      end
  | (JXL_DEC_COLOR_ENCODING, _)
  | (JXL_DEC_NEED_IMAGE_OUT_BUFFER, _)
  | (JXL_DEC_FULL_IMAGE, _) => true
  | _ => false
  end.

(** The image after the first [k] events: every basic info among them
    overwrites what an earlier one set. *)
Fixpoint image_after (k : nat) (d : JxlDecoder) (image_local : sail_image)
  : sail_image :=
  match k with
  | O => image_local
  | S k' =>
      match JxlDecoderProcessInput d with
      | (JXL_DEC_BASIC_INFO, d1) =>
          image_after k' d1
            (with_basic_info image_local (snd (JxlDecoderGetBasicInfo d1)))
      | (_, d1) => image_after k' d1 image_local
      end
  end.

Lemma decode_events (k : nat) :
  forall (fuel : nat) (d : JxlDecoder) (image_local : sail_image) (w : world),
    (forall j, (j < k)%nat -> goes_on (decoder_after j d) = true) ->
    goes_on (decoder_after k d) = false ->
    (k < fuel)%nat ->
    decode fuel d image_local w
    = Some (match event k d with
            | JXL_DEC_SUCCESS =>
                (SAIL_OK, decoder_after (S k) d,
                 Some (image_after k d image_local), w)
            | _ =>
                (SAIL_ERROR_UNDERLYING_CODEC, decoder_after (S k) d, None,
                 sail_destroy_image w)
            end).
Proof.
  induction k as [| k IH]; intros fuel d image_local w Hbefore Hlast Hfuel;
    (destruct fuel as [| fuel]; [lia |]).
  - unfold event. cbn [decoder_after decode image_after] in *.
    unfold goes_on in Hlast.
    destruct (JxlDecoderProcessInput d) as [[] d1]; cbn [fst snd] in *;
      try reflexivity; try discriminate Hlast.
    destruct (JxlDecoderGetBasicInfo d1) as [[] info]; cbn [fst] in Hlast;
      try reflexivity; discriminate Hlast.
  - pose proof (Hbefore 0%nat ltac:(lia)) as Hfirst.
    assert (Hnext : decode fuel (snd (JxlDecoderProcessInput d))
                      (image_after 1 d image_local) w
                    = decode (S fuel) d image_local w).
    { cbn [decoder_after image_after decode] in *. unfold goes_on in Hfirst.
      destruct (JxlDecoderProcessInput d) as [[] d1]; cbn [fst snd] in *;
        try reflexivity; try discriminate Hfirst.
      destruct (JxlDecoderGetBasicInfo d1) as [[] info]; cbn [fst snd] in *;
        try reflexivity; discriminate Hfirst. }
    rewrite <- Hnext.
    rewrite (IH fuel (snd (JxlDecoderProcessInput d))
               (image_after 1 d image_local) w).
    + unfold event. cbn [decoder_after image_after].
      destruct (JxlDecoderProcessInput d) as [[] d1]; reflexivity.
    + intros j Hj. apply (Hbefore (S j)). lia.
    + exact Hlast.
    + lia.
Qed.

(** X29. The first [seek_next_frame] on a state, when the two allocations
    succeed and the decoder, after [k] events on which the loop goes on,
    reports one on which it does not: after [k + 1] calls of
    [JxlDecoderProcessInput] the function returns. If that last event is
    [JXL_DEC_SUCCESS] the status is [SAIL_OK] and the image handed out is
    the allocated one with the dimensions and formats of the last basic
    info among the events, and it is not destroyed. On every other event,
    and on a basic info that cannot be fetched, the status is
    [SAIL_ERROR_UNDERLYING_CODEC], the image is destroyed and none is
    handed out. The state is marked as loaded in both cases. *)
Theorem seek_next_frame_follows_events (k fuel : nat) (state : jpegxl_state)
    (image_local : sail_image) (source : sail_source_image)
    (w w1 w2 : world) :
  frame_loaded state = false ->
  sail_alloc_image w = (SAIL_OK, image_local, w1) ->
  sail_alloc_source_image w1 = (SAIL_OK, source, w2) ->
  (forall j, (j < k)%nat ->
             goes_on (decoder_after j (decoder state)) = true) ->
  goes_on (decoder_after k (decoder state)) = false ->
  (k < fuel)%nat ->
  let allocated :=
    {| pixels := pixels image_local; width := width image_local;
       height := height image_local;
       bytes_per_line := bytes_per_line image_local;
       pixel_format := pixel_format image_local;
       palette := palette image_local;
       source_image := Some source;
       resolution := resolution image_local |} in
  let state' :=
    with_decoder (with_frame_loaded state)
                 (decoder_after (S k) (decoder state)) in
  frame_loaded state' = true
  /\ sail_codec_load_seek_next_frame_v8_jpegxl fuel state w
     = Some (match event k (decoder state) with
             | JXL_DEC_SUCCESS =>
                 (SAIL_OK, state',
                  Some (image_after k (decoder state) allocated), w2)
             | _ =>
                 (SAIL_ERROR_UNDERLYING_CODEC, state', None,
                  sail_destroy_image w2)
             end).
Proof.
  intros Hfresh Himage Hsource Hbefore Hlast Hfuel allocated state'.
  split; [reflexivity |].
  unfold sail_codec_load_seek_next_frame_v8_jpegxl.
  rewrite Hfresh, Himage, Hsource. fold allocated.
  change (decoder (with_frame_loaded state)) with (decoder state).
  rewrite (decode_events k fuel (decoder state) allocated w2 Hbefore Hlast
             Hfuel).
  fold state'. destruct (event k (decoder state)); reflexivity.
Qed.

(** X30. The codec hands out one frame at most, also after a failure: when a
    call of [seek_next_frame] returns, whatever its status, the state is
    marked as loaded, and every later call returns
    [SAIL_ERROR_NO_MORE_FRAMES] at once, without an allocation, without
    a call of the decoder, and with the state as it was. *)
Theorem seek_next_frame_one_frame_only (fuel fuel' : nat)
    (state state' : jpegxl_state) (status : sail_status_t)
    (image : option sail_image) (w w' w'' : world) :
  sail_codec_load_seek_next_frame_v8_jpegxl fuel state w
  = Some (status, state', image, w') ->
  frame_loaded state' = true
  /\ sail_codec_load_seek_next_frame_v8_jpegxl fuel' state' w''
     = Some (SAIL_ERROR_NO_MORE_FRAMES, state', None, w'').
Proof.
  intros Hrun.
  assert (Hloaded : frame_loaded state' = true).
  { unfold sail_codec_load_seek_next_frame_v8_jpegxl in Hrun.
    destruct (frame_loaded state) eqn:Hflag.
    - inversion Hrun; subst. exact Hflag.
    - destruct (sail_alloc_image w) as [[[] image_local] w1];
        try (inversion Hrun; subst; reflexivity).
      destruct (sail_alloc_source_image w1) as [[[] source] w2];
        try (inversion Hrun; subst; reflexivity).
      destruct (decode fuel _ _ w2) as [[[[s d] i] w3] |];
        [| discriminate Hrun].
      inversion Hrun; subst. reflexivity. }
  split; [exact Hloaded |].
  unfold sail_codec_load_seek_next_frame_v8_jpegxl. now rewrite Hloaded.
Qed.

End Codec.

(** ** Runs *)

(** A decoder that reports a basic info of 4 by 3 pixels, a full image and
    success, and then errors; its state is the number of events reported.
    The allocator counts the images destroyed. *)
Definition sample_process_input (d : nat) : JxlDecoderStatus * nat :=
  (nth d [JXL_DEC_BASIC_INFO; JXL_DEC_FULL_IMAGE; JXL_DEC_SUCCESS]
       JXL_DEC_ERROR,
   S d).

Definition sample_basic_info (d : nat) : JxlDecoderStatus * JxlBasicInfo :=
  (JXL_DEC_SUCCESS,
   {| xsize := 4; ysize := 3; num_color_channels := 3; alpha_bits := 0 |}).

Definition sample_alloc_image (w : nat) : sail_status_t * sail_image * nat :=
  (SAIL_OK, Pcx.empty_image, w).

Definition sample_alloc_source_image (w : nat)
  : sail_status_t * sail_source_image * nat :=
  (SAIL_OK,
   {| source_pixel_format := SAIL_PIXEL_FORMAT_UNKNOWN;
      compression := SAIL_COMPRESSION_UNKNOWN |},
   w).

Definition sample_bytes_per_line (image_width : Z) (pf : SailPixelFormat)
  : Z :=
  image_width * 3.

Definition sample_pixel_format (channels alpha : Z) : SailPixelFormat :=
  SAIL_PIXEL_FORMAT_BPP24_RGB.

Definition sample_seek :=
  sail_codec_load_seek_next_frame_v8_jpegxl nat nat
    sample_alloc_image sample_alloc_source_image S sample_bytes_per_line
    sample_pixel_format sample_process_input sample_basic_info.

Definition sample_state (d : nat) : jpegxl_state nat :=
  {| io := 0; load_options := 0; save_options := 0; frame_loaded := false;
     image_data := 0; memory_manager := 0; runner := 0; decoder := d |}.

(** From its start the decoder leads to a 4 by 3 image; started after the
    success it leads to an error and a destroyed image; the second call on
    either state finds no more frames. *)
Example sample_frames :
  match sample_seek 5%nat (sample_state 0) 0%nat with
  | Some (status, state', Some image, w') =>
      (status, width image, height image, bytes_per_line image, w')
      = (SAIL_OK, 4, 3, 12, 0%nat)
      /\ option_map (fun r => fst (fst (fst r)))
                    (sample_seek 5%nat state' w')
         = Some SAIL_ERROR_NO_MORE_FRAMES
  | _ => False
  end
  /\ match sample_seek 5%nat (sample_state 3) 0%nat with
     | Some (status, state', None, w') =>
         (status, w') = (SAIL_ERROR_UNDERLYING_CODEC, 1%nat)
         /\ option_map (fun r => fst (fst (fst r)))
                       (sample_seek 5%nat state' w')
            = Some SAIL_ERROR_NO_MORE_FRAMES
     | _ => False
     end.
Proof. repeat split. Qed.

Lemma seek_next_frame_follows_events_witness :
  option_map (fun r => fst (fst (fst r)))
             (sample_seek 3%nat (sample_state 0) 0%nat)
  = Some SAIL_OK.
Proof.
  destruct (seek_next_frame_follows_events nat nat sample_alloc_image
              sample_alloc_source_image S sample_bytes_per_line
              sample_pixel_format
              sample_process_input sample_basic_info 2%nat 3%nat
              (sample_state 0) Pcx.empty_image
              {| source_pixel_format := SAIL_PIXEL_FORMAT_UNKNOWN;
                 compression := SAIL_COMPRESSION_UNKNOWN |}
              0%nat 0%nat 0%nat)
    as [_ Hrun].
  - reflexivity.
  - reflexivity.
  - reflexivity.
  - intros j Hj. destruct j as [| [| j]]; [reflexivity | reflexivity | lia].
  - reflexivity.
  - lia.
  - unfold sample_seek. rewrite Hrun. reflexivity.
Defined.

Lemma seek_next_frame_one_frame_only_witness :
  sample_seek 0%nat
    (with_decoder nat (with_frame_loaded nat (sample_state 3)) 4%nat) 7%nat
  = Some (SAIL_ERROR_NO_MORE_FRAMES,
          with_decoder nat (with_frame_loaded nat (sample_state 3)) 4%nat,
          None, 7%nat).
Proof.
  destruct (seek_next_frame_one_frame_only nat nat sample_alloc_image
              sample_alloc_source_image S sample_bytes_per_line
              sample_pixel_format
              sample_process_input sample_basic_info 5%nat 0%nat
              (sample_state 3)
              (with_decoder nat (with_frame_loaded nat (sample_state 3))
                            4%nat)
              SAIL_ERROR_UNDERLYING_CODEC None 0%nat 1%nat 7%nat)
    as [_ Hagain].
  - reflexivity.
  - exact Hagain.
Defined.

End Jpegxl.
